(* ===== verification/_CoqProject ===== *)
-Q . S2P
Prelude.v
Registrar.v
ResourceCleaner.v
ResourceStore.v
StopLoop.v
GoStrings.v
Digest.v
IPTables.v
HostPort.v
HostPortAdd.v
MemoryStore.v
Cpuset.v
IrqMask.v
ConfigData.v
ConfigRuntime.v
RuntimeDispatch.v
Config.v
Host.v
Container.v
CgMgr.v
HighPerfHooks.v
RuntimeOCI.v
Sandbox.v
ContainerServer.v
PodSpec.v
CtrSpec.v
CtrEnv.v
CtrMounts.v
Server.v
Queries.v
Updates.v
Events.v
Request.v
Create.v
RunPod.v
CtrAnnotations.v
CtrBuild.v
Startup.v
Metrics.v
Stats.v
