(* ===== verification/Prelude.v ===== *)
(** * A verification development of CRI-O

    CRI-O runs the pods of a Kubernetes node: the kubelet sends CRI requests
    over gRPC, CRI-O turns them into calls of an OCI runtime (through conmon),
    of container storage, CNI, NRI and the host's cgroups, and keeps the state
    of every pod and container in memory and on disk.

    ** The program and the files

    The server ([server/]) handles a request by looking up objects in the
    container server ([internal/lib]), which owns the stores of containers and
    sandboxes, the name registrars, the ID indexes and the count of sandboxes
    per SELinux level.  A sandbox ([internal/lib/sandbox]) holds its containers
    and its stopped flags; a container ([internal/oci]) holds its state and the
    fields of the stop protocol.  The runtime ([internal/oci/runtime_oci.go])
    runs the OCI runtime and conmon.  The hooks ([internal/runtimehandlerhooks])
    and the cgroup managers ([internal/config/cgmgr]) act on the host's files.
    A request that times out leaves what it created in the resource store
    ([internal/resourcestore]).

    - Prelude: Go's errors, panics, stateful calls with early returns and
      deferred functions, machine integers, record updates, a small program
      logic ([triple]), hints and tactics.
    - Registrar: internal/registrar/registrar.go, whole.
    - ResourceCleaner, ResourceStore: internal/resourcestore, whole; the store
      as interleaved atomic steps with watcher channels.
    - StopLoop: StopContainer and StopLoopForContainer of
      internal/oci/runtime_oci.go with the stop fields of container.go, as a
      step relation of any number of callers and the loop.
    - GoStrings: what the sources use of Go's strings, bytes and strconv.
    - MemoryStore: internal/memorystore, with the interface [Storer] and its
      laws.  Sandbox, ContainerServer and Server are proved against the
      interface only.
    - Cpuset, IrqMask: CPU lists (vendor/k8s.io/utils/cpuset) and the IRQ
      affinity mask (runtimehandlerhooks/utils_linux.go).
    - Host: the files of the node with their faults, and libcontainer's
      managers, as classes.
    - Container: internal/oci/container.go and container_linux.go.
    - CgMgr: internal/config/cgmgr for the systemd and cgroupfs drivers.
    - HighPerfHooks: the hooks of internal/runtimehandlerhooks.
    - RuntimeOCI: internal/oci/runtime_oci.go without the streaming calls.
    - Sandbox: internal/lib/sandbox (sandbox.go, namespaces.go, builder.go).
    - ContainerServer: internal/lib/container_server.go,
      container_server_linux.go, container.go and truncindex, over a heap of
      shared objects.
    - Server: the requests that start, stop and remove containers and pods.

    ** How Go is read

    A call that can fail is an [outcome]: a value, an error or a panic.  A
    method that mutates its receiver is a function of the state it can reach
    ([io W A], explicit state passing); the state at a failure is kept, since
    the caller goes on with it.  A deferred function that undoes work on an
    error is [defer_on_err].  Methods that hold a mutex from entry to exit
    are atomic; where a method releases it, blocks on a channel or waits, the
    model has a step relation and the theorems hold for every interleaving.
    A pointer shared by several owners is a key of a heap.  Integers keep their
    width ([wrap_u], [wrap_s]) where the code can overflow.  Go's map
    iteration order is left open: an enumeration is any permutation.  Logging,
    tracing and metrics are left out; they do not change state.

    Code that is not part of the program is a parameter: the OCI runtime, kill
    and the files of /proc (Container, RuntimeOCI), libcontainer (Host), the
    environment of a request (Server: runtime, storage, NRI, CNI, mounts) as an
    arbitrary function that may fail at any call.

    ** What the theorems show

    - Requests: a successful removal of a container or a pod leaves no trace of
      it in any store, index or registrar and nothing else changes; stopping a
      stopped pod does nothing (Server).
    - The container server's invariant: what a store, an index and a sandbox say
      about a container agree, after any sequence of operations; a failed load
      gives back the names it reserved; a level is released with its last
      sandbox; a lookup answers by prefix exactly (ContainerServer).
    - The resource store: a created resource goes to one client or is cleaned
      up, never both; [Put] reaches every watcher; a resource is stale after two
      passes; no interleaving panics (ResourceStore).  Cleanup functions run
      last first and each is retried (ResourceCleaner).
    - Stopping: deadlines only move earlier; waiters are released; no exec
      process is registered once stopping started; and two flaws of the
      protocol, a send on the closed channel and a deadlock on the full one
      (StopLoop).
    - The registrar refines a map from names to keys (Registrar).
    - Round trips: the exec log of conmon (RuntimeOCI), CPU lists (Cpuset), the
      saved power settings and the exclusive CPUs of the hooks (HighPerfHooks),
      slice names (CgMgr), the stopped flags over a restart (Sandbox).
    - Arithmetic: the IRQ mask bit by bit (IrqMask), the CFS quota
      (HighPerfHooks), memory statistics (CgMgr), stop deadlines (StopLoop).
    - Processes: a PID is only signalled while it belongs to the container's
      init process; killing exec sessions ends (Container).

    ** Bounds

    Retries have the counts of the code: [defaultRetryTimes] is 20, the
    backoff between them only a delay; the exit file is looked for [exitFileSteps] = 6
    times; the stop channel holds 10 timeouts.  [KillExecPIDs] loops until no
    process is left, so it takes fuel; [KillExecPIDs_complete] shows that any
    fuel above the number of passes in which a signal fails is enough.  All
    other recursion is structural.

    ** Not modelled

    Terminal and stream copying (attach, exec streaming, port forwarding, log
    reopening), gRPC and HTTP glue, metrics, tracing, logging, the command line;
    the VM and pod runtimes (a shim over ttrpc, conmon-rs); image storage (calls
    of a library); NRI adaptation; creation of pods and containers (spec
    generation) and the configuration.  Later work, in this order: creation
    ([server/container_create*.go], [sandbox_run*.go], [internal/factory]),
    list and status requests, [pkg/config] with workloads and sysctls, host
    ports and iptables, the statistics server, namespaces and CNI managers. *)

From Stdlib Require Export ZArith Lia.
From stdpp Require Export base gmap fin_maps strings list sets relations sorting pretty.

#[export] Set Default Goal Selector "!".
#[export] Set Warnings "-clear-no-such-hyp".

(** ** Go errors

    A Go [error] is either a value made by [errors.New] (or [fmt.Errorf]
    without [%w]), identified here by its text, or a value made by
    [fmt.Errorf] with a [%w] verb, which carries the text around the verb and
    the wrapped error.  A nil error is [None] of [option goerr]. *)

Inductive goerr :=
| ErrorsNew (msg : string)
| Errorf (msg : string) (wrapped : goerr).

#[export] Instance goerr_eq_dec : EqDecision goerr.
Proof. solve_decision. Defined.

(** [errors.Is(err, target)]: the chain of wrapped errors reaches [target]. *)
Fixpoint errors_is (err target : goerr) : bool :=
  bool_decide (err = target) ||
  match err with
  | ErrorsNew _ => false
  | Errorf _ e => errors_is e target
  end.

(** ** Outcomes

    A Go call that can fail returns a value ([Ret]), a non-nil error ([Fail]),
    or panics ([Panic]: nil dereference, index out of range, send on a closed
    channel). *)

Inductive outcome (A : Type) :=
| Ret (a : A)
| Fail (e : goerr)
| Panic (why : string).
Arguments Ret {A} a.
Arguments Fail {A} e.
Arguments Panic {A} why.

#[export] Instance outcome_ret : MRet outcome := λ A a, Ret a.
#[export] Instance outcome_bind : MBind outcome := λ A B f m,
  match m with
  | Ret a => f a
  | Fail e => Fail e
  | Panic w => Panic w
  end.
#[export] Instance outcome_fmap : FMap outcome := λ A B f m,
  match m with
  | Ret a => Ret (f a)
  | Fail e => Fail e
  | Panic w => Panic w
  end.

(** An optional error as an outcome: [if err != nil { return err }]. *)
Definition of_err (e : option goerr) : outcome () :=
  match e with None => Ret () | Some e => Fail e end.

(** ** Stateful Go code

    [io W A] is a Go function that reads and writes the state [W] (the objects it
    mutates and the parts of the host it touches) and has an outcome.  A failure
    keeps the effects made before it. *)

Definition io (W A : Type) : Type := W → outcome A * W.

#[export] Instance io_ret {W} : MRet (io W) := λ A a w, (Ret a, w).
#[export] Instance io_bind {W} : MBind (io W) := λ A B f m w,
  match m w with
  | (Ret a, w) => f a w
  | (Fail e, w) => (Fail e, w)
  | (Panic s, w) => (Panic s, w)
  end.
#[export] Instance io_fmap {W} : FMap (io W) := λ A B f m w,
  match m w with
  | (Ret a, w) => (Ret (f a), w)
  | (Fail e, w) => (Fail e, w)
  | (Panic s, w) => (Panic s, w)
  end.

Definition fail {W A} (e : goerr) : io W A := λ w, (Fail e, w).
Definition panic {W A} (s : string) : io W A := λ w, (Panic s, w).
Definition lift {W A} (o : outcome A) : io W A := λ w, (o, w).
Definition gets {W A} (f : W → A) : io W A := λ w, (Ret (f w), w).
Definition modify {W} (f : W → W) : io W () := λ w, (Ret (), f w).

(** [v, err := f()] with the error inspected by the caller. *)
Definition try {W A} (m : io W A) : io W (A + goerr) := λ w,
  match m w with
  | (Ret a, w) => (Ret (inl a), w)
  | (Fail e, w) => (Ret (inr e), w)
  | (Panic s, w) => (Panic s, w)
  end.

(** [if err := f(); err != nil { log }]: the error is dropped. *)
Definition ignore {W A} (m : io W A) : io W () := λ w,
  match m w with
  | (Panic s, w) => (Panic s, w)
  | (_, w) => (Ret (), w)
  end.

(** [defer func() { if retErr != nil { cleanup } }()] around the rest [m]. *)
Definition defer_on_err {W A} (cleanup : io W ()) (m : io W A) : io W A := λ w,
  match m w with
  | (Fail e, w) =>
      match cleanup w with
      | (Panic s, w) => (Panic s, w)
      | (_, w) => (Fail e, w)
      end
  | r => r
  end.

(** [return fmt.Errorf("msg: %w", err)] on an error of [m]. *)
Definition wrap_err {W A} (msg : string) (m : io W A) : io W A := λ w,
  match m w with
  | (Fail e, w) => (Fail (Errorf msg e), w)
  | r => r
  end.

Definition when {W} (b : bool) (m : io W ()) : io W () := if b then m else mret ().

(** [for _, x := range l { if err := f(x); err != nil { return err } }] *)
Fixpoint for_each {W A} (f : A → io W ()) (l : list A) : io W () :=
  match l with
  | [] => mret ()
  | x :: l => f x ;; for_each f l
  end.

(** ** Machine integers

    An unsigned [w]-bit value is a [Z] in [[0, 2^w)], a signed one a [Z] in
    [[-2^(w-1), 2^(w-1))].  [wrap_u] and [wrap_s] are Go's conversions. *)

Definition wrap_u (w : Z) (z : Z) : Z := z `mod` 2 ^ w.
Definition wrap_s (w : Z) (z : Z) : Z :=
  (z + 2 ^ (w - 1)) `mod` 2 ^ w - 2 ^ (w - 1).

Abbreviation u8 := (wrap_u 8).
Abbreviation u16 := (wrap_u 16).
Abbreviation u64 := (wrap_u 64).
Abbreviation i32 := (wrap_s 32).
Abbreviation i64 := (wrap_s 64).

Definition in_u (w z : Z) : Prop := (0 ≤ z < 2 ^ w)%Z.
Definition in_s (w z : Z) : Prop := (- 2 ^ (w - 1) ≤ z < 2 ^ (w - 1))%Z.

(** ** Record updates

    [r <| f := v |>] is [r] with field [f] replaced: the assignment [r.f = v] of
    a struct.  A record type declares its eta expansion as an [Eta] instance;
    the setter of a field is computed from it. *)

Class Eta (R : Type) := eta : R → R.
Class Setter {R T : Type} (proj : R → T) := set : (T → T) → R → R.
Arguments set {R T} proj {_} f r /.

Ltac solve_setter :=
  match goal with
  | |- @Setter ?R ?T ?proj =>
      let e := constr:(_ : Eta R) in
      let body := eval hnf in e in
      let pat := eval pattern proj in body in
      match pat with
      | ?g _ =>
          let s := constr:(λ (f : T → T) (r : R), g (λ x : R, f (proj x)) r) in
          let s := eval cbv beta in s in
          exact s
      end
  end.
#[export] Hint Extern 0 (Setter _) => solve_setter : typeclass_instances.

Declare Scope record_scope.
Notation "r <| f := v |>" := (set f (λ _, v) r)
  (at level 1, f at level 10, left associativity) : record_scope.
Notation "r <| f ::= g |>" := (set f g r)
  (at level 1, f at level 10, left associativity) : record_scope.
Open Scope record_scope.

(** ** Automation *)

Create HintDb crio discriminated.

(** Case analysis on every [match] scrutinee and [if] of the goal, keeping the
    equations. *)
Ltac go_cases :=
  repeat (first [ progress simplify_eq/=
                | case_match; simplify_eq/= ]).

(** Finish a goal about finite maps after the operations were unfolded. *)
Ltac map_solve :=
  repeat first
    [ progress simplify_map_eq/=
    | case_decide; simplify_eq/= ];
  try done; eauto with crio.

(** Evaluate a closed goal. *)
Ltac by_compute := vm_compute; first [reflexivity | done].

(** ** Lemmas about stateful code *)

Lemma io_bind_ret {W A B} (m : io W A) (f : A → io W B) w a w' :
  m w = (Ret a, w') → (m ≫= f) w = f a w'.
Proof. intros H. unfold mbind, io_bind. by rewrite H. Qed.

Lemma io_bind_inv {W A B} (m : io W A) (f : A → io W B) w b w2 :
  (m ≫= f) w = (Ret b, w2) → ∃ a w1, m w = (Ret a, w1) ∧ f a w1 = (Ret b, w2).
Proof. unfold mbind, io_bind. destruct (m w) as [[a| |] w1]; [eauto|done|done]. Qed.

Lemma wrap_err_ret {W A} s (m : io W A) w a w' : wrap_err s m w = (Ret a, w') → m w = (Ret a, w').
Proof. unfold wrap_err. destruct (m w) as [[]]; congruence. Qed.

Lemma gets_ret {W A} (f : W → A) w a w' : gets f w = (Ret a, w') → a = f w ∧ w' = w.
Proof. by intros [= <- <-]. Qed.

Lemma lift_ret {W A} (o : outcome A) (w w' : W) a : lift o w = (Ret a, w') → o = Ret a ∧ w' = w.
Proof. unfold lift. intros [= -> ->]. done. Qed.

Lemma defer_ret {W A} c (m : io W A) w a w' : defer_on_err c m w = (Ret a, w') → m w = (Ret a, w').
Proof. unfold defer_on_err. destruct (m w) as [[] w1]; [done| |done]. destruct (c w1) as [[] ?]; congruence. Qed.

(** A loop that succeeds keeps every invariant of its body. *)
Lemma for_each_inv {W A} (P : W → Prop) (f : A → io W ()) l w r w' :
  (∀ x w r w', x ∈ l → P w → f x w = (r, w') → P w') →
  for_each f l w = (r, w') → P w → P w'.
Proof.
  revert w. induction l as [|x l IH]; intros w Hf H Hw; simpl in H.
  { unfold mret, io_ret in H. by simplify_eq. }
  unfold mbind, io_bind in H. destruct (f x w) as [o w1] eqn:Hx.
  assert (P w1) as Hw1 by (eapply Hf; [by left|done|done]).
  destruct o; simplify_eq; [|done|done].
  eapply IH; [|done|done]. intros y wy ry wy' Hy. apply Hf. by right.
Qed.

(** *** A program logic for stateful code

    [triple P m Q R]: from a state in [P], a run of [m] that returns satisfies
    [Q], one that fails satisfies [R].  A panic ends the process. *)
Definition triple {W A} (P : W → Prop) (m : io W A) (Q : A → W → Prop) (R : goerr → W → Prop) : Prop :=
  ∀ w, P w →
    match m w with
    | (Ret a, w') => Q a w'
    | (Fail e, w') => R e w'
    | (Panic _, _) => True
    end.

Section triple.
Context {W : Type}.
Implicit Types (P : W → Prop) (R : goerr → W → Prop).

Lemma triple_ret {A} P (a : A) Q R : (∀ w, P w → Q a w) → triple P (mret a) Q R.
Proof. intros H w Hw. by apply H. Qed.

Lemma triple_bind {A B} P (m : io W A) Q (k : A → io W B) Q' R :
  triple P m Q R → (∀ a, triple (Q a) (k a) Q' R) → triple P (m ≫= k) Q' R.
Proof.
  intros Hm Hk w Hw. specialize (Hm w Hw). unfold mbind, io_bind.
  destruct (m w) as [[a|e|s] w']; [by apply Hk|done|done].
Qed.

Lemma triple_lift {A} P (o : outcome A) Q R :
  (∀ a w, o = Ret a → P w → Q a w) → (∀ e w, P w → R e w) → triple P (lift o) Q R.
Proof. intros H1 H2 w Hw. unfold lift. destruct o; auto. Qed.

Lemma triple_gets {A} P (f : W → A) Q R : (∀ w, P w → Q (f w) w) → triple P (gets f) Q R.
Proof. intros H w Hw. by apply H. Qed.

Lemma triple_modify P f (Q : () → W → Prop) R : (∀ w, P w → Q () (f w)) → triple P (modify f) Q R.
Proof. intros H w Hw. by apply H. Qed.

Lemma triple_fail {A} P e (Q : A → W → Prop) R : (∀ w, P w → R e w) → triple P (fail e) Q R.
Proof. intros H w Hw. by apply H. Qed.

Lemma triple_panic {A} P s (Q : A → W → Prop) R : triple P (panic s) Q R.
Proof. done. Qed.

Lemma triple_wrap {A} msg P (m : io W A) Q (I : W → Prop) :
  triple P m Q (λ _, I) → triple P (wrap_err msg m) Q (λ _, I).
Proof.
  intros Hm w Hw. specialize (Hm w Hw). unfold wrap_err. by destruct (m w) as [[] ?].
Qed.

(** The deferred clean-up runs in the state of the failure. *)
Lemma triple_defer {A} P (c : io W ()) (m : io W A) Q R R' :
  triple P m Q R' → (∀ e, triple (R' e) c (λ _, R e) (λ _, R e)) →
  triple P (defer_on_err c m) Q R.
Proof.
  intros Hm Hc w Hw. specialize (Hm w Hw). unfold defer_on_err.
  destruct (m w) as [[a|e|s] w']; [done| |done].
  specialize (Hc e w' Hm). by destruct (c w') as [[] ?].
Qed.

Lemma triple_ignore {A} P (m : io W A) (I : W → Prop) R :
  triple P m (λ _, I) (λ _, I) → triple P (ignore m) (λ _, I) R.
Proof.
  intros Hm w Hw. specialize (Hm w Hw). unfold ignore. by destruct (m w) as [[] ?].
Qed.

Lemma triple_conseq {A} P P' (m : io W A) Q Q' R R' :
  triple P' m Q' R' → (∀ w, P w → P' w) → (∀ a w, Q' a w → Q a w) →
  (∀ e w, R' e w → R e w) → triple P m Q R.
Proof.
  intros Hm HP HQ HR w Hw. specialize (Hm w (HP w Hw)).
  destruct (m w) as [[] ?]; auto.
Qed.
End triple.

(** *** How runs change the state

    [evolves R m]: the end of every run of [m], also of one that fails or panics, is
    related to its start. *)
Definition evolves {W A} (R : W → W → Prop) (m : io W A) : Prop := ∀ w r w', m w = (r, w') → R w w'.

Section evolves.
Context {W : Type} (R : W → W → Prop) `{!PreOrder R}.

Lemma evolves_ret {A} (a : A) : evolves R (mret a).
Proof. intros w r w' [= _ <-]. reflexivity. Qed.
Lemma evolves_read {A} (f : W → outcome A) : evolves R (λ w, (f w, w)).
Proof. intros w r w' [= _ <-]. reflexivity. Qed.
Lemma evolves_fail {A} e : evolves R (fail (A := A) e).
Proof. intros w r w' [= _ <-]. reflexivity. Qed.
Lemma evolves_panic {A} s : evolves R (panic (A := A) s).
Proof. intros w r w' [= _ <-]. reflexivity. Qed.
Lemma evolves_gets {A} (f : W → A) : evolves R (gets f).
Proof. intros w r w' [= _ <-]. reflexivity. Qed.
Lemma evolves_lift {A} (o : outcome A) : evolves R (lift o).
Proof. intros w r w' [= _ <-]. reflexivity. Qed.
Lemma evolves_modify f : (∀ w, R w (f w)) → evolves R (modify f).
Proof. intros Hf w r w' [= _ <-]. apply Hf. Qed.
Lemma evolves_bind {A B} (m : io W A) (k : A → io W B) :
  evolves R m → (∀ a, evolves R (k a)) → evolves R (m ≫= k).
Proof.
  intros Hm Hk w r w' Hr. unfold mbind, io_bind in Hr. destruct (m w) as [[a|e|s] w1] eqn:Hmw.
  - trans w1; [by eapply Hm|by eapply Hk].
  - injection Hr as _ <-. by eapply Hm.
  - injection Hr as _ <-. by eapply Hm.
Qed.
Lemma evolves_try {A} (m : io W A) : evolves R m → evolves R (try m).
Proof.
  intros Hm w r w' Hr. unfold try in Hr. destruct (m w) as [[a|e|s] w1] eqn:Hmw; injection Hr as _ <-; by eapply Hm.
Qed.
Lemma evolves_ignore {A} (m : io W A) : evolves R m → evolves R (ignore m).
Proof.
  intros Hm w r w' Hr. unfold ignore in Hr. destruct (m w) as [[a|e|s] w1] eqn:Hmw; injection Hr as _ <-; by eapply Hm.
Qed.
Lemma evolves_wrap {A} s (m : io W A) : evolves R m → evolves R (wrap_err s m).
Proof.
  intros Hm w r w' Hr. unfold wrap_err in Hr. destruct (m w) as [[a|e|x] w1] eqn:Hmw; injection Hr as _ <-; by eapply Hm.
Qed.
Lemma evolves_when b (m : io W ()) : evolves R m → evolves R (when b m).
Proof. destruct b; [done|]. intros _. apply evolves_ret. Qed.
Lemma evolves_each {A} (f : A → io W ()) l : (∀ x, evolves R (f x)) → evolves R (for_each f l).
Proof. intros Hf. induction l as [|x l IH]; [apply evolves_ret|]. by apply evolves_bind. Qed.
End evolves.

Create HintDb evolves.
#[export] Hint Resolve evolves_ret evolves_read evolves_fail evolves_panic evolves_gets evolves_lift : evolves.
(** Follows the structure of the program; what is left are its steps. *)
Ltac evolve :=
  repeat first
    [ progress intros
    | solve [typeclasses eauto with evolves typeclass_instances]
    | apply evolves_bind; [typeclasses eauto| |]
    | apply evolves_when; [typeclasses eauto|]
    | apply evolves_ignore
    | apply evolves_wrap
    | apply evolves_try
    | match goal with |- evolves _ (match ?x with _ => _ end) => destruct x end
    | match goal with |- evolves _ (let '(_, _) := ?x in _) => destruct x end ].

(** ** Machine-integer lemmas *)

Lemma wrap_u_range w z : (0 ≤ w)%Z → in_u w (wrap_u w z).
Proof. intros. apply Z.mod_pos_bound. lia. Qed.

Lemma wrap_u_id w z : in_u w z → wrap_u w z = z.
Proof. intros. by apply Z.mod_small. Qed.

Lemma wrap_s_range w z : (1 ≤ w)%Z → in_s w (wrap_s w z).
Proof.
  intros Hw. unfold wrap_s, in_s.
  assert (2 ^ w = 2 * 2 ^ (w - 1))%Z as Hpow.
  { rewrite <- Z.pow_succ_r by lia. f_equal. lia. }
  pose proof (Z.mod_pos_bound (z + 2 ^ (w - 1)) (2 ^ w)). lia.
Qed.

Lemma wrap_s_id w z : (1 ≤ w)%Z → in_s w z → wrap_s w z = z.
Proof.
  intros Hw [Hlo Hhi]. unfold wrap_s.
  assert (2 ^ w = 2 * 2 ^ (w - 1))%Z as Hpow.
  { rewrite <- Z.pow_succ_r by lia. f_equal. lia. }
  rewrite Z.mod_small; lia.
Qed.

#[export] Hint Resolve wrap_u_range wrap_s_range : crio.

(** ** Error-chain lemmas *)

Lemma errors_is_refl e : errors_is e e = true.
Proof. destruct e; simpl; by rewrite bool_decide_eq_true_2. Qed.

Lemma errors_is_wrap msg e t : errors_is e t = true → errors_is (Errorf msg e) t = true.
Proof. intros H. simpl. rewrite H. apply orb_true_r. Qed.

#[export] Hint Resolve errors_is_refl errors_is_wrap : crio.

(** ** List lemmas *)

(** [append(l[:i], l[i+1:]...)] at the first position holding [x]. *)
Fixpoint remove_first {A} `{EqDecision A} (x : A) (l : list A) : list A :=
  match l with
  | [] => []
  | y :: l => if decide (y = x) then l else y :: remove_first x l
  end.

Section remove_first.
Context {A : Type} `{EqDecision A}.
Implicit Types (l : list A) (x y : A).

Lemma remove_first_notin x l : x ∉ l → remove_first x l = l.
Proof.
  induction l as [|z l IH]; simpl; [done|].
  rewrite not_elem_of_cons. intros [? ?].
  case_decide; [congruence|]. f_equal; auto.
Qed.

Lemma elem_of_remove_first x y l :
  NoDup l → y ∈ remove_first x l ↔ y ≠ x ∧ y ∈ l.
Proof.
  induction l as [|z l IH]; simpl.
  { rewrite elem_of_nil. naive_solver. }
  intros [? ?]%NoDup_cons. case_decide; subst; rewrite !elem_of_cons.
  - naive_solver.
  - rewrite IH by done. naive_solver.
Qed.

Lemma NoDup_remove_first x l : NoDup l → NoDup (remove_first x l).
Proof.
  induction l as [|z l IH]; simpl; [done|].
  intros [? ?]%NoDup_cons. case_decide; [done|].
  apply NoDup_cons. rewrite elem_of_remove_first by done. naive_solver.
Qed.

Lemma sublist_remove_first x l : remove_first x l `sublist_of` l.
Proof.
  induction l as [|z l IH]; simpl; [done|].
  case_decide; [by apply sublist_cons | by apply sublist_skip].
Qed.
End remove_first.

#[export] Hint Resolve NoDup_remove_first : crio.

Lemma NoDup_app_singleton {A} (l : list A) x : NoDup l → x ∉ l → NoDup (l ++ [x]).
Proof.
  intros ? ?. apply NoDup_app. split_and!; [done| |apply NoDup_singleton].
  intros y ? ?%list_elem_of_singleton. by subst.
Qed.
#[export] Hint Resolve NoDup_app_singleton : crio.
