(* ===== verification/Registrar.v ===== *)
(** * Registrar: internal/registrar/registrar.go

    The registrar reserves names (of containers, of pods) to keys (ids).  It
    keeps two maps, [idx : key -> names] and [names : name -> key], updated
    together under one mutex, so every exported method is one atomic step on
    the record below. *)

From S2P Require Import Prelude.

(** ** State and operations *)

Definition ErrNameReserved : goerr := ErrorsNew "name is reserved".
Definition ErrNameNotReserved : goerr := ErrorsNew "name is not reserved".
Definition ErrNoSuchKey : goerr := ErrorsNew "provided key does not exist".

Record Registrar := mkRegistrar {
  idx : gmap string (list string);
  names : gmap string string;
}.

Definition NewRegistrar : Registrar := mkRegistrar ∅ ∅.

(** [r.idx[key]] on a missing key reads the nil slice. *)
Definition idx_get (r : Registrar) (key : string) : list string :=
  default [] (idx r !! key).

Definition Reserve (name key : string) (r : Registrar) : Registrar * option goerr :=
  match names r !! name with
  | Some k => if decide (k = key) then (r, None) else (r, Some ErrNameReserved)
  | None =>
      (mkRegistrar (<[key := idx_get r key ++ [name]]> (idx r))
                   (<[name := key]> (names r)), None)
  end.

(** The loop of [Release] stores the shortened slice at the first match and
    breaks; with no match it stores nothing.  The final test deletes a key whose
    slice became empty. *)
Definition Release (name : string) (r : Registrar) : Registrar :=
  match names r !! name with
  | None => r
  | Some key =>
      let idx1 := if decide (name ∈ idx_get r key)
                  then <[key := remove_first name (idx_get r key)]> (idx r)
                  else idx r in
      let idx2 := if decide (default [] (idx1 !! key) = []) then delete key idx1
                  else idx1 in
      mkRegistrar idx2 (delete name (names r))
  end.

Definition Delete (key : string) (r : Registrar) : Registrar :=
  mkRegistrar (delete key (idx r))
              (foldl (λ m n, delete n m) (names r) (idx_get r key)).

Definition GetNames (key : string) (r : Registrar) : outcome (list string) :=
  match idx r !! key with
  | None => Fail ErrNoSuchKey
  | Some ns => Ret ns
  end.

Definition Get (name : string) (r : Registrar) : outcome string :=
  match names r !! name with
  | None => Fail ErrNameNotReserved
  | Some key => Ret key
  end.

(** [GetAll] copies the index entry by entry into a fresh map. *)
Definition GetAll (r : Registrar) : gmap string (list string) :=
  map_fold (λ id ns out, <[id := ns]> out) ∅ (idx r).

(** ** Steps *)

Inductive op :=
| OpReserve (name key : string)
| OpRelease (name : string)
| OpDelete (key : string).

Definition apply_op (o : op) (r : Registrar) : Registrar :=
  match o with
  | OpReserve n k => (Reserve n k r).1
  | OpRelease n => Release n r
  | OpDelete k => Delete k r
  end.

Definition run_ops (os : list op) (r : Registrar) : Registrar :=
  foldl (λ r o, apply_op o r) r os.

(** ** Abstract specification

    What the registrar promises to its clients: a finite partial function from
    names to keys.  The index is derivable from it up to order. *)

Definition spec := gmap string string.

Definition spec_op (o : op) (m : gmap string string) : gmap string string :=
  match o with
  | OpReserve n k => match m !! n with Some _ => m | None => <[n := k]> m end
  | OpRelease n => delete n m
  | OpDelete k => filter (λ p, p.2 ≠ k) m
  end.

(** The coupling: [names] is the abstract map, and [idx] lists, without
    duplicates and without empty entries, exactly the names of each key. *)
Record wf (r : Registrar) : Prop := {
  wf_nodup k l : idx r !! k = Some l → NoDup l ∧ l ≠ [];
  wf_idx k n : n ∈ idx_get r k ↔ names r !! n = Some k;
}.

Definition refines (r : Registrar) (m : gmap string string) : Prop :=
  wf r ∧ names r = m.

(** ** Lemmas *)

Lemma wf_new : wf NewRegistrar.
Proof. split; intros *; unfold idx_get; simpl; rewrite ?lookup_empty; set_solver. Qed.

Lemma idx_get_insert r k l k' ns :
  idx_get (mkRegistrar (<[k := l]> (idx r)) ns) k' =
    if decide (k = k') then l else idx_get r k'.
Proof. unfold idx_get; simpl. rewrite lookup_insert. by case_decide. Qed.

Lemma wf_reserve n k r : wf r → wf (Reserve n k r).1.
Proof.
  intros [Hnd Hidx]. unfold Reserve.
  destruct (names r !! n) as [k0|] eqn:Hn; [by repeat case_decide|].
  assert (∀ k', n ∉ idx_get r k') as Hfresh by (intros k' ?%Hidx; congruence).
  split; simpl.
  - intros k' l. rewrite lookup_insert_Some. intros [[<- <-]|[_ ?]]; [|by eauto].
    split; [|by destruct (idx_get r k)].
    apply NoDup_app_singleton; [|done].
    unfold idx_get. destruct (idx r !! k) eqn:E; simpl; [by eapply Hnd|constructor].
  - intros k' n'. rewrite idx_get_insert, lookup_insert.
    pose proof (Hidx k' n'). pose proof (Hfresh k').
    repeat case_decide; subst; rewrite ?elem_of_app, ?list_elem_of_singleton;
      naive_solver.
Qed.

Lemma wf_release n r : wf r → wf (Release n r).
Proof.
  intros [Hnd Hidx]. unfold Release.
  destruct (names r !! n) as [k|] eqn:Hn; [|done].
  pose proof (proj2 (Hidx k n) Hn) as Hin.
  cbv zeta. rewrite (decide_True (P := n ∈ idx_get r k)) by done.
  rewrite lookup_insert_eq. simpl.
  assert (NoDup (idx_get r k)) as HndK.
  { unfold idx_get in *. destruct (idx r !! k) eqn:E; [by eapply Hnd|constructor]. }
  assert (∀ idx', (∀ k', default [] (idx' !! k') =
            if decide (k = k') then remove_first n (idx_get r k) else idx_get r k') →
          (∀ k' l, idx' !! k' = Some l → NoDup l ∧ l ≠ []) →
          wf (mkRegistrar idx' (delete n (names r)))) as Hgoal.
  { intros idx' Hget Hnd'. split; [done|]. intros k' n'.
    unfold idx_get at 1; simpl. rewrite Hget, lookup_delete.
    pose proof (Hidx k' n'). repeat case_decide; subst.
    - rewrite elem_of_remove_first by done. naive_solver.
    - rewrite elem_of_remove_first by done. naive_solver.
    - naive_solver congruence.
    - done. }
  case_decide as Hempty; apply Hgoal; intros k'.
  - rewrite delete_insert_eq, lookup_delete.
    case_decide; subst; [by rewrite Hempty|done].
  - intros l. rewrite delete_insert_eq, lookup_delete_Some. naive_solver.
  - rewrite lookup_insert. by case_decide.
  - intros l. rewrite lookup_insert_Some.
    intros [[<- <-]|[_ ?]]; [|by eauto]. split; eauto with crio.
Qed.

Lemma lookup_foldl_delete {V} (l : list string) (m : gmap string V) n :
  foldl (λ m n, delete n m) m l !! n = if decide (n ∈ l) then None else m !! n.
Proof.
  revert m. induction l as [|x l IH]; intros m; simpl.
  { done. }
  rewrite IH, lookup_delete. repeat case_decide; set_solver.
Qed.

Lemma wf_delete k r : wf r → wf (Delete k r).
Proof.
  intros [Hnd Hidx]. split; simpl.
  - intros k' l. rewrite lookup_delete_Some. naive_solver.
  - intros k' n. rewrite lookup_foldl_delete. unfold idx_get at 1; simpl.
    rewrite lookup_delete. pose proof (Hidx k n). pose proof (Hidx k' n).
    unfold idx_get in *. repeat case_decide; simpl; subst;
      rewrite ?elem_of_nil; naive_solver.
Qed.

#[export] Hint Resolve wf_new wf_reserve wf_release wf_delete : crio.

Lemma wf_apply o r : wf r → wf (apply_op o r).
Proof. destruct o; simpl; auto with crio. Qed.

Lemma wf_run os r : wf r → wf (run_ops os r).
Proof.
  revert r. induction os as [|o os IH]; intros r Hr; simpl; [done|].
  apply IH, wf_apply, Hr.
Qed.

Lemma names_apply o r : wf r → names (apply_op o r) = spec_op o (names r).
Proof.
  intros [Hnd Hidx]. destruct o as [n k|n|k]; simpl.
  - unfold Reserve. destruct (names r !! n); [by case_decide|done].
  - unfold Release. destruct (names r !! n) eqn:E; [done|].
    by rewrite delete_id.
  - apply map_eq. intros n. rewrite lookup_foldl_delete, map_lookup_filter.
    pose proof (Hidx k n). destruct (names r !! n) as [k'|] eqn:E; simpl.
    + case_decide as Hd; case_guard; naive_solver.
    + by case_decide.
Qed.

Lemma names_run os r :
  wf r → names (run_ops os r) = foldl (λ m o, spec_op o m) (names r) os.
Proof.
  revert r. induction os as [|o os IH]; intros r Hr; simpl; [done|].
  rewrite IH by eauto using wf_apply. by rewrite names_apply.
Qed.

Lemma GetAll_idx r : GetAll r = idx r.
Proof.
  unfold GetAll. refine (map_fold_weak_ind (λ out m, out = m) _ _ _ _ (idx r)); [done|].
  intros id ns m out _ ->. done.
Qed.

Lemma GetNames_spec r k :
  wf r →
  match GetNames k r with
  | Ret l => NoDup l ∧ ∀ n, n ∈ l ↔ names r !! n = Some k
  | Fail e => e = ErrNoSuchKey ∧ ∀ n, names r !! n ≠ Some k
  | Panic _ => False
  end.
Proof.
  intros [Hnd Hidx]. unfold GetNames. specialize (Hidx k).
  unfold idx_get in Hidx. destruct (idx r !! k) as [l|] eqn:E; simpl in *.
  - naive_solver.
  - split; [done|]. intros n ?%Hidx. by apply not_elem_of_nil in H.
Qed.

Lemma remove_first_snoc n (l : list string) : n ∉ l → remove_first n (l ++ [n]) = l.
Proof.
  induction l as [|x l IH]; simpl.
  - by rewrite decide_True.
  - rewrite not_elem_of_cons. intros [? ?].
    rewrite decide_False by congruence. by rewrite IH.
Qed.

(** ** Properties *)

(** C23: the registrar refines its abstract specification.  After any sequence
    of [Reserve], [Release] and [Delete] calls on a new registrar, the name
    index is the finite map obtained by running the specification, [Get] reads
    that map, [GetNames] lists exactly the names of a key without duplicates
    (and fails exactly for a key without names), and [GetAll] returns the whole
    index. *)
Theorem registrar_refines_spec (os : list op) :
  let r := run_ops os NewRegistrar in
  let m := foldl (λ m o, spec_op o m) (∅ : gmap string string) os in
  refines r m ∧
  (∀ n, Get n r = match m !! n with Some k => Ret k | None => Fail ErrNameNotReserved end) ∧
  (∀ k, match GetNames k r with
        | Ret l => NoDup l ∧ ∀ n, n ∈ l ↔ m !! n = Some k
        | Fail e => e = ErrNoSuchKey ∧ ∀ n, m !! n ≠ Some k
        | Panic _ => False
        end) ∧
  (∀ k, GetAll r !! k = match GetNames k r with Ret l => Some l | _ => None end).
Proof.
  intros r m.
  assert (wf r) as Hr by apply wf_run, wf_new.
  assert (names r = m) as Hm by apply (names_run os NewRegistrar wf_new).
  rewrite <- Hm. split_and!; [done| done | |].
  - intros k. by apply GetNames_spec.
  - intros k. rewrite GetAll_idx. unfold GetNames. by destruct (idx r !! k).
Qed.

(** A name reservation is exclusive and idempotent.  [Reserve] fails with
    [ErrNameReserved], leaving the registrar as it was, exactly when the name is
    held by another key; otherwise the name is held by the key afterwards, a
    second identical call changes nothing, and every other name keeps its key. *)
Theorem Reserve_exclusive (r : Registrar) (n k : string) :
  let '(r', err) := Reserve n k r in
  (err = Some ErrNameReserved ↔ ∃ k', Get n r = Ret k' ∧ k' ≠ k) ∧
  (err ≠ None → r' = r) ∧
  (err = None → Get n r' = Ret k ∧ Reserve n k r' = (r', None)) ∧
  (∀ n', n' ≠ n → Get n' r' = Get n' r).
Proof.
  unfold Reserve, Get.
  destruct (names r !! n) as [k0|] eqn:E.
  - case_decide; subst; rewrite ?E; split_and!; try done.
    + naive_solver.
    + intros _. split; [done|]. by rewrite decide_True.
    + naive_solver.
  - simpl. rewrite lookup_insert_eq. split_and!; [naive_solver|done| |].
    + intros _. split; [done|]. by rewrite decide_True.
    + intros n' ?. by rewrite lookup_insert_ne.
Qed.

(** Releasing a name just reserved restores the registrar exactly, both
    maps included, whatever was registered before. *)
Theorem Reserve_Release_roundtrip (os : list op) (n k : string) :
  Get n (run_ops os NewRegistrar) = Fail ErrNameNotReserved →
  Release n (Reserve n k (run_ops os NewRegistrar)).1 = run_ops os NewRegistrar.
Proof.
  assert (wf (run_ops os NewRegistrar)) as Hwf by apply wf_run, wf_new.
  revert Hwf. generalize (run_ops os NewRegistrar) as r. intros r [Hnd Hidx].
  unfold Get. destruct (names r !! n) eqn:E; [done|]. intros _.
  unfold Reserve. rewrite E. unfold Release. simpl.
  rewrite lookup_insert_eq. cbv zeta. simpl.
  assert (n ∉ idx_get r k) as Hfresh by (intros ?%Hidx; congruence).
  rewrite idx_get_insert, (decide_True (P := k = k)) by done.
  rewrite (decide_True (P := n ∈ idx_get r k ++ [n])) by set_solver.
  rewrite lookup_insert_eq, remove_first_snoc, insert_insert_eq by done. simpl.
  rewrite (delete_insert_id (names r) n k E).
  destruct r as [ix nm]; simpl in *. f_equal.
  unfold idx_get in *. simpl in *. destruct (ix !! k) as [l|] eqn:Ek; simpl in *.
  - rewrite decide_False by (by eapply Hnd). by apply insert_id.
  - by rewrite delete_insert_id.
Qed.

Lemma Reserve_Release_roundtrip_witness :
  let os := [OpReserve "a" "k"; OpReserve "b" "k"; OpRelease "a"] in
  Get "a" (run_ops os NewRegistrar) = Fail ErrNameNotReserved ∧
  Release "a" (Reserve "a" "k" (run_ops os NewRegistrar)).1 = run_ops os NewRegistrar.
Proof.
  split; [reflexivity|].
  apply (Reserve_Release_roundtrip [OpReserve "a" "k"; OpReserve "b" "k"; OpRelease "a"]).
  reflexivity.
Defined.
