(* ===== verification/ResourceCleaner.v ===== *)
(** * ResourceCleaner: internal/resourcestore/resourcecleaner.go

    A resource cleaner holds the cleanup functions of one resource in progress.
    A cleanup function is a Go [func() error]: a state transformer on the part
    [W] of the world it acts on, with an optional error. *)

From S2P Require Import Prelude.

(** [wait.ErrWaitTimeout], what [wait.ExponentialBackoff] returns when its
    steps are used up. *)
Definition ErrWaitTimeout : goerr := ErrorsNew "timed out waiting for the condition".

(** [var defaultRetryTimes = 20] of the production build. *)
Definition defaultRetryTimes : nat := 20.

Section cleaner.
Context {W : Type}.

Definition cleanupFunc : Type := W → W * option goerr.

(** [wait.ExponentialBackoff]: run the condition until it succeeds or fails
    with an error, at most [steps] times.  The sleeps between the runs do not
    touch [W]. *)
Fixpoint ExponentialBackoff (steps : nat) (cond : W → W * (bool * option goerr))
    (w : W) : W * option goerr :=
  match steps with
  | 0 => (w, Some ErrWaitTimeout)
  | S steps =>
      let '(w', (ok, err)) := cond w in
      match err with
      | Some e => (w', Some e)
      | None => if (ok : bool) then (w', None) else ExponentialBackoff steps cond w'
      end
  end.

Definition retry (fn : cleanupFunc) (w : W) : W * option goerr :=
  let '(w', waitErr) :=
    ExponentialBackoff defaultRetryTimes
      (λ w, let '(w', err) := fn w in
            match err with
            | Some _ => (w', (false, None))
            | None => (w', (true, None))
            end) w in
  match waitErr with
  | Some e => (w', Some (Errorf "wait on retry" e))
  | None => (w', None)
  end.

Record ResourceCleaner := mkCleaner { funcs : list cleanupFunc }.

Definition NewResourceCleaner : ResourceCleaner := mkCleaner [].

Definition Add (fn : cleanupFunc) (r : ResourceCleaner) : ResourceCleaner :=
  let task := λ w, retry fn w in
  mkCleaner (task :: funcs r).

Fixpoint run_funcs (fs : list cleanupFunc) (w : W) : W * option goerr :=
  match fs with
  | [] => (w, None)
  | f :: fs =>
      let '(w', err) := f w in
      match err with
      | Some e => (w', Some e)
      | None => run_funcs fs w'
      end
  end.

Definition Cleanup (r : ResourceCleaner) (w : W) : W * option goerr :=
  run_funcs (funcs r) w.

(** The world after [n] runs of [fn]. *)
Fixpoint after_runs (fn : cleanupFunc) (n : nat) (w : W) : W :=
  match n with
  | 0 => w
  | S n => after_runs fn n (fn w).1
  end.

Lemma backoff_spec fn steps w :
  let cond := (λ w, let '(w', err) := fn w in
            match err with
            | Some _ => (w', (false, None))
            | None => (w', (true, None))
            end) in
  (∃ i, i < steps ∧ (∀ j, j < i → (fn (after_runs fn j w)).2 ≠ None) ∧
     (fn (after_runs fn i w)).2 = None ∧
     ExponentialBackoff steps cond w = (after_runs fn (S i) w, None)) ∨
  ((∀ j, j < steps → (fn (after_runs fn j w)).2 ≠ None) ∧
     ExponentialBackoff steps cond w = (after_runs fn steps w, Some ErrWaitTimeout)).
Proof.
  intros cond. revert w. induction steps as [|n IH]; intros w.
  { right. split; [lia|done]. }
  simpl. unfold cond at 1 3. destruct (fn w) as [w' [e|]] eqn:Hfn.
  - destruct (IH w') as [(i & Hi & Hbad & Hok & Hrun)|[Hbad Hrun]].
    + left. exists (S i). simpl. rewrite Hfn. split_and!; [lia| |done|done].
      intros [|j] ?; simpl; rewrite Hfn; [done|]. apply Hbad. lia.
    + right. simpl. split; [|done].
      intros [|j] ?; simpl; rewrite Hfn; [done|]. apply Hbad. lia.
  - left. exists 0. simpl. rewrite Hfn. split_and!; [lia|lia|done|done].
Qed.

Lemma run_funcs_app fs gs w :
  run_funcs (fs ++ gs) w =
    match run_funcs fs w with
    | (w', None) => run_funcs gs w'
    | r => r
    end.
Proof.
  revert w. induction fs as [|f fs IH]; intros w; simpl; [done|].
  destruct (f w) as [w' [e|]]; [done|]. apply IH.
Qed.

Lemma funcs_adds fns r :
  funcs (foldl (λ r f, Add f r) r fns) = map retry (rev fns) ++ funcs r.
Proof.
  revert r. induction fns as [|f fns IH]; intros r; simpl; [done|].
  rewrite IH, map_app. simpl. by rewrite <- app_assoc.
Qed.

End cleaner.
Arguments cleanupFunc : clear implicits.
Arguments ResourceCleaner : clear implicits.

(** A recording cleanup function: it appends its description to a log and fails
    exactly when [bad] says so. *)
Definition logging (bad : string → bool) (d : string) : cleanupFunc (list string) :=
  λ log, (log ++ [d], if bad d then Some (ErrorsNew d) else None).

Lemma after_runs_logging bad d n log :
  after_runs (logging bad d) n log = log ++ replicate n d.
Proof.
  revert log. induction n as [|n IH]; intros log.
  { by rewrite app_nil_r. }
  simpl. rewrite IH. by rewrite <- app_assoc.
Qed.

Lemma retry_logging bad d log :
  retry (logging bad d) log =
    if bad d then (log ++ replicate defaultRetryTimes d,
                   Some (Errorf "wait on retry" ErrWaitTimeout))
    else (log ++ [d], None).
Proof.
  unfold retry.
  destruct (backoff_spec (logging bad d) defaultRetryTimes log)
    as [(i & _ & Hbad & Hok & ->)|[Hbad ->]].
  - rewrite after_runs_logging. cbn in Hok. destruct (bad d) eqn:Hd; [done|].
    destruct i as [|i]; [done|]. specialize (Hbad 0 ltac:(lia)).
    cbn in Hbad. by rewrite Hd in Hbad.
  - rewrite after_runs_logging. specialize (Hbad 0 ltac:(unfold defaultRetryTimes; lia)).
    cbn in Hbad. by destruct (bad d).
Qed.

Lemma run_logging_good bad ds log :
  Forall (λ d, bad d = false) ds →
  run_funcs (map retry (map (logging bad) ds)) log = (log ++ ds, None).
Proof.
  intros Hds. revert log. induction Hds as [|d ds Hd _ IH]; intros log; simpl.
  { by rewrite app_nil_r. }
  rewrite retry_logging, Hd. rewrite IH. by rewrite <- app_assoc.
Qed.

(** ** Properties *)

(** C26: [retry] makes at most [defaultRetryTimes] attempts and stops at the
    first success.  Either some attempt [i < defaultRetryTimes] is the first to
    succeed, the world is the one after exactly [i + 1] runs and no error is
    returned; or all [defaultRetryTimes] attempts failed and the timeout error
    is returned, wrapped. *)
Theorem retry_first_success {W} (fn : cleanupFunc W) (w : W) :
  (∃ i, i < defaultRetryTimes ∧
     (∀ j, j < i → (fn (after_runs fn j w)).2 ≠ None) ∧
     (fn (after_runs fn i w)).2 = None ∧
     retry fn w = (after_runs fn (S i) w, None)) ∨
  ((∀ j, j < defaultRetryTimes → (fn (after_runs fn j w)).2 ≠ None) ∧
     retry fn w = (after_runs fn defaultRetryTimes w,
                   Some (Errorf "wait on retry" ErrWaitTimeout))).
Proof.
  unfold retry. destruct (backoff_spec fn defaultRetryTimes w)
    as [(i & ? & ? & ? & ->)|[? ->]]; eauto 10.
Qed.

Lemma Cleanup_adds bad ds log :
  Cleanup (foldl (λ r f, Add f r) NewResourceCleaner (map (logging bad) ds)) log =
  run_funcs (map retry (map (logging bad) (rev ds))) log.
Proof.
  unfold Cleanup. rewrite funcs_adds. simpl. by rewrite app_nil_r, <- map_rev.
Qed.

(** C30: [Cleanup] runs the functions in reverse order of their [Add] calls.
    When all succeed each runs exactly once.  When a function [x] keeps failing
    and those added after it succeed, [Cleanup] runs the newer ones, makes
    [defaultRetryTimes] attempts at [x], reports the error and runs none of the
    functions added before [x]. *)
Theorem Cleanup_lifo (bad : string → bool) (older : list string) (x : string)
    (newer : list string) :
  let cleaner ds := foldl (λ r f, Add f r) NewResourceCleaner (map (logging bad) ds) in
  Forall (λ d, bad d = false) newer →
  Cleanup (cleaner newer) [] = (rev newer, None) ∧
  (bad x = true →
   Cleanup (cleaner (older ++ x :: newer)) [] =
     (rev newer ++ replicate defaultRetryTimes x,
      Some (Errorf "wait on retry" ErrWaitTimeout))).
Proof.
  intros cleaner Hnew. unfold cleaner. rewrite !Cleanup_adds.
  assert (Forall (λ d, bad d = false) (rev newer)) as Hrev by by apply Forall_rev.
  split; [by rewrite run_logging_good|]. intros Hx.
  rewrite rev_app_distr. simpl. rewrite <- app_assoc.
  rewrite !map_app.
  etransitivity; [apply run_funcs_app|].
  rewrite run_logging_good by done. simpl. by rewrite retry_logging, Hx.
Qed.

Lemma Cleanup_lifo_witness :
  let bad d := bool_decide (d = "b") in
  Forall (λ d, bad d = false) ["c"; "d"] ∧
  Cleanup (foldl (λ r f, Add f r) NewResourceCleaner
             (map (logging bad) ["a"; "b"; "c"; "d"])) [] =
    ("d" :: "c" :: replicate 20 "b", Some (Errorf "wait on retry" ErrWaitTimeout)).
Proof.
  intros bad. split; [by repeat constructor|].
  apply (Cleanup_lifo bad ["a"] "b" ["c"; "d"]); [by repeat constructor|reflexivity].
Defined.
