(* ===== verification/ResourceStore.v ===== *)
(** * ResourceStore: internal/resourcestore/resourcestore.go

    The resource store keeps a newly created pod or container whose request
    timed out, until the client asks again ([Get]) or a periodic pass finds it
    stale and cleans it up.  Requests in flight can watch a name: a watcher is a
    channel of capacity one on which [Put] sends.

    Every exported method holds [rc.mutex] from entry to exit and is one atomic
    step.  A pass of [cleanupStaleResources] holds it while it collects; the
    cleanup functions of the collected resources run after the unlock. *)

From S2P Require Import Prelude ResourceCleaner.

(** ** State *)

Definition StageUnknown : string := "unknown".

(** The objects put into the store, by pointer. *)
Inductive object := ContainerObj (p : positive) | SandboxObj (p : positive).
#[export] Instance object_eq_dec : EqDecision object.
Proof. solve_decision. Defined.

(** An [IdentifiableCreatable]: an object reference and what its [ID()] returns. *)
Record IdentifiableCreatable := mkIC { ic_ref : object; ID : string }.

#[export] Instance ic_eq_dec : EqDecision IdentifiableCreatable.
Proof. solve_decision. Defined.

(** A channel is a reference into the channel heap. *)
Abbreviation chan := nat.

Section store.
Context {W : Type}.

(** [resource] and [cleaner] are nil until [Put]. *)
Record Resource := mkResource {
  resource : option IdentifiableCreatable;
  cleaner : option (ResourceCleaner W);
  watchers : list chan;
  stale : bool;
  name : string;
  stage : string;
}.

Definition wasPut (r : Resource) : bool :=
  match resource r with Some _ => true | None => false end.

(** The store, with the heap of watcher channels: the number of elements in the
    buffer of each channel made so far. *)
Record ResourceStore := mkStore {
  resources : gmap string Resource;
  closed : bool;
  buffered : gmap chan nat;
}.

Definition NewWithTimeout : ResourceStore := mkStore ∅ false ∅.

Definition set_resources (rc : ResourceStore) (m : gmap string Resource) : ResourceStore :=
  mkStore m (closed rc) (buffered rc).

(** ** Operations *)

Definition Close (rc : ResourceStore) : ResourceStore :=
  if closed rc then rc else mkStore (resources rc) true (buffered rc).

(** [Get] returns the id ([""] when there is none) and the object on which it
    called [SetCreated]. *)
Definition Get (nm : string) (rc : ResourceStore)
    : ResourceStore * string * option IdentifiableCreatable :=
  match resources rc !! nm with
  | None => (rc, "", None)
  | Some r =>
      match resource r with
      | None => (rc, "", None)
      | Some o => (set_resources rc (delete nm (resources rc)), ID o, Some o)
      end
  end.

(** A send on a channel of capacity one blocks when its buffer is full. *)
Definition chan_send (w : chan) (b : gmap chan nat) : option (gmap chan nat) :=
  match b !! w with
  | Some 0 => Some (<[w := 1]> b)
  | _ => None
  end.

Fixpoint notify (ws : list chan) (b : gmap chan nat) : option (gmap chan nat) :=
  match ws with
  | [] => Some b
  | w :: ws => b' ← chan_send w b; notify ws b'
  end.

Inductive put_result :=
| PutOk
| PutErr (e : goerr)
| PutBlocked.  (** a send blocks, with the mutex held *)

Definition Put (nm : string) (o : IdentifiableCreatable) (c : ResourceCleaner W)
    (rc : ResourceStore) : ResourceStore * put_result :=
  let '(ok, r) := match resources rc !! nm with
                  | Some r => (true, r)
                  | None => (false, mkResource None None [] false "" "")
                  end in
  let rc1 := if (ok : bool) then rc
             else set_resources rc (<[nm := r]> (resources rc)) in
  if ok && wasPut r then
    (rc1, PutErr (ErrorsNew ("failed to add entry " +:+ nm +:+
                             " to ResourceStore; entry already exists")))
  else
    let r' := mkResource (Some o) (Some c) (watchers r) (stale r) nm (stage r) in
    let m := <[nm := r']> (resources rc1) in
    match notify (watchers r') (buffered rc1) with
    | Some b => (mkStore m (closed rc1) b, PutOk)
    | None => (mkStore m (closed rc1) (buffered rc1), PutBlocked)
    end.

Definition Delete (nm : string) (rc : ResourceStore) : ResourceStore :=
  set_resources rc (delete nm (resources rc)).

(** [make(chan struct{}, 1)]. *)
Definition make_chan (b : gmap chan nat) : chan * gmap chan nat :=
  let w := fresh (dom b) in (w, <[w := 0]> b).

Definition WatcherForResource (nm : string) (rc : ResourceStore)
    : ResourceStore * (chan * string) :=
  let '(w, b) := make_chan (buffered rc) in
  match resources rc !! nm with
  | None =>
      (mkStore (<[nm := mkResource None None [w] false nm ""]> (resources rc))
               (closed rc) b, (w, StageUnknown))
  | Some r =>
      let r' := mkResource (resource r) (cleaner r) (watchers r ++ [w])
                  (stale r) (name r) (stage r) in
      (mkStore (<[nm := r']> (resources rc)) (closed rc) b, (w, stage r))
  end.

Definition SetStageForResource (nm stg : string) (rc : ResourceStore) : ResourceStore :=
  match resources rc !! nm with
  | None => set_resources rc (<[nm := mkResource None None [] false nm stg]> (resources rc))
  | Some r =>
      set_resources rc
        (<[nm := mkResource (resource r) (cleaner r) (watchers r) (stale r) (name r) stg]>
           (resources rc))
  end.

(** The loop body of [cleanupStaleResources] up to the unlock: what stays in the
    map, with its stale flag set, and what is collected.  The visits of a Go map
    are independent of each other here, so the pass is written per entry. *)
Definition pass_entry (r : Resource) : option Resource :=
  if wasPut r then
    if stale r then None
    else Some (mkResource (resource r) (cleaner r) (watchers r) true (name r) (stage r))
  else Some r.

Definition reapable (r : Resource) : bool := wasPut r && stale r.

Definition cleanup_collect (rc : ResourceStore) : ResourceStore * list Resource :=
  (set_resources rc (omap pass_entry (resources rc)),
   filter reapable (map_to_list (resources rc)).*2).

(** After the unlock: the cleanup functions run one resource after the other;
    an error is only logged.  A nil cleaner would be dereferenced. *)
Fixpoint cleanup_run (rs : list Resource) (w : W) : outcome W :=
  match rs with
  | [] => Ret w
  | r :: rs =>
      match cleaner r with
      | None => Panic "nil cleaner"
      | Some c => let '(w', _) := Cleanup c w in cleanup_run rs w'
      end
  end.

(** ** Steps

    A world is the store together with the history of the objects given to
    [Put], of the [SetCreated] calls and of the objects cleaned up. *)

Record world := mkWorld {
  w_store : ResourceStore;
  w_put : list IdentifiableCreatable;
  w_created : list IdentifiableCreatable;
  w_cleaned : list IdentifiableCreatable;
}.

Definition init_world : world := mkWorld NewWithTimeout [] [] [].

Definition objs_of (rs : list Resource) : list IdentifiableCreatable :=
  omap resource rs.

(** A channel receive by a watching request. *)
Definition chan_recv (w : chan) (rc : ResourceStore) : ResourceStore :=
  match buffered rc !! w with
  | Some (S n) => mkStore (resources rc) (closed rc) (<[w := n]> (buffered rc))
  | _ => rc
  end.

(** Each [Put] is given an object created for it, so never one put before. *)
Inductive step : world → world → Prop :=
| step_get nm rc p cr cl rc' id o :
    Get nm rc = (rc', id, o) →
    step (mkWorld rc p cr cl) (mkWorld rc' p (option_list o ++ cr) cl)
| step_put nm o c rc p cr cl rc' res :
    o ∉ p →
    Put nm o c rc = (rc', res) →
    step (mkWorld rc p cr cl) (mkWorld rc' (o :: p) cr cl)
| step_delete nm rc p cr cl :
    step (mkWorld rc p cr cl) (mkWorld (Delete nm rc) p cr cl)
| step_watch nm rc p cr cl :
    step (mkWorld rc p cr cl) (mkWorld (WatcherForResource nm rc).1 p cr cl)
| step_stage nm stg rc p cr cl :
    step (mkWorld rc p cr cl) (mkWorld (SetStageForResource nm stg rc) p cr cl)
| step_recv w rc p cr cl :
    step (mkWorld rc p cr cl) (mkWorld (chan_recv w rc) p cr cl)
| step_close rc p cr cl :
    step (mkWorld rc p cr cl) (mkWorld (Close rc) p cr cl)
| step_cleanup rc p cr cl rc' rs :
    closed rc = false →
    cleanup_collect rc = (rc', rs) →
    step (mkWorld rc p cr cl) (mkWorld rc' p cr (objs_of rs ++ cl)).

Definition reachable (w : world) : Prop := rtc step init_world w.

(** ** Invariant *)

Definition store_objs (rc : ResourceStore) : list IdentifiableCreatable :=
  omap resource (map_to_list (resources rc)).*2.

(** Watchers of a resource not yet put have empty buffers and no channel is
    watched twice; every watcher exists. *)
Definition watchers_ok (rc : ResourceStore) : Prop :=
  (∀ nm r, resources rc !! nm = Some r → NoDup (watchers r)) ∧
  (∀ nm r w, resources rc !! nm = Some r → w ∈ watchers r →
     is_Some (buffered rc !! w)) ∧
  (∀ nm r w, resources rc !! nm = Some r → wasPut r = false → w ∈ watchers r →
     buffered rc !! w = Some 0) ∧
  (∀ nm1 nm2 r1 r2 w, resources rc !! nm1 = Some r1 → resources rc !! nm2 = Some r2 →
     w ∈ watchers r1 → w ∈ watchers r2 → nm1 = nm2).

(** A resource that was put has a cleaner; one that was not put is not stale. *)
Definition cleaners_ok (rc : ResourceStore) : Prop :=
  ∀ nm r, resources rc !! nm = Some r →
    if wasPut r then is_Some (cleaner r) else stale r = false.

Record inv (w : world) : Prop := {
  inv_watchers : watchers_ok (w_store w);
  inv_cleaners : cleaners_ok (w_store w);
  inv_objs : NoDup (w_created w ++ w_cleaned w ++ store_objs (w_store w));
  inv_put o : o ∈ w_created w ++ w_cleaned w ++ store_objs (w_store w) → o ∈ w_put w;
}.
End store.
Arguments Resource : clear implicits.
Arguments ResourceStore : clear implicits.
Arguments world : clear implicits.

(** ** Lemmas *)

Section lemmas.
Context {W : Type}.
Implicit Types (m : gmap string (Resource W)) (rc : ResourceStore W) (r : Resource W).

Definition map_objs m : list IdentifiableCreatable := omap resource (map_to_list m).*2.

Lemma map_objs_insert_new m nm r :
  m !! nm = None → map_objs (<[nm := r]> m) ≡ₚ option_list (resource r) ++ map_objs m.
Proof.
  intros. unfold map_objs. rewrite map_to_list_insert by done. simpl.
  by destruct (resource r).
Qed.

Lemma map_objs_delete m nm r :
  m !! nm = Some r → map_objs m ≡ₚ option_list (resource r) ++ map_objs (delete nm m).
Proof.
  intros H. rewrite <- map_objs_insert_new by apply lookup_delete_eq.
  by rewrite insert_delete_id.
Qed.

Lemma map_objs_insert m nm r r0 :
  m !! nm = Some r0 →
  map_objs (<[nm := r]> m) ≡ₚ option_list (resource r) ++ map_objs (delete nm m).
Proof.
  intros H. rewrite <- insert_delete_eq.
  by rewrite map_objs_insert_new by apply lookup_delete_eq.
Qed.

Lemma map_objs_same m nm r r0 :
  m !! nm = Some r0 → resource r = resource r0 → map_objs (<[nm := r]> m) ≡ₚ map_objs m.
Proof.
  intros H E. rewrite (map_objs_insert _ _ _ _ H), E. by rewrite <- map_objs_delete.
Qed.

Lemma map_objs_pass m :
  objs_of (filter reapable (map_to_list m).*2) ++ map_objs (omap pass_entry m) ≡ₚ map_objs m.
Proof.
  induction m as [|nm r m Hm IH] using map_ind.
  { unfold map_objs. by rewrite omap_empty, map_to_list_empty. }
  rewrite map_objs_insert_new by done. rewrite <- IH. clear IH.
  assert (omap pass_entry m !! nm = None) as Hm' by (by rewrite lookup_omap, Hm).
  unfold objs_of. rewrite map_to_list_insert by done. simpl. rewrite filter_cons.
  destruct (resource r) as [o|] eqn:Ho, (stale r) eqn:Hs;
    unfold reapable, wasPut; rewrite Ho, ?Hs; simpl;
    rewrite ?decide_True, ?decide_False by done; simpl; rewrite ?Ho; simpl;
    rewrite omap_insert; unfold pass_entry at 1, wasPut; rewrite Ho, ?Hs.
  - rewrite delete_id; done.
  - rewrite map_objs_insert_new by done. simpl. by rewrite Permutation_middle.
  - by rewrite map_objs_insert_new, Ho by done.
  - by rewrite map_objs_insert_new, Ho by done.
Qed.

Lemma notify_spec ws b :
  NoDup ws → (∀ w, w ∈ ws → b !! w = Some 0) →
  ∃ b', notify ws b = Some b' ∧
    ∀ w, b' !! w = if decide (w ∈ ws) then Some 1 else b !! w.
Proof.
  revert b. induction ws as [|w ws IH]; intros b Hnd Hb; simpl; [by eauto|].
  apply NoDup_cons in Hnd as [Hw Hnd]. unfold chan_send.
  rewrite (Hb w) by set_solver. simpl.
  destruct (IH (<[w := 1]> b)) as (b' & -> & Hb'); [done| |].
  { intros w' Hw'. rewrite lookup_insert_ne by set_solver. apply Hb. set_solver. }
  exists b'. split; [done|]. intros w'. rewrite Hb', lookup_insert.
  repeat case_decide; set_solver.
Qed.

(** Whether a step adds a fresh object, keeps all objects, or drops some. *)
Lemma step_objs (w w' : world W) :
  step w w' →
  let all w := w_created w ++ w_cleaned w ++ map_objs (resources (w_store w)) in
  (w_put w' = w_put w ∧ (∃ l, all w ≡ₚ l ++ all w')) ∨
  (∃ o, (o ∉ w_put w) ∧ w_put w' = o :: w_put w ∧
     (all w' ≡ₚ all w ∨ all w' ≡ₚ o :: all w)).
Proof.
  assert (∀ (l1 l2 : list IdentifiableCreatable), l1 ≡ₚ l2 → (∃ l, l1 ≡ₚ l ++ l2)) as Hsame.
  { intros. by exists []. }
  intros Hstep all. unfold all. destruct Hstep as
    [nm rc p cr cl rc' id o Hget|nm o c rc p cr cl rc' res Ho Hput|nm rc p cr cl
    |nm rc p cr cl|nm stg rc p cr cl|ch rc p cr cl|rc p cr cl|rc p cr cl rc' rs Hcl Hcol];
    simpl.
  - left. split; [done|]. unfold Get in Hget.
    destruct (resources rc !! nm) as [r|] eqn:E; [|by simplify_eq/=; auto].
    destruct (resource r) as [o'|] eqn:Er; simplify_eq/=; [|by auto].
    apply Hsame. rewrite (map_objs_delete _ _ _ E), Er. simpl.
    by rewrite !Permutation_middle.
  - right. exists o. split_and!; [done..|]. unfold Put in Hput.
    destruct (resources rc !! nm) as [r|] eqn:E; simpl in Hput.
    + destruct (wasPut r) eqn:Hw; [by simplify_eq; left|]. right.
      assert (resource r = None) as Hn by (unfold wasPut in Hw; by destruct (resource r)).
      case_match; simplify_eq; simpl; rewrite (map_objs_insert _ _ _ _ E); simpl;
        rewrite (map_objs_delete _ _ _ E), Hn; simpl; by rewrite !Permutation_middle.
    + right. simplify_eq/=. rewrite insert_insert_eq, map_objs_insert_new by done. simpl.
      by rewrite !Permutation_middle.
  - left. split; [done|]. destruct (resources rc !! nm) as [r|] eqn:E.
    + exists (option_list (resource r)). rewrite (map_objs_delete _ _ _ E).
      rewrite !app_assoc. f_equiv. rewrite <- !app_assoc.
      rewrite (Permutation_app_comm (option_list _)). by rewrite <- !app_assoc.
    + apply Hsame. by rewrite delete_id.
  - left. split; [done|]. unfold WatcherForResource.
    destruct (make_chan (buffered rc)) as [ch b].
    destruct (resources rc !! nm) as [r|] eqn:E; apply Hsame; simpl; do 2 f_equiv.
    + by rewrite map_objs_same.
    + by rewrite map_objs_insert_new.
  - left. split; [done|]. unfold SetStageForResource.
    destruct (resources rc !! nm) as [r|] eqn:E; apply Hsame; simpl; do 2 f_equiv.
    + by rewrite map_objs_same.
    + by rewrite map_objs_insert_new.
  - left. unfold chan_recv. repeat case_match; simpl; auto.
  - left. unfold Close. case_match; simpl; auto.
  - left. split; [done|]. apply Hsame. unfold cleanup_collect in Hcol. simplify_eq/=.
    rewrite <- (map_objs_pass (resources rc)). f_equiv.
    rewrite !app_assoc. f_equiv. by rewrite Permutation_app_comm.
Qed.

Lemma inv_objs_step (w w' : world W) :
  step w w' →
  NoDup (w_created w ++ w_cleaned w ++ store_objs (w_store w)) →
  (∀ o, o ∈ w_created w ++ w_cleaned w ++ store_objs (w_store w) → o ∈ w_put w) →
  NoDup (w_created w' ++ w_cleaned w' ++ store_objs (w_store w')) ∧
  (∀ o, o ∈ w_created w' ++ w_cleaned w' ++ store_objs (w_store w') → o ∈ w_put w').
Proof.
  intros Hstep Hnd Hput. apply step_objs in Hstep. simpl in Hstep.
  unfold store_objs, map_objs in *.
  destruct Hstep as [[-> [l Hl]]|(o & Ho & -> & [Hp|Hp])].
  - rewrite Hl in Hnd. apply NoDup_app in Hnd as (_ & _ & Hnd). split; [done|].
    intros x Hx. apply Hput. rewrite Hl. apply elem_of_app. by right.
  - split; [by rewrite Hp|]. intros x. rewrite Hp. intros Hx%Hput. set_solver.
  - split.
    + rewrite Hp. apply NoDup_cons. split; [|done]. by intros ?%Hput.
    + intros x. rewrite Hp. intros [->|Hx%Hput]%elem_of_cons; set_solver.
Qed.

(** Dropping entries, keeping watchers and never losing an empty buffer keeps
    [watchers_ok]. *)
Lemma watchers_ok_sub rc m b cl :
  (∀ nm r, m !! nm = Some r → ∃ r0, resources rc !! nm = Some r0 ∧
     watchers r = watchers r0 ∧ (wasPut r = false → wasPut r0 = false)) →
  (∀ ch, is_Some (buffered rc !! ch) → is_Some (b !! ch)) →
  (∀ ch, buffered rc !! ch = Some 0 → b !! ch = Some 0) →
  watchers_ok rc → watchers_ok (mkStore m cl b).
Proof.
  intros Hm Hb Hb0 (H1 & H2 & H3 & H4). split_and!; simpl.
  - intros nm r (r0 & ? & -> & _)%Hm. eauto.
  - intros nm r w (r0 & ? & -> & _)%Hm ?. eauto.
  - intros nm r w (r0 & ? & -> & Hp)%Hm ??. eauto.
  - intros nm1 nm2 r1 r2 w (? & ? & -> & _)%Hm (? & ? & -> & _)%Hm. eauto.
Qed.

Lemma watchers_ok_watch nm rc :
  watchers_ok rc → watchers_ok (WatcherForResource nm rc).1.
Proof.
  intros (H1 & H2 & H3 & H4). unfold WatcherForResource, make_chan.
  set (ch := fresh (dom (buffered rc))).
  assert (buffered rc !! ch = None) as Hch by (apply not_elem_of_dom, is_fresh).
  assert (∀ nm' r, resources rc !! nm' = Some r → ch ∉ watchers r) as Hnew.
  { intros nm' r Hr Hin. destruct (H2 _ _ _ Hr Hin). congruence. }
  (* the entry after the call, in both branches *)
  assert (∃ r', (∀ w, w ∈ watchers r' ↔ w = ch ∨
                  ∃ r, resources rc !! nm = Some r ∧ w ∈ watchers r) ∧
            NoDup (watchers r') ∧
            (∀ r, resources rc !! nm = Some r → wasPut r' = wasPut r) ∧
            (match resources rc !! nm with
             | None => (mkStore (<[nm := mkResource None None [ch] false nm ""]> (resources rc))
                          (closed rc) (<[ch := 0]> (buffered rc)), (ch, StageUnknown))
             | Some r => (mkStore (<[nm := mkResource (resource r) (cleaner r)
                            (watchers r ++ [ch]) (stale r) (name r) (stage r)]> (resources rc))
                          (closed rc) (<[ch := 0]> (buffered rc)), (ch, stage r))
             end).1 = mkStore (<[nm := r']> (resources rc)) (closed rc)
                        (<[ch := 0]> (buffered rc))) as (r' & Hw & Hnd & Hput & ->).
  { destruct (resources rc !! nm) as [r|] eqn:E; eexists; split_and!; try reflexivity.
    - simpl. intros w. rewrite elem_of_app, list_elem_of_singleton. naive_solver.
    - simpl. eauto with crio.
    - by intros ? [= <-].
    - simpl. intros w. rewrite list_elem_of_singleton. naive_solver.
    - apply NoDup_singleton.
    - done. }
  assert (∀ w, w ≠ ch → <[ch := 0]> (buffered rc) !! w = buffered rc !! w) as Hbuf
    by (intros; by rewrite lookup_insert_ne).
  split_and!; simpl.
  - intros nm' r [[<- <-]|[? ?]]%lookup_insert_Some; eauto.
  - intros nm' r w Hr Hin. destruct (decide (w = ch)) as [->|Hne].
    { rewrite lookup_insert_eq. eauto. }
    rewrite Hbuf by done.
    apply lookup_insert_Some in Hr as [[<- <-]|[? ?]]; [|by eauto].
    apply Hw in Hin as [->|(r & ? & ?)]; [done|eauto].
  - intros nm' r w Hr Hunput Hin. destruct (decide (w = ch)) as [->|Hne].
    { by rewrite lookup_insert_eq. }
    rewrite Hbuf by done.
    apply lookup_insert_Some in Hr as [[<- <-]|[? ?]]; [|by eauto].
    apply Hw in Hin as [->|(r & Hr & ?)]; [done|].
    eapply H3; [done| |done]. by rewrite <- (Hput _ Hr).
  - intros nm1 nm2 r1 r2 w Hr1 Hr2 Hin1 Hin2.
    apply lookup_insert_Some in Hr1 as [[<- <-]|[? Hr1]];
      apply lookup_insert_Some in Hr2 as [[<- <-]|[? Hr2]]; [done| | |by eauto].
    + apply Hw in Hin1 as [->|(r & ? & ?)]; [|by eauto]. by destruct (Hnew _ _ Hr2).
    + apply Hw in Hin2 as [->|(r & ? & ?)]; [|by eauto]. by destruct (Hnew _ _ Hr1).
Qed.

(** What [Put] does in a store whose watchers are in order. *)
Lemma Put_spec nm o c rc :
  watchers_ok rc →
  let r := default (mkResource None None [] false "" "") (resources rc !! nm) in
  if wasPut r
  then ∃ e, Put nm o c rc = (rc, PutErr e)
  else ∃ b, Put nm o c rc =
        (mkStore (<[nm := mkResource (Some o) (Some c) (watchers r) (stale r) nm (stage r)]>
                    (resources rc)) (closed rc) b, PutOk) ∧
        ∀ ch, b !! ch = if decide (ch ∈ watchers r) then Some 1 else buffered rc !! ch.
Proof.
  intros (H1 & H2 & H3 & H4) r. unfold Put, r.
  destruct (resources rc !! nm) as [r0|] eqn:E; simpl.
  - destruct (wasPut r0) eqn:Hput; simpl; [by eauto|].
    destruct (notify_spec (watchers r0) (buffered rc)) as (b & -> & Hb); eauto.
  - rewrite insert_insert_eq. eexists. split; [done|]. by intros ch.
Qed.

Lemma watchers_ok_put nm o c rc :
  watchers_ok rc → watchers_ok (Put nm o c rc).1.
Proof.
  intros Hok. pose proof (Put_spec nm o c rc Hok) as Hspec. simpl in Hspec.
  set (r := default _ _) in *. destruct (wasPut r) eqn:Hput.
  { destruct Hspec as [e ->]. done. }
  destruct Hspec as (b & -> & Hb). simpl. destruct Hok as (H1 & H2 & H3 & H4).
  assert (∀ nm' r', <[nm := mkResource (Some o) (Some c) (watchers r) (stale r) nm (stage r)]>
      (resources rc) !! nm' = Some r' →
    NoDup (watchers r') ∧ ∀ w, w ∈ watchers r' →
      ∃ r0, resources rc !! nm' = Some r0 ∧ w ∈ watchers r0 ∧
            (wasPut r' = false → wasPut r0 = false ∧ nm' ≠ nm)) as Hold.
  { intros nm' r' [[<- <-]|[? ?]]%lookup_insert_Some; simpl.
    - unfold r in *. destruct (resources rc !! nm) as [r0|] eqn:E; simpl.
      + split; [by eauto|]. intros w ?. exists r0. done.
      + split; [constructor|]. intros w ?%elem_of_nil. done.
    - split; [by eauto|]. intros w ?. exists r'. done. }
  split_and!; simpl.
  - intros nm' r' [? _]%Hold. done.
  - intros nm' r' w [_ Hin]%Hold (r0 & ? & ? & _)%Hin. rewrite Hb. case_decide; eauto.
  - intros nm' r' w [_ Hin]%Hold Hu (r0 & Hr0 & Hw0 & Hp)%Hin.
    destruct (Hp Hu) as [Hp0 Hne]. rewrite Hb. case_decide as Hd; [|by eauto].
    unfold r in Hd. destruct (resources rc !! nm) as [r1|] eqn:E; simpl in Hd.
    + exfalso. eauto.
    + by apply elem_of_nil in Hd.
  - intros nm1 nm2 r1 r2 w [_ Hin1]%Hold [_ Hin2]%Hold (? & ? & ? & _)%Hin1
      (? & ? & ? & _)%Hin2. eauto.
Qed.

Lemma pass_entry_Some r r' :
  pass_entry r = Some r' →
  resource r' = resource r ∧ cleaner r' = cleaner r ∧ watchers r' = watchers r ∧
  wasPut r' = wasPut r.
Proof.
  unfold pass_entry. destruct (wasPut r) eqn:E; [|by intros; simplify_eq].
  destruct (stale r); intros; by simplify_eq.
Qed.

Lemma watchers_ok_step (w w' : world W) :
  step w w' → watchers_ok (w_store w) → watchers_ok (w_store w').
Proof.
  intros Hstep Hok. destruct Hstep as
    [nm rc p cr cl rc' id o Hget|nm o c rc p cr cl rc' res Ho Hput|nm rc p cr cl
    |nm rc p cr cl|nm stg rc p cr cl|ch rc p cr cl|rc p cr cl|rc p cr cl rc' rs Hcl Hcol];
    simpl in *.
  - unfold Get in Hget. repeat case_match; simplify_eq; [|done|done].
    eapply watchers_ok_sub; [|done..|done]. intros nm' r' [? ?]%lookup_delete_Some. eauto.
  - pose proof (watchers_ok_put nm o c rc Hok) as Hok'. by rewrite Hput in Hok'.
  - eapply watchers_ok_sub; [|done..|done]. intros nm' r' [? ?]%lookup_delete_Some. eauto.
  - by apply watchers_ok_watch.
  - unfold SetStageForResource. destruct (resources rc !! nm) as [r|] eqn:E.
    + eapply watchers_ok_sub; [|done..|done].
      intros nm' r' [[<- <-]|[? ?]]%lookup_insert_Some; eauto.
    + destruct Hok as (H1 & H2 & H3 & H4). split_and!; simpl.
      * intros nm' r' [[<- <-]|[? ?]]%lookup_insert_Some; [constructor|eauto].
      * intros nm' r' ch [[<- <-]|[? ?]]%lookup_insert_Some; [by intros ?%elem_of_nil|eauto].
      * intros nm' r' ch [[<- <-]|[? ?]]%lookup_insert_Some;
          [by intros _ ?%elem_of_nil|eauto].
      * intros nm1 nm2 r1 r2 ch [[<- <-]|[? ?]]%lookup_insert_Some
          [[<- <-]|[? ?]]%lookup_insert_Some ??; try by (exfalso; eapply elem_of_nil; eauto).
        eauto.
  - unfold chan_recv. case_match; [|done]. case_match; [done|]. simplify_eq.
    eapply watchers_ok_sub; [by eauto| | |done]; intros ch'; rewrite lookup_insert;
      case_decide; subst; naive_solver.
  - unfold Close. by case_match.
  - unfold cleanup_collect in Hcol. simplify_eq.
    eapply watchers_ok_sub; [|done..|done]. intros nm' r'. rewrite lookup_omap_Some.
    intros (r & (? & ? & -> & Hp)%pass_entry_Some & ?). eexists. rewrite Hp. eauto.
Qed.

Lemma cleaners_ok_step (w w' : world W) :
  step w w' → watchers_ok (w_store w) → cleaners_ok (w_store w) → cleaners_ok (w_store w').
Proof.
  unfold cleaners_ok. intros Hstep Hok Hc. destruct Hstep as
    [nm rc p cr cl rc' id o Hget|nm o c rc p cr cl rc' res Ho Hput|nm rc p cr cl
    |nm rc p cr cl|nm stg rc p cr cl|ch rc p cr cl|rc p cr cl|rc p cr cl rc' rs Hcl Hcol];
    simpl in *.
  - unfold Get in Hget. repeat case_match; simplify_eq; simpl; [|done|done].
    intros nm' r' [? ?]%lookup_delete_Some. by eapply Hc.
  - pose proof (Put_spec nm o c rc Hok) as Hspec. simpl in Hspec.
    rewrite Hput in Hspec. case_match.
    + destruct Hspec as [e [= -> ->]]. done.
    + destruct Hspec as (b & [= -> ->] & _). simpl.
      intros nm' r' [[<- <-]|[? ?]]%lookup_insert_Some; simpl; [done|by eapply Hc].
  - intros nm' r' [? ?]%lookup_delete_Some. by eapply Hc.
  - unfold WatcherForResource. destruct (make_chan (buffered rc)).
    destruct (resources rc !! nm) as [r|] eqn:E; simpl;
      intros nm' r' [[<- <-]|[? ?]]%lookup_insert_Some;
      [apply (Hc _ _ E)|by eapply Hc|done|by eapply Hc].
  - unfold SetStageForResource. destruct (resources rc !! nm) as [r|] eqn:E; simpl;
      intros nm' r' [[<- <-]|[? ?]]%lookup_insert_Some;
      [apply (Hc _ _ E)|by eapply Hc|done|by eapply Hc].
  - unfold chan_recv. by repeat case_match.
  - unfold Close. by case_match.
  - unfold cleanup_collect in Hcol. simplify_eq. simpl. intros nm' r'.
    rewrite lookup_omap_Some. intros (r & Hp & Hr). specialize (Hc _ _ Hr).
    pose proof (pass_entry_Some _ _ Hp) as (_ & -> & _ & ->).
    destruct (wasPut r) eqn:Hw; [done|]. unfold pass_entry in Hp. rewrite Hw in Hp.
    by simplify_eq.
Qed.

Lemma inv_step (w w' : world W) : step w w' → inv w → inv w'.
Proof.
  intros Hstep [Hw Hc Ho Hp].
  destruct (inv_objs_step _ _ Hstep Ho Hp).
  split; eauto using watchers_ok_step, cleaners_ok_step.
Qed.

Lemma inv_init : inv (W := W) init_world.
Proof.
  split; simpl.
  - unfold watchers_ok; simpl. split_and!; intros *; rewrite lookup_empty; done.
  - intros nm r. simpl. by rewrite lookup_empty.
  - unfold store_objs; simpl. rewrite map_to_list_empty. constructor.
  - unfold store_objs; simpl. rewrite map_to_list_empty. done.
Qed.

Lemma inv_reachable (w : world W) : reachable w → inv w.
Proof.
  intros Hr. unfold reachable in Hr. remember init_world as w0 eqn:Hw0.
  assert (inv w0) as Hinv by (subst; apply inv_init). clear Hw0.
  induction Hr as [|w0 w1 w2 Hstep _ IH]; [done|]. eauto using inv_step.
Qed.

Lemma cleanup_run_total rs (wd : W) :
  Forall (λ r, is_Some (cleaner r)) rs → ∃ wd', cleanup_run rs wd = Ret wd'.
Proof.
  intros Hrs. revert wd. induction Hrs as [|r rs [c Hc] _ IH]; intros wd; simpl; [by eauto|].
  rewrite Hc. destruct (Cleanup c wd). apply IH.
Qed.

Lemma elem_of_reaped rc nm r :
  resources rc !! nm = Some r → reapable r = true →
  r ∈ filter reapable (map_to_list (resources rc)).*2.
Proof.
  intros Hr Hp. apply list_elem_of_filter. rewrite Hp. split; [done|].
  apply list_elem_of_fmap. exists (nm, r). split; [done|]. by apply elem_of_map_to_list.
Qed.
End lemmas.

(** ** Properties *)

(** C21: a resource is handed to a client or cleaned up, never both and never
    twice.  In every reachable world the objects on which [SetCreated] was
    called by [Get], the objects whose cleaner was run by the stale pass, and
    the objects still in the store are pairwise distinct lists without
    repetition. *)
Theorem created_cleaned_exclusive {W} (w : world W) :
  reachable w →
  NoDup (w_created w ++ w_cleaned w ++ store_objs (w_store w)).
Proof. intros Hr. apply inv_reachable in Hr. apply Hr. Qed.

(** A run of the store: two requests watch a name, the resource is put, one
    stale pass runs, then the client retries. *)
Definition demo_obj : IdentifiableCreatable := mkIC (ContainerObj 1) "ctr-id".
Definition demo_watched : ResourceStore () :=
  (WatcherForResource "n" (WatcherForResource "n" NewWithTimeout).1).1.
Definition demo_put : ResourceStore () :=
  (Put "n" demo_obj NewResourceCleaner demo_watched).1.

Lemma demo_put_reachable : reachable (mkWorld demo_put [demo_obj] [] []).
Proof.
  eapply rtc_l; [apply (step_watch "n")|].
  eapply rtc_l; [apply (step_watch "n")|].
  eapply rtc_l; [|apply rtc_refl].
  apply (step_put "n" demo_obj NewResourceCleaner _ _ _ _ _ PutOk); [set_solver|].
  vm_compute. reflexivity.
Qed.

Lemma created_cleaned_exclusive_witness :
  reachable (mkWorld (set_resources demo_put ∅) [demo_obj] [demo_obj] []) ∧
  NoDup ([demo_obj] ++ [] ++ store_objs (set_resources demo_put ∅)).
Proof.
  assert (reachable (mkWorld (set_resources demo_put ∅) [demo_obj] [demo_obj] [])) as Hr.
  { eapply rtc_r; [apply demo_put_reachable|].
    apply (step_get "n" _ _ _ _ _ "ctr-id" (Some demo_obj)). vm_compute. reflexivity. }
  split; [exact Hr|]. exact (created_cleaned_exclusive _ Hr).
Defined.

(** The channels watching a name. *)
Definition watching {W} (nm : string) (rc : ResourceStore W) : list chan :=
  match resources rc !! nm with Some r => watchers r | None => [] end.

(** C29: [Put] never blocks on a watcher while it holds the mutex, and it
    notifies every watcher exactly once.  In a reachable store, [Put] either
    reports a duplicate and changes nothing (the name is already put), or
    stores the resource and leaves one element in the buffer of each channel
    watching the name and every other channel as it was. *)
Theorem Put_notifies_watchers {W} (w : world W) (nm : string)
    (o : IdentifiableCreatable) (c : ResourceCleaner W) :
  reachable w →
  let rc := w_store w in
  let '(rc', res) := Put nm o c rc in
  match res with
  | PutBlocked => False
  | PutErr _ => rc' = rc ∧ ∃ r, resources rc !! nm = Some r ∧ wasPut r = true
  | PutOk =>
      (∃ r', resources rc' !! nm = Some r' ∧ resource r' = Some o ∧ cleaner r' = Some c) ∧
      (∀ nm', nm' ≠ nm → resources rc' !! nm' = resources rc !! nm') ∧
      (∀ ch, buffered rc' !! ch =
         if decide (ch ∈ watching nm rc)
         then Some 1 else buffered rc !! ch)
  end.
Proof.
  intros Hr rc. apply inv_reachable in Hr as [Hw _ _ _].
  pose proof (Put_spec nm o c _ Hw) as Hspec. fold rc in Hspec. simpl in Hspec.
  unfold watching. destruct (resources rc !! nm) as [r|] eqn:E; simpl in Hspec.
  - destruct (wasPut r) eqn:Hput.
    { destruct Hspec as [e ->]. eauto. }
    destruct Hspec as (b & -> & Hb). simpl. split_and!.
    + rewrite lookup_insert_eq. eauto.
    + intros. by rewrite lookup_insert_ne.
    + done.
  - destruct Hspec as (b & -> & Hb). simpl. split_and!.
    + rewrite lookup_insert_eq. eauto.
    + intros. by rewrite lookup_insert_ne.
    + done.
Qed.

Lemma Put_notifies_watchers_witness :
  reachable (mkWorld demo_watched [] [] []) ∧
  (Put "n" demo_obj NewResourceCleaner demo_watched).2 = PutOk ∧
  buffered demo_put !! 0 = Some 1 ∧ buffered demo_put !! 1 = Some 1.
Proof.
  assert (reachable (mkWorld demo_watched [] [] [])) as Hr.
  { eapply rtc_l; [apply (step_watch "n")|].
    eapply rtc_l; [apply (step_watch "n")|]. apply rtc_refl. }
  split; [exact Hr|]. split; [reflexivity|].
  pose proof (Put_notifies_watchers _ "n" demo_obj NewResourceCleaner Hr) as H.
  vm_compute in H. destruct H as (_ & _ & H).
  split; [exact (H 0) | exact (H 1)].
Defined.

(** An unrequested resource lives through exactly one stale pass.  After a
    successful [Put] in a reachable store, the first pass does not collect the
    new resource and a [Get] then still returns its id; the second pass collects
    it for cleanup and removes it, so a later [Get] finds nothing. *)
Theorem stale_after_two_passes {W} (w : world W) (nm : string)
    (o : IdentifiableCreatable) (c : ResourceCleaner W) (rc1 : ResourceStore W) :
  reachable w →
  Put nm o c (w_store w) = (rc1, PutOk) →
  let '(rc2, reaped1) := cleanup_collect rc1 in
  let '(rc3, reaped2) := cleanup_collect rc2 in
  (∀ r, r ∈ reaped1 → resource r = Some o → ∃ nm', nm' ≠ nm ∧ resources (w_store w) !! nm' = Some r) ∧
  Get nm rc2 = (set_resources rc2 (delete nm (resources rc2)), ID o, Some o) ∧
  (∃ r, r ∈ reaped2 ∧ resource r = Some o ∧ cleaner r = Some c) ∧
  Get nm rc3 = (rc3, "", None).
Proof.
  intros Hr Hput. apply inv_reachable in Hr as [Hw Hc _ _].
  pose proof (Put_spec nm o c _ Hw) as Hspec. simpl in Hspec. rewrite Hput in Hspec.
  set (r := default _ _) in Hspec.
  assert (wasPut r = false → stale r = false) as Hstale.
  { unfold r. destruct (resources (w_store w) !! nm) as [r0|] eqn:E; simpl; [|done].
    specialize (Hc _ _ E). intros Hp. by rewrite Hp in Hc. }
  destruct (wasPut r) eqn:Hp; [by destruct Hspec as [e ?]|].
  destruct Hspec as (b & [= ->] & _). rewrite Hstale by done. clear Hstale.
  unfold cleanup_collect. simpl. split_and!.
  - intros r' [Hreap Hin]%list_elem_of_filter Ho.
    apply list_elem_of_fmap in Hin as ([nm' r''] & -> & Hin%elem_of_map_to_list).
    simpl in *. apply lookup_insert_Some in Hin as [[<- <-]|[? ?]]; eauto.
    unfold reapable in Hreap. simpl in Hreap. done.
  - unfold Get. simpl. rewrite lookup_omap, lookup_insert_eq. simpl. done.
  - exists (mkResource (Some o) (Some c) (watchers r) true nm (stage r)).
    split_and!; [|done..].
    apply list_elem_of_filter. split; [done|].
    apply list_elem_of_fmap. eexists (nm, _). split; [reflexivity|].
    apply elem_of_map_to_list. rewrite lookup_omap, lookup_insert_eq. done.
  - unfold Get. simpl. by rewrite !lookup_omap, lookup_insert_eq.
Qed.

Lemma stale_after_two_passes_witness :
  reachable (mkWorld demo_watched [] [] []) ∧
  let '(rc2, _) := cleanup_collect demo_put in
  (Get "n" rc2).1.2 = "ctr-id" ∧ (Get "n" (cleanup_collect rc2).1).1.2 = "".
Proof.
  assert (reachable (mkWorld demo_watched [] [] [])) as Hr.
  { eapply rtc_l; [apply (step_watch "n")|].
    eapply rtc_l; [apply (step_watch "n")|]. apply rtc_refl. }
  split; [exact Hr|].
  pose proof (stale_after_two_passes _ "n" demo_obj NewResourceCleaner demo_put Hr
                ltac:(vm_compute; reflexivity)) as H.
  destruct (cleanup_collect demo_put) as [rc2 l2].
  destruct (cleanup_collect rc2) as [rc3 l3]. destruct H as (_ & H2 & _ & H4).
  simpl. split; [rewrite H2; reflexivity | rewrite H4; reflexivity].
Defined.

(** The stale pass never dereferences a nil cleaner.  In every reachable
    store the cleanup of all collected resources runs to the end, whatever its
    functions do. *)
Theorem cleanup_never_panics {W} (w : world W) (wd : W) :
  reachable w →
  ∃ wd', cleanup_run (cleanup_collect (w_store w)).2 wd = Ret wd'.
Proof.
  intros Hr. apply inv_reachable in Hr as [_ Hc _ _]. apply cleanup_run_total.
  apply Forall_forall. intros r [Hreap Hin]%list_elem_of_filter.
  apply list_elem_of_fmap in Hin as ([nm r'] & -> & Hin%elem_of_map_to_list).
  specialize (Hc _ _ Hin). unfold reapable in Hreap. simpl in *.
  by destruct (wasPut r').
Qed.

Lemma cleanup_never_panics_witness :
  reachable (mkWorld demo_put [demo_obj] [] []) ∧
  ∃ wd', cleanup_run (cleanup_collect (cleanup_collect demo_put).1).2 () = Ret wd'.
Proof.
  split; [apply demo_put_reachable|].
  apply (cleanup_never_panics (mkWorld (cleanup_collect demo_put).1 [demo_obj] [] []) ()).
  eapply rtc_r; [apply demo_put_reachable|].
  by apply (step_cleanup _ _ _ [] _ []).
Defined.
