(* ===== verification/StopLoop.v ===== *)
(** * StopLoop: stopping a container (internal/oci/runtime_oci.go, container.go)

    [runtimeOCI.StopContainer] is called by any number of requests; the first
    one starts the goroutine [StopLoopForContainer].  They share the fields
    [stopping], [stopTimeoutChan] (a buffered channel of capacity 10),
    [stopWatchers] and [execPIDs] of the container, under [stopLock].

    A request is a thread with a program counter; the goroutine has one too.
    Each step is what runs between two points where another goroutine can
    interfere: taking [stopLock], sending on or receiving from the channel, a
    timer, the death of the process. *)

From S2P Require Import Prelude.
Local Open Scope Z_scope.

(** ** State *)

(** [make(chan int64, 10)] *)
Definition stopTimeoutChan_cap : nat := 10.

Definition second : Z := 1000000000.

(** Program counter of one [StopContainer(ctx, c, timeout)] call. *)
Inductive caller :=
| CLiving (timeout : Z)   (** about to check [c.Living()] *)
| CSetStopping (timeout : Z)  (** about to call [SetAsStopping] *)
| CLock (timeout : Z)     (** about to lock [stopLock] in [WaitOnStopTimeout] *)
| CSend (timeout : Z)     (** holds [stopLock], about to send the timeout *)
| CWatch                  (** holds [stopLock], about to append its watcher *)
| CWait (watcher : nat)   (** unlocked, in the final [select] *)
| CReturned
| CPanicked.              (** sent on a closed channel *)

(** Program counter of [StopLoopForContainer]. *)
Inductive loop :=
| LNotStarted
| LBegin                  (** spawned, before the first [kill] *)
| LSelect (targetTime : Z)  (** in the [select] loop *)
| LKill                   (** in [kwait.BackoffUntil] *)
| LKillExec               (** deferred: [KillExecPIDs] about to lock [stopLock] *)
| LDoneStopping           (** deferred: [SetAsDoneStopping] about to lock *)
| LFinished.

#[export] Instance loop_eq_dec : EqDecision loop.
Proof. solve_decision. Defined.

(** [stopLock]: free, or held by a caller. *)
Record state := mkState {
  now : Z;                      (** the clock, in nanoseconds *)
  alive : bool;                 (** [c.Living() == nil] *)
  stopping : bool;
  chanBuf : list Z;             (** elements in [stopTimeoutChan] *)
  chanClosed : bool;
  stopWatchers : list nat;
  closedWatchers : gset nat;
  execPIDs : gmap Z bool;
  stopLock : option nat;
  lp : loop;
  callers : gmap nat caller;
}.

Definition init (t0 : Z) (cs : gmap nat caller) : state :=
  mkState t0 true false [] false [] ∅ ∅ None LNotStarted cs.

(** ** The methods of the container, run with [stopLock] held *)

(** [SetAsStopping]: the new flag and the result. *)
Definition SetAsStopping (stopping : bool) : bool * bool :=
  if negb stopping then (true, true) else (stopping, false).

(** [SetAsDoneStopping]: close every watcher, empty the list, close the channel. *)
Definition SetAsDoneStopping (s : state) : state :=
  mkState (now s) (alive s) (stopping s) (chanBuf s) true []
    (closedWatchers s ∪ list_to_set (stopWatchers s))
    (execPIDs s) (stopLock s) (lp s) (callers s).

Definition AddExecPID (pid : Z) (shouldKill : bool) (s : state) : outcome state :=
  if stopping s then
    Fail (ErrorsNew "cannot register an exec PID: container is stopping")
  else Ret (mkState (now s) (alive s) (stopping s) (chanBuf s) (chanClosed s)
              (stopWatchers s) (closedWatchers s) (<[pid := shouldKill]> (execPIDs s))
              (stopLock s) (lp s) (callers s)).

Definition DeleteExecPID (pid : Z) (s : state) : state :=
  mkState (now s) (alive s) (stopping s) (chanBuf s) (chanClosed s)
    (stopWatchers s) (closedWatchers s) (delete pid (execPIDs s))
    (stopLock s) (lp s) (callers s).

(** [time.Now().Add(time.Duration(newTimeout) * time.Second)]: the product is an
    [int64] product.  The clock itself does not overflow. *)
Definition newTargetTime (nw newTimeout : Z) : Z := nw + i64 (newTimeout * second).

(** A new timeout replaces the target only when it is earlier. *)
Definition take_timeout (nw target newTimeout : Z) : Z :=
  if newTargetTime nw newTimeout <? target then newTargetTime nw newTimeout else target.

(** [time.Now().AddDate(+1, 0, 0)], here 365 days. *)
Definition a_year_from (nw : Z) : Z := nw + 365 * 24 * 3600 * second.

(** ** Record updates *)

Definition set_callers (s : state) (t : nat) (c : caller) : state :=
  mkState (now s) (alive s) (stopping s) (chanBuf s) (chanClosed s) (stopWatchers s)
    (closedWatchers s) (execPIDs s) (stopLock s) (lp s) (<[t := c]> (callers s)).
Definition set_lp (s : state) (l : loop) : state :=
  mkState (now s) (alive s) (stopping s) (chanBuf s) (chanClosed s) (stopWatchers s)
    (closedWatchers s) (execPIDs s) (stopLock s) l (callers s).
Definition set_lock (s : state) (o : option nat) : state :=
  mkState (now s) (alive s) (stopping s) (chanBuf s) (chanClosed s) (stopWatchers s)
    (closedWatchers s) (execPIDs s) o (lp s) (callers s).
Definition set_stopping (s : state) (b : bool) : state :=
  mkState (now s) (alive s) b (chanBuf s) (chanClosed s) (stopWatchers s)
    (closedWatchers s) (execPIDs s) (stopLock s) (lp s) (callers s).
Definition set_buf (s : state) (b : list Z) : state :=
  mkState (now s) (alive s) (stopping s) b (chanClosed s) (stopWatchers s)
    (closedWatchers s) (execPIDs s) (stopLock s) (lp s) (callers s).
Definition add_watcher (s : state) (w : nat) : state :=
  mkState (now s) (alive s) (stopping s) (chanBuf s) (chanClosed s) (stopWatchers s ++ [w])
    (closedWatchers s) (execPIDs s) (stopLock s) (lp s) (callers s).
Definition set_alive (s : state) (b : bool) : state :=
  mkState (now s) b (stopping s) (chanBuf s) (chanClosed s) (stopWatchers s)
    (closedWatchers s) (execPIDs s) (stopLock s) (lp s) (callers s).
Definition set_now (s : state) (t : Z) : state :=
  mkState t (alive s) (stopping s) (chanBuf s) (chanClosed s) (stopWatchers s)
    (closedWatchers s) (execPIDs s) (stopLock s) (lp s) (callers s).

(** ** Steps of a [StopContainer] call *)

Inductive caller_step (t : nat) : state → state → Prop :=
| cs_not_living s n :
    callers s !! t = Some (CLiving n) → alive s = false →
    caller_step t s (set_callers s t CReturned)
| cs_living s n :
    callers s !! t = Some (CLiving n) → alive s = true →
    caller_step t s (set_callers s t (CSetStopping n))
| cs_set_stopping s n st first :
    callers s !! t = Some (CSetStopping n) → stopLock s = None →
    SetAsStopping (stopping s) = (st, first) →
    caller_step t s
      (set_callers (set_lp (set_stopping s st) (if first then LBegin else lp s)) t (CLock n))
| cs_lock_not_stopping s n :
    callers s !! t = Some (CLock n) → stopLock s = None → stopping s = false →
    caller_step t s (set_callers s t CReturned)
| cs_lock s n :
    callers s !! t = Some (CLock n) → stopLock s = None → stopping s = true →
    caller_step t s (set_callers (set_lock s (Some t)) t (CSend n))
| cs_send_closed s n :
    callers s !! t = Some (CSend n) → chanClosed s = true →
    caller_step t s (set_callers s t CPanicked)
| cs_send s n :
    callers s !! t = Some (CSend n) → chanClosed s = false →
    (length (chanBuf s) < stopTimeoutChan_cap)%nat →
    caller_step t s (set_callers (set_buf s (chanBuf s ++ [n])) t CWatch)
| cs_watch s w :
    callers s !! t = Some CWatch → w ∉ stopWatchers s → w ∉ closedWatchers s →
    caller_step t s (set_callers (set_lock (add_watcher s w) None) t (CWait w))
| cs_released s w :
    callers s !! t = Some (CWait w) → w ∈ closedWatchers s →
    caller_step t s (set_callers s t CReturned)
| cs_ctx_done s w :
    callers s !! t = Some (CWait w) →
    caller_step t s (set_callers s t CReturned).

(** ** Steps of [StopLoopForContainer] *)

Inductive loop_step : state → state → Prop :=
| ls_kill_ok s :  (** the first [kill] succeeded, or failed with a live process *)
    lp s = LBegin →
    loop_step s (set_lp s (LSelect (a_year_from (now s))))
| ls_kill_gone s :  (** the first [kill] failed and the process is gone *)
    lp s = LBegin → alive s = false →
    loop_step s (set_lp s LKillExec)
| ls_timeout s target n buf :
    lp s = LSelect target → chanBuf s = n :: buf →
    loop_step s (set_lp (set_buf s buf) (LSelect (take_timeout (now s) target n)))
| ls_expired s target :
    lp s = LSelect target → target ≤ now s →
    loop_step s (set_lp s LKill)
| ls_dead s target :
    lp s = LSelect target → alive s = false →
    loop_step s (set_lp s LKillExec)
| ls_interrupt s target :
    lp s = LSelect target → loop_step s (set_lp s LKillExec)
| ls_kill_retry s :
    lp s = LKill → alive s = true → loop_step s s
| ls_kill_dead s :
    lp s = LKill → alive s = false → loop_step s (set_lp s LKillExec)
| ls_kill_interrupt s :
    lp s = LKill → loop_step s (set_lp s LKillExec)
| ls_kill_exec s :  (** [KillExecPIDs] reads [execPIDs] under the lock *)
    lp s = LKillExec → stopLock s = None →
    loop_step s (set_lp s LDoneStopping)
| ls_done s :
    lp s = LDoneStopping → stopLock s = None →
    loop_step s (set_lp (SetAsDoneStopping s) LFinished).

(** The environment: time passes, the process dies, exec sessions come and go. *)
Inductive env_step : state → state → Prop :=
| es_time s t : now s ≤ t → env_step s (set_now s t)
| es_death s : env_step s (set_alive s false)
| es_add_exec s pid k s' :
    stopLock s = None → AddExecPID pid k s = Ret s' → env_step s s'
| es_del_exec s pid : stopLock s = None → env_step s (DeleteExecPID pid s).

Inductive step : state → state → Prop :=
| step_caller t s s' : caller_step t s s' → step s s'
| step_loop s s' : loop_step s s' → step s s'
| step_env s s' : env_step s s' → step s s'.

(** Every call starts at its entry. *)
Definition entries (cs : gmap nat caller) : Prop :=
  ∀ t c, cs !! t = Some c → ∃ n, c = CLiving n.

Definition reachable (s : state) : Prop :=
  ∃ t0 cs, entries cs ∧ rtc step (init t0 cs) s.

(** ** Invariant *)

Definition rank (l : loop) : nat :=
  match l with
  | LNotStarted => 0
  | LBegin => 1
  | LSelect _ => 2
  | LKill => 3
  | LKillExec => 4
  | LDoneStopping => 5
  | LFinished => 6
  end.

Definition target (l : loop) : option Z :=
  match l with LSelect t => Some t | _ => None end.

(** What holds of one caller. *)
Definition caller_ok (s : state) (t : nat) (c : caller) : Prop :=
  match c with
  | CSend _ => stopLock s = Some t
  | CWatch => stopLock s = Some t ∧ chanClosed s = false
  | CWait w => w ∈ stopWatchers s ∨ w ∈ closedWatchers s
  | _ => True
  end.

Record inv (s : state) : Prop := {
  inv_started : stopping s = bool_decide (lp s ≠ LNotStarted);
  inv_closed : chanClosed s = bool_decide (lp s = LFinished);
  inv_drained : chanClosed s = true → stopWatchers s = [];
  inv_callers t c : callers s !! t = Some c → caller_ok s t c;
}.

(** ** Lemmas *)

Lemma stop_inv_init t0 cs : entries cs → inv (init t0 cs).
Proof.
  intros Hcs. split; simpl; [done|done|done|].
  intros t c Hc. by destruct (Hcs _ _ Hc) as [n ->].
Qed.

(** Replacing one caller keeps the others' obligations. *)
Lemma callers_update s s' t c :
  (∀ t c, callers s !! t = Some c → caller_ok s t c) →
  callers s' = <[t := c]> (callers s) →
  caller_ok s' t c →
  (∀ t' c', t' ≠ t → caller_ok s t' c' → caller_ok s' t' c') →
  ∀ t c, callers s' !! t = Some c → caller_ok s' t c.
Proof.
  intros Hold -> Hc Hother t' c' [[<- <-]|[Hne Ht]]%lookup_insert_Some; [done|].
  apply Hother; [done|]. by apply Hold.
Qed.

Lemma inv_caller_step t s s' : caller_step t s s' → inv s → inv s'.
Proof.
  intros Hstep [Hst Hcl Hdr Hca].
  destruct Hstep as [s n Hc|s n Hc|s n st first Hc Hl Hset|s n Hc|s n Hc Hl Hs|s n Hc Hcc
                    |s n Hc Hcc Hlen|s w Hc Hw1 Hw2|s w Hc Hw|s w Hc].
  1,2,4,6,9,10: split; [done..|]; by eapply callers_update; [exact Hca|reflexivity|..].
  - unfold SetAsStopping in Hset.
    assert (st = true ∧ lp s ≠ LNotStarted ∨ st = true ∧ first = true ∧ lp s = LNotStarted)
      as Hcase.
    { rewrite Hst in Hset. destruct (decide (lp s = LNotStarted)) as [E|E].
      - right. rewrite bool_decide_eq_false_2 in Hset by (intros Hn; by apply Hn).
        by simplify_eq/=.
      - left. rewrite bool_decide_eq_true_2 in Hset by done. by simplify_eq/=. }
    assert ((if first then LBegin else lp s) ≠ LNotStarted) as Hne
      by (destruct Hcase as [[_ ?]|(_ & -> & _)]; [by destruct first|done]).
    assert (lp s = LFinished → first = false) as Hfin.
    { intros E. rewrite Hst, E in Hset. by simplify_eq/=. }
    split.
    + simpl. rewrite bool_decide_eq_true_2 by done. by destruct Hcase as [[? _]|[? _]].
    + simpl. rewrite Hcl. apply bool_decide_ext.
      destruct first; [|done]. split; [by intros ?%Hfin|done].
    + done.
    + by eapply callers_update; [exact Hca|reflexivity|..].
  - split; [done..|].
    eapply callers_update; [exact Hca|reflexivity|..]; simpl; [done|].
    intros t' [] Hne; simpl; rewrite ?Hl; naive_solver.
  - split; [done..|].
    eapply callers_update; [exact Hca|reflexivity|..]; simpl; [|done].
    split; [|done]. apply (Hca _ _ Hc).
  - pose proof (Hca _ _ Hc) as [Hlk Hcc].
    split; [done|done|simpl; congruence|].
    eapply callers_update; [exact Hca|reflexivity|..]; simpl; [set_solver|].
    intros t' [] Hne; simpl; rewrite ?Hlk; set_solver.
Qed.

Lemma inv_loop_step s s' : loop_step s s' → inv s → inv s'.
Proof.
  intros Hstep [Hst Hcl Hdr Hca].
  destruct Hstep as [s Hlp|s Hlp|s tg n buf Hlp|s tg Hlp|s tg Hlp|s tg Hlp|s Hlp
                    |s Hlp|s Hlp|s Hlp|s Hlp Hlk]; rewrite Hlp in *;
    try (by split; simpl in *; rewrite ?Hlp in *; try done).
  split; simpl in *; [done|done|done|].
  intros t c Hc. specialize (Hca _ _ Hc). destruct c; simpl in *; try done.
  - rewrite Hlk in Hca. by destruct Hca.
  - destruct Hca; set_solver.
Qed.

Lemma inv_env_step s s' : env_step s s' → inv s → inv s'.
Proof.
  intros Hstep [Hst Hcl Hdr Hca]. destruct Hstep as [s t|s|s pid k s' Hlk Hadd|s pid Hlk];
    [by split..| |by split].
  unfold AddExecPID in Hadd. case_match; simplify_eq. by split.
Qed.

Lemma stop_inv_step s s' : step s s' → inv s → inv s'.
Proof. destruct 1; eauto using inv_caller_step, inv_loop_step, inv_env_step. Qed.

Lemma inv_rtc s s' : rtc step s s' → inv s → inv s'.
Proof. induction 1; eauto using stop_inv_step. Qed.

Lemma stop_inv_reachable s : reachable s → inv s.
Proof. intros (t0 & cs & Hcs & Hr). eapply inv_rtc; eauto using stop_inv_init. Qed.

#[export] Hint Constructors step caller_step loop_step env_step : crio.

(** Once [stopping] is set it stays set. *)
Lemma stopping_step s s' : step s s' → stopping s = true → stopping s' = true.
Proof.
  destruct 1 as [t s s' H|s s' H|s s' H]; destruct H; simpl; try done.
  - intros Hs. unfold SetAsStopping in *. rewrite Hs in *. by simplify_eq/=.
  - unfold AddExecPID in *. case_match; by simplify_eq.
Qed.

Lemma exec_pids_step s s' :
  step s s' → stopping s = true → execPIDs s' ⊆ execPIDs s.
Proof.
  destruct 1 as [t s s' H|s s' H|s s' H]; destruct H; simpl; try done.
  - intros Hs. unfold AddExecPID in *. by rewrite Hs in *.
  - intros _. apply delete_subseteq.
Qed.

Lemma step_trans_l s1 s2 s3 : step s1 s2 → rtc step s2 s3 → rtc step s1 s3.
Proof. apply rtc_l. Qed.

(** A state in which a caller holds [stopLock] and waits on the full channel,
    while the stop loop no longer receives. *)
Record wedged (s : state) (t : nat) : Prop := {
  wd_lock : stopLock s = Some t;
  wd_send : ∃ n, callers s !! t = Some (CSend n);
  wd_full : length (chanBuf s) = stopTimeoutChan_cap;
  wd_open : chanClosed s = false;
  wd_loop : lp s = LKill ∨ lp s = LKillExec;
  wd_stop : stopping s = true;
  wd_inv : inv s;
}.

Lemma wedged_caller t' t s s' : caller_step t' s s' → wedged s t → wedged s' t.
Proof.
  intros Hstep [Hlk [n Hs] Hfull Hopen Hlp Hst Hinv].
  pose proof (inv_caller_step _ _ _ Hstep Hinv) as Hinv'.
  assert (∀ c, t' ≠ t → <[t' := c]> (callers s) !! t = Some (CSend n)) as Hkeep.
  { intros c ?. by rewrite lookup_insert_ne. }
  destruct Hstep as [s m Hc|s m Hc|s m st first Hc Hl Hset|s m Hc Hl|s m Hc Hl|s m Hc Hcc
                    |s m Hc Hcc Hlen|s w Hc Hw1 Hw2|s w Hc Hw|s w Hc];
    try congruence.
  1,2,5,6: split; try done; exists n; apply Hkeep; congruence.
  - assert (t' = t) as -> by (pose proof (inv_callers _ Hinv _ _ Hc) as H;
      simpl in H; congruence).
    rewrite Hfull in Hlen. lia.
  - pose proof (inv_callers _ Hinv _ _ Hc) as [H _]. simpl in H. congruence.
Qed.

Lemma wedged_step t s s' : step s s' → wedged s t → wedged s' t.
Proof.
  destruct 1 as [t' s s' H|s s' H|s s' H]; [by apply (wedged_caller t')| |].
  - intros Hw. pose proof (inv_loop_step _ _ H (wd_inv _ _ Hw)) as Hinv.
    destruct Hw as [Hlk Hs Hfull Hopen Hlp Hst _].
    destruct H; destruct Hlp; try congruence; split; auto.
  - intros Hw. pose proof (inv_env_step _ _ H (wd_inv _ _ Hw)) as Hinv.
    destruct Hw as [Hlk Hs Hfull Hopen Hlp Hst _].
    destruct H; try congruence; split; auto.
Qed.

Lemma wedged_rtc t s s' : rtc step s s' → wedged s t → wedged s' t.
Proof. induction 1; eauto using wedged_step. Qed.

(** ** A schedule that fills the channel *)

Ltac caller_go t :=
  eapply step_trans_l; [apply (step_caller t); econstructor; simpl; map_solve|].
Ltac loop_go :=
  eapply step_trans_l; [apply step_loop|].

(** The state once the loop is in its kill phase, [n] timeouts are queued and
    the callers after [n] have not started. *)
Record killing (s : state) (n : nat) : Prop := {
  kl_alive : alive s = true;
  kl_stopping : stopping s = true;
  kl_lock : stopLock s = None;
  kl_open : chanClosed s = false;
  kl_len : length (chanBuf s) = n;
  kl_lp : lp s = LKill;
  kl_callers t : (n < t ≤ 11)%nat → callers s !! t = Some (CLiving 0);
}.

Lemma killing_next s n :
  (n < 10)%nat → killing s n → ∃ s', rtc step s s' ∧ killing s' (S n).
Proof.
  intros Hn [Ha Hs Hl Ho Hlen Hlp Hc].
  pose proof (Hc (S n) ltac:(lia)) as Ht.
  set (w := fresh (list_to_set (stopWatchers s) ∪ closedWatchers s : gset nat)).
  assert (w ∉ list_to_set (stopWatchers s) ∪ closedWatchers s) as Hw by apply is_fresh.
  eexists. split.
  - eapply rtc_l; [apply (step_caller (S n)); by apply (cs_living (S n) s 0)|].
    eapply rtc_l.
    { apply (step_caller (S n)), (cs_set_stopping _ _ 0 true false); simpl;
        [by rewrite lookup_insert_eq|done|by rewrite Hs]. }
    eapply rtc_l.
    { apply (step_caller (S n)), (cs_lock _ _ 0); simpl;
        [by rewrite lookup_insert_eq|done|done]. }
    eapply rtc_l.
    { apply (step_caller (S n)), (cs_send _ _ 0); simpl;
        [by rewrite lookup_insert_eq|done|]. unfold stopTimeoutChan_cap. lia. }
    eapply rtc_l.
    { apply (step_caller (S n)), (cs_watch _ _ w); simpl;
        [by rewrite lookup_insert_eq|set_solver|set_solver]. }
    apply rtc_refl.
  - split; simpl; try done.
    + rewrite length_app. simpl. lia.
    + intros t Ht'. rewrite !lookup_insert_ne by lia. apply Hc. lia.
Qed.

(** Twelve calls with timeout 0. *)
Definition twelve : gmap nat caller := list_to_map ((λ t, (t, CLiving 0)) <$> seq 0 12).

Lemma killing_first : ∃ s, rtc step (init 0 twelve) s ∧ killing s 0.
Proof.
  eexists. split.
  - eapply rtc_l; [apply (step_caller 0); by apply (cs_living 0 _ 0)|].
    eapply rtc_l; [by apply (step_caller 0), (cs_set_stopping 0 _ 0 true true)|].
    eapply rtc_l; [by apply (step_caller 0), (cs_lock 0 _ 0)|].
    eapply rtc_l; [apply (step_caller 0), (cs_send 0 _ 0); [done|done|simpl; unfold stopTimeoutChan_cap; lia]|].
    eapply rtc_l; [apply (step_caller 0), (cs_watch 0 _ 0); [done|simpl; set_solver..]|].
    eapply rtc_l; [by apply step_loop, ls_kill_ok|].
    eapply rtc_l; [by eapply step_loop, ls_timeout|].
    eapply rtc_l; [by eapply step_loop, ls_expired|].
    apply rtc_refl.
  - split; simpl; try done.
    intros t Ht. do 12 (destruct t as [|t]; [try lia; reflexivity|]). lia.
Qed.

Lemma killing_reach n : (n ≤ 10)%nat → ∃ s, rtc step (init 0 twelve) s ∧ killing s n.
Proof.
  induction n as [|n IH]; intros Hn; [apply killing_first|].
  destruct IH as (s & Hr & Hk); [lia|].
  destruct (killing_next s n) as (s' & Hr' & Hk'); [lia|done|].
  exists s'. split; [by etrans|done].
Qed.

Lemma twelve_entries : entries twelve.
Proof.
  intros t c Hc. apply elem_of_list_to_map_2 in Hc.
  apply list_elem_of_fmap in Hc as (t' & ? & _). simplify_eq. eauto.
Qed.

(** Eleven callers later the channel is full and the lock is held. *)
Lemma wedge_reach : ∃ s, rtc step (init 0 twelve) s ∧ wedged s 11.
Proof.
  destruct (killing_reach 10) as (s & Hr & [Ha Hs Hl Ho Hlen Hlp Hc]); [lia|].
  pose proof (Hc 11%nat ltac:(lia)) as Ht.
  assert (rtc step s (set_callers (set_lock
            (set_callers (set_callers s 11 (CSetStopping 0)) 11 (CLock 0))
            (Some 11%nat)) 11 (CSend 0))) as Hr'.
  { eapply rtc_l; [apply (step_caller 11); by apply (cs_living 11 s 0)|].
    eapply rtc_l.
    { pose proof (cs_set_stopping 11 (set_callers s 11 (CSetStopping 0)) 0 true false) as Hst.
      apply (step_caller 11), Hst; simpl; [by rewrite lookup_insert_eq|done|by rewrite Hs]. }
    eapply rtc_l.
    { apply (step_caller 11), (cs_lock _ _ 0); simpl;
        [by rewrite lookup_insert_eq|done|done]. }
    unfold set_lp, set_stopping, set_callers, set_lock; simpl. rewrite Hs. apply rtc_refl. }
  eexists. split; [by etrans; [exact Hr|exact Hr']|].
  split; simpl; try done.
  - exists 0. by rewrite lookup_insert_eq.
  - by left.
  - apply stop_inv_reachable. exists 0, twelve. split; [apply twelve_entries|].
    by etrans; [exact Hr|exact Hr'].
Qed.

Lemma take_timeout_le nw tg n : take_timeout nw tg n ≤ tg.
Proof. unfold take_timeout. case_match eqn:E; [apply Z.ltb_lt in E|]; lia. Qed.

(** ** Properties *)

(** C22: a container has one stop loop, whose phases only advance, and whose
    deadline only moves earlier: a [StopContainer] call with a longer timeout
    never postpones the kill a shorter one asked for. *)
Theorem stop_loop_monotone s s' :
  reachable s → step s s' →
  (rank (lp s) ≤ rank (lp s'))%nat ∧
  (∀ tg tg', target (lp s) = Some tg → target (lp s') = Some tg' → tg' ≤ tg).
Proof.
  intros Hr%stop_inv_reachable Hstep.
  destruct Hstep as [t s s' H|s s' H|s s' H].
  - destruct H as [| |s n st first Hc Hl Hset| | | | | | |]; simpl; try naive_solver lia.
    unfold SetAsStopping in Hset. pose proof (inv_started _ Hr) as Hst.
    destruct (stopping s); simplify_eq/=; [naive_solver lia|].
    symmetry in Hst. apply bool_decide_eq_false in Hst.
    destruct (lp s); simpl in *; try (by destruct Hst); naive_solver lia.
  - destruct H as [? Hlp|? Hlp|? ? ? ? Hlp|? ? Hlp|? ? Hlp|? ? Hlp|? Hlp|? Hlp|? Hlp|? Hlp|? Hlp];
      rewrite ?Hlp; simpl; rewrite ?Hlp; simpl; (split; [lia|]); intros; simplify_eq/=.
    apply take_timeout_le.
  - destruct H; simpl; try naive_solver lia.
    unfold AddExecPID in *. case_match; simplify_eq/=. naive_solver lia.
Qed.

(** When the stop loop has finished, every request that waits on a watcher
    finds that watcher closed, so it can return. *)
Theorem finished_releases_waiters s t w :
  reachable s → lp s = LFinished → callers s !! t = Some (CWait w) →
  caller_step t s (set_callers s t CReturned) ∧ w ∈ closedWatchers s.
Proof.
  intros Hr%stop_inv_reachable Hlp Hc.
  assert (w ∈ closedWatchers s) as Hw.
  { pose proof (inv_callers _ Hr _ _ Hc) as [Hw|Hw]; [|done].
    rewrite (inv_drained _ Hr) in Hw; [by apply not_elem_of_nil in Hw|].
    rewrite (inv_closed _ Hr). by apply bool_decide_eq_true. }
  split; [by eapply cs_released|done].
Qed.

(** After the first [StopContainer] passed [SetAsStopping], no exec session
    is ever registered again: the set [KillExecPIDs] reads only shrinks. *)
Theorem no_exec_after_stopping s s' :
  rtc step s s' → stopping s = true →
  execPIDs s' ⊆ execPIDs s ∧
  ∀ pid k, AddExecPID pid k s' =
    Fail (ErrorsNew "cannot register an exec PID: container is stopping").
Proof.
  intros Hr Hs. assert (execPIDs s' ⊆ execPIDs s ∧ stopping s' = true) as [Hsub Hs'].
  { induction Hr as [s|s1 s2 s3 Hst Hr IH]; [done|].
    pose proof (stopping_step _ _ Hst Hs). destruct IH as [? ?]; [done|].
    split; [|done]. etrans; [done|]. by eapply exec_pids_step. }
  split; [done|]. intros pid k. unfold AddExecPID. by rewrite Hs'.
Qed.

(** A finding. A [StopContainer] call that passed [c.Living()] and then
    locks [stopLock] after the loop finished sends on the closed
    [stopTimeoutChan] and panics: [stopping] stays set for ever. *)
Theorem late_stop_panics :
  ∃ s, reachable s ∧ callers s !! 1%nat = Some CPanicked.
Proof.
  set (cs := {[ 0%nat := CLiving 10; 1%nat := CLiving 10 ]} : gmap nat caller).
  eexists. split.
  - exists 0, cs. split.
    { intros t c Hc. unfold cs in Hc.
      apply lookup_insert_Some in Hc as [[<- <-]|[_ Hc]]; [eauto|].
      apply lookup_singleton_Some in Hc as [<- <-]. eauto. }
    eapply rtc_l; [by apply (step_caller 0), (cs_living 0 _ 10)|].
    eapply rtc_l; [by apply (step_caller 1), (cs_living 1 _ 10)|].
    eapply rtc_l; [by apply (step_caller 0), (cs_set_stopping 0 _ 10 true true)|].
    eapply rtc_l; [by apply step_env, es_death|].
    eapply rtc_l; [by apply step_loop, ls_kill_gone|].
    eapply rtc_l; [by apply step_loop, ls_kill_exec|].
    eapply rtc_l; [by apply step_loop, ls_done|].
    eapply rtc_l; [by apply (step_caller 1), (cs_set_stopping 1 _ 10 true false)|].
    eapply rtc_l; [by apply (step_caller 1), (cs_lock 1 _ 10)|].
    eapply rtc_l; [by apply (step_caller 1), (cs_send_closed 1 _ 10)|].
    apply rtc_refl.
  - done.
Qed.

(** A finding. In the kill phase nobody receives from [stopTimeoutChan], so
    the eleventh further request blocks on the full channel while it holds
    [stopLock]; the loop then never finishes, whatever happens next, since its
    deferred [KillExecPIDs] needs that lock. *)
Theorem full_channel_deadlock :
  ∃ s, reachable s ∧ ∀ s', rtc step s s' → lp s' ≠ LFinished.
Proof.
  destruct wedge_reach as (s & Hr & Hw).
  exists s. split; [by exists 0, twelve; split; [apply twelve_entries|]|].
  intros s' Hr'. pose proof (wedged_rtc _ _ _ Hr' Hw) as [_ _ _ _ [-> | ->] _ _]; done.
Qed.

(** A timeout up to 9223372036 s gives the deadline it says; a larger one
    (up to 18446744073 s) overflows [int64] nanoseconds, so that the deadline is
    already past and the container is killed at once. *)
Theorem newTargetTime_bounds nw n :
  (0 ≤ n ≤ 9223372036 → newTargetTime nw n = nw + n * second) ∧
  (9223372036 < n ≤ 18446744073 → newTargetTime nw n < nw).
Proof.
  unfold newTargetTime, second, wrap_s. split; intros Hn.
  - rewrite Z.mod_small; lia.
  - replace (n * 1000000000 + 2 ^ (64 - 1)) with
      ((n * 1000000000 - 2 ^ 63) + 1 * 2 ^ 64) by lia.
    rewrite Z.mod_add by lia. rewrite Z.mod_small; lia.
Qed.

(** ** Witnesses *)

Definition one_call : gmap nat caller := {[ 0%nat := CLiving 10 ]}.

Lemma one_call_entries : entries one_call.
Proof. unfold one_call. intros t c [<- <-]%lookup_singleton_Some. eauto. Qed.

(** The state after one request was sent and the loop selects. *)
Definition selecting : state :=
  mkState 0 true true [10] false [0%nat] ∅ ∅ None (LSelect (a_year_from 0))
    {[ 0%nat := CWait 0 ]}.

Lemma selecting_reach : rtc step (init 0 one_call) selecting.
Proof.
  eapply rtc_l; [by apply (step_caller 0), (cs_living 0 _ 10)|].
  eapply rtc_l; [by apply (step_caller 0), (cs_set_stopping 0 _ 10 true true)|].
  eapply rtc_l; [by apply (step_caller 0), (cs_lock 0 _ 10)|].
  eapply rtc_l; [apply (step_caller 0), (cs_send 0 _ 10); [done|done|simpl; unfold stopTimeoutChan_cap; lia]|].
  eapply rtc_l; [apply (step_caller 0), (cs_watch 0 _ 0); [done|simpl; set_solver..]|].
  eapply rtc_l; [by apply step_loop, ls_kill_ok|].
  apply rtc_refl.
Qed.

Lemma selecting_reachable : reachable selecting.
Proof. exists 0, one_call. split; [apply one_call_entries|apply selecting_reach]. Qed.

(** The same run once the process has died and the loop is done. *)
Definition finished : state :=
  mkState 0 false true [10] true [] {[ 0%nat ]} ∅ None LFinished {[ 0%nat := CWait 0 ]}.

Lemma selecting_finished : rtc step selecting finished.
Proof.
  eapply rtc_l; [by apply step_env, es_death|].
  eapply rtc_l; [by eapply step_loop, ls_dead|].
  eapply rtc_l; [by apply step_loop, ls_kill_exec|].
  eapply rtc_l; [by apply step_loop, ls_done|].
  apply rtc_refl.
Qed.

Lemma stop_loop_monotone_witness :
  let s' := set_lp (set_buf selecting []) (LSelect (take_timeout 0 (a_year_from 0) 10)) in
  target (lp s') = Some (10 * second) ∧ 10 * second ≤ a_year_from 0.
Proof.
  split; [reflexivity|].
  apply (stop_loop_monotone selecting
    (set_lp (set_buf selecting []) (LSelect (take_timeout 0 (a_year_from 0) 10))));
    [apply selecting_reachable| |reflexivity|reflexivity].
  apply step_loop. by apply ls_timeout.
Defined.

Lemma finished_releases_waiters_witness : 0%nat ∈ closedWatchers finished.
Proof.
  apply (finished_releases_waiters finished 0%nat 0%nat); [|reflexivity|reflexivity].
  exists 0, one_call. split; [apply one_call_entries|].
  etrans; [apply selecting_reach|apply selecting_finished].
Defined.

Lemma no_exec_after_stopping_witness :
  AddExecPID 7 true finished =
    Fail (ErrorsNew "cannot register an exec PID: container is stopping").
Proof.
  apply (no_exec_after_stopping selecting finished); [apply selecting_finished|reflexivity].
Defined.

Lemma newTargetTime_bounds_witness :
  newTargetTime 5 30 = 30000000005 ∧ newTargetTime 5 9223372037 < 5.
Proof.
  split; [apply (newTargetTime_bounds 5 30); lia|apply newTargetTime_bounds; lia].
Defined.
