(* ===== verification/GoStrings.v ===== *)
(** * GoStrings: the functions of Go's [strings], [bytes] and [strconv] the
    sources use

    A Go string is a sequence of bytes, here a [string] of 8-bit [ascii].
    White space is the ASCII white space: [strings.Fields] and
    [strings.TrimSpace] also know some multi-byte spaces, which none of the
    inputs modelled here (procfs, sysfs, annotations of numbers) contains. *)

From S2P Require Import Prelude.
From Stdlib Require Import Ascii.
Local Open Scope Z_scope.

Abbreviation slen s := (Z.of_nat (String.length s)).

(** ** Searching and slicing *)

Definition HasPrefix (s prefix : string) : bool := String.prefix prefix s.

(** [s[n:]], the empty string when [n] is past the end (callers check). *)
Fixpoint str_drop (n : nat) (s : string) : string :=
  match n, s with
  | O, _ => s
  | S n, String _ s => str_drop n s
  | S _, EmptyString => EmptyString
  end.

(** [s[:n]] *)
Fixpoint str_take (n : nat) (s : string) : string :=
  match n, s with
  | O, _ => EmptyString
  | S n, String c s => String c (str_take n s)
  | S _, EmptyString => EmptyString
  end.

Definition TrimPrefix (s prefix : string) : string :=
  if HasPrefix s prefix then str_drop (String.length prefix) s else s.

(** Reversal, for the functions that look at the end of a string. *)
Definition str_rev (s : string) : string := String.rev s.

Definition HasSuffix (s suffix : string) : bool := HasPrefix (str_rev s) (str_rev suffix).

Definition TrimSuffix (s suffix : string) : string :=
  if HasSuffix s suffix then str_take (String.length s - String.length suffix) s else s.

Fixpoint Contains (s sub : string) : bool :=
  HasPrefix s sub ||
  match s with
  | EmptyString => false
  | String _ s => Contains s sub
  end.

(** [strings.ContainsRune] for a one-byte rune, and its negation as a predicate. *)
Fixpoint contains_char (c : ascii) (s : string) : bool :=
  match s with
  | EmptyString => false
  | String d s => bool_decide (d = c) || contains_char c s
  end.

(** [bytes.LastIndexByte], [None] for -1. *)
Fixpoint LastIndexByte (s : string) (c : ascii) : option nat :=
  match s with
  | EmptyString => None
  | String d s =>
      match LastIndexByte s c with
      | Some i => Some (S i)
      | None => if bool_decide (d = c) then Some O else None
      end
  end.

(** [strings.IndexByte], [None] for -1. *)
Fixpoint IndexByte (s : string) (c : ascii) : option nat :=
  match s with
  | EmptyString => None
  | String d s => if bool_decide (d = c) then Some O else S <$> IndexByte s c
  end.

(** ** Splitting and joining *)

(** [strings.Split(s, sep)] for a one-byte separator. *)
Fixpoint Split (s : string) (sep : ascii) : list string :=
  match s with
  | EmptyString => [EmptyString]
  | String c s =>
      if bool_decide (c = sep) then EmptyString :: Split s sep
      else match Split s sep with
           | [] => [String c EmptyString]
           | w :: ws => String c w :: ws
           end
  end.

(** [strings.SplitN(s, sep, 2)], also [strings.Cut]: before and after the first
    separator. *)
Fixpoint Cut (s : string) (sep : ascii) : option (string * string) :=
  match s with
  | EmptyString => None
  | String c s =>
      if bool_decide (c = sep) then Some (EmptyString, s)
      else '(w, r) ← Cut s sep; Some (String c w, r)
  end.

(** [strings.Join(l, sep)] *)
Fixpoint Join (l : list string) (sep : string) : string :=
  match l with
  | [] => EmptyString
  | [w] => w
  | w :: ws => w +:+ sep +:+ Join ws sep
  end.

Definition is_space (c : ascii) : bool := Ascii.is_space c.

Definition cons_word (w : string) (ws : list string) : list string :=
  match w with EmptyString => ws | _ => w :: ws end.

(** The word [s] begins with (possibly empty), and the words after it. *)
Fixpoint fields_go (s : string) : string * list string :=
  match s with
  | EmptyString => (EmptyString, [])
  | String c s =>
      let '(w, ws) := fields_go s in
      if is_space c then (EmptyString, cons_word w ws) else (String c w, ws)
  end.

(** [strings.Fields], [bytes.Fields] *)
Definition Fields (s : string) : list string :=
  let '(w, ws) := fields_go s in cons_word w ws.

Fixpoint trim_left (s : string) : string :=
  match s with
  | String c s' => if is_space c then trim_left s' else s
  | EmptyString => EmptyString
  end.

Definition TrimSpace (s : string) : string := str_rev (trim_left (str_rev (trim_left s))).

Definition ascii_upper (c : ascii) : ascii :=
  if (97 <=? nat_of_ascii c)%nat && (nat_of_ascii c <=? 122)%nat
  then ascii_of_nat (nat_of_ascii c - 32) else c.
Definition ascii_lower (c : ascii) : ascii :=
  if (65 <=? nat_of_ascii c)%nat && (nat_of_ascii c <=? 90)%nat
  then ascii_of_nat (nat_of_ascii c + 32) else c.

Fixpoint str_map (f : ascii → ascii) (s : string) : string :=
  match s with
  | EmptyString => EmptyString
  | String c s => String (f c) (str_map f s)
  end.
Definition ToUpper := str_map ascii_upper.
Definition ToLower := str_map ascii_lower.

(** [strings.EqualFold] on ASCII. *)
Definition EqualFold (a b : string) : bool := bool_decide (ToLower a = ToLower b).

(** [strings.ReplaceAll] of one byte by another string. *)
Fixpoint replace_char (s : string) (c : ascii) (by_ : string) : string :=
  match s with
  | EmptyString => EmptyString
  | String d s =>
      if bool_decide (d = c) then by_ +:+ replace_char s c by_
      else String d (replace_char s c by_)
  end.

(** ** Paths *)

(** One element of the path in [filepath.Clean]; the stack is reversed. *)
Definition clean_step (rooted : bool) (stack : list string) (e : string) : list string :=
  if bool_decide (e = "") || bool_decide (e = ".") then stack
  else if bool_decide (e = "..") then
    match stack with
    | [] => if rooted then [] else [".."]
    | top :: rest => if bool_decide (top = "..") then ".." :: stack else rest
    end
  else e :: stack.

(** [filepath.Clean] *)
Definition Clean (p : string) : string :=
  if bool_decide (p = "") then "."
  else
    let rooted := HasPrefix p "/" in
    let body := Join (reverse (foldl (clean_step rooted) [] (Split p "/"))) "/" in
    if rooted then "/" +:+ body
    else if bool_decide (body = "") then "." else body.

(** [filepath.Join]: empty elements before the first non-empty one are dropped. *)
Fixpoint PathJoin (elems : list string) : string :=
  match elems with
  | [] => ""
  | e :: es => if bool_decide (e = "") then PathJoin es else Clean (Join (e :: es) "/")
  end.

Arguments PathJoin elems : simpl never.

(** [filepath.Dir]: everything up to the last slash, cleaned. *)
Definition Dir (p : string) : string :=
  match LastIndexByte p "/" with
  | None => "."
  | Some i => Clean (str_take (S i) p)
  end.

Fixpoint drop_slashes (s : string) : string :=
  match s with
  | String "/" s' => drop_slashes s'
  | _ => s
  end.

(** [filepath.Base]: the last element, without trailing slashes. *)
Definition Base (p : string) : string :=
  if bool_decide (p = "") then "."
  else
    let p := str_rev (drop_slashes (str_rev p)) in
    if bool_decide (p = "") then "/"
    else match LastIndexByte p "/" with
         | None => p
         | Some i => str_drop (S i) p
         end.

Fixpoint str_forallb (f : ascii → bool) (s : string) : bool :=
  match s with
  | EmptyString => true
  | String c s => f c && str_forallb f s
  end.

(** ** Numbers *)

Definition digit_value (c : ascii) : option Z := Z.of_nat <$> Ascii.is_nat c.

Fixpoint digits_value (acc : Z) (s : string) : option Z :=
  match s with
  | EmptyString => Some acc
  | String c s => d ← digit_value c; digits_value (acc * 10 + d) s
  end.

(** [strconv.ParseUint(s, 10, w)] *)
Definition ParseUint (w : Z) (s : string) : outcome Z :=
  match s with
  | EmptyString => Fail (ErrorsNew "invalid syntax")
  | _ =>
      match digits_value 0 s with
      | None => Fail (ErrorsNew "invalid syntax")
      | Some v => if v <? 2 ^ w then Ret v else Fail (ErrorsNew "value out of range")
      end
  end.

(** [strconv.ParseInt(s, 10, w)]; [strconv.Atoi] is the case [w = 64]. *)
Definition ParseInt (w : Z) (s : string) : outcome Z :=
  let neg := HasPrefix s "-" in
  let body := if neg || HasPrefix s "+" then str_drop 1 s else s in
  match body with
  | EmptyString => Fail (ErrorsNew "invalid syntax")
  | _ =>
      match digits_value 0 body with
      | None => Fail (ErrorsNew "invalid syntax")
      | Some v =>
          let v := if neg then - v else v in
          if (- 2 ^ (w - 1) <=? v) && (v <? 2 ^ (w - 1)) then Ret v
          else Fail (ErrorsNew "value out of range")
      end
  end.

Definition Atoi : string → outcome Z := ParseInt 64.

(** [strconv.Itoa], [%d] *)
Definition Itoa (z : Z) : string := pretty z.

(** ** Lemmas: append *)

Lemma append_cons c s t : String c s +:+ t = String c (s +:+ t).
Proof. done. Qed.
Lemma append_nil_l t : "" +:+ t = t.
Proof. done. Qed.
Lemma append_nil_r s : s +:+ "" = s.
Proof. induction s as [|c s IH]; [done|]. by rewrite append_cons, IH. Qed.
Lemma append_assoc s t u : (s +:+ t) +:+ u = s +:+ t +:+ u.
Proof. induction s as [|c s IH]; [done|]. by rewrite !append_cons, IH. Qed.
Lemma length_append s t : String.length (s +:+ t) = (String.length s + String.length t)%nat.
Proof. induction s as [|c s IH]; [done|]. rewrite append_cons. simpl. by rewrite IH. Qed.

Ltac str_simpl := repeat first [rewrite append_cons | rewrite append_nil_l | progress simpl].

Lemma str_drop_app s t : str_drop (String.length s) (s +:+ t) = t.
Proof. induction s as [|c s IH]; [done|]. by rewrite append_cons. Qed.
Lemma str_take_app s t : str_take (String.length s) (s +:+ t) = s.
Proof. induction s as [|c s IH]; [done|]. rewrite append_cons. simpl. by rewrite IH. Qed.
Lemma str_take_all s n : (String.length s ≤ n)%nat → str_take n s = s.
Proof.
  revert n. induction s as [|c s IH]; intros [|n]; simpl; try done; [lia|].
  intros. by rewrite IH by lia.
Qed.

Lemma HasPrefix_app s t : HasPrefix (s +:+ t) s = true.
Proof.
  unfold HasPrefix. induction s as [|c s IH]; [by destruct t|].
  rewrite append_cons. simpl. by destruct (ascii_dec c c).
Qed.

Lemma HasPrefix_spec s p : HasPrefix s p = true ↔ ∃ r, s = p +:+ r.
Proof.
  split.
  - unfold HasPrefix. revert s. induction p as [|c p IH]; intros s; [by exists s|].
    destruct s as [|d s]; simpl; [done|].
    destruct (ascii_dec c d); [|done]. subst. intros [r ->]%IH.
    exists r. by rewrite append_cons.
  - intros [r ->]. apply HasPrefix_app.
Qed.

Lemma TrimPrefix_app p s : TrimPrefix (p +:+ s) p = s.
Proof. unfold TrimPrefix. by rewrite HasPrefix_app, str_drop_app. Qed.

(** ** Lemmas: characters *)

Lemma contains_char_app c s t :
  contains_char c (s +:+ t) = contains_char c s || contains_char c t.
Proof.
  induction s as [|d s IH]; [done|]. rewrite append_cons. simpl. by rewrite IH, orb_assoc.
Qed.

Lemma LastIndexByte_none s c : LastIndexByte s c = None ↔ contains_char c s = false.
Proof.
  induction s as [|d s IH]; simpl; [done|].
  destruct (LastIndexByte s c); case_bool_decide; simpl; naive_solver.
Qed.

Lemma LastIndexByte_app s t c :
  contains_char c t = false →
  LastIndexByte (s +:+ String c t) c = Some (String.length s).
Proof.
  intros Ht. induction s as [|d s IH].
  - rewrite append_nil_l. simpl. apply LastIndexByte_none in Ht. rewrite Ht.
    by rewrite bool_decide_eq_true_2.
  - rewrite append_cons. simpl. by rewrite IH.
Qed.

(** ** Lemmas: the end of a string *)

Lemma str_rev_acc s t : String.rev_app s t = str_rev s +:+ t.
Proof.
  revert t. induction s as [|c s IH]; intros t; [done|]. unfold str_rev, String.rev. simpl.
  rewrite IH, (IH (String c "")), append_assoc. done.
Qed.

Lemma str_rev_app s t : str_rev (s +:+ t) = str_rev t +:+ str_rev s.
Proof.
  induction s as [|c s IH]; [by rewrite append_nil_l, append_nil_r|].
  rewrite append_cons. unfold str_rev at 1, String.rev. simpl. rewrite str_rev_acc, IH.
  unfold str_rev at 4, String.rev. simpl. by rewrite str_rev_acc, append_assoc.
Qed.

Lemma str_rev_involutive s : str_rev (str_rev s) = s.
Proof.
  induction s as [|c s IH]; [done|]. unfold str_rev at 2, String.rev. simpl.
  rewrite str_rev_acc, str_rev_app, IH. done.
Qed.

Lemma contains_char_rev c s : contains_char c (str_rev s) = contains_char c s.
Proof.
  induction s as [|d s IH]; [done|]. unfold str_rev, String.rev. simpl.
  rewrite str_rev_acc, contains_char_app, IH. simpl. by rewrite orb_false_r, orb_comm.
Qed.

Lemma HasSuffix_spec s x : HasSuffix s x = true ↔ ∃ r, s = r +:+ x.
Proof.
  unfold HasSuffix. rewrite HasPrefix_spec. split; intros [r Hr].
  - exists (str_rev r). rewrite <- (str_rev_involutive s), Hr, str_rev_app. by rewrite str_rev_involutive.
  - exists (str_rev r). by rewrite Hr, str_rev_app.
Qed.

Lemma TrimSuffix_app r x : TrimSuffix (r +:+ x) x = r.
Proof.
  unfold TrimSuffix. rewrite (proj2 (HasSuffix_spec _ _)) by eauto. rewrite length_append.
  replace (String.length r + String.length x - String.length x)%nat with (String.length r) by lia.
  apply str_take_app.
Qed.

Lemma Base_app p w : w ≠ "" → contains_char "/" w = false → Base (p +:+ "/" +:+ w) = w.
Proof.
  intros Hne Hw. unfold Base.
  rewrite bool_decide_eq_false_2 by (destruct p; [by rewrite append_nil_l|by rewrite append_cons]).
  assert (drop_slashes (str_rev (p +:+ "/" +:+ w)) = str_rev (p +:+ "/" +:+ w)) as ->.
  { rewrite str_rev_app, str_rev_app, append_assoc. rewrite <- contains_char_rev in Hw.
    destruct (str_rev w) as [|c s] eqn:Hr.
    - by rewrite <- (str_rev_involutive w), Hr in Hne.
    - rewrite append_cons. simpl in *. destruct c as [[] [] [] [] [] [] [] []]; done. }
  rewrite str_rev_involutive.
  rewrite bool_decide_eq_false_2 by (destruct p; [by rewrite append_nil_l|by rewrite append_cons]).
  change ("/" +:+ w) with (String "/" w). rewrite LastIndexByte_app by done.
  change (String "/" w) with ("/" +:+ w). rewrite <- append_assoc.
  replace (S (String.length p)) with (String.length (p +:+ "/")) by (rewrite length_append; simpl; lia).
  apply str_drop_app.
Qed.

Lemma Contains_char s c : Contains s (String c "") = contains_char c s.
Proof.
  induction s as [|d s IH]; [done|]. simpl. rewrite IH. f_equal. unfold HasPrefix. simpl.
  destruct (ascii_dec c d) as [->|]; [by rewrite bool_decide_eq_true_2; destruct s|].
  by rewrite bool_decide_eq_false_2 by congruence.
Qed.

(** ** Lemmas: splitting *)

Lemma Split_ne_nil s sep : Split s sep ≠ [].
Proof. destruct s; simpl; [done|]. repeat case_match; done. Qed.

Lemma Join_cons w ws sep : ws ≠ [] → Join (w :: ws) sep = w +:+ sep +:+ Join ws sep.
Proof. by destruct ws. Qed.

Lemma contains_char_Join c l sep :
  contains_char c sep = false → Forall (λ w, contains_char c w = false) l →
  contains_char c (Join l sep) = false.
Proof.
  intros Hs. induction l as [|w [|w' l] IH]; intros Hall; [done|by inv Hall|].
  rewrite Join_cons by done. inv Hall. rewrite !contains_char_app.
  apply orb_false_iff. split; [done|]. apply orb_false_iff. auto.
Qed.

Lemma Join_Split s sep : Join (Split s sep) (String sep "") = s.
Proof.
  induction s as [|c s IH]; [done|]. simpl. case_bool_decide; subst.
  - rewrite Join_cons by apply Split_ne_nil. rewrite IH. done.
  - pose proof (Split_ne_nil s sep). destruct (Split s sep) as [|w [|w' ws]]; [done| |].
    + simpl in *. by subst.
    + rewrite Join_cons in * by done. rewrite append_cons. by rewrite IH.
Qed.

Lemma Split_word w sep : contains_char sep w = false → Split w sep = [w].
Proof.
  induction w as [|c w IH]; simpl; [done|]. case_bool_decide; simpl; [done|].
  intros Hw. by rewrite IH.
Qed.

Lemma Split_app w s sep :
  contains_char sep w = false → Split (w +:+ String sep s) sep = w :: Split s sep.
Proof.
  induction w as [|c w IH]; simpl.
  - intros _. by rewrite bool_decide_eq_true_2.
  - case_bool_decide; simpl; [done|]. intros Hw. by rewrite IH.
Qed.

Lemma Split_Join l sep :
  l ≠ [] → Forall (λ w, contains_char sep w = false) l →
  Split (Join l (String sep "")) sep = l.
Proof.
  induction l as [|w [|w' l] IH]; intros Hne Hall; [done| |].
  - apply Split_word. by inv Hall.
  - rewrite Join_cons by done. inv Hall. rewrite append_cons, append_nil_l.
    rewrite Split_app by done. by rewrite IH.
Qed.

Lemma Cut_app w s sep :
  contains_char sep w = false → Cut (w +:+ String sep s) sep = Some (w, s).
Proof.
  induction w as [|c w IH]; simpl.
  - intros _. by rewrite bool_decide_eq_true_2.
  - case_bool_decide; simpl; [done|]. intros Hw. by rewrite IH.
Qed.

Lemma Cut_none s sep : contains_char sep s = false → Cut s sep = None.
Proof.
  induction s as [|c s IH]; simpl; [done|]. case_bool_decide; simpl; [done|].
  intros Hs. by rewrite IH.
Qed.

Lemma Cut_none_inv s sep : Cut s sep = None → contains_char sep s = false.
Proof.
  induction s as [|c s IH]; simpl; [done|]. case_bool_decide; simpl; [done|].
  destruct (Cut s sep) as [[]|]; [done|]. auto.
Qed.

Lemma Cut_some s sep w r :
  Cut s sep = Some (w, r) → s = w +:+ String sep r ∧ contains_char sep w = false.
Proof.
  revert w. induction s as [|c s IH]; intros w; simpl; [done|]. case_bool_decide.
  - intros [= <- <-]. by subst.
  - destruct (Cut s sep) as [[w' r']|]; [|done]. simpl. intros [= <- <-].
    destruct (IH w' eq_refl) as [-> ?]. simpl. by rewrite bool_decide_eq_false_2.
Qed.

(** ** Lemmas: fields *)

Definition word (w : string) : bool :=
  negb (bool_decide (w = "")) && str_forallb (λ c, negb (is_space c)) w.

Lemma fields_go_word w s :
  str_forallb (λ c, negb (is_space c)) w = true →
  fields_go (w +:+ s) = (w +:+ (fields_go s).1, (fields_go s).2).
Proof.
  induction w as [|c w IH]; simpl.
  - intros _. rewrite !append_nil_l. by destruct (fields_go s).
  - intros [Hc Hw]%andb_true_iff. rewrite !append_cons. simpl.
    rewrite (IH Hw). simpl. by destruct (is_space c).
Qed.

Lemma Fields_cons w s :
  word w = true → Fields (w +:+ " " +:+ s) = w :: Fields s.
Proof.
  intros [Hne Hw]%andb_true_iff. unfold Fields.
  rewrite fields_go_word by done. rewrite append_cons, append_nil_l. simpl.
  destruct (fields_go s) as [w' ws]. simpl. rewrite append_nil_r.
  destruct w; [done|]. done.
Qed.

Lemma Fields_word w : word w = true → Fields w = [w].
Proof.
  intros [Hne Hw]%andb_true_iff. unfold Fields.
  pose proof (fields_go_word w "" Hw) as H. rewrite append_nil_r in H.
  rewrite H. simpl. rewrite append_nil_r. by destruct w.
Qed.

Lemma Fields_Join l : Forall (λ w, word w = true) l → Fields (Join l " ") = l.
Proof.
  induction l as [|w [|w' l] IH]; intros Hall; [done| |]; inv Hall.
  - by apply Fields_word.
  - rewrite Join_cons by done. rewrite Fields_cons by done. by rewrite IH.
Qed.

(** White space at the end does not make a field. *)
Lemma fields_go_trailing s c : is_space c = true → fields_go (s +:+ String c "") = fields_go s.
Proof.
  intros Hc. induction s as [|d s IH].
  - rewrite append_nil_l. simpl. by rewrite Hc.
  - rewrite append_cons. simpl. by rewrite IH.
Qed.

Lemma Fields_trailing s c : is_space c = true → Fields (s +:+ String c "") = Fields s.
Proof. intros. unfold Fields. by rewrite fields_go_trailing. Qed.

(** ** Lemmas: paths *)

Example Clean_dots : Clean "/a/./b//../c/" = "/a/c".
Proof. reflexivity. Qed.
Example Clean_up : Clean "../../a/.." = "../..".
Proof. reflexivity. Qed.
Example PathJoin_ex : PathJoin [""; "/sys/fs"; ""; "cgroup/"] = "/sys/fs/cgroup".
Proof. reflexivity. Qed.

(** ** Lemmas: numbers *)

Lemma digit_value_char n : (n < 10)%N → digit_value (pretty_N_char n) = Some (Z.of_N n).
Proof.
  intros. assert (n = 0 ∨ n = 1 ∨ n = 2 ∨ n = 3 ∨ n = 4 ∨ n = 5 ∨ n = 6 ∨ n = 7 ∨ n = 8
    ∨ n = 9)%N by lia. naive_solver.
Qed.

Lemma digits_value_go n s : digits_value 0 (pretty_N_go n s) = digits_value (Z.of_N n) s.
Proof.
  revert s. induction (N.lt_wf_0 n) as [n _ IH]; intros s.
  destruct (decide (n = 0%N)) as [->|Hn]; [by rewrite pretty_N_go_0|].
  rewrite pretty_N_go_step by lia. rewrite IH by (apply N.div_lt; lia). simpl.
  rewrite digit_value_char by (apply N.mod_lt; lia). simpl. f_equal.
  rewrite N2Z.inj_div, N2Z.inj_mod. pose proof (Z.div_mod (Z.of_N n) 10). lia.
Qed.

Lemma digits_value_pretty (n : N) : digits_value 0 (pretty n) = Some (Z.of_N n).
Proof.
  unfold pretty, pretty_N. case_decide; [by subst|]. by rewrite digits_value_go.
Qed.

Lemma pretty_N_go_digits n s :
  str_forallb (λ c, bool_decide (is_Some (digit_value c))) s = true →
  str_forallb (λ c, bool_decide (is_Some (digit_value c))) (pretty_N_go n s) = true.
Proof.
  revert s. induction (N.lt_wf_0 n) as [n _ IH]; intros s Hs.
  destruct (decide (n = 0%N)) as [->|Hn]; [by rewrite pretty_N_go_0|].
  rewrite pretty_N_go_step by lia. apply IH; [apply N.div_lt; lia|]. simpl.
  rewrite digit_value_char by (apply N.mod_lt; lia).
  rewrite bool_decide_eq_true_2 by eauto. done.
Qed.

(** The decimal form of a natural number is made of digits only. *)
Lemma pretty_N_digits (n : N) :
  str_forallb (λ c, bool_decide (is_Some (digit_value c))) (pretty n) = true.
Proof.
  unfold pretty, pretty_N. case_decide; [done|]. by apply pretty_N_go_digits.
Qed.

Lemma pretty_N_nonempty (n : N) : pretty n ≠ ("" : string).
Proof.
  intros E. pose proof (digits_value_pretty n) as H. rewrite E in H. simpl in H.
  injection H as H. assert (n = 0%N) as -> by lia. done.
Qed.

Lemma Itoa_nonneg z : 0 ≤ z → Itoa z = pretty (Z.to_N z).
Proof. intros. unfold Itoa, pretty, pretty_Z. destruct z; [done|done|lia]. Qed.

Lemma forallb_not_char (f : ascii → bool) c s :
  f c = false → str_forallb f s = true → contains_char c s = false.
Proof.
  intros Hc. induction s as [|d s IH]; simpl; [done|].
  intros [Hd Hs]%andb_true_iff. rewrite IH by done.
  rewrite bool_decide_eq_false_2; [done|]. intros ->. congruence.
Qed.

Lemma Itoa_not_char z c :
  0 ≤ z → digit_value c = None → contains_char c (Itoa z) = false.
Proof.
  intros Hz Hc. rewrite Itoa_nonneg by done. eapply forallb_not_char, pretty_N_digits.
  simpl. rewrite Hc. by apply bool_decide_eq_false_2, is_Some_None.
Qed.

Lemma prefix_char_absent c s : contains_char c s = false → HasPrefix s (String c "") = false.
Proof.
  destruct s as [|d s]; [done|]. unfold HasPrefix. simpl.
  intros [Hd _]%orb_false_iff. apply bool_decide_eq_false in Hd.
  destruct (ascii_dec c d); [congruence|done].
Qed.

(** Parsing a printed number gives the number back. *)
Lemma Atoi_Itoa z : 0 ≤ z < 2 ^ 63 → Atoi (Itoa z) = Ret z.
Proof.
  intros Hz. unfold Atoi, ParseInt.
  rewrite !prefix_char_absent by (apply Itoa_not_char; [lia|done]). simpl orb. cbv iota.
  rewrite Itoa_nonneg, digits_value_pretty by lia.
  pose proof (pretty_N_nonempty (Z.to_N z)).
  destruct (pretty (Z.to_N z)); [done|].
  rewrite Z2N.id by lia. cbv zeta. 
  replace ((- 2 ^ (64 - 1) <=? z) && (z <? 2 ^ (64 - 1))) with true; [done|].
  symmetry. apply andb_true_iff. split; [apply Z.leb_le|apply Z.ltb_lt]; lia.
Qed.

Lemma digits_value_nonneg acc s v : 0 ≤ acc → digits_value acc s = Some v → 0 ≤ v.
Proof.
  revert acc. induction s as [|c s IH]; intros acc Hacc; simpl; [by intros [= <-]|].
  intros (d & Hd & Hv)%bind_Some. eapply IH; [|exact Hv].
  unfold digit_value in Hd. destruct (Ascii.is_nat c); simplify_eq/=. lia.
Qed.

(** A number without a minus sign is not negative. *)
Lemma Atoi_nonneg s z : contains_char "-" s = false → Atoi s = Ret z → 0 ≤ z.
Proof.
  intros Hs. unfold Atoi, ParseInt. rewrite (prefix_char_absent "-" s Hs). simpl orb.
  cbv iota zeta. intros H. repeat case_match; simplify_eq; by eapply digits_value_nonneg; [|done].
Qed.

Lemma ParseInt_in_s w s z : ParseInt w s = Ret z → in_s w z.
Proof.
  unfold ParseInt, in_s. intros H. repeat case_match; simplify_eq.
  all: match goal with H : _ && _ = true |- _ => apply andb_true_iff in H as [?%Z.leb_le ?%Z.ltb_lt] end; lia.
Qed.

#[export] Hint Resolve HasPrefix_app ParseInt_in_s : crio.

(** ** Lemmas: clean paths *)

Lemma append_cancel_r s t u : s +:+ u = t +:+ u → s = t.
Proof. intros E%(f_equal (λ x, TrimSuffix x u)). by rewrite !TrimSuffix_app in E. Qed.

Lemma append_cancel_l s t u : u +:+ s = u +:+ t → s = t.
Proof. intros E%(f_equal (str_drop (String.length u))). by rewrite !str_drop_app in E. Qed.

#[export] Instance Itoa_inj : Inj (=) (=) Itoa.
Proof. unfold Itoa. apply _. Qed.

(** An element [filepath.Clean] keeps as it is. *)
Definition proper (w : string) : bool :=
  negb (bool_decide (w = "") || bool_decide (w = ".") || bool_decide (w = "..")) &&
  negb (contains_char "/" w).

Lemma clean_fold l acc :
  Forall (λ w, proper w = true) l → foldl (clean_step true) acc l = reverse l ++ acc.
Proof.
  intros Hl. revert acc. induction Hl as [|w l Hw Hl IH]; intros acc; [done|]. simpl. rewrite IH.
  unfold proper in Hw. apply andb_true_iff in Hw as [Hw _]. apply negb_true_iff in Hw.
  apply orb_false_iff in Hw as [Hw1 Hw2]. unfold clean_step. rewrite Hw1, Hw2.
  by rewrite reverse_cons, <- app_assoc.
Qed.

Lemma Clean_rooted l :
  l ≠ [] → Forall (λ w, proper w = true) l → Clean ("/" +:+ Join l "/") = "/" +:+ Join l "/".
Proof.
  intros Hne Hl. unfold Clean. rewrite bool_decide_eq_false_2 by done.
  assert (HasPrefix ("/" +:+ Join l "/") "/" = true) as ->.
  { apply HasPrefix_spec. by exists (Join l "/"). }
  change ("/" +:+ Join l "/") with ("" +:+ String "/" (Join l "/")) at 1.
  rewrite Split_app by done. rewrite Split_Join.
  - simpl. f_equal. f_equal.
    by rewrite clean_fold, app_nil_r, reverse_involutive.
  - done.
  - eapply Forall_impl; [exact Hl|]. intros w Hw. unfold proper in Hw.
    apply andb_true_iff in Hw as [_ Hw]. by apply negb_true_iff in Hw.
Qed.

Lemma Join_snoc l w sep : l ≠ [] → Join (l ++ [w]) sep = Join l sep +:+ sep +:+ w.
Proof.
  induction l as [|v l IH]; intros Hne; [done|]. destruct l as [|v' l]; [done|].
  rewrite <- app_comm_cons, !Join_cons by done. rewrite IH by done. by rewrite !append_assoc.
Qed.

Lemma proper_noslash w : proper w = true → contains_char "/" w = false.
Proof. intros Hw. unfold proper in Hw. apply andb_true_iff in Hw as [_ Hw]. by apply negb_true_iff in Hw. Qed.

(** A trailing slash is cleaned away. *)
Lemma Clean_rooted_slash l :
  l ≠ [] → Forall (λ w, proper w = true) l →
  Clean (("/" +:+ Join l "/") +:+ "/") = "/" +:+ Join l "/".
Proof.
  intros Hne Hl. rewrite append_assoc. change (Join l "/" +:+ "/") with (Join l "/" +:+ "/" +:+ "").
  rewrite <- Join_snoc by done. unfold Clean. rewrite bool_decide_eq_false_2 by done.
  assert (HasPrefix ("/" +:+ Join (l ++ [""]) "/") "/" = true) as -> by (apply HasPrefix_spec; eauto).
  change ("/" +:+ Join (l ++ [""]) "/") with ("" +:+ String "/" (Join (l ++ [""]) "/")) at 1.
  rewrite Split_app by done. rewrite Split_Join; [|by destruct l|].
  - simpl. rewrite foldl_app. simpl.
    rewrite clean_fold, app_nil_r by done. unfold clean_step. simpl. by rewrite reverse_involutive.
  - apply Forall_app. split; [|by constructor]. eapply Forall_impl; [exact Hl|]. intros w. apply proper_noslash.
Qed.

(** The directory of a file in a clean directory. *)
Lemma Dir_PathJoin l w :
  l ≠ [] → Forall (λ w, proper w = true) l → proper w = true →
  Dir (PathJoin ["/" +:+ Join l "/"; w]) = "/" +:+ Join l "/".
Proof.
  intros Hne Hl Hw.
  assert (PathJoin ["/" +:+ Join l "/"; w] = ("/" +:+ Join l "/") +:+ "/" +:+ w) as ->.
  { unfold PathJoin. rewrite bool_decide_eq_false_2 by done. cbn [Join].
    rewrite append_assoc, <- Join_snoc by done. apply Clean_rooted; [by destruct l|].
    apply Forall_app. split; [done|by constructor]. }
  unfold Dir. change ("/" +:+ w) with (String "/" w). rewrite LastIndexByte_app by (by apply proper_noslash).
  change (String "/" w) with ("/" +:+ w). rewrite <- append_assoc.
  replace (S (String.length ("/" +:+ Join l "/"))) with (String.length (("/" +:+ Join l "/") +:+ "/"))
    by (rewrite !length_append; simpl; lia).
  rewrite str_take_app. by apply Clean_rooted_slash.
Qed.

(** ** Lemmas: spaces *)

Definition nospace (s : string) : bool := str_forallb (λ c, negb (is_space c)) s.

Lemma str_forallb_app f s t : str_forallb f (s +:+ t) = str_forallb f s && str_forallb f t.
Proof. induction s as [|c s IH]; [done|]. rewrite append_cons. simpl. by rewrite IH, andb_assoc. Qed.

Lemma str_forallb_rev f s : str_forallb f (str_rev s) = str_forallb f s.
Proof.
  induction s as [|c s IH]; [done|]. unfold str_rev, String.rev. simpl.
  rewrite str_rev_acc, str_forallb_app, IH. simpl. by rewrite andb_true_r, andb_comm.
Qed.

Lemma trim_left_nospace s : nospace s = true → trim_left s = s.
Proof. destruct s as [|c s]; [done|]. simpl. intros [Hc _]%andb_true_iff. by destruct (is_space c). Qed.

Lemma TrimSpace_nospace s : nospace s = true → TrimSpace s = s.
Proof.
  intros Hs. unfold TrimSpace. rewrite (trim_left_nospace s) by done.
  rewrite trim_left_nospace; [apply str_rev_involutive|]. unfold nospace. by rewrite str_forallb_rev.
Qed.

Lemma digit_nospace c : is_Some (digit_value c) → is_space c = false.
Proof. destruct c as [[] [] [] [] [] [] [] []]; vm_compute; intros []; done. Qed.

Lemma Itoa_nospace z : 0 ≤ z → nospace (Itoa z) = true.
Proof.
  intros Hz. rewrite Itoa_nonneg by done. pose proof (pretty_N_digits (Z.to_N z)) as Hd.
  revert Hd. generalize (pretty (Z.to_N z) : string). intros s. induction s as [|c s IH]; [done|].
  simpl. intros [Hc Hs]%andb_true_iff. apply bool_decide_eq_true in Hc.
  unfold nospace in *. simpl. rewrite digit_nospace, IH by done. done.
Qed.

Lemma Join_nospace l sep :
  nospace sep = true → Forall (λ w, nospace w = true) l → nospace (Join l sep) = true.
Proof.
  intros Hs. induction 1 as [|w [|w' l] Hw Hl IH]; [done|done|].
  rewrite Join_cons by done. unfold nospace in *. by rewrite !str_forallb_app, Hw, Hs, IH.
Qed.

(** ** Lemmas: substrings *)

Lemma Contains_spec s sub : Contains s sub = true ↔ ∃ a b, s = a +:+ sub +:+ b.
Proof.
  split.
  - induction s as [|c s IH]; cbn [Contains].
    + rewrite orb_false_r. intros [r ->]%HasPrefix_spec. by exists "", r.
    + intros [[r ->]%HasPrefix_spec|[a [b ->]]%IH]%orb_true_iff; [by exists "", r|].
      exists (String c a), b. by rewrite append_cons.
  - intros (a & b & ->). induction a as [|c a IH].
    + rewrite append_nil_l. assert (HasPrefix (sub +:+ b) sub = true) as Hp by apply HasPrefix_app.
      destruct (sub +:+ b); cbn [Contains]; by rewrite Hp.
    + rewrite append_cons. cbn [Contains]. by rewrite IH, orb_true_r.
Qed.

Lemma Contains_app_l s t sub : Contains s sub = true → Contains (s +:+ t) sub = true.
Proof. rewrite !Contains_spec. intros (a & b & ->). exists a, (b +:+ t). by rewrite !append_assoc. Qed.
Lemma Contains_app_r s t sub : Contains t sub = true → Contains (s +:+ t) sub = true.
Proof. rewrite !Contains_spec. intros (a & b & ->). exists (s +:+ a), b. by rewrite !append_assoc. Qed.
Lemma Contains_refl s : Contains s s = true.
Proof. apply Contains_spec. exists "", "". by rewrite append_nil_l, append_nil_r. Qed.

Lemma Contains_weaken s sub sub' : Contains sub sub' = true → Contains s sub = true → Contains s sub' = true.
Proof.
  rewrite !Contains_spec. intros (a & b & ->) (a' & b' & ->). exists (a' +:+ a), (b +:+ b').
  by rewrite !append_assoc.
Qed.

Lemma Contains_contains_char c s sub : Contains s sub = true → contains_char c sub = true → contains_char c s = true.
Proof.
  intros (a & b & ->)%Contains_spec Hc. rewrite !contains_char_app, Hc. by rewrite orb_true_r.
Qed.

(** A prefix without the separator lies before it. *)
Lemma HasPrefix_sep w r sep p :
  contains_char sep p = false → HasPrefix (w +:+ String sep r) p = HasPrefix w p.
Proof.
  revert p. induction w as [|c w IH]; intros [|d p] Hp; try done; simpl in Hp.
  - unfold HasPrefix. simpl. destruct (ascii_dec d sep); [|done]. subst.
    by rewrite bool_decide_eq_true_2 in Hp.
  - rewrite append_cons. unfold HasPrefix in *. simpl. destruct (ascii_dec d c); [|done].
    apply IH. by apply orb_false_iff in Hp as [].
Qed.

(** A word without the separator, found in a string cut at it, is on one side. *)
Lemma Contains_sep w r sep sub :
  contains_char sep sub = false → sub ≠ "" →
  Contains (w +:+ String sep r) sub = Contains w sub || Contains r sub.
Proof.
  intros Hs Hne. induction w as [|c w IH].
  - rewrite append_nil_l. cbn [Contains]. destruct sub as [|d sub]; [done|]. simpl in Hs.
    apply orb_false_iff in Hs as [Hd _]. apply bool_decide_eq_false in Hd.
    unfold HasPrefix. simpl. destruct (ascii_dec d sep); [done|]. done.
  - rewrite append_cons. cbn [Contains]. rewrite IH, orb_assoc. f_equal. f_equal.
    rewrite <- append_cons. by apply HasPrefix_sep.
Qed.

Lemma HasPrefix_common p s t : HasPrefix (p +:+ s) (p +:+ t) = HasPrefix s t.
Proof.
  induction p as [|c p IH]; [by rewrite !append_nil_l|].
  rewrite !append_cons. unfold HasPrefix in *. simpl. by destruct (ascii_dec c c).
Qed.

Lemma HasPrefix_same_length s p : HasPrefix s p = true → String.length s = String.length p → s = p.
Proof.
  intros [r ->]%HasPrefix_spec. rewrite length_append. intros Hl. destruct r; [by rewrite append_nil_r|].
  simpl in Hl. lia.
Qed.

Lemma str_forallb_impl (f g : ascii → bool) s :
  (∀ c, f c = true → g c = true) → str_forallb f s = true → str_forallb g s = true.
Proof. intros Hfg. induction s; simpl; [done|]. rewrite !andb_true_iff. naive_solver. Qed.

Lemma str_forallb_Join f l sep :
  str_forallb f sep = true → Forall (λ w, str_forallb f w = true) l → str_forallb f (Join l sep) = true.
Proof.
  intros Hs. induction l as [|w [|w' l] IH]; intros Hall; [done|by inv Hall|].
  rewrite Join_cons by done. inv Hall. rewrite !str_forallb_app, !andb_true_iff. auto.
Qed.

(** A string that neither starts nor ends with white space is trimmed already. *)
Lemma trim_left_head c s : is_space c = false → trim_left (String c s) = String c s.
Proof. intros Hc. simpl. by rewrite Hc. Qed.

Lemma TrimSpace_ends s c d t u :
  s = String c t → s = u +:+ String d "" → is_space c = false → is_space d = false → TrimSpace s = s.
Proof.
  intros -> E Hc Hd. unfold TrimSpace. rewrite trim_left_head by done. rewrite E, str_rev_app.
  change (str_rev (String d "")) with (String d ""). rewrite append_cons, trim_left_head by done.
  change (String d ("" +:+ str_rev u)) with (str_rev (String d "") +:+ str_rev u).
  by rewrite <- str_rev_app, str_rev_involutive.
Qed.
