(* ===== verification/Digest.v ===== *)
(** * Digest: SHA-256 and base 32, as the standard library computes them

    [crypto/sha256] and [encoding/base32] name the chains of a pod's host ports
    ([getHostportChain] of [internal/hostport/hostport_manager.go]).  A byte is
    a [Z] below 256, a 32-bit word a [Z] below [2^32]; sums wrap around. *)

From S2P Require Import Prelude GoStrings.
From Stdlib Require Import Ascii.
Local Open Scope Z_scope.

Module Sha256.

Definition byte_of (c : ascii) : Z := Z.of_nat (nat_of_ascii c).

Fixpoint bytes_of (s : string) : list Z :=
  match s with
  | EmptyString => []
  | String c s => byte_of c :: bytes_of s
  end.

Abbreviation u32 := (wrap_u 32).

Definition rotr (n x : Z) : Z := Z.lor (Z.shiftr x n) (u32 (Z.shiftl x (32 - n))).

Definition sigma0 (x : Z) : Z := Z.lxor (rotr 7 x) (Z.lxor (rotr 18 x) (Z.shiftr x 3)).
Definition sigma1 (x : Z) : Z := Z.lxor (rotr 17 x) (Z.lxor (rotr 19 x) (Z.shiftr x 10)).
Definition Sigma0 (x : Z) : Z := Z.lxor (rotr 2 x) (Z.lxor (rotr 13 x) (rotr 22 x)).
Definition Sigma1 (x : Z) : Z := Z.lxor (rotr 6 x) (Z.lxor (rotr 11 x) (rotr 25 x)).
Definition Ch (x y z : Z) : Z := Z.lxor (Z.land x y) (Z.land (Z.lxor x (2 ^ 32 - 1)) z).
Definition Maj (x y z : Z) : Z := Z.lxor (Z.land x y) (Z.lxor (Z.land x z) (Z.land y z)).

(** The constants are the first 32 bits of the fractional parts of the cube roots
    of the first 64 primes, and the initial state those of the square roots of
    the first eight. *)
Definition primes (bound : nat) : list Z :=
  List.filter (λ p, forallb (λ d, negb (p mod d =? 0)) (Z.of_nat <$> seq 2 (Z.to_nat p - 2)))
    (Z.of_nat <$> seq 2 bound).
(** The integer cube root of [n], one bit of the result at a time. *)
Fixpoint cbrt (bits : nat) (r n : Z) : Z :=
  match bits with
  | O => r
  | S b => let r' := r + 2 ^ Z.of_nat b in cbrt b (if r' ^ 3 <=? n then r' else r) n
  end.

Definition K : list Z := Eval vm_compute in (λ p, u32 (cbrt 36 0 (p * 2 ^ 96))) <$> primes 310.

(** The eight words of the state. *)
Record state := State { ha : Z; hb : Z; hc : Z; hd : Z; he : Z; hf : Z; hg : Z; hh : Z }.

Definition init : state := Eval vm_compute in
  let h p := u32 (Z.sqrt (p * 2 ^ 64)) in
  State (h 2) (h 3) (h 5) (h 7) (h 11) (h 13) (h 17) (h 19).

Definition round (s : state) (kw : Z * Z) : state :=
  let t1 := hh s + Sigma1 (he s) + Ch (he s) (hf s) (hg s) + kw.1 + kw.2 in
  let t2 := Sigma0 (ha s) + Maj (ha s) (hb s) (hc s) in
  State (u32 (t1 + t2)) (ha s) (hb s) (hc s) (u32 (hd s + t1)) (he s) (hf s) (hg s).

Definition word_of (b : list Z) : Z := foldl (λ acc x, acc * 256 + x) 0 b.

(** Cut into pieces of [n] elements; a list of [len] pieces has at most as many. *)
Fixpoint chunks {A} (fuel n : nat) (l : list A) : list (list A) :=
  match fuel, l with
  | O, _ | _, [] => []
  | S fuel, _ => take n l :: chunks fuel n (drop n l)
  end.

(** The message schedule, latest word first. *)
Fixpoint schedule (n : nat) (w : list Z) : list Z :=
  match n with
  | O => w
  | S n =>
      let at_ i := default 0 (w !! i) in
      schedule n (u32 (sigma1 (at_ 1%nat) + at_ 6%nat + sigma0 (at_ 14%nat) + at_ 15%nat) :: w)
  end.

Definition block (s : state) (b : list Z) : state :=
  let w := rev (schedule 48 (rev (word_of <$> chunks 16 4 b))) in
  let r := foldl round s (zip K w) in
  State (u32 (ha s + ha r)) (u32 (hb s + hb r)) (u32 (hc s + hc r)) (u32 (hd s + hd r))
        (u32 (he s + he r)) (u32 (hf s + hf r)) (u32 (hg s + hg r)) (u32 (hh s + hh r)).

(** The bytes of a word, most significant first. *)
Fixpoint be_bytes (n : nat) (x : Z) : list Z :=
  match n with
  | O => []
  | S n => be_bytes n (x / 256) ++ [x `mod` 256]
  end.

Definition pad (b : list Z) : list Z :=
  let len := Z.of_nat (length b) in
  b ++ 0x80 :: replicate (Z.to_nat ((119 - len) `mod` 64)) 0 ++ be_bytes 8 (8 * len).

(** [sha256.Sum256] *)
Definition Sum256 (s : string) : list Z :=
  let data := pad (bytes_of s) in
  let h := foldl block init (chunks (length data) 64 data) in
  concat (be_bytes 4 <$> [ha h; hb h; hc h; hd h; he h; hf h; hg h; hh h]).

End Sha256.

Module Base32.

Definition alphabet : string := "ABCDEFGHIJKLMNOPQRSTUVWXYZ234567".

(** The character of a 5-bit value. *)
Definition char_of (v : Z) : ascii := default "="%char (String.get (Z.to_nat v) alphabet).

(** Five bytes (the last group completed with zeroes) are eight characters, of
    which the first [n] are data and the others padding. *)
Definition group (b : list Z) : string :=
  let n : Z := (Z.of_nat (length b) * 8 + 4) / 5 in
  let v := Sha256.word_of (b ++ replicate (5 - length b) 0) in
  let digit i := if i <? n then char_of (Z.land (Z.shiftr v (35 - 5 * i)) 31) else "="%char in
  String (digit 0) (String (digit 1) (String (digit 2) (String (digit 3)
    (String (digit 4) (String (digit 5) (String (digit 6) (String (digit 7) EmptyString))))))).

(** [base32.StdEncoding.EncodeToString] *)
Definition EncodeToString (b : list Z) : string :=
  Join (group <$> Sha256.chunks (length b) 5 b) "".

End Base32.

(** ** Shape of the results *)

Lemma length_be_bytes n x : length (Sha256.be_bytes n x) = n.
Proof. revert x. induction n as [|n IH]; intros x; simpl; [done|]. rewrite length_app, IH. simpl. lia. Qed.

Lemma length_Sum256 s : length (Sha256.Sum256 s) = 32%nat.
Proof. unfold Sha256.Sum256. cbn [fmap list_fmap concat]. rewrite !length_app, !length_be_bytes. done. Qed.

Lemma Join_nil_cons w ws : Join (w :: ws) "" = w +:+ Join ws "".
Proof. destruct ws; simpl; [by rewrite append_nil_r|done]. Qed.

(** The characters of an encoding: the alphabet and the padding. *)
Definition base32_char (c : ascii) : bool := contains_char c "ABCDEFGHIJKLMNOPQRSTUVWXYZ234567=".

Lemma get_in s n c : String.get n s = Some c → contains_char c s = true.
Proof.
  revert n. induction s as [|d s IH]; intros [|n]; simpl; try done.
  - intros [= ->]. by rewrite bool_decide_eq_true_2.
  - intros ->%IH. by rewrite orb_true_r.
Qed.

Lemma char_of_base32 v : base32_char (Base32.char_of v) = true.
Proof.
  unfold Base32.char_of. destruct (String.get _ _) as [c|] eqn:E; [|done]. simpl.
  apply get_in in E. unfold base32_char, Base32.alphabet in *.
  change "ABCDEFGHIJKLMNOPQRSTUVWXYZ234567=" with ("ABCDEFGHIJKLMNOPQRSTUVWXYZ234567" +:+ "=").
  by rewrite contains_char_app, E.
Qed.

Lemma group_base32 b : str_forallb base32_char (Base32.group b) = true.
Proof.
  unfold Base32.group. cbn [str_forallb].
  repeat match goal with |- context [if ?b then _ else _] => destruct b end;
    rewrite ?char_of_base32; done.
Qed.

Lemma EncodeToString_base32 b : str_forallb base32_char (Base32.EncodeToString b) = true.
Proof.
  unfold Base32.EncodeToString. generalize (length b). intros n. revert b.
  induction n as [|n IH]; intros b; [done|]. destruct b as [|x b]; [done|].
  cbn [Sha256.chunks fmap list_fmap]. rewrite Join_nil_cons, str_forallb_app, group_base32. apply IH.
Qed.

Lemma length_group b : String.length (Base32.group b) = 8%nat.
Proof. done. Qed.

Lemma length_EncodeToString_ge b : (15 < length b)%nat → (16 ≤ String.length (Base32.EncodeToString b))%nat.
Proof.
  intros Hb. unfold Base32.EncodeToString. destruct (length b) as [|[|n]] eqn:E; [lia|lia|].
  do 6 (destruct b as [|? b]; [simpl in E; lia|]). cbn [Sha256.chunks fmap list_fmap drop].
  rewrite !Join_nil_cons, !length_append, !length_group. lia.
Qed.

Lemma str_forallb_take f n s : str_forallb f s = true → str_forallb f (str_take n s) = true.
Proof.
  revert n. induction s as [|c s IH]; intros [|n]; simpl; try done.
  rewrite !andb_true_iff. intros []; split; auto.
Qed.

Lemma length_str_take n s : (n ≤ String.length s)%nat → String.length (str_take n s) = n.
Proof. revert n. induction s as [|c s IH]; intros [|n]; simpl; try done; [lia|]. intros. by rewrite IH by lia. Qed.

(** The digest and the encoding of the published test vectors. *)
Example Sum256_abc :
  take 8 (Sha256.Sum256 "abc") = [0xba; 0x78; 0x16; 0xbf; 0x8f; 0x01; 0xcf; 0xea].
Proof. vm_compute. reflexivity. Qed.

Example EncodeToString_foobar : Base32.EncodeToString (Sha256.bytes_of "foobar") = "MZXW6YTBOI======".
Proof. vm_compute. reflexivity. Qed.
