(* ===== verification/IPTables.v ===== *)
(** * IPTables: the firewall the host port manager drives

    [Interface] is [internal/iptables/iptables.go]'s interface, the operations
    of it the host port manager uses.  [Fake] is the repository's executable
    model of it, [internal/hostport/fake_iptables.go]: tables of chains of
    rules, the text format of [iptables-save] and the interpreter of
    [iptables-restore --noflush].  The theorems about the text format at the end
    are what the host port manager's theorems are built from. *)

From S2P Require Import Prelude GoStrings.
From Stdlib Require Import Ascii.
Local Open Scope Z_scope.

(** ** Vocabulary of [internal/iptables] *)

Abbreviation Table := string (only parsing).
Abbreviation Chain := string (only parsing).

Inductive RulePosition := Prepend | Append.
Inductive FlushFlag := FlushTables | NoFlushTables.
Inductive RestoreCountersFlag := RestoreCounters | NoRestoreCounters.
Inductive Protocol := ProtocolIPv4 | ProtocolIPv6.

#[export] Instance Protocol_eq_dec : EqDecision Protocol.
Proof. solve_decision. Defined.

Definition TableNAT : Table := "nat".
Definition TableFilter : Table := "filter".
Definition TableMangle : Table := "mangle".
Definition ChainPostrouting : Chain := "POSTROUTING".
Definition ChainPrerouting : Chain := "PREROUTING".
Definition ChainOutput : Chain := "OUTPUT".
Definition ChainInput : Chain := "INPUT".
Definition ChainForward : Chain := "FORWARD".

(** [MakeChainLine] *)
Definition MakeChainLine (chain : Chain) : string := ":" +:+ chain +:+ " - [0:0]".

(** The operations, over the state [T] of the firewall of one address family. *)
Class Interface (T : Type) := {
  IsIPv6 : T → bool;
  EnsureChain : Table → Chain → io T bool;
  EnsureRule : RulePosition → Table → Chain → list string → io T bool;
  SaveInto : Table → io T string;
  RestoreAll : string → FlushFlag → RestoreCountersFlag → io T ();
}.

(** A double quote and a newline, as characters. *)
Definition dquote : ascii := "034"%char.
Definition newline : ascii := "010"%char.
Definition nl : string := String newline "".

(** The order in which [range] visits a map: any order, chosen by the run. *)
Class RangeOrder := range : ∀ {A : Type}, gmap string A → list (string * A).
Class RangeOrderLaw `{RangeOrder} : Prop :=
  range_perm : ∀ {A : Type} (m : gmap string A), range m ≡ₚ map_to_list m.

(** [IPFamilyOfString] of [k8s.io/utils/net]. *)
Inductive IPFamily := IPFamilyUnknown | IPv4 | IPv6.
#[export] Instance IPFamily_eq_dec : EqDecision IPFamily.
Proof. solve_decision. Defined.

Class NetUtils := IPFamilyOfString : string → IPFamily.
(** An address is made of hexadecimal digits, dots and colons, and has a dot or a
    colon. *)
Definition addr_char (c : ascii) : bool := contains_char c "0123456789abcdefABCDEF.:".
Class NetUtilsLaw `{NetUtils} : Prop :=
  IPFamily_chars : ∀ s, IPFamilyOfString s ≠ IPFamilyUnknown →
    str_forallb addr_char s = true ∧ contains_char "." s || contains_char ":" s = true.

Module Fake.
Section fake.
Context `{RangeOrder} `{NetUtils}.

(** A chain is the list of its rules, a table a map from names to chains: a
    [fakeChain]'s and a [fakeTable]'s name is the key it is stored under. *)
Record fakeIPTables := mkFake {
  tables : gmap string (gmap string (list string));
  protocol : Protocol;
}.
#[global] Instance fakeIPTables_eta : Eta fakeIPTables := λ r, mkFake (tables r) (protocol r).

Definition builtinChains (table : Table) : list string :=
  if bool_decide (table = TableFilter) then ["INPUT"; "FORWARD"; "OUTPUT"]
  else if bool_decide (table = TableNAT) then ["PREROUTING"; "INPUT"; "OUTPUT"; "POSTROUTING"]
  else if bool_decide (table = TableMangle) then ["PREROUTING"; "INPUT"; "FORWARD"; "OUTPUT"; "POSTROUTING"]
  else [].

Definition newFakeIPTables : fakeIPTables := mkFake ∅ ProtocolIPv4.

Definition isBuiltinChain (table : Table) (chain : Chain) : bool :=
  bool_decide (chain ∈ builtinChains table).

Definition getTable (tableName : Table) (f : fakeIPTables) : outcome (gmap string (list string)) :=
  match tables f !! tableName with
  | Some table => Ret table
  | None => Fail (ErrorsNew ("table " +:+ tableName +:+ " does not exist"))
  end.

Definition getChain (tableName : Table) (chainName : Chain) (f : fakeIPTables) : outcome (list string) :=
  table ← getTable tableName f;
  match table !! chainName with
  | Some rules => Ret rules
  | None => Fail (ErrorsNew ("chain " +:+ tableName +:+ "/" +:+ chainName +:+ " does not exist"))
  end.

(** A read that may fail. *)
Definition query {A} (g : fakeIPTables → outcome A) : io fakeIPTables A := λ f, (g f, f).

(** Store the rules of a chain, in a table made for it if there is none. *)
Definition putChain (tableName : Table) (chainName : Chain) (rules : list string) (f : fakeIPTables) : fakeIPTables :=
  f <| tables ::= λ ts, <[tableName := <[chainName := rules]> (default ∅ (ts !! tableName))]> ts |>.

Definition ensureChain (tableName : Table) (chainName : Chain) : io fakeIPTables bool := λ f,
  match getChain tableName chainName f with
  | Ret _ => (Ret true, f)
  | _ => (Ret false, putChain tableName chainName [] f)
  end.

Definition FlushChain (tableName : Table) (chainName : Chain) : io fakeIPTables () := λ f,
  match getChain tableName chainName f with
  | Ret _ => (Ret (), putChain tableName chainName [] f)
  | Fail e => (Fail e, f)
  | Panic s => (Panic s, f)
  end.

Definition DeleteChain (tableName : Table) (chainName : Chain) : io fakeIPTables () := λ f,
  match getChain tableName chainName f with
  | Ret _ => (Ret (), f <| tables ::= alter (delete chainName) tableName |>)
  | Fail e => (Fail e, f)
  | Panic s => (Panic s, f)
  end.

Definition ChainExists (tableName : Table) (chainName : Chain) (f : fakeIPTables) : outcome bool :=
  getChain tableName chainName f ;; mret true.

(** [strings.Replace(s, "=", " ", 1)] *)
Fixpoint replaceFirst (s : string) : string :=
  match s with
  | EmptyString => EmptyString
  | String c s => if bool_decide (c = "="%char) then String " " s else String c (replaceFirst s)
  end.

Definition normalizeArg (arg : string) : string :=
  match IPFamilyOfString arg with
  | IPv4 => arg +:+ "/32"
  | IPv6 => arg +:+ "/128"
  | IPFamilyUnknown => arg
  end.

(** The loop of [normalizeRule]; every turn consumes at least one byte of
    [remaining], so that its length is fuel enough ([normalize_fuel]). *)
Fixpoint normalize_loop (fuel : nat) (normalized remaining : string) : outcome string :=
  match fuel with
  | O => Panic "out of fuel"
  | S fuel =>
      let remaining := if HasPrefix remaining "--to-destination=" then replaceFirst remaining else remaining in
      end_ ← match remaining with
             | EmptyString => Panic "index out of range"
             | String c rest =>
                 if bool_decide (c = dquote) then
                   match IndexByte rest dquote with
                   | None => Fail (ErrorsNew "invalid rule syntax: mismatched quotes")
                   | Some i => Ret (i + 2)%nat
                   end
                 else Ret (default (String.length remaining) (IndexByte remaining " "))
             end;
      let arg := normalizeArg (str_take end_ remaining) in
      let normalized := (if bool_decide (normalized = "") then normalized else normalized +:+ " ")
                        +:+ TrimSpace arg in
      if bool_decide (String.length remaining = end_) then Ret normalized
      else normalize_loop fuel normalized (str_drop (S end_) remaining)
  end.

Definition normalizeRule (rule : string) : outcome string :=
  let remaining := TrimSpace rule in
  normalize_loop (S (String.length remaining)) "" remaining.

(** [findRule] and the comparison with -1 its callers make. *)
Fixpoint findRule (rules : list string) (rule : string) : Z :=
  match rules with
  | [] => -1
  | candidate :: rules =>
      if bool_decide (rule = candidate) then 0
      else let i := findRule rules rule in if i <? 0 then -1 else i + 1
  end.

(** A chain that is missing is created before the rule is looked at. *)
Definition ensureRule (position : RulePosition) (tableName : Table) (chainName : Chain) (rule : string) :
    io fakeIPTables bool :=
  ensureChain tableName chainName ;;
  rules ← query (getChain tableName chainName);
  rule ← lift (normalizeRule rule);
  if 0 <=? findRule rules rule then mret true
  else
    modify (putChain tableName chainName
              match position with Prepend => rule :: rules | Append => rules ++ [rule] end) ;;
    mret false.

(** [%q] of an ASCII string. *)
Definition hexDigit (n : nat) : ascii := default "0"%char (String.get n "0123456789abcdef").
Definition quoteChar (c : ascii) : string :=
  let n := nat_of_ascii c in
  if bool_decide (c = dquote) || bool_decide (c = "\"%char) then String "\" (String c "")
  else if (32 <=? n)%nat && (n <? 127)%nat then String c ""
  else match n with
       | 7%nat => "\a" | 8%nat => "\b" | 9%nat => "\t" | 10%nat => "\n"
       | 11%nat => "\v" | 12%nat => "\f" | 13%nat => "\r"
       | _ => "\x" +:+ String (hexDigit (n / 16)%nat) (String (hexDigit (n mod 16)%nat) "")
       end.
Fixpoint quoteBody (s : string) : string :=
  match s with
  | EmptyString => EmptyString
  | String c s => quoteChar c +:+ quoteBody s
  end.
Definition quote (s : string) : string := String dquote (quoteBody s +:+ String dquote "").

Definition ruleOfArgs (args : list string) : string :=
  Join ((λ arg, if Contains arg " " then quote arg else arg) <$> args) " ".

Definition fakeEnsureRule (position : RulePosition) (tableName : Table) (chainName : Chain) (args : list string) :
    io fakeIPTables bool :=
  ensureRule position tableName chainName (ruleOfArgs args).

(** [chain.rules[:ruleIdx] ++ chain.rules[ruleIdx+1:]] *)
Definition DeleteRule (tableName : Table) (chainName : Chain) (args : list string) : io fakeIPTables () := λ f,
  match getChain tableName chainName f with
  | Ret rules =>
      let ruleIdx := findRule rules (Join args " ") in
      if ruleIdx <? 0 then (Ret (), f)
      else (Ret (), putChain tableName chainName
                      (take (Z.to_nat ruleIdx) rules ++ drop (S (Z.to_nat ruleIdx)) rules) f)
  | _ => (Ret (), f)
  end.

Definition fakeIsIPv6 (f : fakeIPTables) : bool := bool_decide (protocol f = ProtocolIPv6).

(** The text of a list of lines, each with its newline. *)
Definition text (lines : list string) : string := Join ((λ l, l +:+ nl) <$> lines) "".

Definition ruleLine (chain : Chain) (rule : string) : string := "-A " +:+ chain +:+ " " +:+ rule.

Definition saveChain (chain : string * list string) : string := text (ruleLine chain.1 <$> chain.2).

Definition fakeSaveInto (tableName : Table) : io fakeIPTables string :=
  table ← query (getTable tableName);
  let chains := range table in
  mret (("*" +:+ tableName +:+ nl)
        +:+ Join ((λ c, MakeChainLine c.1 +:+ nl) <$> chains) ""
        +:+ Join (saveChain <$> chains) ""
        +:+ "COMMIT" +:+ nl).

(** [buf.ReadString('\n')] until it fails: the lines that end in a newline,
    without it. *)
Definition readLines (data : string) : list string := removelast (Split data newline).

(** One line of [restore] inside a table. *)
Definition restoreLine (allLines : string) (flush : FlushFlag) (tableName : Table) (line : string) :
    io fakeIPTables () :=
  if HasPrefix line ":" then
    let chainName := hd "" (Split (str_drop 1 line) " ") in
    match flush with
    | FlushTables =>
        query (getChain tableName chainName) ;;
        modify (λ f, f <| tables ::= alter (delete chainName) tableName |>)
    | NoFlushTables => mret ()
    end ;;
    ensureChain tableName chainName ;;
    when (negb (isBuiltinChain tableName chainName) && negb (Contains allLines ("-X " +:+ chainName)))
         (FlushChain tableName chainName)
  else if HasPrefix line "-A" then
    match Split line " " with
    | _ :: chainName :: _ :: _ =>
        ensureRule Append tableName chainName (TrimPrefix line ("-A " +:+ chainName +:+ " ")) ;; mret ()
    | _ => fail (ErrorsNew ("invalid iptables rule '" +:+ line +:+ "'"))
    end
  else if HasPrefix line "-I" then
    match Split line " " with
    | _ :: chainName :: _ :: _ =>
        ensureRule Prepend tableName chainName (TrimPrefix line ("-I " +:+ chainName +:+ " ")) ;; mret ()
    | _ => fail (ErrorsNew ("invalid iptables rule '" +:+ line +:+ "'"))
    end
  else if HasPrefix line "-X" then
    match Split line " " with
    | _ :: chainName :: _ => DeleteChain tableName chainName
    | _ => fail (ErrorsNew ("invalid iptables rule '" +:+ line +:+ "'"))
    end
  else mret ().

(** The loop of [restore]; [tableName] is the current table, empty outside. *)
Fixpoint restore_loop (allLines : string) (restoreTableName : Table) (flush : FlushFlag)
    (lines : list string) (tableName : Table) : io fakeIPTables () :=
  match lines with
  | [] => mret ()
  | line :: lines =>
      if HasPrefix line "#" then restore_loop allLines restoreTableName flush lines tableName
      else
        let tableName := if HasPrefix line "*" then str_drop 1 line else tableName in
        if bool_decide (tableName = "")
           || (negb (bool_decide (restoreTableName = "")) && negb (bool_decide (restoreTableName = tableName)))
        then restore_loop allLines restoreTableName flush lines tableName
        else if bool_decide (line = "COMMIT") then
          if bool_decide (restoreTableName = tableName) then mret ()
          else restore_loop allLines restoreTableName flush lines ""
        else
          restoreLine allLines flush tableName line ;;
          restore_loop allLines restoreTableName flush lines tableName
  end.

Definition restore (restoreTableName : Table) (data : string) (flush : FlushFlag) : io fakeIPTables () :=
  restore_loop data restoreTableName flush (readLines data) "".

Definition Restore (tableName : Table) (data : string) (flush : FlushFlag) (counters : RestoreCountersFlag) :
    io fakeIPTables () := restore tableName data flush.
Definition fakeRestoreAll (data : string) (flush : FlushFlag) (counters : RestoreCountersFlag) :
    io fakeIPTables () := restore "" data flush.

#[global] Instance fake_interface : Interface fakeIPTables := {
  IsIPv6 := fakeIsIPv6;
  EnsureChain := ensureChain;
  EnsureRule := fakeEnsureRule;
  SaveInto := fakeSaveInto;
  RestoreAll := fakeRestoreAll;
}.

End fake.
End Fake.

(** ** The text of the lines *)

Import Fake.

Definition oneLine (s : string) : bool := negb (contains_char newline s).

Lemma text_cons l ls : text (l :: ls) = l +:+ String newline (text ls).
Proof.
  unfold text. cbn [fmap list_fmap]. destruct ls; cbn [fmap list_fmap Join]; [done|].
  by rewrite append_assoc.
Qed.

Lemma text_app ls ls' : text (ls ++ ls') = text ls +:+ text ls'.
Proof.
  induction ls as [|l ls IH]; [done|]. rewrite <- app_comm_cons, !text_cons, IH, !append_assoc. done.
Qed.

Lemma Split_text ls : Forall (λ l, oneLine l = true) ls → Split (text ls) newline = ls ++ [""].
Proof.
  induction 1 as [|l ls Hl _ IH]; [done|]. rewrite text_cons.
  rewrite Split_app by (by apply negb_true_iff). by rewrite IH.
Qed.

(** What was written line by line is read back line by line. *)
Lemma readLines_text ls : Forall (λ l, oneLine l = true) ls → readLines (text ls) = ls.
Proof. intros Hls. unfold readLines. rewrite Split_text by done. by rewrite removelast_last. Qed.

Lemma Contains_text ls w :
  oneLine w = true → w ≠ "" → Contains (text ls) w = existsb (λ l, Contains l w) ls.
Proof.
  intros Hw Hne. apply negb_true_iff in Hw. induction ls as [|l ls IH].
  - unfold text. simpl. destruct w; done.
  - rewrite text_cons, Contains_sep by done. by rewrite IH.
Qed.

(** ** Normalising a rule

    A rule is a list of words: a quoted one, or one without white space. *)

Definition plainWord (w : string) : bool :=
  nospace w && negb (bool_decide (w = "")) && negb (HasPrefix w (String dquote ""))
  && negb (HasPrefix w "--to-destination=").

Definition quotedWord (w : string) : bool :=
  match w with
  | String c w =>
      bool_decide (c = dquote) && bool_decide (IndexByte w dquote = Some (String.length w - 1)%nat)
  | EmptyString => false
  end.

Definition ruleWord (w : string) : bool := plainWord w || quotedWord w.

Section normalize.
Context `{NetUtilsLaw}.

(** The words the rule is read as: the equals sign of a destination is a space. *)
Definition expandWord (w : string) : list string :=
  if HasPrefix w "--to-destination=" then ["--to-destination"; str_drop 17 w] else [w].

(** A word [Add] may write: one that is read back, or a destination. *)
Definition inputWord (w : string) : bool :=
  ruleWord w || (HasPrefix w "--to-destination=" && plainWord (str_drop 17 w)).

(** [normalized] with a word added. *)
Definition addWord (normalized w : string) : string :=
  (if bool_decide (normalized = "") then normalized else normalized +:+ " ") +:+ w.

Lemma nospace_char w : nospace w = true → contains_char " " w = false.
Proof. apply forallb_not_char. done. Qed.

Lemma IndexByte_app w r c : contains_char c w = false → IndexByte (w +:+ String c r) c = Some (String.length w).
Proof.
  induction w as [|d w IH]; simpl.
  - by rewrite bool_decide_eq_true_2.
  - intros [-> Hw]%orb_false_iff. by rewrite IH.
Qed.
Lemma IndexByte_none w c : contains_char c w = false → IndexByte w c = None.
Proof. induction w as [|d w IH]; simpl; [done|]. intros [-> Hw]%orb_false_iff. by rewrite IH. Qed.

Lemma IndexByte_app_l w r c i : IndexByte w c = Some i → IndexByte (w +:+ r) c = Some i.
Proof.
  revert i. induction w as [|d w IH]; simpl; [done|]. intros i Hi.
  case_bool_decide; [done|]. destruct (IndexByte w c); [|done]. by rewrite (IH n).
Qed.

Lemma normalizeArg_nospace w : nospace w = true → nospace (normalizeArg w) = true.
Proof.
  intros Hw. unfold normalizeArg, nospace in *. destruct (IPFamilyOfString w); [done| |];
    by rewrite str_forallb_app, Hw.
Qed.

Lemma quotedWord_inv w : quotedWord w = true → ∃ body, w = String dquote (body +:+ String dquote "") ∧ contains_char dquote body = false.
Proof.
  destruct w as [|c w]; [done|]. simpl. rewrite andb_true_iff, !bool_decide_eq_true. intros [-> Hi].
  enough (∀ i, IndexByte w dquote = Some i → i = (String.length w - 1)%nat →
     ∃ body, w = body +:+ String dquote "" ∧ contains_char dquote body = false) as Hw.
  { destruct (Hw _ Hi eq_refl) as (body & -> & ?). by exists body. }
  clear Hi. induction w as [|d w IH]; simpl; [done|]. intros i. case_bool_decide as Hd.
  - intros [= <-] Hl. destruct w; [|simpl in Hl; lia]. subst. by exists "".
  - destruct (IndexByte w dquote) as [j|] eqn:Ej; [|done]. simpl. intros [= <-] Hl.
    destruct (IH j eq_refl) as (body & -> & Hb).
    { destruct w; [done|]. simpl in *. lia. }
    exists (String d body). split; [done|]. simpl. rewrite Hb.
    by rewrite bool_decide_eq_false_2.
Qed.

Lemma normalizeArg_quoted w : quotedWord w = true → normalizeArg w = w.
Proof.
  intros (body & -> & _)%quotedWord_inv. unfold normalizeArg.
  destruct (IPFamilyOfString _) eqn:E; [done| |];
    (destruct (IPFamily_chars (String dquote (body +:+ String dquote ""))) as [Hc _]; [by rewrite E|done]).
Qed.

Lemma TrimSpace_quoted w : quotedWord w = true → TrimSpace w = w.
Proof.
  intros (body & -> & _)%quotedWord_inv. eapply TrimSpace_ends; [done| |done|].
  - by rewrite <- append_cons.
  - done.
Qed.

Lemma str_take_prefix w r : str_take (String.length w) (w +:+ r) = w.
Proof. apply str_take_app. Qed.

Lemma not_destination w rest :
  ruleWord w = true → (rest = "" ∨ ∃ r, rest = String " " r) →
  HasPrefix (w +:+ rest) "--to-destination=" = false.
Proof.
  intros Hw Hrest. assert (HasPrefix w "--to-destination=" = false) as Hp.
  { unfold ruleWord in Hw. apply orb_true_iff in Hw as [Hw|(b & -> & _)%quotedWord_inv]; [|done].
    unfold plainWord in Hw. rewrite !andb_true_iff, !negb_true_iff in Hw. tauto. }
  destruct Hrest as [->|[r ->]]; [by rewrite append_nil_r|]. by rewrite HasPrefix_sep.
Qed.

(** One turn of the loop reads one word. *)
Lemma normalize_step fuel n w rest :
  ruleWord w = true → (rest = "" ∨ ∃ r, rest = String " " r) →
  normalize_loop (S fuel) n (w +:+ rest) =
    match rest with
    | EmptyString => Ret (addWord n (normalizeArg w))
    | String _ r => normalize_loop fuel (addWord n (normalizeArg w)) r
    end.
Proof.
  intros Hw Hrest. cbn [normalize_loop]. rewrite not_destination by done.
  enough (match w +:+ rest with
          | "" => Panic "index out of range"
          | String c rest0 =>
              if bool_decide (c = dquote)
              then match IndexByte rest0 dquote with
                   | Some i => Ret (i + 2)%nat
                   | None => Fail (ErrorsNew "invalid rule syntax: mismatched quotes")
                   end
              else Ret (default (String.length (w +:+ rest)) (IndexByte (w +:+ rest) " "))
          end = Ret (String.length w) ∧ TrimSpace (normalizeArg w) = normalizeArg w) as [E ET].
  { rewrite E. cbn [mbind outcome_bind]. rewrite str_take_prefix, ET. fold (addWord n (normalizeArg w)).
    rewrite length_append. destruct Hrest as [->|[r ->]].
    - rewrite bool_decide_eq_true_2; [done|]. simpl. lia.
    - rewrite bool_decide_eq_false_2 by (simpl; lia). f_equal.
      replace (S (String.length w)) with (String.length (w +:+ " ")) by (rewrite length_append; simpl; lia).
      change (String " " r) with (" " +:+ r). rewrite <- append_assoc. apply str_drop_app. }
  apply orb_true_iff in Hw as [Hw|Hw].
  - unfold plainWord in Hw. rewrite !andb_true_iff, !negb_true_iff, bool_decide_eq_false in Hw.
    destruct Hw as [[[Hsp Hne] Hq] _]. split; [|by apply TrimSpace_nospace, normalizeArg_nospace].
    destruct w as [|c w]; [done|]. rewrite append_cons.
    assert (c ≠ dquote) by (intros ->; unfold HasPrefix in Hq; simpl in Hq; by destruct w).
    rewrite bool_decide_eq_false_2 by done. f_equal. rewrite <- append_cons.
    apply nospace_char in Hsp. destruct Hrest as [->|[r ->]].
    + rewrite append_nil_r, IndexByte_none by done. done.
    + by rewrite IndexByte_app.
  - rewrite normalizeArg_quoted by done. split; [|by apply TrimSpace_quoted].
    apply quotedWord_inv in Hw as (body & -> & Hb). rewrite append_cons, bool_decide_eq_true_2 by done.
    rewrite append_assoc, append_cons. rewrite IndexByte_app by done. f_equal. simpl.
    rewrite length_append. simpl. lia.
Qed.

Lemma normalize_loop_replace fuel n s :
  HasPrefix s "--to-destination=" = true → HasPrefix (replaceFirst s) "--to-destination=" = false →
  normalize_loop fuel n s = normalize_loop fuel n (replaceFirst s).
Proof. destruct fuel; [done|]. cbn [normalize_loop]. by intros -> ->. Qed.

Lemma addWord_ne n w : w ≠ "" → addWord n w ≠ "".
Proof. unfold addWord. case_bool_decide; [subst; done|]. intros _. by destruct n. Qed.

Lemma addWord_Join n w ws :
  w ≠ "" → ws ≠ [] → addWord (addWord n w) (Join ws " ") = addWord n (Join (w :: ws) " ").
Proof.
  intros Hw Hws. rewrite Join_cons by done. unfold addWord at 1.
  rewrite bool_decide_eq_false_2 by by apply addWord_ne. unfold addWord. by rewrite !append_assoc.
Qed.

Lemma ruleWord_ne w : ruleWord w = true → w ≠ "".
Proof. by intros Hw ->. Qed.

Lemma normalizeArg_ne w : w ≠ "" → normalizeArg w ≠ "".
Proof. unfold normalizeArg. by destruct (IPFamilyOfString w), w. Qed.

(** A rule made of words is normalised word by word. *)
Lemma normalize_words ws fuel n :
  ws ≠ [] → Forall (λ w, ruleWord w = true) ws → (length ws ≤ fuel)%nat →
  normalize_loop fuel n (Join ws " ") = Ret (addWord n (Join (normalizeArg <$> ws) " ")).
Proof.
  revert fuel n. induction ws as [|w ws IH]; intros fuel n Hne Hall Hf; [done|].
  inv Hall. destruct fuel as [|fuel]; [simpl in Hf; lia|]. destruct ws as [|w' ws].
  - cbn [Join fmap list_fmap]. rewrite <- (append_nil_r w) at 1. rewrite normalize_step by auto. done.
  - rewrite Join_cons by done.
    change (" " +:+ Join (w' :: ws) " ") with (String " " (Join (w' :: ws) " ")).
    rewrite normalize_step by eauto.
    rewrite IH by (simpl in *; auto; lia).
    rewrite addWord_Join; [done|by apply normalizeArg_ne, ruleWord_ne|done].
Qed.

Lemma destination_inv w :
  HasPrefix w "--to-destination=" = true → ∃ x, w = "--to-destination=" +:+ x ∧ str_drop 17 w = x.
Proof. intros [x ->]%HasPrefix_spec. exists x. split; [done|]. done. Qed.

Lemma inputWord_cases w :
  inputWord w = true →
  (ruleWord w = true ∧ expandWord w = [w]) ∨
  ∃ x, w = "--to-destination=" +:+ x ∧ plainWord x = true ∧ expandWord w = ["--to-destination"; x].
Proof.
  unfold inputWord, expandWord. intros [Hw|[Hp Hx]%andb_true_iff]%orb_true_iff.
  - left. split; [done|]. rewrite <- (append_nil_r w) at 1. rewrite not_destination by auto. done.
  - right. rewrite Hp. apply destination_inv in Hp as (x & -> & <-). eauto.
Qed.

Lemma plain_rule w : plainWord w = true → ruleWord w = true.
Proof. unfold ruleWord. by intros ->. Qed.

Lemma expandWord_ne w : expandWord w ≠ [].
Proof. unfold expandWord. by case_match. Qed.

(** The words of the rule [Add] writes, read with the destination expanded. *)
Lemma normalize_input ws fuel n :
  ws ≠ [] → Forall (λ w, inputWord w = true) ws → (length (ws ≫= expandWord) ≤ fuel)%nat →
  normalize_loop fuel n (Join ws " ") = Ret (addWord n (Join (normalizeArg <$> (ws ≫= expandWord)) " ")).
Proof.
  revert fuel n. induction ws as [|w ws IH]; intros fuel n Hne Hall Hf; [done|]. inv Hall as [|?? Hw Hws].
  cbn [mbind list_bind] in *. rewrite length_app in Hf.
  assert (∃ rest, Join (w :: ws) " " = w +:+ rest ∧
    match ws with [] => rest = "" | _ => rest = String " " (Join ws " ") end) as (rest & -> & Hrest).
  { destruct ws; [exists ""; by rewrite append_nil_r|]. eexists. by rewrite Join_cons. }
  assert (rest = "" ∨ ∃ r, rest = String " " r) as Hshape by (destruct ws; eauto).
  apply inputWord_cases in Hw as [[Hw Ew]|(x & -> & Hx & Ew)]; rewrite Ew in *; simpl in Hf.
  - destruct fuel as [|fuel]; [lia|]. rewrite normalize_step by done. destruct ws as [|w' ws].
    { subst rest. done. }
    subst rest. rewrite IH by (done || lia). rewrite fmap_app. cbn [fmap list_fmap app].
    rewrite addWord_Join; [done|by apply normalizeArg_ne, ruleWord_ne|]. intros Hnil%fmap_nil_inv.
    apply app_nil in Hnil as [Hnil _]. by apply expandWord_ne in Hnil.
  - destruct fuel as [|[|fuel]]; [lia|lia|]. rewrite append_assoc.
    rewrite normalize_loop_replace; [|apply HasPrefix_app|done].
    change (replaceFirst ("--to-destination=" +:+ x +:+ rest)) with ("--to-destination" +:+ String " " (x +:+ rest)).
    rewrite normalize_step by eauto. rewrite normalize_step by auto using plain_rule.
    assert (normalizeArg "--to-destination" ≠ "") as Hne1 by by apply normalizeArg_ne.
    assert (normalizeArg x ≠ "") as Hne2 by by apply normalizeArg_ne, ruleWord_ne, plain_rule.
    destruct ws as [|w' ws]; subst rest.
    + cbn [app fmap list_fmap mbind list_bind]. rewrite <- (addWord_Join n) by done. done.
    + rewrite IH by (done || lia). rewrite fmap_app. cbn [fmap list_fmap app].
      rewrite addWord_Join; [by rewrite addWord_Join|done|]. intros Hnil%fmap_nil_inv.
      apply app_nil in Hnil as [Hnil _]. by apply expandWord_ne in Hnil.
Qed.

Lemma inputWord_ends w :
  inputWord w = true → ∃ c d t u, w = String c t ∧ w = u +:+ String d "" ∧ is_space c = false ∧ is_space d = false.
Proof.
  assert (∀ s, nospace s = true → s ≠ "" →
    ∃ c d t u, s = String c t ∧ s = u +:+ String d "" ∧ is_space c = false ∧ is_space d = false) as Hplain.
  { intros s Hs Hne. destruct s as [|c t]; [done|].
    assert (∃ d v, str_rev (String c t) = String d v) as (d & v & Er).
    { destruct (str_rev (String c t)) eqn:E; [|eauto]. by rewrite <- (str_rev_involutive (String c t)), E in Hne. }
    exists c, d, t, (str_rev v). split; [done|].
    assert (nospace (String d v) = true) as Hr by (rewrite <- Er; unfold nospace; by rewrite str_forallb_rev).
    split; [rewrite <- (str_rev_involutive (String c t)), Er; exact (str_rev_acc v (String d ""))|].
    unfold nospace in *. simpl in *. rewrite !andb_true_iff, !negb_true_iff in *. tauto. }
  intros [[Hw _]|(x & -> & Hx & _)]%inputWord_cases.
  - apply orb_true_iff in Hw as [Hw|(b & -> & _)%quotedWord_inv].
    + unfold plainWord in Hw. rewrite !andb_true_iff, !negb_true_iff, bool_decide_eq_false in Hw. apply Hplain; tauto.
    + exists dquote, dquote, (b +:+ String dquote ""), (String dquote b). by rewrite append_cons.
  - unfold plainWord in Hx. rewrite !andb_true_iff, !negb_true_iff, bool_decide_eq_false in Hx.
    apply Hplain; [|done]. unfold nospace in *. rewrite str_forallb_app. rewrite andb_true_iff. split; [done|tauto].
Qed.

Lemma TrimSpace_words ws :
  ws ≠ [] → Forall (λ w, inputWord w = true) ws → TrimSpace (Join ws " ") = Join ws " ".
Proof.
  intros Hne Hall. destruct (exists_last Hne) as (ws' & l & ->).
  assert (inputWord l = true) as Hl by (rewrite Forall_app, Forall_singleton in Hall; tauto).
  apply inputWord_ends in Hl as (_ & d & _ & u & _ & -> & _ & Hd).
  destruct ws' as [|w ws'].
  { inv Hall as [|?? Hw _]. apply inputWord_ends in Hw as (c & _ & t' & _ & E & _ & Hc & _).
    cbn [Join app]. by eapply TrimSpace_ends. }
  inv Hall as [|?? Hw _]. apply inputWord_ends in Hw as (c & _ & t' & _ & -> & _ & Hc & _).
  eapply (TrimSpace_ends _ c d); [| |done|done].
  - rewrite <- app_comm_cons, Join_cons by (by destruct ws'). by rewrite append_cons.
  - rewrite Join_snoc by done. by rewrite <- !append_assoc.
Qed.

Lemma expand_length ws :
  Forall (λ w, inputWord w = true) ws → (length (ws ≫= expandWord) ≤ String.length (Join ws " "))%nat.
Proof.
  induction 1 as [|w ws Hw Hws IH]; [done|]. rewrite bind_cons, length_app.
  assert (length (expandWord w) ≤ String.length w)%nat as Hl.
  { apply inputWord_cases in Hw as [[Hw ->]|(x & -> & Hx & ->)]; [|simpl; lia].
    apply ruleWord_ne in Hw. destruct w; [done|simpl; lia]. }
  destruct ws as [|w' ws]; [simpl; lia|]. rewrite Join_cons, !length_append by done. lia.
Qed.

(** The rule the words make in the table. *)
Definition normalForm (ws : list string) : string := Join (normalizeArg <$> (ws ≫= expandWord)) " ".

Lemma normalizeRule_words ws :
  ws ≠ [] → Forall (λ w, inputWord w = true) ws → normalizeRule (Join ws " ") = Ret (normalForm ws).
Proof.
  intros Hne Hall. unfold normalizeRule. rewrite TrimSpace_words by done.
  rewrite normalize_input; [done|done|done|]. etrans; [by apply expand_length|lia].
Qed.

Lemma ruleWord_input w : ruleWord w = true → inputWord w = true.
Proof. unfold inputWord. by intros ->. Qed.

Lemma slash_unknown w s : IPFamilyOfString (w +:+ String "/" s) = IPFamilyUnknown.
Proof.
  destruct (IPFamilyOfString _) eqn:E; [done| |];
    (destruct (IPFamily_chars (w +:+ String "/" s)) as [Hc _]; [by rewrite E|]);
    rewrite str_forallb_app in Hc; by apply andb_true_iff in Hc as [_ Hc].
Qed.

Lemma HasPrefix_head c d s : HasPrefix (String c s) (String d "") = bool_decide (c = d).
Proof.
  unfold HasPrefix. cbn [String.prefix]. destruct (ascii_dec d c) as [->|].
  - by rewrite bool_decide_eq_true_2; destruct s.
  - by rewrite bool_decide_eq_false_2.
Qed.

Lemma addr_slash_plain w s :
  plainWord w = true → str_forallb addr_char w = true → nospace s = true → plainWord (w +:+ s) = true.
Proof.
  unfold plainWord. rewrite !andb_true_iff, !negb_true_iff, !bool_decide_eq_false.
  intros (((Hsp & Hne) & Hq) & _) Hc Hs. destruct w as [|c w]; [done|]. rewrite append_cons.
  simpl in Hc. apply andb_true_iff in Hc as [Hc _]. repeat split; [|done| |].
  - unfold nospace in *. simpl in *. rewrite str_forallb_app, andb_assoc. rewrite Hsp. done.
  - by rewrite HasPrefix_head in *.
  - apply not_true_is_false. intros [r [= -> _]]%HasPrefix_spec. done.
Qed.

Lemma normalizeArg_rule w : ruleWord w = true → ruleWord (normalizeArg w) = true ∧ normalizeArg (normalizeArg w) = normalizeArg w.
Proof.
  intros Hw. destruct (IPFamilyOfString w) eqn:E.
  { assert (normalizeArg w = w) as Ha by (unfold normalizeArg; by rewrite E). by rewrite !Ha. }
  1-2: destruct (IPFamily_chars w) as [Hc _]; [by rewrite E|].
  1-2: apply orb_true_iff in Hw as [Hw|(b & -> & _)%quotedWord_inv]; [|done].
  - assert (normalizeArg w = w +:+ "/32") as -> by (unfold normalizeArg; by rewrite E).
    split; [by apply plain_rule, addr_slash_plain|]. unfold normalizeArg. by rewrite slash_unknown.
  - assert (normalizeArg w = w +:+ "/128") as -> by (unfold normalizeArg; by rewrite E).
    split; [by apply plain_rule, addr_slash_plain|]. unfold normalizeArg. by rewrite slash_unknown.
Qed.

Lemma expand_rule w : inputWord w = true → Forall (λ w, ruleWord w = true) (expandWord w).
Proof.
  intros [[Hw ->]|(x & -> & Hx & ->)]%inputWord_cases; repeat constructor; auto using plain_rule.
Qed.

Lemma rule_expand ws : Forall (λ w, ruleWord w = true) ws → ws ≫= expandWord = ws.
Proof.
  induction 1 as [|w ws Hw Hws IH]; [done|]. rewrite bind_cons, IH.
  destruct (inputWord_cases w) as [[_ ->]|(x & -> & _ & _)]; [by apply ruleWord_input|done|].
  pose proof (not_destination ("--to-destination=" +:+ x) "" Hw (or_introl eq_refl)) as Hn.
  by rewrite append_nil_r, HasPrefix_app in Hn.
Qed.

(** A normal form is its own normal form. *)
Lemma normalizeRule_normal ws :
  ws ≠ [] → Forall (λ w, inputWord w = true) ws → normalizeRule (normalForm ws) = Ret (normalForm ws).
Proof.
  intros Hne Hall. unfold normalForm.
  assert (Forall (λ w, ruleWord w = true) (ws ≫= expandWord)) as Hr.
  { clear Hne. induction Hall as [|w ws Hw Hws IH]; [constructor|]. rewrite bind_cons.
    apply Forall_app. split; [by apply expand_rule|done]. }
  set (vs := ws ≫= expandWord) in *.
  assert (Forall (λ w, ruleWord w = true) (normalizeArg <$> vs)) as Hn.
  { apply Forall_fmap. eapply Forall_impl; [exact Hr|]. intros w Hw. by apply normalizeArg_rule. }
  assert (normalizeArg <$> vs ≠ []) as Hne'.
  { intros Hnil%fmap_nil_inv. subst vs. destruct ws as [|w ws]; [done|]. rewrite bind_cons in Hnil.
    apply app_nil in Hnil as [Hnil _]. by apply expandWord_ne in Hnil. }
  rewrite normalizeRule_words; [|done|eapply Forall_impl; [exact Hn|]; intros; by apply ruleWord_input].
  unfold normalForm. rewrite rule_expand by done. do 2 f_equal. rewrite <- list_fmap_compose.
  apply list_fmap_ext. intros i w Hi. simpl. apply normalizeArg_rule.
  by eapply Forall_lookup_1 in Hr.
Qed.

End normalize.

(** ** The nat table, line by line *)

Abbreviation natTable := (gmap string (list string)) (only parsing).

Section restore.
Context `{RangeOrderLaw} `{NetUtilsLaw}.

Definition setNat (t : natTable) (f : fakeIPTables) : fakeIPTables :=
  f <| tables ::= <[TableNAT := t]> |>.

(** [m] takes the nat table [t] to [t'] and touches nothing else. *)
Definition natStep (m : io fakeIPTables ()) (t t' : natTable) : Prop :=
  ∀ f, tables f !! TableNAT = Some t → m f = (Ret (), setNat t' f).

Lemma setNat_lookup t f : tables (setNat t f) !! TableNAT = Some t.
Proof. apply lookup_insert_eq. Qed.
Lemma setNat_setNat t t' f : setNat t (setNat t' f) = setNat t f.
Proof. unfold setNat. simpl. by rewrite insert_insert_eq. Qed.
Lemma setNat_id t f : tables f !! TableNAT = Some t → setNat t f = f.
Proof. intros Ht. unfold setNat. destruct f as [ts p]. simpl in *. by rewrite insert_id. Qed.

Lemma io_ret_then {A} (k : io fakeIPTables A) f : ((mret () : io fakeIPTables ()) ;; k) f = k f.
Proof. done. Qed.

Lemma natStep_ret t : natStep (mret ()) t t.
Proof. intros f Hf. by rewrite setNat_id. Qed.

Lemma natStep_bind m k t1 t2 t3 : natStep m t1 t2 → natStep k t2 t3 → natStep (m ;; k) t1 t3.
Proof.
  intros Hm Hk f Hf. erewrite io_bind_ret by by apply Hm. rewrite Hk by apply setNat_lookup.
  by rewrite setNat_setNat.
Qed.

Lemma natStep_for_each {A} (g : A → io fakeIPTables ()) (step : A → natTable → natTable) l t (P : A → natTable → Prop) :
  (∀ x t, P x t → natStep (g x) t (step x t)) →
  (∀ l1 x l2, l = l1 ++ x :: l2 → P x (foldl (λ t x, step x t) t l1)) →
  natStep (for_each g l) t (foldl (λ t x, step x t) t l).
Proof.
  intros Hg. revert t. induction l as [|x l IH]; intros t HP; [apply natStep_ret|]. simpl.
  eapply natStep_bind; [apply Hg; exact (HP [] x l eq_refl)|]. apply IH. intros l1 y l2 ->.
  exact (HP (x :: l1) y l2 eq_refl).
Qed.

Lemma natStep_app {A} (g : A → io fakeIPTables ()) l1 l2 t1 t2 t3 :
  natStep (for_each g l1) t1 t2 → natStep (for_each g l2) t2 t3 → natStep (for_each g (l1 ++ l2)) t1 t3.
Proof.
  intros H1' H2'. enough (∀ f, for_each g (l1 ++ l2) f = (for_each g l1 ;; for_each g l2) f) as E.
  { intros f Hf. rewrite E. by eapply natStep_bind. }
  clear. induction l1 as [|x l1 IH]; intros f; [done|]. simpl. unfold mbind, io_bind.
  destruct (g x f) as [[[]| |] f']; [|done|done]. rewrite IH. done.
Qed.

Lemma putChain_nat t c rs f : tables f !! TableNAT = Some t → putChain TableNAT c rs f = setNat (<[c := rs]> t) f.
Proof. intros Hf. unfold putChain, setNat. simpl. rewrite Hf. done. Qed.

Lemma getChain_nat t c f :
  tables f !! TableNAT = Some t →
  getChain TableNAT c f =
    match t !! c with
    | Some rs => Ret rs
    | None => Fail (ErrorsNew ("chain " +:+ TableNAT +:+ "/" +:+ c +:+ " does not exist"))
    end.
Proof. intros Hf. unfold getChain, getTable. by rewrite Hf. Qed.

Lemma findRule_mem rules rule : (0 <=? findRule rules rule) = bool_decide (rule ∈ rules).
Proof.
  enough (-1 ≤ findRule rules rule ∧ (0 ≤ findRule rules rule ↔ rule ∈ rules)) as [_ Hi].
  { apply eq_true_iff_eq. by rewrite Z.leb_le, bool_decide_eq_true. }
  induction rules as [|x rules [IH1 IH2]]; simpl.
  { split; [lia|]. split; [lia|]. by intros ?%elem_of_nil. }
  case_bool_decide as Hx.
  - split; [lia|]. split; [|lia]. intros _. subst. by left.
  - rewrite elem_of_cons. destruct (findRule rules rule <? 0) eqn:E.
    + apply Z.ltb_lt in E. split; [lia|]. split; [lia|]. intros [?|?%IH2]; [done|lia].
    + apply Z.ltb_ge in E. split; [lia|]. split; [|lia]. intros _. right. by apply IH2.
Qed.

Lemma ensureChain_nat c t : natStep (ensureChain TableNAT c ;; mret ()) t (<[c := default [] (t !! c)]> t).
Proof.
  intros f Hf. unfold ensureChain, mbind, io_bind. rewrite (getChain_nat t) by done.
  destruct (t !! c) as [rs|] eqn:Ec; simpl.
  - rewrite insert_id by done. by rewrite setNat_id.
  - by rewrite (putChain_nat t).
Qed.

Definition place (position : RulePosition) (rule : string) (rules : list string) : list string :=
  if bool_decide (rule ∈ rules) then rules
  else match position with Prepend => rule :: rules | Append => rules ++ [rule] end.

Lemma ensureRule_nat position c rule rule' t :
  normalizeRule rule = Ret rule' →
  natStep (ensureRule position TableNAT c rule ;; mret ()) t (<[c := place position rule' (default [] (t !! c))]> t).
Proof.
  intros Hn. unfold ensureRule. intros f Hf. set (rs := default [] (t !! c)).
  assert ((ensureChain TableNAT c ;; mret ()) f = (Ret (), setNat (<[c := rs]> t) f)) as E by by apply ensureChain_nat.
  unfold mbind, io_bind in *. destruct (ensureChain TableNAT c f) as [[b| |] f'] eqn:E1; [|done|done].
  injection E as ->. unfold query.
  rewrite (getChain_nat (<[c := rs]> t)) by apply setNat_lookup. rewrite lookup_insert_eq.
  unfold lift. rewrite Hn, findRule_mem. unfold place. destruct (bool_decide _); [done|].
  unfold modify. rewrite (putChain_nat (<[c := rs]> t)) by apply setNat_lookup.
  rewrite setNat_setNat, insert_insert_eq. done.
Qed.

(** A name without blanks: the name of a chain in the text. *)
Definition chainName (c : string) : bool := negb (contains_char " " c) && oneLine c.

Definition flushed (all : string) (c : string) : bool :=
  negb (isBuiltinChain TableNAT c) && negb (Contains all ("-X " +:+ c)).

Lemma restoreLine_chain all c t :
  chainName c = true →
  natStep (restoreLine all NoFlushTables TableNAT (MakeChainLine c)) t
          (<[c := if flushed all c then [] else default [] (t !! c)]> t).
Proof.
  intros [Hc _]%andb_true_iff. apply negb_true_iff in Hc. unfold restoreLine.
  change (HasPrefix (MakeChainLine c) ":") with (HasPrefix (":" +:+ c +:+ " - [0:0]") ":").
  rewrite HasPrefix_app. unfold MakeChainLine. change (str_drop 1 (":" +:+ c +:+ " - [0:0]")) with (c +:+ String " " "- [0:0]").
  rewrite Split_app by done. cbn [hd].
  intros f Hf. rewrite io_ret_then.
  assert ((ensureChain TableNAT c ;; mret ()) f = (Ret (), setNat (<[c := default [] (t !! c)]> t) f)) as E
    by by apply ensureChain_nat.
  unfold mbind, io_bind in *. destruct (ensureChain TableNAT c f) as [[b| |] f'] eqn:E1; [|done|done].
  injection E as ->. fold (flushed all c). destruct (flushed all c); [|done].
  unfold when, FlushChain. rewrite (getChain_nat _ _ _ (setNat_lookup _ _)), lookup_insert_eq.
  rewrite (putChain_nat _ _ _ _ (setNat_lookup _ _)), setNat_setNat, insert_insert_eq. done.
Qed.

Definition ruleText (flag : string) (c rule : string) : string := flag +:+ " " +:+ c +:+ " " +:+ rule.

Lemma Split_rule flag c rule :
  contains_char " " flag = false → chainName c = true →
  ∃ p ps, Split (ruleText flag c rule) " " = flag :: c :: p :: ps.
Proof.
  intros Hf [Hc _]%andb_true_iff. apply negb_true_iff in Hc. unfold ruleText.
  change (flag +:+ " " +:+ c +:+ " " +:+ rule) with (flag +:+ String " " (c +:+ String " " rule)).
  rewrite !Split_app by done. pose proof (Split_ne_nil rule " ") as Hne.
  destruct (Split rule " ") as [|p ps]; [done|]. eauto.
Qed.

Lemma TrimPrefix_rule flag c rule : TrimPrefix (ruleText flag c rule) (flag +:+ " " +:+ c +:+ " ") = rule.
Proof.
  unfold ruleText. replace (flag +:+ " " +:+ c +:+ " " +:+ rule) with ((flag +:+ " " +:+ c +:+ " ") +:+ rule)
    by by rewrite !append_assoc. apply TrimPrefix_app.
Qed.

Lemma restoreLine_append all c rule rule' t :
  chainName c = true → normalizeRule rule = Ret rule' →
  natStep (restoreLine all NoFlushTables TableNAT (ruleText "-A" c rule)) t
          (<[c := place Append rule' (default [] (t !! c))]> t).
Proof.
  intros Hc Hr. unfold restoreLine. destruct (Split_rule "-A" c rule) as (p & ps & E); [done|done|]. rewrite E.
  change ("-A " +:+ c +:+ " ") with ("-A" +:+ " " +:+ c +:+ " "). rewrite TrimPrefix_rule.
  by apply ensureRule_nat.
Qed.

Lemma restoreLine_prepend all c rule rule' t :
  chainName c = true → normalizeRule rule = Ret rule' →
  natStep (restoreLine all NoFlushTables TableNAT (ruleText "-I" c rule)) t
          (<[c := place Prepend rule' (default [] (t !! c))]> t).
Proof.
  intros Hc Hr. unfold restoreLine. destruct (Split_rule "-I" c rule) as (p & ps & E); [done|done|]. rewrite E.
  change ("-I " +:+ c +:+ " ") with ("-I" +:+ " " +:+ c +:+ " "). rewrite TrimPrefix_rule.
  by apply ensureRule_nat.
Qed.

Lemma restoreLine_delete all c t :
  chainName c = true → is_Some (t !! c) →
  natStep (restoreLine all NoFlushTables TableNAT ("-X " +:+ c)) t (delete c t).
Proof.
  intros [Hc _]%andb_true_iff [rs Hrs]. apply negb_true_iff in Hc. unfold restoreLine.
  change ("-X " +:+ c) with ("-X" +:+ String " " c).
  rewrite Split_app, (Split_word c) by done. simpl. intros f Hf. unfold DeleteChain.
  rewrite (getChain_nat t) by done. rewrite Hrs. do 2 f_equal. unfold setNat. destruct f as [ts pr]. simpl in *.
  f_equal. apply map_eq. intros k. destruct (decide (k = TableNAT)) as [->|Hk].
  - rewrite lookup_alter_eq, Hf, lookup_insert_eq. done.
  - by rewrite lookup_alter_ne, lookup_insert_ne.
Qed.

(** A line of the body of a table. *)
Definition bodyLine (l : string) : bool := oneLine l && (HasPrefix l ":" || HasPrefix l "-").

(** [RestoreAll] of one table runs the lines of its body in order. *)
Lemma restore_nat body f :
  Forall (λ l, bodyLine l = true) body →
  let data := text ("*nat" :: body ++ ["COMMIT"]) in
  fakeRestoreAll data NoFlushTables RestoreCounters f =
  for_each (restoreLine data NoFlushTables TableNAT) body f.
Proof.
  intros Hb data. unfold fakeRestoreAll, restore. unfold data at 2. rewrite readLines_text.
  - cbn [restore_loop]. change (HasPrefix "*nat" "#") with false. change (HasPrefix "*nat" "*") with true.
    change (str_drop 1 "*nat") with TableNAT. cbn iota beta.
    change (bool_decide (TableNAT = "") || negb (bool_decide ("" = "")) && negb (bool_decide ("" = TableNAT))) with false.
    change (bool_decide ("*nat" = "COMMIT")) with false. cbn iota.
    change (restoreLine data NoFlushTables TableNAT "*nat") with (mret () : io fakeIPTables ()).
    rewrite io_ret_then.
    clearbody data. revert f. induction Hb as [|l ls Hl Hls IH]; intros f; [done|].
    cbn [app restore_loop for_each]. apply andb_true_iff in Hl as [_ Hl].
    assert (∃ c r, l = String c r ∧ (c = ":"%char ∨ c = "-"%char)) as (c & r & -> & Hc).
    { apply orb_true_iff in Hl as [[r ->]%HasPrefix_spec|[r ->]%HasPrefix_spec]; eauto. }
    rewrite !HasPrefix_head.
    rewrite (bool_decide_eq_false_2 (c = "#"%char)), (bool_decide_eq_false_2 (c = "*"%char)),
      (bool_decide_eq_false_2 (String c r = "COMMIT")) by naive_solver.
    change (bool_decide (TableNAT = "") || negb (bool_decide ("" = "")) && negb (bool_decide ("" = TableNAT))) with false.
    cbn iota.
    unfold mbind, io_bind. destruct (restoreLine _ _ _ _ f) as [[[]| |] f']; [apply IH|done|done].
  - constructor; [done|]. apply Forall_app. split; [|by repeat constructor].
    eapply Forall_impl; [exact Hb|]. intros l [Hl _]%andb_true_iff. done.
Qed.

End restore.
