(* ===== verification/HostPort.v ===== *)
(** * HostPort: the host port manager

    [internal/hostport/hostport_manager.go], [hostport.go],
    [hostport_manager_linux.go] and the manager that does nothing.  The manager
    edits the nat table of the host through the text format of [iptables-save]
    and [iptables-restore]; it is modelled against the interface of
    [IPTables], and its theorems are about the firewall of [IPTables.Fake]: what
    [Add] and [Remove] leave in the table, for every order in which the maps of
    the program are visited. *)

From S2P Require Import Prelude GoStrings Digest IPTables.
From Stdlib Require Import Ascii.
Local Open Scope Z_scope.

(** ** Addresses: [net.IP] of the standard library *)

Module NetIP.

Abbreviation IP := (list Z) (only parsing).

Definition v4InV6Prefix : IP := [0; 0; 0; 0; 0; 0; 0; 0; 0; 0; 255; 255].

(** [To4] and [To16], [None] for nil. *)
Definition To4 (ip : IP) : option IP :=
  if bool_decide (length ip = 4%nat) then Some ip
  else if bool_decide (length ip = 16%nat) && bool_decide (take 12 ip = v4InV6Prefix)
  then Some (drop 12 ip) else None.
Definition To16 (ip : IP) : option IP :=
  if bool_decide (length ip = 4%nat) then Some (v4InV6Prefix ++ ip)
  else if bool_decide (length ip = 16%nat) then Some ip else None.

Definition hexChar (n : Z) : ascii := default "0"%char (String.get (Z.to_nat n) "0123456789abcdef").

(** A 16-bit group in hexadecimal, without leading zeroes. *)
Definition hexGroup (g : Z) : string :=
  let d i := hexChar (Z.land (Z.shiftr g i) 15) in
  if 4096 <=? g then String (d 12) (String (d 8) (String (d 4) (String (d 0) "")))
  else if 256 <=? g then String (d 8) (String (d 4) (String (d 0) ""))
  else if 16 <=? g then String (d 4) (String (d 0) "")
  else String (d 0) "".

Fixpoint groups (ip : IP) : list Z :=
  match ip with
  | hi :: lo :: ip => (hi * 256 + lo) :: groups ip
  | _ => []
  end.

(** The length of the run of zero groups at the head of the list. *)
Fixpoint zeroRun (gs : list Z) : nat :=
  match gs with
  | g :: gs => if g =? 0 then S (zeroRun gs) else O
  | [] => O
  end.

(** The first longest run of at least two zero groups: where it starts, and its
    length ([best] is the run found so far, [i] the position of the list). *)
Fixpoint longestRun (i : nat) (gs : list Z) (best : nat * nat) : nat * nat :=
  match gs with
  | [] => best
  | _ :: gs' =>
      let n := zeroRun gs in
      longestRun (S i) gs' (if (2 <=? n)%nat && (best.2 <? n)%nat then (i, n) else best)
  end.

Definition IPString (ip : IP) : string :=
  match To4 ip with
  | Some v4 => Join (Itoa <$> v4) "."
  | None =>
      if bool_decide (length ip = 16%nat) then
        let gs := groups ip in
        let '(at_, n) := longestRun 0 gs (O, O) in
        if (n =? 0)%nat then Join (hexGroup <$> gs) ":"
        else Join (hexGroup <$> take at_ gs) ":" +:+ "::" +:+ Join (hexGroup <$> drop (at_ + n) gs) ":"
      else if bool_decide (ip = []) then "<nil>" else "?"
  end.

(** [IsIPv6] of [k8s.io/utils/net]: valid and not an IPv4 address. *)
Definition IsIPv6 (ip : IP) : bool :=
  match To4 ip, To16 ip with
  | None, Some _ => true
  | _, _ => false
  end.

(** [net.JoinHostPort] *)
Definition JoinHostPort (host port : string) : string :=
  if contains_char ":" host then "[" +:+ host +:+ "]:" +:+ port else host +:+ ":" +:+ port.

End NetIP.

(** ** Data: [hostport.go] *)

Definition kubeHostportsChain : Chain := "KUBE-HOSTPORTS".
Definition kubeHostportChainPrefix : string := "KUBE-HP-".
Definition crioMasqueradeChain : Chain := "CRIO-HOSTPORTS-MASQ".
Definition crioMasqueradeChainPrefix : string := "CRIO-MASQ-".

Record PortMapping := mkPM {
  HostPort : Z;
  ContainerPort : Z;
  PMProtocol : string;
  HostIP : string;
}.

Record PodPortMapping := mkPPM {
  Namespace : string;
  Name : string;
  PortMappings : list PortMapping;
  IP : list Z;
}.

Definition ProtocolUDP : string := "UDP".

(** ** Text *)

Definition getPodFullName (pod : PodPortMapping) : string := Name pod +:+ "_" +:+ Namespace pod.

(** A [bytes.Buffer] written line by line is the list of its lines; its bytes
    are their [text]. *)
Definition writeLine (buf : list string) (words : list string) : list string := buf ++ [Join words " "].

(** [b[i:j]] *)
Definition slice (i j : nat) (b : string) : string := str_take (j - i) (str_drop i b).

Fixpoint skipSpaces (fuel : nat) (i : nat) (b : string) : nat :=
  match fuel with
  | O => i
  | S fuel =>
      match String.get i b with
      | Some c => if bool_decide (c = " "%char) then skipSpaces fuel (S i) b else i
      | None => i
      end
  end.

(** The scan of [readLine]; [rightTrimIndex] is [None] for -1. *)
Fixpoint readLine_loop (fuel : nat) (current left : nat) (rightTrimIndex : option nat) (b : string) :
    string * nat :=
  match fuel with
  | O => ("", current)
  | S fuel =>
      match String.get current b with
      | None => ("", current)
      | Some c =>
          if bool_decide (c = " "%char) then
            readLine_loop fuel (S current) left (Some (default current rightTrimIndex)) b
          else
            let last := (current =? String.length b - 1)%nat in
            if bool_decide (c = newline) || last then
              if (current <=? left)%nat then ("", S current)
              else
                let right := match rightTrimIndex with
                             | Some r => r
                             | None => if last && negb (bool_decide (c = newline)) then S current else current
                             end in
                (slice left right b, S current)
            else readLine_loop fuel (S current) left None b
      end
  end.

(** [readLine]: a nil line and an empty one are the same to its callers. *)
Definition readLine (readIndex : nat) (b : string) : string * nat :=
  let left := skipSpaces (String.length b) readIndex b in
  readLine_loop (S (String.length b)) left left None b.

(** The first loop of [getChainLines]: past the line that opens the table. *)
Fixpoint findTable (fuel : nat) (tablePrefix save : string) (readIndex : nat) : nat :=
  match fuel with
  | O => readIndex
  | S fuel =>
      if (readIndex <? String.length save)%nat then
        let '(line, n) := readLine readIndex save in
        if HasPrefix line tablePrefix then n else findTable fuel tablePrefix save n
      else readIndex
  end.

(** The second loop: the chain lines up to the end of the table. *)
Fixpoint parseTable (fuel : nat) (save : string) (readIndex : nat) (chainsMap : gmap string string) :
    outcome (gmap string string) :=
  match fuel with
  | O => Ret chainsMap
  | S fuel =>
      if (readIndex <? String.length save)%nat then
        let '(line, n) := readLine readIndex save in
        if bool_decide (line = "") then parseTable fuel save n chainsMap
        else if HasPrefix line "COMMIT" || HasPrefix line "*" then Ret chainsMap
        else if HasPrefix line "#" then parseTable fuel save n chainsMap
        else if HasPrefix line ":" && (1 <? String.length line)%nat then
          match IndexByte line " " with
          | None => Panic ("Unexpected chain line in iptables-save output: " +:+ line)
          | Some spaceIndex => parseTable fuel save n (<[slice 1 spaceIndex line := line]> chainsMap)
          end
        else parseTable fuel save n chainsMap
      else Ret chainsMap
  end.

Definition getChainLines (table : Table) (save : string) : outcome (gmap string string) :=
  let fuel := S (String.length save) in
  parseTable fuel save (findTable fuel ("*" +:+ table) save 0) ∅.

(** ** Chains and rules *)

Definition getHostportChain (prefix id : string) (pm : PortMapping) : Chain :=
  let hash := Sha256.Sum256 (id +:+ Itoa (HostPort pm) +:+ PMProtocol pm +:+ HostIP pm) in
  prefix +:+ str_take 16 (Base32.EncodeToString hash).

Definition mentions (filters : list Chain) (rule : string) : bool := existsb (Contains rule) filters.

Fixpoint filterRules (rules : list string) (filters : list Chain) : list string :=
  match rules with
  | [] => []
  | rule :: rules =>
      if mentions filters rule then filterRules rules filters else rule :: filterRules rules filters
  end.

Definition filterChains (chains : gmap string string) (filters : list Chain) : gmap string string :=
  foldl (λ m chain, delete chain m) chains filters.

Definition isHostportChain (chain : Chain) : bool :=
  bool_decide (chain = kubeHostportsChain) || bool_decide (chain = crioMasqueradeChain)
  || HasPrefix chain kubeHostportChainPrefix || HasPrefix chain crioMasqueradeChainPrefix.

Definition isHostportRule (line : string) : bool :=
  HasPrefix line ("-A " +:+ kubeHostportChainPrefix)
  || HasPrefix line ("-A " +:+ crioMasqueradeChainPrefix)
  || HasPrefix line ("-A " +:+ kubeHostportsChain +:+ " ")
  || HasPrefix line ("-A " +:+ crioMasqueradeChain +:+ " ").

Section manager.
Context `{RangeOrder} `{NetUtils} {T : Type} `{!Interface T}.
(** [netlink.ConntrackDeleteFilters] for an address family, protocol and port. *)
Context (ConntrackDeleteFilters : Z → Z → Z → option goerr).

Definition IsIPv6String (ip : string) : bool := bool_decide (IPFamilyOfString ip = IPv6).

Definition gatherHostportMappings (pod : PodPortMapping) (isIPv6 : bool) : list PortMapping :=
  List.filter (λ pm,
    negb (HostPort pm <=? 0) &&
    (bool_decide (HostIP pm = "") || Bool.eqb (IsIPv6String (HostIP pm)) isIPv6)) (PortMappings pod).

Definition getExistingHostportIPTablesRules : io T (gmap string string * list string) :=
  data ← wrap_err "failed to execute iptables-save: %w" (SaveInto TableNAT);
  existingNATChains ← lift (getChainLines TableNAT data);
  mret (filter (λ kv, isHostportChain kv.1 = true) existingNATChains,
        List.filter isHostportRule (Split data newline)).

Definition syncIPTables (lines : string) : io T () :=
  wrap_err "failed to execute iptables-restore: %w" (RestoreAll lines NoFlushTables RestoreCounters).

Definition ensureKubeHostportChains : io T () :=
  wrap_err "failed to ensure that chain exists: %w" (EnsureChain TableNAT kubeHostportsChain) ;;
  let args := ["-m"; "comment"; "--comment"; "kube hostport portals";
               "-m"; "addrtype"; "--dst-type"; "LOCAL"; "-j"; kubeHostportsChain] in
  for_each (λ chain,
    wrap_err "failed to ensure that chain jumps: %w" (EnsureRule Append TableNAT chain args) ;; mret ())
    [ChainOutput; ChainPrerouting] ;;
  wrap_err "failed to ensure that chain exists: %w" (EnsureChain TableNAT crioMasqueradeChain) ;;
  wrap_err "failed to ensure that chain jumps: %w"
    (EnsureRule Append TableNAT ChainPostrouting
       ["-m"; "comment"; "--comment"; "kube hostport masquerading";
        "-m"; "conntrack"; "--ctstate"; "DNAT"; "-j"; crioMasqueradeChain]) ;;
  mret ().

(** ** The manager *)

Record hostportManager := mkManager {
  ip4tables : T;
  ip6tables : T;
  (** the calls of [ConntrackDeleteFilters]: family, protocol, port *)
  conntrackCalls : list (Z * Z * Z);
}.
#[export] Instance hostportManager_eta : Eta hostportManager :=
  λ r, mkManager (ip4tables r) (ip6tables r) (conntrackCalls r).

(** An operation of the firewall of one family. *)
Definition onTables {A} (v6 : bool) (m : io T A) : io hostportManager A := λ w,
  if v6 then let '(r, t) := m (ip6tables w) in (r, w <| ip6tables := t |>)
  else let '(r, t) := m (ip4tables w) in (r, w <| ip4tables := t |>).

Definition AF_INET : Z := 2.
Definition AF_INET6 : Z := 10.
Definition getNetlinkFamily (isIPv6 : bool) : Z := if isIPv6 then AF_INET6 else AF_INET.
Definition protocolUDPNumber : Z := 17.

Definition deleteConntrackEntriesForDstPort (port protocol family : Z) : io hostportManager () :=
  modify (λ w, w <| conntrackCalls ::= λ l, l ++ [(family, protocol, port)] |>) ;;
  wrap_err "error deleting connection tracking state: %w"
    (lift (of_err (ConntrackDeleteFilters family protocol port))).

(** The two chains of a mapping and the four rules [Add] writes for it. *)
Definition mappingChains (id : string) (pm : PortMapping) : list Chain :=
  [getHostportChain kubeHostportChainPrefix id pm; getHostportChain crioMasqueradeChainPrefix id pm].

Definition mappingComment (podFullName : string) (pm : PortMapping) : string :=
  String dquote (podFullName +:+ " hostport " +:+ Itoa (HostPort pm) +:+ String dquote "").

Definition mappingRules (podFullName podIP id : string) (pm : PortMapping) : list (list string) :=
  let protocol := ToLower (PMProtocol pm) in
  let hpChain := getHostportChain kubeHostportChainPrefix id pm in
  let masqChain := getHostportChain crioMasqueradeChainPrefix id pm in
  let comment := ["-m"; "comment"; "--comment"; mappingComment podFullName pm] in
  let hostPortBinding := NetIP.JoinHostPort podIP (Itoa (ContainerPort pm)) in
  [ ["-I"; kubeHostportsChain] ++ comment ++
      ["-m"; protocol; "-p"; protocol; "--dport"; Itoa (HostPort pm); "-j"; hpChain];
    ["-I"; crioMasqueradeChain] ++ comment ++ ["-j"; masqChain];
    (if bool_decide (HostIP pm = "") || bool_decide (HostIP pm = "0.0.0.0") || bool_decide (HostIP pm = "::")
     then ["-A"; hpChain] ++ comment ++
            ["-m"; protocol; "-p"; protocol; "-j"; "DNAT"; "--to-destination=" +:+ hostPortBinding]
     else ["-A"; hpChain] ++ comment ++
            ["-m"; protocol; "-p"; protocol; "-d"; HostIP pm;
             "-j"; "DNAT"; "--to-destination=" +:+ hostPortBinding]);
    ["-A"; masqChain] ++ comment ++
      ["-m"; "conntrack"; "--ctorigdstport"; Itoa (HostPort pm);
       "-m"; protocol; "-p"; protocol; "--dport"; Itoa (ContainerPort pm);
       "-s"; podIP; "-d"; podIP; "-j"; "MASQUERADE"] ].

(** What the loop of [Add] accumulates. *)
Record additions := mkAdditions {
  newChains : list Chain;
  conntrackPortsToRemove : list Z;
  natChains : list string;
  natRules : list string;
}.

Definition addMapping (podFullName podIP id : string) (acc : additions) (pm : PortMapping) : additions :=
  {| newChains := newChains acc ++ mappingChains id pm;
     conntrackPortsToRemove :=
       if bool_decide (PMProtocol pm = ProtocolUDP)
       then conntrackPortsToRemove acc ++ [HostPort pm] else conntrackPortsToRemove acc;
     natChains := foldl (λ buf chain, writeLine buf [MakeChainLine chain]) (natChains acc) (mappingChains id pm);
     natRules := foldl writeLine (natRules acc) (mappingRules podFullName podIP id pm) |}.

Definition Add (id : string) (pod : PodPortMapping) : io hostportManager () :=
  let podFullName := getPodFullName pod in
  match NetIP.To16 (IP pod) with
  | None => fail (ErrorsNew ("invalid or missing IP of pod " +:+ podFullName))
  | Some _ =>
      let podIP := NetIP.IPString (IP pod) in
      let isIPv6 := NetIP.IsIPv6 (IP pod) in
      match gatherHostportMappings pod isIPv6 with
      | [] => mret ()
      | hostportMappings =>
          onTables isIPv6 ensureKubeHostportChains ;;
          '(existingChains, existingRules) ← onTables isIPv6 getExistingHostportIPTablesRules;
          let acc := foldl (addMapping podFullName podIP id)
                           (mkAdditions [] [] (writeLine [] ["*nat"]) []) hostportMappings in
          let existingChains := filterChains existingChains (newChains acc) in
          let existingRules := filterRules existingRules (newChains acc) in
          let natChains' := foldl (λ buf chain, writeLine buf [chain]) (natChains acc) (range existingChains).*2 in
          let natRules' := foldl (λ buf rule, writeLine buf [rule]) (natRules acc) existingRules in
          let natRules'' := writeLine natRules' ["COMMIT"] in
          onTables isIPv6 (syncIPTables (Fake.text natChains' +:+ Fake.text natRules'')) ;;
          for_each (λ port,
            ignore (deleteConntrackEntriesForDstPort (u16 port) protocolUDPNumber (getNetlinkFamily isIPv6)))
            (conntrackPortsToRemove acc)
      end
  end.

Definition removeForFamily (id : string) (pod : PodPortMapping) (v6 : bool) : io hostportManager () :=
  isIPv6 ← onTables v6 (gets IsIPv6);
  match gatherHostportMappings pod isIPv6 with
  | [] => mret ()
  | hostportMappings =>
      '(existingChains, existingRules) ← onTables v6 getExistingHostportIPTablesRules;
      let chainsToRemove := foldl (λ l pm, l ++ mappingChains id pm) [] hostportMappings in
      let remainingRules := filterRules existingRules chainsToRemove in
      let existingChainsToRemove :=
        List.filter (λ chain, bool_decide (is_Some (existingChains !! chain))) chainsToRemove in
      match existingChainsToRemove with
      | [] => mret ()
      | _ =>
          let natChains := foldl (λ buf chain, writeLine buf [chain]) (writeLine [] ["*nat"]) (range existingChains).*2 in
          let natRules := foldl (λ buf rule, writeLine buf [rule]) [] remainingRules in
          let natRules := foldl (λ buf chain, writeLine buf ["-X"; chain]) natRules existingChainsToRemove in
          let natRules := writeLine natRules ["COMMIT"] in
          onTables v6 (syncIPTables (Fake.text natChains +:+ Fake.text natRules))
      end
  end.

(** [utilerrors.NewAggregate] of at most two errors. *)
Definition NewAggregate (errors : list goerr) : outcome () :=
  match errors with
  | [] => Ret ()
  | [e] => Fail e
  | e :: _ => Fail (Errorf "[%w, ...]" e)
  end.

Definition Remove (id : string) (pod : PodPortMapping) : io hostportManager () :=
  r4 ← try (removeForFamily id pod false);
  r6 ← try (removeForFamily id pod true);
  let errors := match r4 with inr e => [e] | inl _ => [] end ++ match r6 with inr e => [e] | inl _ => [] end in
  lift (NewAggregate errors).

End manager.

(** [noop_hostport_manager.go] *)
Module Noop.
Definition Add {T} (id : string) (pod : PodPortMapping) : io T () := mret ().
Definition Remove {T} (id : string) (pod : PodPortMapping) : io T () := mret ().
End Noop.

(** ** Reading lines *)

Fixpoint trimBlanksLeft (s : string) : string :=
  match s with
  | String c s' => if bool_decide (c = " "%char) then trimBlanksLeft s' else s
  | EmptyString => EmptyString
  end.
Definition trimBlanksRight (s : string) : string := str_rev (trimBlanksLeft (str_rev s)).
(** [strings.Trim(s, " ")], what [readLine] is to return. *)
Definition trimBlanks (s : string) : string := trimBlanksRight (trimBlanksLeft s).

Fixpoint blanks (n : nat) : string :=
  match n with O => EmptyString | S n => String " " (blanks n) end.

Lemma trimBlanksLeft_split s : ∃ k, s = blanks k +:+ trimBlanksLeft s.
Proof.
  induction s as [|c s [k IH]]; simpl; [by exists O|]. case_bool_decide; subst.
  - exists (S k). cbn [blanks]. by rewrite append_cons, <- IH.
  - exists O. done.
Qed.

Lemma trimBlanksLeft_head s : trimBlanksLeft s = "" ∨ ∃ c r, trimBlanksLeft s = String c r ∧ c ≠ " "%char.
Proof. induction s as [|c s IH]; simpl; [by left|]. case_bool_decide; [done|]. right. eauto. Qed.

Lemma blanks_snoc k : blanks k +:+ " " = blanks (S k).
Proof. induction k as [|k IH]; [done|]. cbn [blanks]. rewrite append_cons. f_equal. exact IH. Qed.

Lemma str_rev_blanks k : str_rev (blanks k) = blanks k.
Proof.
  induction k as [|k IH]; [done|]. change (blanks (S k)) with (" " +:+ blanks k) at 1.
  rewrite str_rev_app, IH. apply blanks_snoc.
Qed.

Lemma trimBlanksRight_split s : ∃ k, s = trimBlanksRight s +:+ blanks k.
Proof.
  destruct (trimBlanksLeft_split (str_rev s)) as [k Hk]. exists k.
  unfold trimBlanksRight. rewrite <- (str_rev_blanks k), <- str_rev_app, <- Hk. by rewrite str_rev_involutive.
Qed.

Lemma trimBlanksRight_blank s : trimBlanksRight (s +:+ " ") = trimBlanksRight s.
Proof. unfold trimBlanksRight. by rewrite str_rev_app. Qed.

Lemma trimBlanksRight_char s c : c ≠ " "%char → trimBlanksRight (s +:+ String c "") = s +:+ String c "".
Proof.
  intros Hc. unfold trimBlanksRight. rewrite str_rev_app.
  change (str_rev (String c "") +:+ str_rev s) with (String c (str_rev s)). cbn [trimBlanksLeft].
  rewrite bool_decide_eq_false_2 by done.
  change (String c (str_rev s)) with (str_rev (String c "") +:+ str_rev s).
  by rewrite <- str_rev_app, str_rev_involutive.
Qed.

Lemma get_app p c r : String.get (String.length p) (p +:+ String c r) = Some c.
Proof. induction p as [|d p IH]; [done|]. by rewrite append_cons. Qed.

Lemma get_none p : String.get (String.length p) p = None.
Proof. induction p; done. Qed.

Lemma slice_app p s r : slice (String.length p) (String.length p + String.length s) (p +:+ s +:+ r) = s.
Proof.
  unfold slice. rewrite str_drop_app.
  replace (String.length p + String.length s - String.length p)%nat with (String.length s) by lia.
  apply str_take_app.
Qed.

Lemma skipSpaces_blanks fuel p k r :
  (k < fuel)%nat → (r = "" ∨ ∃ c s, r = String c s ∧ c ≠ " "%char) →
  skipSpaces fuel (String.length p) (p +:+ blanks k +:+ r) = (String.length p + k)%nat.
Proof.
  revert p k. induction fuel as [|fuel IH]; intros p k Hk Hr; [lia|]. cbn [skipSpaces]. destruct k as [|k].
  - cbn [blanks]. rewrite append_nil_l. destruct Hr as [->|(c & s & -> & Hc)].
    + rewrite append_nil_r, (get_none p). lia.
    + rewrite get_app. rewrite bool_decide_eq_false_2 by done. lia.
  - cbn [blanks]. rewrite append_cons, get_app, bool_decide_eq_true_2 by done.
    replace (p +:+ String " " (blanks k +:+ r)) with ((p +:+ " ") +:+ blanks k +:+ r) by by rewrite append_assoc.
    replace (S (String.length p)) with (String.length (p +:+ " ")) by (rewrite length_append; simpl; lia).
    rewrite IH by (done || lia). rewrite length_append. simpl. lia.
Qed.

(** Where the scan of the line [done ++ todo] stands after [done]. *)
Definition rightTrim (left : nat) (s : string) : option nat :=
  if bool_decide (trimBlanksRight s = s) then None
  else Some (left + String.length (trimBlanksRight s))%nat.

Lemma rightTrim_blank left s :
  Some (default (left + String.length s)%nat (rightTrim left s)) = rightTrim left (s +:+ " ").
Proof.
  unfold rightTrim. rewrite trimBlanksRight_blank.
  rewrite (bool_decide_eq_false_2 (trimBlanksRight s = s +:+ " ")).
  - case_bool_decide as E; [by rewrite E|done].
  - intros E. destruct (trimBlanksRight_split s) as [k Hk]. rewrite Hk in E at 2.
    apply (f_equal String.length) in E. rewrite !length_append in E. simpl in E. lia.
Qed.

Lemma rightTrim_char left s c : c ≠ " "%char → rightTrim left (s +:+ String c "") = None.
Proof. intros Hc. unfold rightTrim. rewrite trimBlanksRight_char by done. by rewrite bool_decide_eq_true_2. Qed.

Lemma slice_trim p s r :
  slice (String.length p) (default (String.length p + String.length s)%nat (rightTrim (String.length p) s)) (p +:+ s +:+ r)
  = trimBlanksRight s.
Proof.
  unfold rightTrim. case_bool_decide as E; simpl.
  - by rewrite slice_app, E.
  - destruct (trimBlanksRight_split s) as [k Hk]. rewrite Hk at 2. rewrite append_assoc. apply slice_app.
Qed.

Lemma readLine_scan todo p s r fuel :
  oneLine todo = true → (String.length todo < fuel)%nat → (s ≠ "" ∨ ∃ c t, todo = String c t ∧ c ≠ " "%char) →
  readLine_loop fuel (String.length p + String.length s) (String.length p) (rightTrim (String.length p) s)
    (p +:+ s +:+ todo +:+ String newline r)
  = (trimBlanksRight (s +:+ todo), S (String.length p + String.length s + String.length todo)).
Proof.
  revert s fuel. induction todo as [|c todo IH]; intros s fuel Hl Hf Hs; (destruct fuel as [|fuel]; [simpl in Hf; lia|]);
    cbn [readLine_loop]; rewrite <- length_append.
  - rewrite append_nil_l, append_nil_r. rewrite <- (append_assoc p s), get_app.
    rewrite bool_decide_eq_false_2 by done. rewrite (bool_decide_eq_true_2 (newline = newline)) by done.
    cbn [orb negb]. rewrite andb_false_r. destruct Hs as [Hs|(? & ? & ? & _)]; [|done].
    assert (0 < String.length s)%nat by (destruct s; [done|simpl; lia]).
    rewrite (proj2 (Nat.leb_gt _ _)) by (rewrite length_append; lia). rewrite append_assoc, length_append.
    rewrite <- (slice_trim p s (String newline r)). cbn [String.length]. rewrite Nat.add_0_r.
    by destruct (rightTrim _ s).
  - rewrite append_cons, <- (append_assoc p s), get_app. unfold oneLine in Hl. simpl in Hl.
    rewrite negb_orb in Hl. apply andb_true_iff in Hl as [Hc Hl]. apply negb_true_iff, bool_decide_eq_false in Hc.
    assert (∀ fuel, (String.length todo < fuel)%nat →
      readLine_loop fuel (S (String.length (p +:+ s))) (String.length p) (rightTrim (String.length p) (s +:+ String c ""))
        ((p +:+ s) +:+ String c (todo +:+ String newline r)) =
      (trimBlanksRight (s +:+ String c todo), S (String.length (p +:+ s) + String.length (String c todo)))) as Hnext.
    { intros fuel' Hf'. specialize (IH (s +:+ String c "") fuel').
      rewrite !append_assoc, !append_cons, !append_nil_l in IH. rewrite !append_assoc.
      rewrite !length_append in *. cbn [String.length] in *.
      replace (S (String.length p + String.length s)) with (String.length p + (String.length s + 1))%nat by lia.
      rewrite IH; [f_equal; lia|done|done|left; by destruct s]. }
    case_bool_decide as Hsp; subst.
    + rewrite length_append at 2. rewrite rightTrim_blank. apply Hnext. simpl in Hf. lia.
    + rewrite (bool_decide_eq_false_2 (c = newline)) by done. rewrite (proj2 (Nat.eqb_neq _ _)).
      * cbn [orb]. rewrite <- (rightTrim_char (String.length p) s c Hsp). apply Hnext. simpl in Hf. lia.
      * rewrite !length_append. cbn [String.length]. rewrite !length_append. cbn [String.length]. lia.
Qed.

(** [readLine] at the start of a line returns it without the blanks around it,
    and the start of the next line. *)
Lemma readLine_line p l r :
  oneLine l = true →
  readLine (String.length p) (p +:+ l +:+ String newline r) = (trimBlanks l, S (String.length p + String.length l)).
Proof.
  intros Hl. unfold readLine, trimBlanks. destruct (trimBlanksLeft_split l) as [k Hk].
  set (body := trimBlanksLeft l) in *. rewrite Hk, append_assoc.
  assert (oneLine body = true) as Hb.
  { rewrite Hk in Hl. unfold oneLine in *. rewrite contains_char_app, negb_orb in Hl. by apply andb_true_iff in Hl as []. }
  rewrite skipSpaces_blanks.
  2:{ rewrite !length_append. enough (k = String.length (blanks k)) by (simpl; lia).
      clear. induction k; simpl; lia. }
  2:{ right. destruct (trimBlanksLeft_head l) as [E|(c & s & E & Hc)]; fold body in E; rewrite E; [|by eauto].
      exists newline, r. done. }
  assert (String.length (blanks k) = k) as Ek by (clear; induction k; simpl; lia).
  rewrite <- (append_assoc p).
  replace (String.length p + k)%nat with (String.length (p +:+ blanks k)) by (rewrite length_append; lia).
  rewrite (length_append (blanks k)), Ek.
  destruct (trimBlanksLeft_head l) as [E|(c & s & E & Hc)]; fold body in E.
  - rewrite E in *. rewrite append_nil_l. cbn [readLine_loop]. rewrite get_app.
    rewrite bool_decide_eq_false_2 by done. rewrite (bool_decide_eq_true_2 (newline = newline)) by done.
    cbn [orb]. rewrite Nat.leb_refl. f_equal. rewrite length_append, Ek. simpl. lia.
  - pose proof (readLine_scan body (p +:+ blanks k) "" r) as Hscan. rewrite !append_nil_l in Hscan.
    cbn [String.length] in Hscan. rewrite Nat.add_0_r in Hscan.
    change (rightTrim (String.length (p +:+ blanks k)) "") with (@None nat) in Hscan.
    rewrite Hscan; [|done| |right; eauto].
    + rewrite length_append, Ek. f_equal. lia.
    + rewrite !length_append. simpl. lia.
Qed.

(** ** Reading the chains of a table: a reference on lists of lines *)

Import Fake.

Fixpoint afterTable (tablePrefix : string) (ls : list string) : list string :=
  match ls with
  | [] => []
  | l :: ls => if HasPrefix (trimBlanks l) tablePrefix then ls else afterTable tablePrefix ls
  end.

Fixpoint chainsOfLines (ls : list string) (m : gmap string string) : outcome (gmap string string) :=
  match ls with
  | [] => Ret m
  | l :: ls =>
      match trimBlanks l with
      | EmptyString => chainsOfLines ls m
      | String c rest as line =>
          if HasPrefix line "COMMIT" || bool_decide (c = "*"%char) then Ret m
          else if bool_decide (c = ":"%char) && negb (bool_decide (rest = "")) then
            match Cut rest " " with
            | None => Panic ("Unexpected chain line in iptables-save output: " +:+ line)
            | Some (chain, _) => chainsOfLines ls (<[chain := line]> m)
            end
          else chainsOfLines ls m
      end
  end.

Lemma text_nonempty_index p l ls : (String.length p <? String.length (p +:+ text (l :: ls)))%nat = true.
Proof. apply Nat.ltb_lt. rewrite text_cons, !length_append. simpl. lia. Qed.

Lemma readLine_text p l ls :
  oneLine l = true →
  readLine (String.length p) (p +:+ text (l :: ls)) = (trimBlanks l, String.length (p +:+ l +:+ nl)).
Proof.
  intros Hl. rewrite text_cons, readLine_line by done. f_equal. rewrite !length_append. simpl. lia.
Qed.

Lemma text_shift p l ls : p +:+ text (l :: ls) = (p +:+ l +:+ nl) +:+ text ls.
Proof. rewrite text_cons, !append_assoc. done. Qed.

Lemma findTable_lines fuel pre ls p :
  Forall (λ l, oneLine l = true) ls → (length ls < fuel)%nat →
  ∃ q, findTable fuel pre (p +:+ text ls) (String.length p) = String.length q ∧
       p +:+ text ls = q +:+ text (afterTable pre ls).
Proof.
  revert p fuel. induction ls as [|l ls IH]; intros p fuel Hall Hf; (destruct fuel as [|fuel]; [simpl in Hf; lia|]); cbn [findTable].
  - exists p. change (text []) with "". by rewrite append_nil_r, Nat.ltb_irrefl, append_nil_r.
  - inv Hall. rewrite text_nonempty_index, readLine_text by done. cbn [afterTable].
    destruct (HasPrefix (trimBlanks l) pre).
    + exists (p +:+ l +:+ nl). by rewrite text_shift.
    + rewrite text_shift. apply IH; [done|]. simpl in Hf. lia.
Qed.

Lemma IndexByte_Cut s c :
  match IndexByte s c with
  | None => Cut s c = None
  | Some i => ∃ r, Cut s c = Some (str_take i s, r)
  end.
Proof.
  induction s as [|d s IH]; simpl; [done|]. case_bool_decide; [by eauto|].
  destruct (IndexByte s c); simpl; [destruct IH as [r ->]; simpl; eauto|by rewrite IH].
Qed.

Lemma parseTable_lines fuel ls p m :
  Forall (λ l, oneLine l = true) ls → (length ls < fuel)%nat →
  parseTable fuel (p +:+ text ls) (String.length p) m = chainsOfLines ls m.
Proof.
  revert p fuel m. induction ls as [|l ls IH]; intros p fuel m Hall Hf; (destruct fuel as [|fuel]; [simpl in Hf; lia|]); cbn [parseTable].
  - change (text []) with "". by rewrite append_nil_r, Nat.ltb_irrefl.
  - inv Hall. rewrite text_nonempty_index, readLine_text by done. cbn [chainsOfLines].
    assert (∀ m, parseTable fuel (p +:+ text (l :: ls)) (String.length (p +:+ l +:+ nl)) m = chainsOfLines ls m) as Hnext.
    { intros m'. rewrite text_shift. apply IH; [done|]. simpl in Hf. lia. }
    destruct (trimBlanks l) as [|c rest] eqn:El; [by rewrite bool_decide_eq_true_2|].
    rewrite bool_decide_eq_false_2 by done. rewrite !HasPrefix_head.
    destruct (HasPrefix (String c rest) "COMMIT"); [done|]. cbn [orb].
    case_bool_decide; [done|]. case_bool_decide as Hh.
    { subst. rewrite bool_decide_eq_false_2 by done. apply Hnext. }
    case_bool_decide as Hcol; [|apply Hnext]. subst. destruct rest as [|d rest]; [apply Hnext|].
    rewrite bool_decide_eq_false_2 by done. cbn [andb negb String.length Nat.ltb Nat.leb].
    pose proof (IndexByte_Cut (String d rest) " ") as Hcut.
    change (IndexByte (String ":" (String d rest)) " ") with (S <$> IndexByte (String d rest) " ").
    destruct (IndexByte (String d rest) " ") as [i|]; cbn [fmap option_fmap option_map].
    + destruct Hcut as [r ->]. rewrite Hnext. do 2 f_equal. unfold slice. cbn [str_drop]. f_equal. lia.
    + by rewrite Hcut.
Qed.

Lemma length_text_ge ls : (length ls ≤ String.length (text ls))%nat.
Proof. induction ls as [|l ls IH]; [simpl; lia|]. rewrite text_cons, length_append. simpl. lia. Qed.

(** C36: [getChainLines], which walks the bytes of the save with an index, reads the
    lines of the table one after the other. *)
Theorem getChainLines_lines table ls :
  Forall (λ l, oneLine l = true) ls →
  getChainLines table (text ls) = chainsOfLines (afterTable ("*" +:+ table) ls) ∅.
Proof.
  intros Hall. unfold getChainLines. pose proof (length_text_ge ls) as Hlen.
  destruct (findTable_lines (S (String.length (text ls))) ("*" +:+ table) ls "") as (q & Hq & E); [done|lia|].
  rewrite append_nil_l in *. change (String.length "") with O in Hq. rewrite Hq. rewrite E.
  apply parseTable_lines.
  - clear -Hall. induction Hall; simpl; [constructor|]. by case_match.
  - rewrite length_append. pose proof (length_text_ge (afterTable ("*" +:+ table) ls)). lia.
Qed.

(** ** What the manager reads from a well-formed nat table *)

(** The names of the chains the manager owns. *)
Definition hostportName (c : string) : bool :=
  bool_decide (c = kubeHostportsChain) || bool_decide (c = crioMasqueradeChain)
  || HasPrefix c kubeHostportChainPrefix && (String.length c =? 24)%nat
  || HasPrefix c crioMasqueradeChainPrefix && (String.length c =? 26)%nat.

(** No text that looks like the deletion of a chain. *)
Definition noDelete (line : string) : bool := negb (Contains line "-X ").

Section read.
Context `{RangeOrderLaw} `{NetUtilsLaw}.

(** A chain as [iptables-save] prints it: a name without blanks, rules that are
    distinct, on one line and in normal form; the manager's own chains have the
    names it gives them, and their lines do not look like deletions. *)
Record wfChain (c : string) (rules : list string) : Prop := {
  wf_name : chainName c = true;
  wf_line : Forall (λ r, oneLine r = true) rules;
  wf_normal : Forall (λ r, normalizeRule r = Ret r) rules;
  wf_nodup : NoDup rules;
  wf_hostport : isHostportChain c = true →
    hostportName c = true ∧ noDelete (MakeChainLine c) = true ∧
    Forall (λ r, noDelete (ruleText "-A" c r) = true) rules;
}.

Definition wfNat (t : natTable) : Prop := map_Forall wfChain t.

Definition hpChains (t : natTable) : gmap string string :=
  map_imap (λ c _, if isHostportChain c then Some (MakeChainLine c) else None) t.
Definition hpRules (t : natTable) : list string :=
  range t ≫= λ '(c, rules), if isHostportChain c then ruleText "-A" c <$> rules else [].

Definition saveLines (t : natTable) : list string :=
  "*nat" :: ((λ c, MakeChainLine c.1) <$> range t)
  ++ (range t ≫= λ c, ruleText "-A" c.1 <$> c.2) ++ ["COMMIT"].

Lemma range_wf t : wfNat t → Forall (λ c, wfChain c.1 c.2) (range t).
Proof.
  intros Ht. apply Forall_forall. intros [c rs] Hc. rewrite (range_perm t) in Hc.
  apply elem_of_map_to_list in Hc. exact (Ht c rs Hc).
Qed.

Lemma Join_text {A} (g : A → list string) (l : list A) : Join ((λ x, text (g x)) <$> l) "" = text (l ≫= g).
Proof.
  induction l as [|x l IH]; [done|]. rewrite bind_cons, text_app. cbn [fmap list_fmap].
  by rewrite Join_nil_cons, <- IH.
Qed.

Lemma save_nat t f : tables f !! TableNAT = Some t → SaveInto TableNAT f = (Ret (text (saveLines t)), f).
Proof.
  intros Hf. cbn [SaveInto fake_interface]. unfold fakeSaveInto, query, mbind, io_bind, getTable. rewrite Hf.
  unfold mret, io_ret, saveLines. do 2 f_equal. rewrite text_cons, !text_app.
  change (String newline ?x) with (nl +:+ x).
  rewrite !append_assoc. rewrite <- (Join_text (λ c, ruleText "-A" c.1 <$> c.2)).
  change (text ["COMMIT"]) with ("COMMIT" +:+ nl). unfold text at 1. rewrite <- list_fmap_compose. done.
Qed.

Lemma oneLine_app s s' : oneLine (s +:+ s') = oneLine s && oneLine s'.
Proof. unfold oneLine. by rewrite contains_char_app, negb_orb. Qed.

Lemma oneLine_chain c : chainName c = true → oneLine (MakeChainLine c) = true.
Proof. intros [_ Hc]%andb_true_iff. unfold MakeChainLine. by rewrite !oneLine_app, Hc. Qed.
Lemma oneLine_rule flag c r :
  oneLine flag = true → chainName c = true → oneLine r = true → oneLine (ruleText flag c r) = true.
Proof. intros Hf [_ Hc]%andb_true_iff Hr. unfold ruleText. by rewrite !oneLine_app, Hf, Hc, Hr. Qed.

Lemma saveLines_oneLine t : wfNat t → Forall (λ l, oneLine l = true) (saveLines t).
Proof.
  intros Ht%range_wf. unfold saveLines. constructor; [done|]. rewrite !Forall_app. repeat split; [| |by repeat constructor].
  - apply Forall_fmap. eapply Forall_impl; [exact Ht|]. intros c Hc. by apply oneLine_chain, Hc.
  - apply Forall_bind. eapply Forall_impl; [exact Ht|]. intros c Hc. apply Forall_fmap.
    eapply Forall_impl; [apply Hc|]. intros r Hr. apply oneLine_rule; [done|apply Hc|done].
Qed.

Lemma trimBlanks_head d s : d ≠ " "%char → ∃ s', trimBlanks (String d s) = String d s'.
Proof.
  intros Hd. unfold trimBlanks. cbn [trimBlanksLeft]. rewrite bool_decide_eq_false_2 by done.
  destruct (trimBlanksRight_split (String d s)) as [k Hk].
  destruct (trimBlanksRight (String d s)) as [|e s'].
  - destruct k; [done|]. injection Hk as -> _. done.
  - rewrite append_cons in Hk. injection Hk as -> _. eauto.
Qed.

Lemma trimBlanks_chain c : trimBlanks (MakeChainLine c) = MakeChainLine c.
Proof.
  unfold trimBlanks. change (trimBlanksLeft (MakeChainLine c)) with (MakeChainLine c).
  unfold MakeChainLine. change " - [0:0]" with (" - [0:0" +:+ "]"). rewrite <- !append_assoc.
  by apply trimBlanksRight_char.
Qed.

(** The chain lines of the save are found, whatever order they come in. *)
Lemma chainsOfLines_chains (l : list (string * list string)) ls m :
  Forall (λ c, chainName c.1 = true) l →
  chainsOfLines (((λ c, MakeChainLine c.1) <$> l) ++ ls) m =
  chainsOfLines ls (foldl (λ m c, <[c.1 := MakeChainLine c.1]> m) m l).
Proof.
  revert m. induction l as [|[c rs] l IH]; intros m Hl; [done|]. inv Hl as [|?? Hc Hl'].
  cbn [fmap list_fmap app chainsOfLines]. rewrite trimBlanks_chain.
  assert (∃ d s, c +:+ " - [0:0]" = String d s) as (d & s & E) by (destruct c; eauto).
  change (MakeChainLine (c, rs).1) with (String ":" (c +:+ " - [0:0]")). rewrite E.
  change (HasPrefix (String ":" (String d s)) "COMMIT") with false. cbn [orb].
  rewrite bool_decide_eq_false_2, bool_decide_eq_true_2, bool_decide_eq_false_2 by done. cbn [andb negb].
  rewrite <- E. change (c +:+ " - [0:0]") with (c +:+ String " " "- [0:0]").
  apply andb_true_iff in Hc as [Hc _]. apply negb_true_iff in Hc. rewrite Cut_app by done. by rewrite IH.
Qed.

Lemma chainsOfLines_rules rules m :
  chainsOfLines (((λ cr, ruleText "-A" cr.1 cr.2) <$> (rules : list (string * string))) ++ ["COMMIT"]) m = Ret m.
Proof.
  induction rules as [|[c r] rules IH]; [done|]. cbn [fmap list_fmap app chainsOfLines].
  destruct (trimBlanks_head "-" ("A " +:+ c +:+ " " +:+ r)) as [s E]; [done|].
  change (ruleText "-A" (c, r).1 (c, r).2) with (String "-" ("A " +:+ c +:+ " " +:+ r)). rewrite E. apply IH.
Qed.

(** The rules of a list of chains, each with the name of its chain. *)
Definition flatRules (l : list (string * list string)) : list (string * string) :=
  l ≫= λ c, (λ r, (c.1, r)) <$> c.2.

Lemma flatRules_lines l :
  (l ≫= λ c, ruleText "-A" c.1 <$> c.2) = (λ cr, ruleText "-A" cr.1 cr.2) <$> flatRules l.
Proof.
  unfold flatRules. induction l as [|c l IH]; [done|]. rewrite !bind_cons, fmap_app, <- IH, <- list_fmap_compose. done.
Qed.

Lemma foldl_insert_lookup (l : list (string * list string)) (m : gmap string string) c :
  foldl (λ m c, <[c.1 := MakeChainLine c.1]> m) m l !! c =
  if bool_decide (c ∈ l.*1) then Some (MakeChainLine c) else m !! c.
Proof.
  revert m. induction l as [|[d rs] l IH]; intros m; [done|]. cbn [foldl fmap list_fmap]. rewrite IH.
  destruct (decide (c ∈ l.*1)) as [Hc|Hc].
  - rewrite !bool_decide_eq_true_2; [done|by right|done].
  - rewrite bool_decide_eq_false_2 by done. destruct (decide (c = d)) as [->|Hd].
    + rewrite bool_decide_eq_true_2 by left. apply lookup_insert_eq.
    + rewrite bool_decide_eq_false_2 by (rewrite elem_of_cons; naive_solver). by rewrite lookup_insert_ne.
Qed.

Lemma elem_of_range_fst (t : natTable) c : c ∈ (range t).*1 ↔ is_Some (t !! c).
Proof.
  rewrite list_elem_of_fmap. split.
  - intros ([c' rs] & -> & Hin). rewrite (range_perm t) in Hin. apply elem_of_map_to_list in Hin. eauto.
  - intros [rs Hrs]. exists (c, rs). split; [done|]. rewrite (range_perm t). by apply elem_of_map_to_list.
Qed.

Lemma isHostportRule_rule c r : chainName c = true → isHostportRule (ruleText "-A" c r) = isHostportChain c.
Proof.
  intros [Hc _]%andb_true_iff. apply negb_true_iff in Hc.
  unfold isHostportRule, isHostportChain. unfold ruleText.
  change ("-A" +:+ " " +:+ c +:+ " " +:+ r) with ("-A " +:+ (c +:+ String " " r)). rewrite !HasPrefix_common.
  rewrite !(HasPrefix_sep c r " ") by done.
  assert (∀ base, contains_char " " base = false → HasPrefix (c +:+ String " " r) (base +:+ " ") = bool_decide (c = base)) as Hbase.
  { intros base Hbase. apply eq_true_iff_eq. rewrite bool_decide_eq_true. split.
    - intros [s E]%HasPrefix_spec. rewrite append_assoc in E.
      change (" " +:+ s) with (String " " s) in E. pose proof (Cut_app c r " " Hc) as E1.
      rewrite E, Cut_app in E1 by done. by injection E1.
    - intros ->. change (String " " r) with (" " +:+ r). rewrite HasPrefix_common. apply HasPrefix_app. }
  rewrite !Hbase by done. destruct (bool_decide (c = kubeHostportsChain)), (bool_decide (c = crioMasqueradeChain)),
    (HasPrefix c _), (HasPrefix c _); done.
Qed.

Lemma hostport_lines l :
  Forall (λ c, wfChain c.1 c.2) l →
  List.filter isHostportRule (l ≫= λ c, ruleText "-A" c.1 <$> c.2) =
  l ≫= λ '(c, rules), if isHostportChain c then ruleText "-A" c <$> rules else [].
Proof.
  induction 1 as [|[c rs] l Hc Hl IH]; [done|]. rewrite !bind_cons, List.filter_app, IH. f_equal. simpl.
  apply wf_name in Hc. simpl in Hc. clear -Hc. destruct (isHostportChain c) eqn:E.
  - induction rs as [|r rs IH]; [done|]. cbn [fmap list_fmap List.filter].
    rewrite isHostportRule_rule, E by done. f_equal. exact IH.
  - induction rs as [|r rs IH]; [done|]. cbn [fmap list_fmap List.filter].
    by rewrite isHostportRule_rule, E by done.
Qed.

(** [getExistingHostportIPTablesRules] reads the manager's chains and rules. *)
Lemma getExisting_nat t f :
  wfNat t → tables f !! TableNAT = Some t →
  getExistingHostportIPTablesRules f = (Ret (hpChains t, hpRules t), f).
Proof.
  intros Ht Hf. pose proof (range_wf t Ht) as Hr. unfold getExistingHostportIPTablesRules.
  assert (getChainLines TableNAT (text (saveLines t)) =
    Ret (foldl (λ m c, <[c.1 := MakeChainLine c.1]> m) ∅ (range t))) as Hchains.
  { rewrite getChainLines_lines by by apply saveLines_oneLine. unfold saveLines. cbn [afterTable].
    change (HasPrefix (trimBlanks "*nat") ("*" +:+ TableNAT)) with true. cbn iota.
    rewrite chainsOfLines_chains.
    - rewrite flatRules_lines. apply chainsOfLines_rules.
    - eapply Forall_impl; [exact Hr|]. intros c Hc. apply Hc. }
  unfold wrap_err, mbind, io_bind. rewrite (save_nat t) by done. cbv beta iota. unfold lift. rewrite Hchains.
  unfold mret, io_ret. do 3 f_equal.
  - apply map_eq. intros c. rewrite map_lookup_filter, foldl_insert_lookup. unfold hpChains.
    rewrite map_lookup_imap, lookup_empty. case_bool_decide as Hc; rewrite elem_of_range_fst in Hc.
    + destruct Hc as [rs ->]. cbn [mbind option_bind fst]. case_guard as Hg; [by rewrite Hg|].
      by apply not_true_is_false in Hg as ->.
    + apply eq_None_not_Some in Hc. rewrite Hc. done.
  - rewrite Split_text by by apply saveLines_oneLine. unfold saveLines, hpRules.
    rewrite <- hostport_lines by done. rewrite List.filter_app. cbn [List.filter].
    change (isHostportRule "*nat") with false. change (isHostportRule "") with false. rewrite app_nil_r.
    rewrite !List.filter_app. change (List.filter isHostportRule ["COMMIT"]) with (@nil string). rewrite app_nil_r.
    assert (List.filter isHostportRule ((λ c, MakeChainLine c.1) <$> range t) = []) as ->; [|done].
    clear. induction (range t) as [|c l IH]; [done|]. exact IH.
Qed.

End read.

(** ** The stages of a restore *)

Section stages.
Context `{RangeOrderLaw} `{NetUtilsLaw}.

Abbreviation runLine all := (restoreLine all NoFlushTables TableNAT).

Lemma for_each_fmap {W A B} (g : B → io W ()) (h : A → B) l w : for_each g (h <$> l) w = for_each (λ x, g (h x)) l w.
Proof.
  revert w. induction l as [|x l IH]; intros w; [done|]. cbn [fmap list_fmap for_each]. unfold mbind, io_bind.
  destruct (g (h x) w) as [[[]| |] w']; [apply IH|done|done].
Qed.

Lemma natStep_fmap {A B} (g : B → io fakeIPTables ()) (h : A → B) (step : A → natTable → natTable) l t (P : A → natTable → Prop) :
  (∀ x t, P x t → natStep (g (h x)) t (step x t)) →
  (∀ l1 x l2, l = l1 ++ x :: l2 → P x (foldl (λ t x, step x t) t l1)) →
  natStep (for_each g (h <$> l)) t (foldl (λ t x, step x t) t l).
Proof. intros Hg HP f Hf. rewrite for_each_fmap. by eapply natStep_for_each. Qed.

(** *** Chain lines *)

Definition declare (all : string) (c : string) (t : natTable) : natTable :=
  <[c := if flushed all c then [] else default [] (t !! c)]> t.
Definition declareAll (all : string) (cs : list string) (t : natTable) : natTable :=
  foldl (λ t c, declare all c t) t cs.

Lemma declare_step all cs t :
  Forall (λ c, chainName c = true) cs →
  natStep (for_each (runLine all) (MakeChainLine <$> cs)) t (declareAll all cs t).
Proof.
  intros Hcs. apply (natStep_fmap _ _ (declare all) cs t (λ c _, chainName c = true)).
  - intros c t' Hc. by apply restoreLine_chain.
  - intros l1 c l2 ->. rewrite Forall_app, Forall_cons in Hcs. tauto.
Qed.

Lemma declareAll_lookup all cs t c :
  declareAll all cs t !! c =
  if bool_decide (c ∈ cs) then Some (if flushed all c then [] else default [] (t !! c)) else t !! c.
Proof.
  unfold declareAll. revert t. induction cs as [|d cs IH]; intros t; [done|]. cbn [foldl]. rewrite IH. unfold declare.
  destruct (decide (c = d)) as [->|Hd].
  - rewrite lookup_insert_eq. rewrite (bool_decide_eq_true_2 (d ∈ d :: cs)) by left.
    case_bool_decide; simpl; by destruct (flushed all d).
  - rewrite lookup_insert_ne by done. rewrite (bool_decide_ext (c ∈ d :: cs) (c ∈ cs)); [done|].
    rewrite elem_of_cons. naive_solver.
Qed.

(** *** Rules *)

(** A rule to place: how, in which chain, as written, and in normal form. *)
Record ruleOp := mkOp { op_pos : RulePosition; op_chain : string; op_text : string; op_rule : string }.

Definition flag (p : RulePosition) : string := match p with Append => "-A" | Prepend => "-I" end.
Definition op_line (o : ruleOp) : string := ruleText (flag (op_pos o)) (op_chain o) (op_text o).
Definition wfOp (o : ruleOp) : Prop := chainName (op_chain o) = true ∧ normalizeRule (op_text o) = Ret (op_rule o).

Definition replay (o : ruleOp) (t : natTable) : natTable :=
  <[op_chain o := place (op_pos o) (op_rule o) (default [] (t !! op_chain o))]> t.
Definition replayAll (ops : list ruleOp) (t : natTable) : natTable := foldl (λ t o, replay o t) t ops.

Lemma replay_step all ops t :
  Forall wfOp ops → natStep (for_each (runLine all) (op_line <$> ops)) t (replayAll ops t).
Proof.
  intros Hops. apply (natStep_fmap _ _ replay ops t (λ o _, wfOp o)).
  - intros [[] c r r'] t' [Hc Hr]; [by apply restoreLine_prepend|by apply restoreLine_append].
  - intros l1 o l2 ->. rewrite Forall_app, Forall_cons in Hops. tauto.
Qed.

(** The rules placed at one end of a chain, in the order they are given. *)
Definition samePos (p q : RulePosition) : bool :=
  match p, q with Append, Append | Prepend, Prepend => true | _, _ => false end.
Definition placed (p : RulePosition) (c : string) (ops : list ruleOp) : list string :=
  op_rule <$> List.filter (λ o, samePos (op_pos o) p && bool_decide (op_chain o = c)) ops.

Lemma placed_cons p c o ops :
  placed p c (o :: ops) =
  if samePos (op_pos o) p && bool_decide (op_chain o = c) then op_rule o :: placed p c ops else placed p c ops.
Proof. unfold placed. cbn [List.filter]. by destruct (_ && _). Qed.

Lemma placed_app p c ops ops' : placed p c (ops ++ ops') = placed p c ops ++ placed p c ops'.
Proof. unfold placed. by rewrite List.filter_app, fmap_app. Qed.

Lemma replayAll_lookup ops t c rs :
  t !! c = Some rs → NoDup (placed Prepend c ops ++ rs ++ placed Append c ops) →
  replayAll ops t !! c = Some (rev (placed Prepend c ops) ++ rs ++ placed Append c ops).
Proof.
  unfold replayAll. revert t rs. induction ops as [|[p d r r'] ops IH]; intros t rs Ht Hnd.
  { simpl. by rewrite app_nil_r. }
  cbn [foldl]. unfold replay at 2. cbn [op_chain op_pos op_rule]. destruct (decide (d = c)) as [->|Hd].
  - rewrite Ht. cbn [default from_option id]. destruct p; rewrite !placed_cons in *;
      cbn [op_rule op_pos op_chain samePos andb] in *; rewrite bool_decide_eq_true_2 in * by done; cbn [andb] in *.
    + apply NoDup_cons in Hnd as [Hr Hnd]. rewrite !elem_of_app in Hr.
      unfold place. rewrite bool_decide_eq_false_2 by tauto. cbn [rev]. rewrite <- app_assoc.
      rewrite (IH _ (r' :: rs)); [done|apply lookup_insert_eq|].
      rewrite <- app_comm_cons, <- Permutation_middle. apply NoDup_cons. by rewrite !elem_of_app.
    + assert (r' ∉ rs) as Hr.
      { apply NoDup_app in Hnd as (_ & _ & Hnd). apply NoDup_app in Hnd as (_ & Hnd & _).
        intros Hin. apply (Hnd _ Hin). left. }
      unfold place. rewrite bool_decide_eq_false_2 by done.
      rewrite (IH _ (rs ++ [r'])); [by rewrite <- (app_assoc rs)|apply lookup_insert_eq|].
      by rewrite <- (app_assoc rs).
  - rewrite !placed_cons in *. cbn [op_chain] in *. rewrite (bool_decide_eq_false_2 (d = c)), !andb_false_r in * by done.
    apply IH; [by rewrite lookup_insert_ne|done].
Qed.

Lemma replayAll_lookup_other ops t c : Forall (λ o, op_chain o ≠ c) ops → replayAll ops t !! c = t !! c.
Proof.
  unfold replayAll. intros Hops. revert t. induction Hops as [|o ops Ho _ IH]; intros t; [done|]. cbn [foldl].
  rewrite IH. unfold replay. by rewrite lookup_insert_ne.
Qed.

(** *** Deletions *)

Definition deleteAll (cs : list string) (t : natTable) : natTable := foldl (λ t c, delete c t) t cs.

Lemma deleteAll_lookup cs t c : deleteAll cs t !! c = if bool_decide (c ∈ cs) then None else t !! c.
Proof.
  unfold deleteAll. revert t. induction cs as [|d cs IH]; intros t; [done|]. cbn [foldl]. rewrite IH.
  destruct (decide (c = d)) as [->|Hd].
  - rewrite lookup_delete_eq, (bool_decide_eq_true_2 (d ∈ d :: cs)) by left. by case_bool_decide.
  - rewrite lookup_delete_ne by done. rewrite (bool_decide_ext (c ∈ d :: cs) (c ∈ cs)); [done|].
    rewrite elem_of_cons. naive_solver.
Qed.

Lemma delete_step all cs t :
  NoDup cs → Forall (λ c, chainName c = true ∧ is_Some (t !! c)) cs →
  natStep (for_each (runLine all) ((λ c, "-X " +:+ c) <$> cs)) t (deleteAll cs t).
Proof.
  intros Hnd Hcs. apply (natStep_fmap _ _ delete cs t (λ c t, chainName c = true ∧ is_Some (t !! c))).
  - intros c t' [Hc Ht]. by apply restoreLine_delete.
  - intros l1 c l2 ->. rewrite Forall_app, Forall_cons in Hcs. destruct Hcs as (_ & [Hc Ht] & _). split; [done|].
    fold (deleteAll l1 t). rewrite deleteAll_lookup, bool_decide_eq_false_2; [done|].
    apply NoDup_app in Hnd as (_ & Hnd & _). intros Hin. apply (Hnd _ Hin). left.
Qed.

End stages.

(** ** Names *)

(** A chain of one host port mapping. *)
Definition ownName (c : string) : bool :=
  chainName c
  && (HasPrefix c kubeHostportChainPrefix && (String.length c =? 24)%nat
      || HasPrefix c crioMasqueradeChainPrefix && (String.length c =? 26)%nat).

Lemma hostportName_cases c :
  hostportName c = true →
  c = kubeHostportsChain ∨ c = crioMasqueradeChain ∨
  (∃ r, c = kubeHostportChainPrefix +:+ r ∧ String.length c = 24%nat) ∨
  (∃ r, c = crioMasqueradeChainPrefix +:+ r ∧ String.length c = 26%nat).
Proof.
  unfold hostportName. rewrite !orb_true_iff, !andb_true_iff, !bool_decide_eq_true, !HasPrefix_spec, !Nat.eqb_eq.
  intros [[[?|?]|[[r ?] ?]]|[[r ?] ?]]; eauto 7.
Qed.

Lemma ownName_cases c :
  ownName c = true →
  (∃ r, c = kubeHostportChainPrefix +:+ r ∧ String.length c = 24%nat) ∨
  (∃ r, c = crioMasqueradeChainPrefix +:+ r ∧ String.length c = 26%nat).
Proof.
  unfold ownName. rewrite !andb_true_iff, !orb_true_iff, !andb_true_iff, !HasPrefix_spec, !Nat.eqb_eq.
  intros [_ [[[r ?] ?]|[[r ?] ?]]]; eauto.
Qed.

Lemma ownName_chainName c : ownName c = true → chainName c = true.
Proof. by intros [? _]%andb_true_iff. Qed.

Lemma ownName_hostport c : ownName c = true → isHostportChain c = true.
Proof.
  intros [(r & -> & _)|(r & -> & _)]%ownName_cases; unfold isHostportChain; rewrite HasPrefix_app;
    by rewrite ?orb_true_r.
Qed.

Lemma hostport_not_builtin c : isHostportChain c = true → isBuiltinChain TableNAT c = false.
Proof.
  intros Hc. apply bool_decide_eq_false. intros Hin.
  change (builtinChains TableNAT) with ["PREROUTING"; "INPUT"; "OUTPUT"; "POSTROUTING"] in Hin.
  repeat (apply elem_of_cons in Hin as [->|Hin]; [done|]). by apply elem_of_nil in Hin.
Qed.

(** A manager's name is a prefix of a mapping's chain only if they are equal. *)
Lemma own_prefix c r : hostportName c = true → ownName r = true → HasPrefix r c = true → c = r.
Proof.
  intros Hc Hr Hp. pose proof (HasPrefix_spec r c) as Hs.
  apply hostportName_cases in Hc as [->|[->|[(x & -> & Hl)|(x & -> & Hl)]]];
    apply ownName_cases in Hr as [(y & -> & Hl')|(y & -> & Hl')]; try done;
    symmetry; apply HasPrefix_same_length; congruence.
Qed.

Lemma deletion_line c r :
  hostportName c = true → ownName r = true →
  Contains ("-X " +:+ r) ("-X " +:+ c) = bool_decide (c = r).
Proof.
  intros Hc Hr. apply eq_true_iff_eq. rewrite bool_decide_eq_true. split; [|intros ->; apply Contains_refl].
  change ("-X " +:+ r) with (String "-" (String "X" (String " " r))). cbn [Contains].
  rewrite !orb_true_iff. intros [Hp|[Hp|[Hp|Hp]]].
  - apply own_prefix; [done|done|]. by rewrite <- (HasPrefix_common "-X ").
  - done.
  - done.
  - apply (Contains_contains_char " ") in Hp; [|done].
    apply ownName_chainName in Hr. apply andb_true_iff in Hr as [Hr _]. by rewrite Hp in Hr.
Qed.

Lemma noDelete_line l c : noDelete l = true → Contains l ("-X " +:+ c) = false.
Proof.
  intros Hl. apply negb_true_iff in Hl. apply not_true_is_false. intros Hc.
  apply (Contains_weaken _ _ "-X ") in Hc; [congruence|]. apply Contains_spec. by exists "", c.
Qed.

(** ** Removing *)

Section remove.
Context `{RangeOrderLaw} `{NetUtilsLaw}.

(** The rules of chain [c] that do not mention the chains [R]. *)
Definition keepRules (R : list Chain) (c : string) (rules : list string) : list string :=
  List.filter (λ r, negb (mentions R (ruleText "-A" c r))) rules.

(** The nat table without the chains [R]: they are gone, the manager's other
    chains lose the rules that mention them, and every other chain is as it was. *)
Definition removed (R : list Chain) (t : natTable) : natTable :=
  map_imap (λ c rules,
    if bool_decide (c ∈ R) then None
    else Some (if isHostportChain c then keepRules R c rules else rules)) t.

Definition keepOps (R : list Chain) (l : list (string * list string)) : list ruleOp :=
  l ≫= λ '(c, rules), if isHostportChain c then (λ r, mkOp Append c r r) <$> keepRules R c rules else [].

Lemma hpChains_lookup t c :
  hpChains t !! c = if isHostportChain c && bool_decide (is_Some (t !! c)) then Some (MakeChainLine c) else None.
Proof.
  unfold hpChains. rewrite map_lookup_imap. destruct (t !! c) eqn:E; cbn [mbind option_bind].
  - rewrite bool_decide_eq_true_2 by eauto. by destruct (isHostportChain c).
  - rewrite bool_decide_eq_false_2; [by rewrite andb_false_r|]. by intros [].
Qed.

Lemma range_lines (m : gmap string string) :
  (∀ c l, m !! c = Some l → l = MakeChainLine c) → (range m).*2 = MakeChainLine <$> (range m).*1.
Proof.
  intros Hm. rewrite <- list_fmap_compose. apply Forall_fmap_ext_1, Forall_forall. intros [c l] Hin.
  rewrite (range_perm m) in Hin. apply elem_of_map_to_list in Hin. simpl. by apply Hm.
Qed.

Lemma elem_of_range_keys {A} (m : gmap string A) c : c ∈ (range m).*1 ↔ is_Some (m !! c).
Proof.
  rewrite list_elem_of_fmap. split.
  - intros ([c' x] & -> & Hin). rewrite (range_perm m) in Hin. apply elem_of_map_to_list in Hin. eauto.
  - intros [x Hx]. exists (c, x). split; [done|]. rewrite (range_perm m). by apply elem_of_map_to_list.
Qed.

Lemma NoDup_range_keys {A} (m : gmap string A) : NoDup (range m).*1.
Proof. rewrite (range_perm m). apply NoDup_fst_map_to_list. Qed.

Lemma filterRules_app rs rs' R : filterRules (rs ++ rs') R = filterRules rs R ++ filterRules rs' R.
Proof. induction rs as [|r rs IH]; [done|]. simpl. by rewrite IH; destruct (mentions R r). Qed.

Lemma filterRules_lines R c rules :
  filterRules (ruleText "-A" c <$> rules) R = op_line <$> ((λ r, mkOp Append c r r) <$> keepRules R c rules).
Proof.
  unfold keepRules. induction rules as [|r rules IH]; [done|]. cbn [fmap list_fmap filterRules List.filter].
  destruct (mentions R (ruleText "-A" c r)); cbn [negb]; [exact IH|]. rewrite !fmap_cons. f_equal. exact IH.
Qed.

Lemma filterRules_hpRules R (t : natTable) : filterRules (hpRules t) R = op_line <$> keepOps R (range t).
Proof.
  unfold hpRules, keepOps. induction (range t) as [|[c rules] l IH]; [done|].
  rewrite !bind_cons, filterRules_app, fmap_app, IH. f_equal. destruct (isHostportChain c); [|done].
  apply filterRules_lines.
Qed.

Lemma placed_mk c d rules :
  placed Append d ((λ r, mkOp Append c r r) <$> rules) = if bool_decide (c = d) then rules else [].
Proof.
  induction rules as [|r rules IH]; [by case_bool_decide|]. rewrite fmap_cons, placed_cons, IH.
  cbn [op_pos op_chain op_rule samePos andb]. by case_bool_decide.
Qed.

Lemma keepOps_append R l c : placed Prepend c (keepOps R l) = [].
Proof.
  unfold keepOps. induction l as [|[d rules] l IH]; [done|]. rewrite bind_cons, placed_app, IH, app_nil_r.
  destruct (isHostportChain d); [|done]. induction (keepRules R d rules) as [|r rs IH']; [done|]. exact IH'.
Qed.

Lemma keepOps_absent R l c : c ∉ l.*1 → placed Append c (keepOps R l) = [].
Proof.
  unfold keepOps. induction l as [|[d rules] l IH]; [done|]. cbn [fmap list_fmap]. rewrite not_elem_of_cons. intros [Hd Hc].
  rewrite bind_cons, placed_app, IH, app_nil_r by done. destruct (isHostportChain d); [|done].
  rewrite placed_mk, bool_decide_eq_false_2; [done|]. intros E. by apply Hd.
Qed.

Lemma keepOps_placed R l c rules :
  NoDup l.*1 → (c, rules) ∈ l →
  placed Append c (keepOps R l) = if isHostportChain c then keepRules R c rules else [].
Proof.
  induction l as [|[d rs] l IH]; intros Hnd Hin; [by apply elem_of_nil in Hin|].
  cbn [fmap list_fmap] in Hnd. apply NoDup_cons in Hnd as [Hd Hnd].
  change (keepOps R ((d, rs) :: l)) with
    ((if isHostportChain d then (λ r, mkOp Append d r r) <$> keepRules R d rs else []) ++ keepOps R l).
  rewrite placed_app. apply elem_of_cons in Hin as [[= <- <-]|Hin].
  - rewrite keepOps_absent, app_nil_r by done. destruct (isHostportChain c); [|done].
    by rewrite placed_mk, bool_decide_eq_true_2.
  - rewrite IH by done. assert (c ≠ d).
    { intros ->. apply Hd. apply list_elem_of_fmap. by exists (d, rules). }
    destruct (isHostportChain d); [|done]. by rewrite placed_mk, bool_decide_eq_false_2.
Qed.

Lemma keepOps_wf R (t : natTable) : wfNat t → Forall wfOp (keepOps R (range t)).
Proof.
  intros Ht%range_wf. unfold keepOps. apply Forall_bind. eapply Forall_impl; [exact Ht|]. intros [c rules] Hc.
  unfold compose. cbv beta iota. destruct (isHostportChain c); [|constructor]. apply Forall_fmap, Forall_forall. intros r Hr.
  apply list_elem_of_In, List.filter_In in Hr as [Hr _]. apply list_elem_of_In in Hr.
  split; [apply Hc|]. pose proof (wf_normal _ _ Hc) as Hn. rewrite Forall_forall in Hn. by apply Hn.
Qed.

Lemma keepRules_NoDup R c rules : NoDup rules → NoDup (keepRules R c rules).
Proof. rewrite !NoDup_ListNoDup. apply List.NoDup_filter. Qed.

(** A chain of the deleted ones has no rule left to place. *)
Lemma keepOps_deleted R (l : list (string * list string)) c : c ∈ R → Forall (λ o, op_chain o ≠ c) (keepOps R l).
Proof.
  intros Hc. unfold keepOps. apply Forall_bind, Forall_forall. intros [d rules] _.
  unfold compose. cbv beta iota. destruct (isHostportChain d); [|constructor]. apply Forall_fmap, Forall_forall. intros r Hr. simpl. intros ->.
  apply list_elem_of_In, List.filter_In in Hr as [_ Hr]. apply negb_true_iff in Hr.
  unfold mentions in Hr. apply not_true_iff_false in Hr. apply Hr. apply List.existsb_exists.
  exists c. split; [by apply list_elem_of_In|]. unfold ruleText. apply Contains_app_r, Contains_app_r, Contains_app_l, Contains_refl.
Qed.

(** *** The text of a removal *)

Definition present (t : natTable) (R : list Chain) : list Chain :=
  List.filter (λ c, bool_decide (is_Some (hpChains t !! c))) R.

Definition removeBody (R : list Chain) (t : natTable) : list string :=
  (range (hpChains t)).*2 ++ filterRules (hpRules t) R ++ ((λ c, "-X " +:+ c) <$> present t R).

Lemma hpChains_line t c l : hpChains t !! c = Some l → l = MakeChainLine c.
Proof. rewrite hpChains_lookup. destruct (_ && _); congruence. Qed.

Lemma present_spec t R c : Forall (λ c, ownName c = true) R → c ∈ present t R ↔ c ∈ R ∧ is_Some (t !! c).
Proof.
  intros HR. unfold present. rewrite list_elem_of_In, List.filter_In, <- list_elem_of_In, bool_decide_eq_true.
  split; intros [Hc Ht]; (split; [done|]).
  - rewrite hpChains_lookup in Ht. destruct (isHostportChain c); simpl in Ht; [|by destruct Ht].
    case_bool_decide; [done|by destruct Ht].
  - rewrite Forall_forall in HR. rewrite hpChains_lookup, (ownName_hostport c), bool_decide_eq_true_2 by auto. done.
Qed.

Lemma removeBody_lines R t :
  removeBody R t = (MakeChainLine <$> (range (hpChains t)).*1) ++ (op_line <$> keepOps R (range t))
                   ++ ((λ c, "-X " +:+ c) <$> present t R).
Proof.
  unfold removeBody. rewrite filterRules_hpRules, range_lines; [done|]. apply hpChains_line.
Qed.

Lemma keepOps_inv R (t : natTable) o :
  o ∈ keepOps R (range t) → ∃ rules, t !! op_chain o = Some rules ∧ op_text o ∈ rules ∧ isHostportChain (op_chain o) = true ∧ op_pos o = Append.
Proof.
  unfold keepOps. rewrite list_elem_of_bind. intros ([c rules] & Ho & Hin). rewrite (range_perm t) in Hin.
  apply elem_of_map_to_list in Hin. destruct (isHostportChain c) eqn:E; [|by apply elem_of_nil in Ho].
  apply list_elem_of_fmap in Ho as (r & -> & Hr). exists rules. simpl.
  apply list_elem_of_In, List.filter_In in Hr as [Hr _]. apply list_elem_of_In in Hr. done.
Qed.

Lemma hp_key t c : c ∈ (range (hpChains t)).*1 ↔ isHostportChain c = true ∧ is_Some (t !! c).
Proof.
  rewrite elem_of_range_keys, hpChains_lookup. destruct (isHostportChain c); simpl; [|split; [by intros []|by intros []]].
  case_bool_decide; [split; eauto|]. split; [by intros []|by intros []].
Qed.

Lemma bodyLine_chain c : chainName c = true → bodyLine (MakeChainLine c) = true.
Proof.
  intros Hc. unfold bodyLine. rewrite oneLine_chain by done.
  change (MakeChainLine c) with (String ":" (c +:+ " - [0:0]")). by rewrite HasPrefix_head.
Qed.
Lemma bodyLine_rule p c r : chainName c = true → oneLine r = true → bodyLine (ruleText (flag p) c r) = true.
Proof.
  intros Hc Hr. unfold bodyLine. rewrite oneLine_rule by (done || by destruct p). unfold ruleText.
  destruct p; cbn [flag]; rewrite append_cons, !HasPrefix_head; done.
Qed.
Lemma bodyLine_delete c : chainName c = true → bodyLine ("-X " +:+ c) = true.
Proof. intros [_ Hc]%andb_true_iff. unfold bodyLine. rewrite oneLine_app, Hc, append_cons, !HasPrefix_head. done. Qed.

Lemma removeBody_body R t :
  wfNat t → Forall (λ c, ownName c = true) R → Forall (λ l, bodyLine l = true) (removeBody R t).
Proof.
  intros Ht HR. rewrite removeBody_lines. set (cs := (range (hpChains t)).*1).
  rewrite !Forall_app, !Forall_fmap, !Forall_forall. repeat split.
  - intros c [_ [rs Hc]]%hp_key. apply bodyLine_chain, (Ht c rs Hc).
  - intros o Ho. apply keepOps_inv in Ho as (rs & Hc & Hr & _ & Hpos). unfold compose, op_line. rewrite Hpos.
    apply bodyLine_rule; [apply (Ht _ _ Hc)|].
    pose proof (wf_line _ _ (Ht _ _ Hc)) as Hl. rewrite Forall_forall in Hl. by apply Hl.
  - intros c [Hc _]%present_spec; [|done]. rewrite Forall_forall in HR. apply HR, ownName_chainName in Hc.
    by apply bodyLine_delete.
Qed.

(** The text deletes exactly the chains that are present. *)
Lemma removeBody_deletes R t c :
  wfNat t → Forall (λ c, ownName c = true) R → chainName c = true → hostportName c = true →
  Contains (text ("*nat" :: removeBody R t ++ ["COMMIT"])) ("-X " +:+ c) = bool_decide (c ∈ present t R).
Proof.
  intros Ht HR Hn Hc. apply andb_true_iff in Hn as [_ Hn]. rewrite Contains_text by (by rewrite ?oneLine_app, ?Hn).
  apply eq_true_iff_eq. rewrite List.existsb_exists, bool_decide_eq_true. split.
  - intros (l & Hl & Hcon). rewrite <- list_elem_of_In, removeBody_lines in Hl.
    set (cs := (range (hpChains t)).*1) in Hl.
    rewrite elem_of_cons, !elem_of_app, list_elem_of_singleton, !list_elem_of_fmap in Hl.
    destruct Hl as [->|[[(d & -> & Hd)|[(o & -> & Ho)|(d & -> & Hd)]]| ->]].
    + by rewrite noDelete_line in Hcon.
    + apply hp_key in Hd as [Hh [rs Hrs]].
      rewrite noDelete_line in Hcon; [done|]. by apply (Ht _ _ Hrs).
    + apply keepOps_inv in Ho as (rs & Hrs & Hr & Hh & Hpos). rewrite noDelete_line in Hcon; [done|].
      unfold op_line. rewrite Hpos. destruct (wf_hostport _ _ (Ht _ _ Hrs) Hh) as (_ & _ & Hall).
      rewrite Forall_forall in Hall. by apply Hall.
    + rewrite deletion_line, bool_decide_eq_true in Hcon; [by subst|done|].
      rewrite Forall_forall in HR. apply HR. by apply present_spec in Hd as [? _]; [|apply Forall_forall].
    + by rewrite noDelete_line in Hcon.
  - intros Hin. exists ("-X " +:+ c). split; [|apply Contains_refl]. rewrite <- list_elem_of_In, removeBody_lines.
    set (cs := (range (hpChains t)).*1).
    rewrite elem_of_cons, !elem_of_app, !list_elem_of_fmap. right. left. right. right. eauto.
Qed.

(** Restoring the text of a removal removes the chains. *)
Lemma remove_restore R t :
  wfNat t → NoDup R → Forall (λ c, ownName c = true) R →
  natStep (fakeRestoreAll (text ("*nat" :: removeBody R t ++ ["COMMIT"])) NoFlushTables RestoreCounters) t (removed R t).
Proof.
  intros Ht Hnd HR. set (data := text _).
  assert (∀ c, isHostportChain c = true → is_Some (t !! c) → flushed data c = negb (bool_decide (c ∈ R))) as Hflush.
  { intros c Hh [rs Hrs]. unfold flushed. rewrite hostport_not_builtin by done. unfold data.
    rewrite removeBody_deletes; [|done|done|apply (Ht _ _ Hrs)|by apply (Ht _ _ Hrs)]. cbn [negb andb]. f_equal.
    apply bool_decide_ext. rewrite present_spec by done. naive_solver. }
  enough (natStep (for_each (restoreLine data NoFlushTables TableNAT) (removeBody R t)) t (removed R t)) as Hs.
  { intros f Hf. unfold data. rewrite restore_nat by by apply removeBody_body. by apply Hs. }
  rewrite removeBody_lines. set (cs := (range (hpChains t)).*1).
  assert (∀ c, c ∈ R → isHostportChain c = true) as HRh.
  { intros c Hc. rewrite Forall_forall in HR. by apply ownName_hostport, HR. }
  assert (removed R t = deleteAll (present t R) (replayAll (keepOps R (range t)) (declareAll data cs t))) as ->.
  { apply map_eq. intros c. unfold removed. rewrite map_lookup_imap, deleteAll_lookup.
    destruct (t !! c) as [rs|] eqn:Hc; cbn [mbind option_bind].
    - destruct (decide (c ∈ R)) as [Hr|Hr].
      { rewrite !bool_decide_eq_true_2; [done|by rewrite present_spec|done]. }
      rewrite !bool_decide_eq_false_2; [|by rewrite present_spec; naive_solver|done].
      assert ((c, rs) ∈ range t) as Hin by (rewrite (range_perm t); by apply elem_of_map_to_list).
      destruct (isHostportChain c) eqn:Hh.
      + rewrite (replayAll_lookup _ _ _ []).
        * by rewrite keepOps_append, (keepOps_placed _ _ _ rs), Hh by (done || apply NoDup_range_keys).
        * rewrite declareAll_lookup, bool_decide_eq_true_2 by (apply hp_key; eauto).
          rewrite Hflush, bool_decide_eq_false_2 by eauto. done.
        * rewrite keepOps_append, (keepOps_placed _ _ _ rs), Hh by (done || apply NoDup_range_keys).
          by apply keepRules_NoDup, (Ht _ _ Hc).
      + rewrite replayAll_lookup_other.
        * rewrite declareAll_lookup, bool_decide_eq_false_2; [done|]. intros [? _]%hp_key. congruence.
        * apply Forall_forall. intros o Ho. apply keepOps_inv in Ho as (? & _ & _ & Ho & _). congruence.
    - rewrite replayAll_lookup_other.
      * rewrite declareAll_lookup, (bool_decide_eq_false_2 (c ∈ cs)), Hc; [by case_bool_decide|].
        intros [_ Hs]%hp_key. rewrite Hc in Hs. by destruct Hs.
      * apply Forall_forall. intros o Ho. apply keepOps_inv in Ho as (? & Ho & _). congruence. }
  eapply natStep_app; [apply declare_step|eapply natStep_app; [apply replay_step|apply delete_step]].
  - apply Forall_forall. intros c [_ [rs Hc]]%hp_key. apply (Ht _ _ Hc).
  - by apply keepOps_wf.
  - unfold present. rewrite NoDup_ListNoDup in *. by apply List.NoDup_filter.
  - apply Forall_forall. intros c Hc. apply present_spec in Hc as [Hc [rs Hs]]; [|done].
    split; [rewrite Forall_forall in HR; by apply ownName_chainName, HR|].
    rewrite replayAll_lookup_other by by apply keepOps_deleted.
    rewrite declareAll_lookup, bool_decide_eq_true_2; [by eexists|]. apply hp_key. eauto.
Qed.

End remove.

(** ** The chains of a mapping *)

Lemma chain_hash id pm prefix :
  ∃ h, getHostportChain prefix id pm = prefix +:+ h ∧ String.length h = 16%nat ∧ str_forallb base32_char h = true.
Proof.
  unfold getHostportChain. set (hash := Sha256.Sum256 _). eexists. split; [done|]. split.
  - apply length_str_take, length_EncodeToString_ge. unfold hash. rewrite length_Sum256. lia.
  - apply str_forallb_take, EncodeToString_base32.
Qed.

Lemma base32_oneWord h : str_forallb base32_char h = true → chainName h = true.
Proof.
  intros Hh. unfold chainName, oneLine.
  rewrite (forallb_not_char base32_char " "), (forallb_not_char base32_char newline) by done. done.
Qed.

Lemma chainName_app s s' : chainName (s +:+ s') = chainName s && chainName s'.
Proof. unfold chainName. rewrite contains_char_app, oneLine_app, negb_orb. 
  destruct (contains_char " " s), (contains_char " " s'), (oneLine s), (oneLine s'); done. Qed.

Lemma kubeChain_own id pm : ownName (getHostportChain kubeHostportChainPrefix id pm) = true.
Proof.
  destruct (chain_hash id pm kubeHostportChainPrefix) as (h & -> & Hl & Hh). unfold ownName.
  rewrite chainName_app, (base32_oneWord h), HasPrefix_app, length_append, Hl by done. done.
Qed.
Lemma masqChain_own id pm : ownName (getHostportChain crioMasqueradeChainPrefix id pm) = true.
Proof.
  destruct (chain_hash id pm crioMasqueradeChainPrefix) as (h & -> & Hl & Hh). unfold ownName.
  rewrite chainName_app, (base32_oneWord h), !HasPrefix_app, length_append, Hl by done. by rewrite orb_true_r.
Qed.

(** The chains of a pod's mappings. *)
Definition podChains (id : string) (ms : list PortMapping) : list Chain := ms ≫= mappingChains id.

Lemma podChains_own id ms : Forall (λ c, ownName c = true) (podChains id ms).
Proof.
  apply Forall_bind, Forall_forall. intros pm _. unfold compose, mappingChains.
  repeat constructor; [apply kubeChain_own|apply masqChain_own].
Qed.

Lemma foldl_app_bind {A B} (g : A → list B) l acc : foldl (λ acc x, acc ++ g x) acc l = acc ++ (l ≫= g).
Proof.
  revert acc. induction l as [|x l IH]; intros acc; [by rewrite app_nil_r|]. cbn [foldl].
  by rewrite IH, bind_cons, app_assoc.
Qed.

Lemma foldl_writeLine {A} (g : A → list string) l buf :
  foldl (λ buf x, writeLine buf (g x)) buf l = buf ++ ((λ x, Join (g x) " ") <$> l).
Proof.
  revert buf. induction l as [|x l IH]; intros buf; [by rewrite app_nil_r|]. cbn [foldl]. rewrite IH. unfold writeLine.
  by rewrite <- app_assoc.
Qed.

(** ** [Remove] *)

Section Remove.
Context `{RangeOrderLaw} `{NetUtilsLaw}.

Abbreviation manager := (hostportManager (T := fakeIPTables)).

(** The nat table a removal leaves: nothing is done when none of the chains exists. *)
Definition afterRemove (R : list Chain) (t : natTable) : natTable :=
  if bool_decide (present t R = []) then t else removed R t.

Lemma syncIPTables_nat data t t' :
  natStep (fakeRestoreAll data NoFlushTables RestoreCounters) t t' → natStep (syncIPTables data) t t'.
Proof. intros Hs f Hf. unfold syncIPTables, wrap_err. cbn [RestoreAll fake_interface]. by rewrite Hs. Qed.

Definition removeTables (id : string) (pod : PodPortMapping) (v6 : bool) (t : natTable) : natTable :=
  afterRemove (podChains id (gatherHostportMappings pod v6)) t.

(** The body of [removeForFamily] on the firewall itself. *)
Lemma removeText R t :
  wfNat t → NoDup R → Forall (λ c, ownName c = true) R →
  natStep (syncIPTables
    (text (foldl (λ buf chain, writeLine buf [chain]) (writeLine [] ["*nat"]) (range (hpChains t)).*2) +:+
     text (writeLine (foldl (λ buf chain, writeLine buf ["-X"; chain])
       (foldl (λ buf rule, writeLine buf [rule]) [] (filterRules (hpRules t) R)) (present t R)) ["COMMIT"])))
    t (removed R t).
Proof.
  intros Ht Hnd HR. rewrite !foldl_writeLine, <- text_app. unfold writeLine.
  cbn [app Join]. rewrite !list_fmap_id. rewrite <- app_assoc. apply syncIPTables_nat.
  replace (text _) with (text ("*nat" :: removeBody R t ++ ["COMMIT"])); [by apply remove_restore|].
  unfold removeBody. by rewrite <- !app_assoc.
Qed.

Lemma removeForFamily_nat id pod (v6 : bool) (w : manager) t :
  let f := if v6 then ip6tables w else ip4tables w in
  fakeIsIPv6 f = v6 → tables f !! TableNAT = Some t → wfNat t →
  NoDup (podChains id (gatherHostportMappings pod v6)) →
  removeForFamily id pod v6 w =
  (Ret (), if v6 then w <| ip6tables := setNat (removeTables id pod v6 t) f |>
           else w <| ip4tables := setNat (removeTables id pod v6 t) f |>).
Proof.
  intros f Hv Hf Ht Hnd. unfold removeForFamily.
  assert (onTables v6 (gets IPTables.IsIPv6) w = (Ret v6, w)) as E1.
  { unfold onTables, gets. cbn [IsIPv6 fake_interface]. destruct v6; cbn iota; subst f; simpl in Hv; rewrite Hv; by destruct w. }
  rewrite (io_bind_ret _ _ _ _ _ E1). set (ms := gatherHostportMappings pod v6) in *.
  assert (∀ w' : manager, w' = w → (if v6 then w <| ip6tables := setNat t f |> else w <| ip4tables := setNat t f |>) = w') as Eid.
  { intros w' ->. rewrite setNat_id by done. subst f. by destruct v6, w. }
  destruct ms as [|m ms'] eqn:Ems.
  { unfold removeTables. fold ms. rewrite Ems. change (afterRemove (podChains id []) t) with t. by rewrite (Eid w). }
  rewrite <- Ems in *. clear Ems m ms'.
  assert (onTables v6 getExistingHostportIPTablesRules w = (Ret (hpChains t, hpRules t), w)) as E2.
  { unfold onTables. pose proof (getExisting_nat t f Ht Hf) as E. subst f. destruct v6; rewrite E; by destruct w. }
  rewrite (io_bind_ret _ _ _ _ _ E2). cbv beta iota zeta.
  assert (foldl (λ l pm, l ++ mappingChains id pm) [] ms = podChains id ms) as Efold
    by (by rewrite (foldl_app_bind (mappingChains id))).
  rewrite Efold. fold (present t (podChains id ms)).
  unfold removeTables. fold ms. unfold afterRemove.
  destruct (present t (podChains id ms)) as [|c cs] eqn:Ep.
  { rewrite bool_decide_eq_true_2 by done. by rewrite (Eid w). }
  rewrite bool_decide_eq_false_2 by done. rewrite <- Ep.
  pose proof (removeText (podChains id ms) t Ht Hnd (podChains_own id ms) f Hf) as Es.
  unfold onTables. subst f. destruct v6; rewrite Es; done.
Qed.

End Remove.

(** ** The words [Add] writes *)

(** A word that cannot start or continue the deletion of a chain. *)
Definition noX (w : string) : bool := negb (HasSuffix w "-X") && negb (Contains w "-X ").

Lemma noDelete_sep w r : noX w = true → noDelete r = true → noDelete (w +:+ String " " r) = true.
Proof.
  unfold noX, noDelete. rewrite andb_true_iff, !negb_true_iff. intros [Hs Hc] Hr.
  apply not_true_is_false. intros (a & b & E)%Contains_spec. revert a E.
  induction w as [|d w IH]; intros a E.
  - rewrite append_nil_l in E. destruct a as [|e a].
    + rewrite append_nil_l in E. discriminate E.
    + rewrite append_cons in E. injection E as _ E. apply not_true_iff_false in Hr. apply Hr, Contains_spec. eauto.
  - rewrite append_cons in E. destruct a as [|e a].
    + rewrite append_nil_l in E. change ("-X " +:+ b) with (String "-" (String "X" (String " " b))) in E.
      injection E as -> E. destruct w as [|d' w]; [discriminate E|]. rewrite append_cons in E. injection E as -> E.
      destruct w as [|d'' w]; [by vm_compute in Hs|]. rewrite append_cons in E. injection E as -> E.
      cbn [Contains] in Hc. rewrite orb_false_iff in Hc. destruct Hc as [Hc _].
      by rewrite (HasPrefix_app "-X " w : HasPrefix (String "-" (String "X" (String " " w))) "-X " = true) in Hc.
    + rewrite append_cons in E. injection E as _ E. eapply IH; [| |exact E].
      * apply not_true_is_false. intros [x ->]%HasSuffix_spec. apply not_true_iff_false in Hs. apply Hs.
        apply HasSuffix_spec. by exists (String d x).
      * cbn [Contains] in Hc. by apply orb_false_iff in Hc as [_ Hc].
Qed.

Lemma noX_noDelete w : noX w = true → noDelete w = true.
Proof. unfold noX, noDelete. by intros [_ ?]%andb_true_iff. Qed.

Lemma noDelete_words ws : Forall (λ w, noX w = true) ws → noDelete (Join ws " ") = true.
Proof.
  induction 1 as [|w ws Hw Hws IH]; [done|]. destruct ws as [|w' ws]; [by apply noX_noDelete|].
  rewrite Join_cons by done. by apply noDelete_sep.
Qed.

(** Without an X there is nothing to find. *)
Lemma noX_char w : contains_char "X" w = false → noX w = true.
Proof.
  intros Hw. unfold noX. rewrite andb_true_iff, !negb_true_iff. split; apply not_true_is_false.
  - intros [r ->]%HasSuffix_spec. rewrite contains_char_app in Hw. by apply orb_false_iff in Hw as [_ Hw].
  - intros Hc. by rewrite (Contains_contains_char "X" _ _ Hc) in Hw.
Qed.

Lemma noX_chain prefix h :
  noDelete prefix = true → contains_char " " prefix = false → (2 ≤ String.length h)%nat → str_forallb base32_char h = true → noX (prefix +:+ h) = true.
Proof.
  intros Hp Hsp Hl Hh. unfold noX. rewrite andb_true_iff, !negb_true_iff. split; apply not_true_is_false.
  - unfold HasSuffix. rewrite str_rev_app. rewrite <- str_forallb_rev in Hh.
    assert (String.length (str_rev h) = String.length h) as Hl'.
    { clear. induction h as [|c h IH]; [done|]. change (String c h) with (String c "" +:+ h).
      rewrite str_rev_app, length_append, IH, length_append. change (str_rev (String c "")) with (String c ""). simpl. lia. }
    destruct (str_rev h) as [|c [|d r]]; [simpl in Hl'; lia|simpl in Hl'; lia|].
    simpl in Hh. rewrite !andb_true_iff in Hh. destruct Hh as (_ & Hd & _).
    intros [x E]%HasPrefix_spec. rewrite !append_cons in E. injection E as _ -> _. done.
  - intros Hc. apply (Contains_contains_char " ") in Hc; [|done]. rewrite contains_char_app, Hsp in Hc.
    by rewrite (forallb_not_char base32_char " " h) in Hc.
Qed.

Lemma mappingChain_noX id pm prefix :
  prefix = kubeHostportChainPrefix ∨ prefix = crioMasqueradeChainPrefix → noX (getHostportChain prefix id pm) = true.
Proof.
  intros Hp. destruct (chain_hash id pm prefix) as (h & -> & Hl & Hh).
  apply noX_chain; [by destruct Hp as [-> | ->]|by destruct Hp as [-> | ->]|lia|done].
Qed.

(** A string of the characters of an address is a plain word. *)
Lemma plain_chars (f : ascii → bool) s :
  (∀ c, f c = true → is_space c = false) → f dquote = false → f "-"%char = false →
  str_forallb f s = true → s ≠ "" → plainWord s = true.
Proof.
  intros Hsp Hq Hd Hs Hne. unfold plainWord. rewrite !andb_true_iff, !negb_true_iff, bool_decide_eq_false.
  destruct s as [|c s]; [done|]. assert (f c = true) as Hc by (simpl in Hs; by apply andb_true_iff in Hs as [? _]).
  repeat split; [| done | |].
  - unfold nospace. eapply str_forallb_impl; [|exact Hs]. intros d Hd'. by rewrite Hsp.
  - rewrite HasPrefix_head. apply bool_decide_eq_false. congruence.
  - apply not_true_is_false. intros [r E]%HasPrefix_spec. injection E as -> _. congruence.
Qed.

