(* ===== verification/HostPortAdd.v ===== *)
(** * HostPortAdd: what [Add] leaves in the nat table, and that [Remove] undoes it

    The functional behaviour of [Add] and [Remove] of
    [internal/hostport/hostport_manager.go] on the firewall of
    [internal/hostport/fake_iptables.go], through the text both exchange. *)

From S2P Require Import Prelude GoStrings Digest IPTables HostPort.
From Stdlib Require Import Ascii.
Import Fake.
Local Open Scope Z_scope.

(** ** Characters *)

Lemma digit_addr c : is_Some (digit_value c) → addr_char c = true.
Proof. destruct c as [[] [] [] [] [] [] [] []]; vm_compute; intros []; done. Qed.

Lemma addr_nospace c : addr_char c = true → is_space c = false.
Proof. destruct c as [[] [] [] [] [] [] [] []]; vm_compute; done. Qed.

Lemma addr_plain s : str_forallb addr_char s = true → s ≠ "" → plainWord s = true.
Proof. apply plain_chars; [apply addr_nospace|done|done]. Qed.

Lemma addr_noX s : str_forallb addr_char s = true → noX s = true.
Proof. intros Hs. apply noX_char. by eapply forallb_not_char; [|exact Hs]. Qed.

Lemma Itoa_addr z : 0 ≤ z → str_forallb addr_char (Itoa z) = true ∧ Itoa z ≠ "".
Proof.
  intros Hz. rewrite Itoa_nonneg by done. split; [|apply pretty_N_nonempty].
  eapply str_forallb_impl; [|apply pretty_N_digits]. intros c Hc. apply bool_decide_eq_true in Hc.
  by apply digit_addr.
Qed.

Lemma hexChar_addr n : addr_char (NetIP.hexChar n) = true.
Proof.
  unfold NetIP.hexChar. destruct (String.get _ _) as [c|] eqn:E; [|done]. apply get_in in E. simpl.
  revert E. destruct c as [[] [] [] [] [] [] [] []]; vm_compute; done.
Qed.

Lemma hexGroup_addr g : str_forallb addr_char (NetIP.hexGroup g) = true ∧ NetIP.hexGroup g ≠ "".
Proof.
  unfold NetIP.hexGroup. repeat case_match; (split; [|done]); cbn [str_forallb]; by rewrite !hexChar_addr.
Qed.

(** The printed form of an address. *)
Lemma IPString_addr ip :
  is_Some (NetIP.To16 ip) → Forall (λ b, 0 ≤ b) ip →
  str_forallb addr_char (NetIP.IPString ip) = true ∧ NetIP.IPString ip ≠ "".
Proof.
  intros H16 Hb. unfold NetIP.IPString. destruct (NetIP.To4 ip) as [v4|] eqn:E4.
  - assert (Forall (λ b, 0 ≤ b) v4 ∧ length v4 = 4%nat) as [Hb4 Hl].
    { unfold NetIP.To4 in E4. case_bool_decide; [by injection E4 as <-|].
      destruct (bool_decide (length ip = 16%nat) && _) eqn:Eb; [|done]. injection E4 as <-.
      apply andb_true_iff in Eb as [Eb _]. apply bool_decide_eq_true in Eb.
      split; [by apply Forall_drop|]. rewrite length_drop. lia. }
    split.
    + apply str_forallb_Join; [done|]. apply Forall_fmap. eapply Forall_impl; [exact Hb4|]. intros b Hb'. by apply Itoa_addr.
    + destruct v4 as [|b v4]; [done|]. apply Forall_cons in Hb4 as [Hb0 _]. rewrite fmap_cons.
      destruct v4 as [|b' v4]; [done|]. rewrite fmap_cons, Join_cons by done.
      apply Itoa_addr in Hb0 as [_ Hne]. by destruct (Itoa b).
  - assert (length ip = 16%nat) as Hl.
    { unfold NetIP.To4, NetIP.To16 in *. case_bool_decide; [done|]. case_bool_decide; [done|]. by destruct H16. }
    rewrite bool_decide_eq_true_2 by done.
    assert (∀ gs, str_forallb addr_char (Join (NetIP.hexGroup <$> gs) ":") = true) as Hj.
    { intros gs. apply str_forallb_Join; [done|]. apply Forall_fmap, Forall_forall. intros g _. apply hexGroup_addr. }
    do 16 (destruct ip as [|? ip]; [done|]). destruct ip; [|done]. cbn [NetIP.groups].
    set (gs := (_ :: _) : list Z). destruct (NetIP.longestRun 0 gs (0%nat, 0%nat)) as [a n]. destruct (n =? 0)%nat.
    + split; [apply Hj|]. unfold gs. rewrite !fmap_cons, Join_cons by done.
      by destruct (NetIP.hexGroup _) eqn:E; [apply hexGroup_addr in E|].
    + split; [by rewrite !str_forallb_app, !Hj|]. by destruct (Join (NetIP.hexGroup <$> take a gs) ":").
Qed.

(** ** Well-formed pods *)

(** The characters of a Kubernetes name. *)
Definition nameChar (c : ascii) : bool := contains_char c "abcdefghijklmnopqrstuvwxyz0123456789-.".

Section words.
Context `{NetUtilsLaw}.

(** A mapping with a host port, a protocol of the API and a host address that is
    empty or one. *)
Record wfMapping (pm : PortMapping) : Prop := {
  wf_hostPort : 0 ≤ HostPort pm;
  wf_containerPort : 0 ≤ ContainerPort pm;
  wf_protocol : PMProtocol pm ∈ ["TCP"; "UDP"; "SCTP"];
  wf_hostIP : HostIP pm = "" ∨ IPFamilyOfString (HostIP pm) ≠ IPFamilyUnknown;
}.

Record wfPod (pod : PodPortMapping) : Prop := {
  wf_podName : str_forallb nameChar (Name pod) = true;
  wf_namespace : str_forallb nameChar (Namespace pod) = true;
  wf_mappings : Forall wfMapping (PortMappings pod);
  wf_bytes : Forall (λ b, 0 ≤ b < 256) (IP pod);
}.

(** A word that can be written in a rule and does not look like a deletion. *)
Definition goodWord (w : string) : bool := inputWord w && noX w && oneLine w.

Lemma nospace_oneLine w : nospace w = true → oneLine w = true.
Proof. intros Hw. unfold oneLine. by erewrite forallb_not_char; [| |exact Hw]. Qed.

Lemma plain_oneLine w : plainWord w = true → oneLine w = true.
Proof. unfold plainWord. rewrite !andb_true_iff. intros [[[Hw _] _] _]. by apply nospace_oneLine. Qed.

Lemma good_plain w : plainWord w = true → noX w = true → goodWord w = true.
Proof. intros Hw Hx. unfold goodWord, inputWord, ruleWord. by rewrite plain_oneLine, Hw, Hx. Qed.

Lemma good_addr w : str_forallb addr_char w = true → w ≠ "" → goodWord w = true.
Proof. intros. apply good_plain; [by apply addr_plain|by apply addr_noX]. Qed.

Lemma good_Itoa z : 0 ≤ z → goodWord (Itoa z) = true.
Proof. intros [? ?]%Itoa_addr. by apply good_addr. Qed.

Lemma good_protocol pm : wfMapping pm → goodWord (ToLower (PMProtocol pm)) = true.
Proof.
  intros Hp. pose proof (wf_protocol _ Hp) as Hin.
  repeat (apply elem_of_cons in Hin as [->|Hin]; [done|]). by apply elem_of_nil in Hin.
Qed.

Lemma good_hostIP pm : wfMapping pm → HostIP pm ≠ "" → goodWord (HostIP pm) = true.
Proof.
  intros Hp Hne. destruct (wf_hostIP _ Hp) as [|Hf]; [done|]. apply good_addr; [|done]. by apply IPFamily_chars.
Qed.

Lemma plain_head c s : nospace (String c s) = true → c ≠ dquote → c ≠ "-"%char → plainWord (String c s) = true.
Proof.
  intros Hs Hq Hd. unfold plainWord. rewrite !andb_true_iff, !negb_true_iff, bool_decide_eq_false. repeat split; [done|done| |].
  - rewrite HasPrefix_head. by apply bool_decide_eq_false.
  - apply not_true_is_false. intros [r E]%HasPrefix_spec. injection E as -> _. done.
Qed.

Lemma base32_plain c : base32_char c = true → is_space c = false.
Proof. destruct c as [[] [] [] [] [] [] [] []]; vm_compute; done. Qed.

Lemma good_chain id pm prefix :
  prefix = kubeHostportChainPrefix ∨ prefix = crioMasqueradeChainPrefix → goodWord (getHostportChain prefix id pm) = true.
Proof.
  intros Hp. apply good_plain; [|by apply mappingChain_noX]. destruct (chain_hash id pm prefix) as (h & -> & _ & Hh).
  assert (nospace (prefix +:+ h) = true) as Hns.
  { unfold nospace. rewrite str_forallb_app, andb_true_iff. split; [by destruct Hp as [-> | ->]|].
    eapply str_forallb_impl; [|exact Hh]. intros c Hc. by rewrite base32_plain. }
  destruct Hp as [-> | ->]; by apply plain_head.
Qed.

Lemma quoted_word body : contains_char dquote body = false → quotedWord (String dquote (body +:+ String dquote "")) = true.
Proof.
  intros Hb. simpl. rewrite IndexByte_app by done. rewrite length_append. simpl.
  apply bool_decide_eq_true. f_equal. lia.
Qed.

Lemma good_comment pod pm : wfPod pod → wfMapping pm → goodWord (mappingComment (getPodFullName pod) pm) = true.
Proof.
  intros Hpod Hp. unfold mappingComment, getPodFullName.
  set (body := (Name pod +:+ "_" +:+ Namespace pod) +:+ " hostport " +:+ Itoa (HostPort pm)).
  assert (∀ c, nameChar c = false → addr_char c = false → contains_char c "_ hostport " = false → contains_char c body = false) as Hbody.
  { intros c Hn Ha Hc. change "_ hostport " with ("_" +:+ " hostport ") in Hc. rewrite contains_char_app, orb_false_iff in Hc.
    destruct Hc as [Hc1 Hc2]. unfold body. rewrite !contains_char_app, Hc1, Hc2.
    rewrite (forallb_not_char nameChar c (Name pod)), (forallb_not_char nameChar c (Namespace pod)) by (done || apply Hpod).
    by rewrite (forallb_not_char addr_char c (Itoa _)) by (done || apply Itoa_addr, Hp). }
  assert (String dquote ((Name pod +:+ "_" +:+ Namespace pod) +:+ " hostport " +:+ Itoa (HostPort pm) +:+ String dquote "") =
    String dquote (body +:+ String dquote "")) as -> by (unfold body; by rewrite !append_assoc).
  unfold goodWord. rewrite !andb_true_iff. repeat split.
  - unfold inputWord, ruleWord. rewrite (quoted_word body) by by apply Hbody. by rewrite orb_true_r.
  - apply noX_char. change (String dquote ?s) with (String dquote "" +:+ s). rewrite !contains_char_app, Hbody by done. done.
  - unfold oneLine. change (String dquote ?s) with (String dquote "" +:+ s). rewrite !contains_char_app, Hbody by done. done.
Qed.

Lemma JoinHostPort_word host port :
  str_forallb addr_char host = true → host ≠ "" → str_forallb addr_char port = true →
  plainWord (NetIP.JoinHostPort host port) = true ∧ contains_char "X" (NetIP.JoinHostPort host port) = false.
Proof.
  intros Hh Hne Hp. unfold NetIP.JoinHostPort.
  assert (∀ s, str_forallb addr_char s = true → nospace s = true) as Hns.
  { intros s Hs. unfold nospace. eapply str_forallb_impl; [|exact Hs]. intros c Hc. by rewrite addr_nospace. }
  assert (∀ s, str_forallb addr_char s = true → contains_char "X" s = false) as HX.
  { intros s Hs. by eapply forallb_not_char; [|exact Hs]. }
  destruct (contains_char ":" host).
  - split; [|by rewrite !contains_char_app, (HX host), (HX port)]. apply plain_head; [|done|done].
    unfold nospace. cbn [str_forallb]. rewrite !str_forallb_app. unfold nospace in Hns.
    by rewrite (Hns host), (Hns port).
  - split; [|by rewrite !contains_char_app, (HX host), (HX port)]. destruct host as [|c host]; [done|]. rewrite append_cons.
    simpl in Hh. apply andb_true_iff in Hh as [Hc Hh].
    apply plain_head; [|by intros ->|by intros ->]. unfold nospace in *. cbn [str_forallb].
    rewrite addr_nospace, !str_forallb_app, (Hns host), (Hns port) by done. done.
Qed.

Lemma good_destination host port :
  str_forallb addr_char host = true → host ≠ "" → str_forallb addr_char port = true →
  goodWord ("--to-destination=" +:+ NetIP.JoinHostPort host port) = true.
Proof.
  intros Hh Hne Hp. destruct (JoinHostPort_word host port Hh Hne Hp) as [Hw HX].
  unfold goodWord, inputWord. rewrite HasPrefix_app.
  change (str_drop 17 ("--to-destination=" +:+ ?x)) with x. rewrite Hw, orb_true_r.
  rewrite noX_char by by rewrite contains_char_app, HX. rewrite oneLine_app, (plain_oneLine _ Hw). done.
Qed.

(** ** The rules of a mapping *)

Definition opOfWords (ws : list string) : ruleOp :=
  match ws with
  | f :: c :: rest => mkOp (if bool_decide (f = "-I") then Prepend else Append) c (Join rest " ") (normalForm rest)
  | _ => mkOp Append "" "" ""
  end.

(** The words after the chain. *)
Definition ruleWords (ws : list string) : list string := drop 2 ws.

Lemma mappingRules_good pod id pm ws :
  wfPod pod → wfMapping pm → is_Some (NetIP.To16 (IP pod)) →
  ws ∈ mappingRules (getPodFullName pod) (NetIP.IPString (IP pod)) id pm →
  Forall (λ w, goodWord w = true) (ruleWords ws) ∧ ruleWords ws ≠ [].
Proof.
  intros Hpod Hp H16 Hin.
  assert (str_forallb addr_char (NetIP.IPString (IP pod)) = true ∧ NetIP.IPString (IP pod) ≠ "") as [Hip Hipne].
  { apply IPString_addr; [done|]. eapply Forall_impl; [apply Hpod|]. intros b [? _]. done. }
  pose proof (good_comment pod pm Hpod Hp). pose proof (good_protocol pm Hp).
  pose proof (good_Itoa _ (wf_hostPort _ Hp)). pose proof (good_Itoa _ (wf_containerPort _ Hp)).
  pose proof (good_chain id pm _ (or_introl eq_refl)). pose proof (good_chain id pm _ (or_intror eq_refl)).
  pose proof (good_addr _ Hip Hipne).
  pose proof (good_destination _ (Itoa (ContainerPort pm)) Hip Hipne (proj1 (Itoa_addr _ (wf_containerPort _ Hp)))).
  unfold mappingRules in Hin. repeat (apply elem_of_cons in Hin as [->|Hin]); [| | | |by apply elem_of_nil in Hin].
  - split; [|done]. repeat constructor; done.
  - split; [|done]. repeat constructor; done.
  - destruct (_ || _ || _) eqn:Eh; (split; [|done]); repeat (constructor; [done|]); [constructor|].
    apply orb_false_iff in Eh as [Eh _]. apply orb_false_iff in Eh as [Eh _]. apply bool_decide_eq_false in Eh.
    constructor; [by apply good_hostIP|]. repeat constructor; done.
  - split; [|done]. repeat constructor; done.
Qed.

End words.

(** ** Adding *)

Definition baseChain (c : string) : Prop := c = kubeHostportsChain ∨ c = crioMasqueradeChain.
#[export] Instance baseChain_dec c : Decision (baseChain c).
Proof. unfold baseChain. apply _. Defined.

Section add.
Context `{RangeOrderLaw} `{NetUtilsLaw}.

(** Rules to add for the chains [R]: those appended go to these chains, those
    prepended to the two base chains, and they mention one of [R]. *)
Record wfOps (R : list Chain) (ops : list ruleOp) : Prop := {
  ops_wf : Forall wfOp ops;
  ops_text : Forall (λ o, oneLine (op_text o) = true) ops;
  ops_line : Forall (λ o, noDelete (op_line o) = true) ops;
  ops_append : ∀ o, o ∈ ops → op_pos o = Append → op_chain o ∈ R;
  ops_prepend : ∀ o, o ∈ ops → op_pos o = Prepend → baseChain (op_chain o) ∧ mentions R (op_rule o) = true;
  ops_nodup : ∀ p c, NoDup (placed p c ops);
}.

(** The nat table with the rules added: the chains [R] hold their own rules only,
    the manager's other chains keep the rules that do not mention [R], after the
    new ones (last first), and every other chain is as it was. *)
Definition added (R : list Chain) (ops : list ruleOp) (t : natTable) : natTable :=
  list_to_map ((λ c, (c, placed Append c ops)) <$> R) ∪
  map_imap (λ c rules, Some (if isHostportChain c
                             then rev (placed Prepend c ops) ++ keepRules R c rules else rules)) t.

Lemma added_lookup R ops t c :
  added R ops t !! c =
  if bool_decide (c ∈ R) then Some (placed Append c ops)
  else (λ rules, if isHostportChain c then rev (placed Prepend c ops) ++ keepRules R c rules else rules) <$> t !! c.
Proof.
  unfold added. destruct (decide (c ∈ R)) as [Hc|Hc].
  - rewrite bool_decide_eq_true_2 by done. apply lookup_union_Some_l.
    induction R as [|d R IH]; [by apply elem_of_nil in Hc|]. rewrite fmap_cons, list_to_map_cons.
    destruct (decide (c = d)) as [->|Hd]; [apply lookup_insert_eq|]. rewrite lookup_insert_ne by done.
    apply IH. by apply elem_of_cons in Hc as [|].
  - rewrite bool_decide_eq_false_2 by done. rewrite lookup_union_r.
    + rewrite map_lookup_imap. by destruct (t !! c).
    + apply not_elem_of_list_to_map_1. rewrite <- list_fmap_compose. intros (d & -> & Hd)%list_elem_of_fmap. done.
Qed.

Definition addBody (R : list Chain) (ops : list ruleOp) (t : natTable) : list string :=
  (MakeChainLine <$> R) ++ (range (filterChains (hpChains t) R)).*2
  ++ (op_line <$> ops) ++ filterRules (hpRules t) R.

Lemma filterChains_lookup (m : gmap string string) R c : filterChains m R !! c = if bool_decide (c ∈ R) then None else m !! c.
Proof.
  unfold filterChains. revert m. induction R as [|d R IH]; intros m; [done|]. cbn [foldl]. rewrite IH.
  destruct (decide (c = d)) as [->|Hd].
  - rewrite lookup_delete_eq, (bool_decide_eq_true_2 (d ∈ d :: R)) by left. by case_bool_decide.
  - rewrite lookup_delete_ne by done. rewrite (bool_decide_ext (c ∈ d :: R) (c ∈ R)); [done|].
    rewrite elem_of_cons. naive_solver.
Qed.

Lemma kept_key t R c : c ∈ (range (filterChains (hpChains t) R)).*1 ↔ isHostportChain c = true ∧ is_Some (t !! c) ∧ c ∉ R.
Proof.
  rewrite elem_of_range_keys, filterChains_lookup. case_bool_decide as Hc.
  - split; [by intros []|]. by intros (_ & _ & ?).
  - rewrite <- elem_of_range_keys, hp_key. naive_solver.
Qed.

Lemma addBody_lines R ops t :
  addBody R ops t = (MakeChainLine <$> (R ++ (range (filterChains (hpChains t) R)).*1))
                    ++ (op_line <$> (ops ++ keepOps R (range t))).
Proof.
  unfold addBody. rewrite filterRules_hpRules, range_lines.
  - by rewrite !fmap_app, <- !app_assoc.
  - intros c l. rewrite filterChains_lookup. case_bool_decide; [done|]. apply hpChains_line.
Qed.

(** Every line of the text, of which none looks like a deletion. *)
Lemma addBody_line R ops t l :
  wfNat t → Forall (λ c, ownName c = true ∧ noDelete (MakeChainLine c) = true) R → wfOps R ops → l ∈ addBody R ops t →
  bodyLine l = true ∧ noDelete l = true.
Proof.
  intros Ht HR Hops Hl. rewrite addBody_lines in Hl. set (cs := (range (filterChains (hpChains t) R)).*1) in Hl.
  rewrite !fmap_app, !elem_of_app, !list_elem_of_fmap in Hl. rewrite Forall_forall in HR.
  destruct Hl as [[(c & -> & Hc)|(c & -> & Hc)]|[(o & -> & Ho)|(o & -> & Ho)]].
  - apply HR in Hc as [Hc Hd]. split; [by apply bodyLine_chain, ownName_chainName|done].
  - apply kept_key in Hc as (Hh & [rs Hrs] & _). split; [apply bodyLine_chain, (Ht _ _ Hrs)|by apply (Ht _ _ Hrs)].
  - pose proof (ops_wf _ _ Hops) as Hw. pose proof (ops_text _ _ Hops) as Htx. pose proof (ops_line _ _ Hops) as Hn.
    rewrite Forall_forall in Hw, Htx, Hn. split; [|by apply Hn]. apply bodyLine_rule; [by apply Hw|by apply Htx].
  - apply keepOps_inv in Ho as (rs & Hrs & Hr & Hh & Hpos). unfold op_line. rewrite Hpos.
    pose proof (wf_line _ _ (Ht _ _ Hrs)) as Hln. rewrite Forall_forall in Hln.
    destruct (wf_hostport _ _ (Ht _ _ Hrs) Hh) as (_ & _ & Hall). rewrite Forall_forall in Hall.
    split; [|by apply Hall]. apply bodyLine_rule; [apply (Ht _ _ Hrs)|by apply Hln].
Qed.

Lemma placed_In p c ops r : r ∈ placed p c ops → ∃ o, o ∈ ops ∧ op_pos o = p ∧ op_chain o = c ∧ op_rule o = r.
Proof.
  unfold placed. intros (o & -> & Ho)%list_elem_of_fmap. apply list_elem_of_In, List.filter_In in Ho as [Ho Hb].
  apply list_elem_of_In in Ho. apply andb_true_iff in Hb as [Hp Hc]. apply bool_decide_eq_true in Hc.
  exists o. repeat split; [done| |done]. destruct (op_pos o), p; done.
Qed.

Lemma placed_none p c ops : (∀ o, o ∈ ops → op_pos o = p → op_chain o ≠ c) → placed p c ops = [].
Proof.
  intros Hn. destruct (placed p c ops) as [|r rs] eqn:E; [done|].
  assert (r ∈ placed p c ops) as (o & Ho & Hp & Hc & _)%placed_In by (rewrite E; left). by destruct (Hn o Ho Hp).
Qed.

Lemma mentions_line R f c r : mentions R r = true → mentions R (ruleText f c r) = true.
Proof.
  unfold mentions. rewrite !List.existsb_exists. intros (x & Hx & Hc). exists x. split; [done|].
  unfold ruleText. by do 4 apply Contains_app_r.
Qed.

Lemma base_hostport c : baseChain c → isHostportChain c = true.
Proof. by intros [-> | ->]. Qed.
Lemma base_not_own c : baseChain c → ownName c = true → False.
Proof. by intros [-> | ->]. Qed.

(** The kept rules and the new ones of a chain are distinct. *)
Lemma new_kept_NoDup R ops c rules :
  wfOps R ops → NoDup rules → NoDup (placed Prepend c ops ++ keepRules R c rules).
Proof.
  intros Hops Hnd. apply NoDup_app. split; [apply Hops|]. split; [|by apply keepRules_NoDup].
  intros r (o & Ho & Hp & _ & <-)%placed_In Hr. apply list_elem_of_In, List.filter_In in Hr as [_ Hr].
  apply (ops_prepend _ _ Hops) in Ho as [_ Hm]; [|done]. by rewrite mentions_line in Hr.
Qed.

Lemma keepOps_append_ne R (l : list (string * list string)) o : o ∈ keepOps R l → op_pos o = Append.
Proof.
  unfold keepOps. rewrite list_elem_of_bind. intros ([c rules] & Ho & _). destruct (isHostportChain c); [|by apply elem_of_nil in Ho].
  by apply list_elem_of_fmap in Ho as (r & -> & _).
Qed.

(** Every chain line of the text flushes its chain. *)
Lemma addBody_flushed R ops t c :
  wfNat t → Forall (λ c, ownName c = true ∧ noDelete (MakeChainLine c) = true) R → wfOps R ops →
  isHostportChain c = true → chainName c = true →
  flushed (text ("*nat" :: addBody R ops t ++ ["COMMIT"])) c = true.
Proof.
  intros Ht HR Hops Hh Hn. unfold flushed. rewrite hostport_not_builtin by done. cbn [negb andb]. apply negb_true_iff.
  apply andb_true_iff in Hn as [_ Hn]. rewrite Contains_text by (by rewrite ?oneLine_app, ?Hn).
  apply not_true_is_false. rewrite List.existsb_exists. intros (l & Hl & Hc). apply list_elem_of_In in Hl.
  rewrite noDelete_line in Hc; [done|]. rewrite elem_of_cons, elem_of_app, list_elem_of_singleton in Hl.
  destruct Hl as [->|[Hl| ->]]; [done| |done]. by eapply addBody_line.
Qed.

(** Where the rules of the text go: none to a chain the manager does not own. *)
Lemma ops_elsewhere R ops (t : natTable) c :
  wfOps R ops → c ∉ R → (baseChain c → False) →
  (∀ rs, t !! c = Some rs → isHostportChain c = false) →
  Forall (λ o, op_chain o ≠ c) (ops ++ keepOps R (range t)).
Proof.
  intros Hops Hr Hb Hh. apply Forall_forall. intros o [Ho|Ho]%elem_of_app E; subst c.
  - destruct (op_pos o) eqn:Hp; [|by apply Hr, (ops_append _ _ Hops)].
    by apply (ops_prepend _ _ Hops) in Ho as [? _]; [apply Hb|].
  - apply keepOps_inv in Ho as (rs & Ho & _ & Hh' & _). apply Hh in Ho. congruence.
Qed.

(** The stages of the restore of an addition, chain by chain. *)
Lemma added_stages R ops t data :
  wfNat t → (∀ c, baseChain c → is_Some (t !! c)) →
  Forall (λ c, ownName c = true ∧ noDelete (MakeChainLine c) = true) R → wfOps R ops →
  (∀ c, isHostportChain c = true → chainName c = true → flushed data c = true) →
  added R ops t = replayAll (ops ++ keepOps R (range t))
                    (declareAll data (R ++ (range (filterChains (hpChains t) R)).*1) t).
Proof.
  intros Ht Hbase HR Hops Hflush. set (cs := (range (filterChains (hpChains t) R)).*1).
  assert (∀ c, c ∈ R → ownName c = true) as HRo by (intros c Hc; rewrite Forall_forall in HR; by apply HR).
  apply map_eq. intros c. rewrite added_lookup.
  assert (placed Prepend c (ops ++ keepOps R (range t)) = placed Prepend c ops) as EP
    by by rewrite placed_app, keepOps_append, app_nil_r.
  destruct (decide (c ∈ R)) as [Hr|Hr]; [rewrite bool_decide_eq_true_2 by done|rewrite bool_decide_eq_false_2 by done].
  { rewrite (placed_none Prepend c ops) in EP.
    2:{ intros o Ho Hp E. subst c. apply (ops_prepend _ _ Hops) in Ho as [Hb _]; [|done].
        apply (base_not_own _ Hb). by apply HRo. }
    assert (placed Append c (ops ++ keepOps R (range t)) = placed Append c ops) as EA.
    { rewrite placed_app, (placed_none Append c (keepOps R (range t))), app_nil_r; [done|]. intros o Ho _.
      pose proof (keepOps_deleted R (range t) c Hr) as Hd. rewrite Forall_forall in Hd. by apply Hd. }
    rewrite (replayAll_lookup _ _ _ []); rewrite ?EP, ?EA; [done| |apply Hops].
    rewrite declareAll_lookup, bool_decide_eq_true_2 by (apply elem_of_app; by left).
    by rewrite Hflush by auto using ownName_hostport, ownName_chainName. }
  destruct (t !! c) as [rs|] eqn:Hc; cbn [fmap option_fmap option_map].
  2:{ rewrite replayAll_lookup_other by (apply ops_elsewhere; [done|done| |congruence]; intros [? Hb]%Hbase; congruence).
      rewrite declareAll_lookup, bool_decide_eq_false_2; [done|].
      intros [?|(_ & [? Hs] & _)%kept_key]%elem_of_app; [done|congruence]. }
  destruct (isHostportChain c) eqn:Hh.
  2:{ rewrite replayAll_lookup_other by (apply ops_elsewhere; [done|done| |done]; intros Hb%base_hostport; congruence).
      rewrite declareAll_lookup, bool_decide_eq_false_2; [done|].
      intros [?|(? & _)%kept_key]%elem_of_app; [done|congruence]. }
  assert (placed Append c (ops ++ keepOps R (range t)) = keepRules R c rs) as EA.
  { rewrite placed_app, (keepOps_placed _ _ _ rs), Hh;
      [|apply NoDup_range_keys|rewrite (range_perm t); by apply elem_of_map_to_list].
    rewrite (placed_none Append c ops); [done|]. intros o Ho Hp E. subst c. by apply Hr, (ops_append _ _ Hops). }
  rewrite (replayAll_lookup _ _ _ []); rewrite ?EP, ?EA; [done| |by apply new_kept_NoDup, (Ht _ _ Hc)].
  rewrite declareAll_lookup, bool_decide_eq_true_2 by (apply elem_of_app; right; apply kept_key; eauto).
  rewrite Hflush; [done|done|]. apply (Ht _ _ Hc).
Qed.

(** Restoring the text of an addition adds the rules. *)
Lemma add_restore R ops t :
  wfNat t → (∀ c, baseChain c → is_Some (t !! c)) →
  Forall (λ c, ownName c = true ∧ noDelete (MakeChainLine c) = true) R → wfOps R ops →
  natStep (fakeRestoreAll (text ("*nat" :: addBody R ops t ++ ["COMMIT"])) NoFlushTables RestoreCounters) t (added R ops t).
Proof.
  intros Ht Hbase HR Hops. set (data := text _).
  enough (natStep (for_each (restoreLine data NoFlushTables TableNAT) (addBody R ops t)) t (added R ops t)) as Hs.
  { intros f Hf. unfold data. rewrite restore_nat; [by apply Hs|]. apply Forall_forall. intros l Hl. by eapply addBody_line. }
  rewrite addBody_lines, (added_stages R ops t data) by (done || intros; by apply addBody_flushed).
  eapply natStep_app; [apply declare_step|apply replay_step].
  - apply Forall_app. split; [eapply Forall_impl; [exact HR|]; intros c [Hc _]; by apply ownName_chainName|].
    apply Forall_forall. intros c (_ & [rs Hrs] & _)%kept_key. apply (Ht _ _ Hrs).
  - apply Forall_app. split; [apply Hops|by apply keepOps_wf].
Qed.

(** A removal after the addition leaves the table as it was, if it knew none of
    the chains. *)
Lemma removed_added R ops t :
  wfOps R ops → Forall (λ c, t !! c = None) R →
  (∀ c rules, t !! c = Some rules → isHostportChain c = true → keepRules R c rules = rules) →
  (∀ c, c ∈ R → ownName c = true) →
  removed R (added R ops t) = t.
Proof.
  intros Hops Hfresh Hkeep HR. apply map_eq. intros c. unfold removed. rewrite map_lookup_imap, added_lookup.
  destruct (decide (c ∈ R)) as [Hr|Hr].
  - rewrite !bool_decide_eq_true_2 by done. cbn [mbind option_bind].
    rewrite Forall_forall in Hfresh. by rewrite Hfresh.
  - rewrite !(bool_decide_eq_false_2 (c ∈ R)) by done. destruct (t !! c) as [rs|] eqn:Hc; [|done].
    cbn [fmap option_fmap option_map mbind option_bind]. f_equal.
    destruct (isHostportChain c) eqn:Hh; [|done]. unfold keepRules at 1. rewrite List.filter_app.
    rewrite (Hkeep c rs Hc Hh) at 1. fold (keepRules R c rs). rewrite (Hkeep c rs Hc Hh).
    assert (List.filter (λ r, negb (mentions R (ruleText "-A" c r))) (rev (placed Prepend c ops)) = []) as ->; [|done].
    destruct (List.filter _ _) as [|r l] eqn:E; [done|].
    assert (In r (List.filter (λ r, negb (mentions R (ruleText "-A" c r))) (rev (placed Prepend c ops)))) as Hin by (rewrite E; by left).
    apply List.filter_In in Hin as [Hin Hm]. apply List.in_rev, list_elem_of_In, placed_In in Hin as (o & Ho & Hp & _ & <-).
    apply (ops_prepend _ _ Hops) in Ho as [_ Ho]; [|done]. by rewrite mentions_line in Hm.
Qed.

End add.

(** ** The rules [Add] makes *)

Section rules.
Context `{NetUtilsLaw}.

Definition newOps (podFullName podIP id : string) (ms : list PortMapping) : list ruleOp :=
  ms ≫= λ pm, opOfWords <$> mappingRules podFullName podIP id pm.

Abbreviation hpChain id pm := (getHostportChain kubeHostportChainPrefix id pm).
Abbreviation masqChain id pm := (getHostportChain crioMasqueradeChainPrefix id pm).

(** The rule made of the [i]-th list of words. *)
Definition ruleOf (podFullName podIP id : string) (pm : PortMapping) (i : nat) : string :=
  normalForm (ruleWords (default [] (mappingRules podFullName podIP id pm !! i))).

Lemma mapping_ops n ip id pm :
  ∃ s0 s1 s2 s3, opOfWords <$> mappingRules n ip id pm =
    [mkOp Prepend kubeHostportsChain s0 (ruleOf n ip id pm 0); mkOp Prepend crioMasqueradeChain s1 (ruleOf n ip id pm 1);
     mkOp Append (hpChain id pm) s2 (ruleOf n ip id pm 2); mkOp Append (masqChain id pm) s3 (ruleOf n ip id pm 3)].
Proof. unfold ruleOf, mappingRules. destruct (_ || _ || _); do 4 eexists; reflexivity. Qed.

Lemma normalizeArg_letter w c : contains_char c w = true → addr_char c = false → normalizeArg w = w.
Proof.
  intros Hc Ha. unfold normalizeArg. destruct (IPFamilyOfString w) eqn:E; [done| |];
    (destruct (IPFamily_chars w) as [Hw _]; [by rewrite E|]); by rewrite (forallb_not_char addr_char c w) in Hc.
Qed.

Lemma chain_last id pm prefix :
  prefix = kubeHostportChainPrefix ∨ prefix = crioMasqueradeChainPrefix →
  normalizeArg (getHostportChain prefix id pm) = getHostportChain prefix id pm ∧
  expandWord (getHostportChain prefix id pm) = [getHostportChain prefix id pm] ∧
  contains_char " " (getHostportChain prefix id pm) = false.
Proof.
  intros Hp. destruct (chain_hash id pm prefix) as (h & -> & _ & Hh). repeat split.
  - apply (normalizeArg_letter _ "-"); [|done]. rewrite contains_char_app. by destruct Hp as [-> | ->].
  - unfold expandWord. by destruct Hp as [-> | ->].
  - rewrite contains_char_app, (forallb_not_char base32_char " " h) by done. by destruct Hp as [-> | ->].
Qed.

(** The two rules that jump to the chains of the mapping end in their names. *)
Lemma ruleOf_jump n ip id pm i c :
  (i = 0%nat ∧ c = hpChain id pm) ∨ (i = 1%nat ∧ c = masqChain id pm) → ∃ s, ruleOf n ip id pm i = s +:+ " " +:+ c.
Proof.
  intros Hi. assert (∃ ws, ws ≠ [] ∧ ruleWords (default [] (mappingRules n ip id pm !! i)) = ws ++ [c]) as (ws & Hne & E).
  { destruct Hi as [[-> ->]|[-> ->]].
    - exists (["-m"; "comment"; "--comment"; mappingComment n pm;
               "-m"; ToLower (PMProtocol pm); "-p"; ToLower (PMProtocol pm); "--dport"; Itoa (HostPort pm); "-j"]). done.
    - exists ["-m"; "comment"; "--comment"; mappingComment n pm; "-j"]. done. }
  unfold ruleOf. rewrite E. unfold normalForm. rewrite bind_app, bind_singleton.
  assert (normalizeArg c = c ∧ expandWord c = [c]) as [Ea Ee].
  { destruct Hi as [[_ ->]|[_ ->]];
      [destruct (chain_last id pm _ (or_introl eq_refl)) as (?&?&_)|destruct (chain_last id pm _ (or_intror eq_refl)) as (?&?&_)]; done. }
  rewrite Ee, fmap_app. change (normalizeArg <$> [c]) with [normalizeArg c]. rewrite Ea.
  eexists. apply Join_snoc. intros Hn%fmap_nil_inv. destruct ws as [|w ws]; [done|]. rewrite bind_cons in Hn.
  apply app_nil in Hn as [Hn _]. by apply expandWord_ne in Hn.
Qed.

Lemma last_word a a' c c' :
  contains_char " " c = false → contains_char " " c' = false → a +:+ " " +:+ c = a' +:+ " " +:+ c' → c = c'.
Proof.
  intros Hc Hc' E. apply (f_equal str_rev) in E. rewrite !str_rev_app, !append_assoc in E.
  change (str_rev " ") with " " in E. rewrite <- contains_char_rev in Hc, Hc'.
  pose proof (Cut_app (str_rev c) (str_rev a) " " Hc) as E1.
  change (String " " (str_rev a)) with (" " +:+ str_rev a) in E1. rewrite E in E1.
  change (" " +:+ str_rev a') with (String " " (str_rev a')) in E1. rewrite Cut_app in E1 by done.
  injection E1 as E1 _. apply (f_equal str_rev) in E1. by rewrite !str_rev_involutive in E1.
Qed.

(** The rules of two mappings with distinct chains are distinct, in every chain. *)
Lemma newOps_NoDup n ip id ms p c : NoDup (podChains id ms) → NoDup (placed p c (newOps n ip id ms)).
Proof.
  induction ms as [|pm ms IH]; intros Hnd; [constructor|].
  unfold podChains, newOps in *. rewrite bind_cons in *. rewrite placed_app.
  apply NoDup_app in Hnd as (Hhm & Hdisj & Hnd). specialize (IH Hnd).
  assert (hpChain id pm ≠ masqChain id pm) as Hne.
  { apply NoDup_cons in Hhm as [Hn _]. intros E. apply Hn. rewrite E. left. }
  apply NoDup_app. split; [|split; [|done]].
  - destruct (mapping_ops n ip id pm) as (s0 & s1 & s2 & s3 & ->). rewrite !placed_cons.
    change (placed p c []) with (@nil string). cbn [op_pos op_chain op_rule].
    assert (kubeHostportsChain ≠ crioMasqueradeChain) as Hkm by done.
    destruct p; cbn [samePos andb]; repeat case_bool_decide; subst;
      first [congruence|apply NoDup_singleton|apply NoDup_nil_2].
  - intros r (o & Ho & Hp & Hc & Hr)%placed_In (o' & Ho' & Hp' & Hc' & Hr')%placed_In.
    apply list_elem_of_bind in Ho' as (pm' & Ho' & Hpm').
    assert (∀ d, d ∈ mappingChains id pm → d ∈ mappingChains id pm' → False) as Hdis.
    { intros d Hd Hd'. apply (Hdisj d Hd). apply list_elem_of_bind. eauto. }
    destruct (mapping_ops n ip id pm) as (s0 & s1 & s2 & s3 & E). rewrite E in Ho.
    destruct (mapping_ops n ip id pm') as (s0' & s1' & s2' & s3' & E'). rewrite E' in Ho'. clear E E'.
    unfold mappingChains in Hdis.
    repeat (apply elem_of_cons in Ho as [->|Ho]); [| | | |by apply elem_of_nil in Ho];
    (repeat (apply elem_of_cons in Ho' as [->|Ho']); [| | | |by apply elem_of_nil in Ho']);
    cbn [op_pos op_chain op_rule] in *; subst p r; try done; try (rewrite <- Hc in Hc'; done).
    + destruct (ruleOf_jump n ip id pm 0 (hpChain id pm)) as [a Ea]; [by left|].
      destruct (ruleOf_jump n ip id pm' 0 (hpChain id pm')) as [a' Ea']; [by left|].
      rewrite Ea, Ea' in Hr'. apply last_word in Hr'; [|by apply chain_last; left|by apply chain_last; left].
      apply (Hdis (hpChain id pm)); [left|rewrite <- Hr'; left].
    + destruct (ruleOf_jump n ip id pm 1 (masqChain id pm)) as [a Ea]; [by right|].
      destruct (ruleOf_jump n ip id pm' 1 (masqChain id pm')) as [a' Ea']; [by right|].
      rewrite Ea, Ea' in Hr'. apply last_word in Hr'; [|by apply chain_last; right|by apply chain_last; right].
      apply (Hdis (masqChain id pm)); [right; left|rewrite <- Hr'; right; left].
    + apply (Hdis c); [rewrite <- Hc; left|rewrite <- Hc'; left].
    + apply (Hdis c); [rewrite <- Hc; right; left|rewrite <- Hc'; right; left].
Qed.

Lemma mapping_flags n ip id pm ws :
  ws ∈ mappingRules n ip id pm →
  ∃ f c rest, ws = f :: c :: rest ∧ (f = "-I" ∨ f = "-A") ∧ chainName c = true ∧ noX c = true.
Proof.
  pose proof (ownName_chainName _ (kubeChain_own id pm)). pose proof (ownName_chainName _ (masqChain_own id pm)).
  pose proof (mappingChain_noX id pm _ (or_introl eq_refl)). pose proof (mappingChain_noX id pm _ (or_intror eq_refl)).
  unfold mappingRules. intros Hin. repeat (apply elem_of_cons in Hin as [->|Hin]); [| | | |by apply elem_of_nil in Hin].
  - do 3 eexists. split; [reflexivity|]. auto.
  - do 3 eexists. split; [reflexivity|]. auto.
  - destruct (_ || _ || _); do 3 eexists; (split; [reflexivity|]); auto.
  - do 3 eexists. split; [reflexivity|]. auto.
Qed.

Lemma good_words ws :
  Forall (λ w, goodWord w = true) ws →
  Forall (λ w, inputWord w = true) ws ∧ Forall (λ w, noX w = true) ws ∧ Forall (λ w, oneLine w = true) ws.
Proof.
  rewrite !Forall_forall. intros Hw. repeat split; intros w Hin; apply Hw in Hin; unfold goodWord in Hin;
    rewrite !andb_true_iff in Hin; tauto.
Qed.

Lemma oneLine_Join ws : Forall (λ w, oneLine w = true) ws → oneLine (Join ws " ") = true.
Proof.
  intros Hw. unfold oneLine. apply negb_true_iff, contains_char_Join; [done|].
  eapply Forall_impl; [exact Hw|]. intros w Ho. by apply negb_true_iff.
Qed.

(** What a rule of a well-formed mapping is made of. *)
Lemma op_good pod id pm ws :
  wfPod pod → wfMapping pm → is_Some (NetIP.To16 (IP pod)) →
  ws ∈ mappingRules (getPodFullName pod) (NetIP.IPString (IP pod)) id pm →
  wfOp (opOfWords ws) ∧ oneLine (op_text (opOfWords ws)) = true ∧ noDelete (op_line (opOfWords ws)) = true.
Proof.
  intros Hpod Hp H16 Hin. destruct (mappingRules_good pod id pm ws Hpod Hp H16 Hin) as [Hg Hne].
  apply mapping_flags in Hin as (f & c & rest & -> & Hf & Hc & Hx). cbn [opOfWords ruleWords drop] in *.
  apply good_words in Hg as (Hi & HX & Ho). repeat split; cbn [op_chain op_text op_rule].
  - done.
  - by apply normalizeRule_words.
  - by apply oneLine_Join.
  - assert (op_line (mkOp (if bool_decide (f = "-I") then Prepend else Append) c (Join rest " ") (normalForm rest))
            = Join (f :: c :: rest) " ") as ->.
    { unfold op_line, ruleText. cbn [op_pos op_chain op_text]. rewrite !Join_cons by done.
      by destruct Hf as [-> | ->]. }
    apply noDelete_words. constructor; [by destruct Hf as [-> | ->]|]. by constructor.
Qed.

(** The jumps are in the order of the mappings. *)
Lemma newOps_jumps n ip id ms :
  placed Prepend kubeHostportsChain (newOps n ip id ms) = (λ pm, ruleOf n ip id pm 0) <$> ms ∧
  placed Prepend crioMasqueradeChain (newOps n ip id ms) = (λ pm, ruleOf n ip id pm 1) <$> ms.
Proof.
  unfold newOps. induction ms as [|pm ms [IH0 IH1]]; [done|]. rewrite bind_cons, !placed_app, IH0, IH1.
  destruct (mapping_ops n ip id pm) as (s0 & s1 & s2 & s3 & ->). done.
Qed.

Lemma newOps_append_chain n ip id ms o :
  o ∈ newOps n ip id ms → op_pos o = Append → op_chain o ∈ podChains id ms.
Proof.
  intros Ho Hp. apply list_elem_of_bind in Ho as (pm & Ho & Hpm). apply list_elem_of_bind. exists pm. split; [|done].
  destruct (mapping_ops n ip id pm) as (s0 & s1 & s2 & s3 & E). rewrite E in Ho.
  repeat (apply elem_of_cons in Ho as [->|Ho]); [done|done|left|right; left|by apply elem_of_nil in Ho].
Qed.

(** The chains of a mapping hold one rule each. *)
Lemma newOps_chain n ip id ms pm :
  NoDup (podChains id ms) → pm ∈ ms →
  placed Append (hpChain id pm) (newOps n ip id ms) = [ruleOf n ip id pm 2] ∧
  placed Append (masqChain id pm) (newOps n ip id ms) = [ruleOf n ip id pm 3].
Proof.
  induction ms as [|pm0 ms IH]; intros Hnd Hin; [by apply elem_of_nil in Hin|].
  unfold podChains in Hnd. rewrite bind_cons in Hnd. fold (podChains id ms) in Hnd.
  apply NoDup_app in Hnd as (_ & Hdisj & Hnd).
  assert (∀ c, c ∉ podChains id ms → placed Append c (newOps n ip id ms) = []) as Hnone.
  { intros c Hc. apply placed_none. intros o Ho Hp <-. by apply Hc, (newOps_append_chain n ip). }
  change (newOps n ip id (pm0 :: ms)) with ((opOfWords <$> mappingRules n ip id pm0) ++ newOps n ip id ms).
  rewrite !placed_app. destruct (mapping_ops n ip id pm0) as (s0 & s1 & s2 & s3 & ->).
  rewrite !placed_cons. cbn [op_pos op_chain op_rule samePos andb]. change (placed Append ?c []) with (@nil string).
  assert (hpChain id pm0 ≠ masqChain id pm) by done. assert (masqChain id pm0 ≠ hpChain id pm) by done.
  rewrite (bool_decide_eq_false_2 (masqChain id pm0 = hpChain id pm)),
    (bool_decide_eq_false_2 (hpChain id pm0 = masqChain id pm)) by done.
  apply elem_of_cons in Hin as [->|Hin].
  - rewrite !bool_decide_eq_true_2 by done. rewrite !Hnone; [done| |]; apply Hdisj; [right; left|left].
  - destruct (IH Hnd Hin) as [-> ->]. assert (∀ c, c ∈ mappingChains id pm0 → c ∉ mappingChains id pm) as Hne.
    { intros c Hc Hc'. apply (Hdisj c Hc). apply list_elem_of_bind. eauto. }
    rewrite (bool_decide_eq_false_2 (hpChain id pm0 = hpChain id pm)), (bool_decide_eq_false_2 (masqChain id pm0 = masqChain id pm)); [done| |].
    + intros E. apply (Hne (masqChain id pm0)); [right; left|]. rewrite E. right; left.
    + intros E. apply (Hne (hpChain id pm0)); [left|]. rewrite E. left.
Qed.

(** The rules of the mappings of a well-formed pod. *)
Lemma newOps_wf pod id ms :
  wfPod pod → Forall wfMapping ms → is_Some (NetIP.To16 (IP pod)) → NoDup (podChains id ms) →
  wfOps (podChains id ms) (newOps (getPodFullName pod) (NetIP.IPString (IP pod)) id ms).
Proof.
  intros Hpod Hms H16 Hnd. rewrite Forall_forall in Hms.
  assert (∀ o, o ∈ newOps (getPodFullName pod) (NetIP.IPString (IP pod)) id ms →
    wfOp o ∧ oneLine (op_text o) = true ∧ noDelete (op_line o) = true) as Hgood.
  { intros o Ho. apply list_elem_of_bind in Ho as (pm & Ho & Hpm). apply list_elem_of_fmap in Ho as (ws & -> & Hws).
    by apply (op_good pod id pm); [|apply Hms| |]. }
  split; [apply Forall_forall; intros o Ho; by apply Hgood..|by apply newOps_append_chain| |intros; by apply newOps_NoDup].
  - intros o Ho Hp. apply list_elem_of_bind in Ho as (pm & Ho & Hpm).
    destruct (mapping_ops (getPodFullName pod) (NetIP.IPString (IP pod)) id pm) as (s0 & s1 & s2 & s3 & E). rewrite E in Ho.
    assert (∀ i c, (i = 0%nat ∧ c = hpChain id pm) ∨ (i = 1%nat ∧ c = masqChain id pm) →
      mentions (podChains id ms) (ruleOf (getPodFullName pod) (NetIP.IPString (IP pod)) id pm i) = true) as Hm.
    { intros i c Hi. destruct (ruleOf_jump (getPodFullName pod) (NetIP.IPString (IP pod)) id pm i c Hi) as [s ->].
      apply List.existsb_exists. exists c. split; [|by do 2 apply Contains_app_r; apply Contains_refl].
      apply list_elem_of_In, list_elem_of_bind. exists pm. split; [|done].
      destruct Hi as [[_ ->]|[_ ->]]; [left|right; left]. }
    repeat (apply elem_of_cons in Ho as [->|Ho]); [| |done|done|by apply elem_of_nil in Ho]; cbn [op_chain op_rule].
    + split; [by left|]. eapply Hm. by left.
    + split; [by right|]. eapply Hm. by right.
Qed.

Lemma podChains_lines id ms : Forall (λ c, ownName c = true ∧ noDelete (MakeChainLine c) = true) (podChains id ms).
Proof.
  apply Forall_bind, Forall_forall. intros pm _. unfold compose, mappingChains.
  assert (∀ c, noX c = true → noDelete (MakeChainLine c) = true) as Hd.
  { intros c Hc. change (MakeChainLine c) with (String ":" (c +:+ String " " "- [0:0]")).
    pose proof (noDelete_sep c "- [0:0]" Hc eq_refl) as Hn. unfold noDelete in *. cbn [Contains].
    apply negb_true_iff in Hn. by rewrite Hn, orb_false_r. }
  repeat constructor; [apply kubeChain_own|apply Hd, mappingChain_noX; by left|apply masqChain_own|apply Hd, mappingChain_noX; by right].
Qed.

End rules.

(** ** The table stays well-formed *)

Section wellformed.
Context `{RangeOrderLaw} `{NetUtilsLaw}.

(** A rule in the table: on one line, in normal form, not a deletion. *)
Definition goodRule (c rule : string) : Prop :=
  oneLine rule = true ∧ normalizeRule rule = Ret rule ∧ noDelete (ruleText "-A" c rule) = true.

Lemma noX_app_r s w : noX (s +:+ w) = true → noX w = true.
Proof.
  unfold noX. rewrite !andb_true_iff, !negb_true_iff. intros [Hs Hc]. split; apply not_true_is_false.
  - intros [r ->]%HasSuffix_spec. apply not_true_iff_false in Hs. apply Hs, HasSuffix_spec. exists (s +:+ r). by rewrite append_assoc.
  - intros Hw. apply not_true_iff_false in Hc. apply Hc. by apply Contains_app_r.
Qed.

Lemma good_normal w v :
  goodWord w = true → v ∈ expandWord w → noX (normalizeArg v) = true ∧ oneLine (normalizeArg v) = true.
Proof.
  unfold goodWord. rewrite !andb_true_iff. intros [[Hi HX] Ho] Hv.
  assert (noX v = true ∧ oneLine v = true) as [HXv Hov].
  { apply inputWord_cases in Hi as [[_ E]|(x & -> & _ & E)]; rewrite E in Hv.
    - apply list_elem_of_singleton in Hv as ->. done.
    - apply elem_of_cons in Hv as [->|Hv]; [done|]. apply list_elem_of_singleton in Hv as ->.
      split; [by eapply noX_app_r|]. rewrite oneLine_app in Ho. by apply andb_true_iff in Ho as []. }
  unfold normalizeArg. destruct (IPFamilyOfString v) eqn:E; [done| |];
    (destruct (IPFamily_chars v) as [Hc _]; [by rewrite E|]); rewrite oneLine_app, Hov; (split; [|done]);
    apply noX_char; rewrite contains_char_app, (forallb_not_char addr_char "X" v) by done; done.
Qed.

Lemma normalForm_good c ws :
  ws ≠ [] → Forall (λ w, goodWord w = true) ws → noX c = true → goodRule c (normalForm ws).
Proof.
  intros Hne Hg Hc. apply good_words in Hg as Hg'. destruct Hg' as (Hi & _ & _).
  assert (Forall (λ v, noX v = true ∧ oneLine v = true) (normalizeArg <$> (ws ≫= expandWord))) as Hv.
  { apply Forall_fmap, Forall_forall. intros v Hv. apply list_elem_of_bind in Hv as (w & Hv & Hw).
    rewrite Forall_forall in Hg. eapply good_normal; [|exact Hv]. by apply Hg. }
  split; [|split; [by apply normalizeRule_normal|]].
  - apply oneLine_Join. eapply Forall_impl; [exact Hv|]. by intros v [_ ?].
  - change (ruleText "-A" c (normalForm ws)) with ("-A" +:+ String " " (c +:+ String " " (normalForm ws))).
    apply noDelete_sep; [done|]. apply noDelete_sep; [done|]. apply noDelete_words.
    eapply Forall_impl; [exact Hv|]. by intros v [? _].
Qed.

Lemma newOps_good pod id ms o :
  wfPod pod → Forall wfMapping ms → is_Some (NetIP.To16 (IP pod)) →
  o ∈ newOps (getPodFullName pod) (NetIP.IPString (IP pod)) id ms → goodRule (op_chain o) (op_rule o).
Proof.
  intros Hpod Hms H16 Ho. apply list_elem_of_bind in Ho as (pm & Ho & Hpm). apply list_elem_of_fmap in Ho as (ws & -> & Hws).
  rewrite Forall_forall in Hms. apply Hms in Hpm.
  destruct (mappingRules_good pod id pm ws Hpod Hpm H16 Hws) as [Hg Hne].
  apply mapping_flags in Hws as (f & c & rest & -> & Hf & Hc & Hx). by apply normalForm_good.
Qed.

(** The manager's names are hostport names. *)

Lemma own_hostportName c : ownName c = true → hostportName c = true.
Proof.
  unfold ownName, hostportName. intros [_ Hc]%andb_true_iff. apply orb_true_iff in Hc as [Hc|Hc]; rewrite Hc;
    by rewrite ?orb_true_r.
Qed.

Lemma added_wf R ops t :
  wfNat t → Forall (λ c, ownName c = true ∧ noDelete (MakeChainLine c) = true) R → wfOps R ops →
  (∀ o, o ∈ ops → goodRule (op_chain o) (op_rule o)) → wfNat (added R ops t).
Proof.
  intros Ht HR Hops Hgood c rules Hc. rewrite added_lookup in Hc.
  assert (∀ p r, r ∈ placed p c ops → goodRule c r) as Hp.
  { intros p r (o & Ho & _ & <- & <-)%placed_In. by apply Hgood. }
  case_bool_decide as Hr.
  - injection Hc as <-. rewrite Forall_forall in HR. destruct (HR c Hr) as [Ho Hd].
    split; [by apply ownName_chainName|apply Forall_forall; intros r Hin; by eapply Hp..|apply Hops|].
    intros _. split; [by apply own_hostportName|]. split; [done|]. apply Forall_forall. intros r Hin. by eapply Hp.
  - destruct (t !! c) as [rs|] eqn:Ec; [|done]. injection Hc as <-. pose proof (Ht _ _ Ec) as Hw.
    destruct (isHostportChain c) eqn:Hh; [|done].
    assert (∀ r, r ∈ rev (placed Prepend c ops) ++ keepRules R c rs → goodRule c r) as Hall.
    { intros r [Hin|Hin]%elem_of_app.
      - eapply (Hp Prepend). by apply list_elem_of_In, List.in_rev, list_elem_of_In.
      - apply list_elem_of_In, List.filter_In in Hin as [Hin _]. apply list_elem_of_In in Hin.
        destruct Hw as [_ Hl Hn _ Hx]. apply Hx in Hh as (_ & _ & Hd). rewrite Forall_forall in Hl, Hn, Hd.
        repeat split; auto. }
    split; [apply Hw|apply Forall_forall; intros r Hin; by apply Hall..| |].
    + rewrite <- (Permutation_rev (placed Prepend c ops)). apply new_kept_NoDup; [done|apply Hw].
    + intros _. split; [by apply Hw|]. split; [by apply Hw|]. apply Forall_forall. intros r Hin. by apply Hall.
Qed.

(** ** The base chains *)

Definition portalsWords : list string :=
  ["-m"; "comment"; "--comment"; quote "kube hostport portals"; "-m"; "addrtype"; "--dst-type"; "LOCAL"; "-j"; kubeHostportsChain].
Definition masqueradeWords : list string :=
  ["-m"; "comment"; "--comment"; quote "kube hostport masquerading"; "-m"; "conntrack"; "--ctstate"; "DNAT"; "-j"; crioMasqueradeChain].

Definition ensureEmpty (c : string) (t : natTable) : natTable := <[c := default [] (t !! c)]> t.
Definition ensureJump (c rule : string) (t : natTable) : natTable := <[c := place Append rule (default [] (t !! c))]> t.

(** The nat table with the base chains and the jumps to them. *)
Definition ensured (t : natTable) : natTable :=
  ensureJump ChainPostrouting (Join masqueradeWords " ")
    (ensureEmpty crioMasqueradeChain
      (ensureJump ChainPrerouting (Join portalsWords " ")
        (ensureJump ChainOutput (Join portalsWords " ")
          (ensureEmpty kubeHostportsChain t)))).

(** Words without a dot or a colon are no addresses. *)
Definition constWord (w : string) : bool :=
  goodWord w && negb (HasPrefix w "--to-destination=") && negb (contains_char "." w) && negb (contains_char ":" w).

Lemma const_normal ws : Forall (λ w, constWord w = true) ws → normalForm ws = Join ws " ".
Proof.
  intros Hw. unfold normalForm. f_equal. induction Hw as [|w ws Hw Hws IH]; [done|].
  rewrite bind_cons, fmap_app, IH. unfold constWord in Hw. rewrite !andb_true_iff, !negb_true_iff in Hw.
  destruct Hw as (((Hg & Hp) & Hd) & Hc). unfold expandWord. rewrite Hp. cbn [fmap list_fmap app]. f_equal.
  unfold normalizeArg. destruct (IPFamilyOfString w) eqn:E; [done| |];
    (destruct (IPFamily_chars w) as [_ Ha]; [by rewrite E|]); by rewrite Hd, Hc in Ha.
Qed.

Lemma const_rule c ws :
  ws ≠ [] → Forall (λ w, constWord w = true) ws → noX c = true → goodRule c (Join ws " ").
Proof.
  intros Hne Hw Hc. rewrite <- const_normal by done. apply normalForm_good; [done| |done].
  eapply Forall_impl; [exact Hw|]. intros w. unfold constWord. rewrite !andb_true_iff. tauto.
Qed.

Lemma portals_const : Forall (λ w, constWord w = true) portalsWords.
Proof. repeat (constructor; [done|]). constructor. Qed.
Lemma masquerade_const : Forall (λ w, constWord w = true) masqueradeWords.
Proof. repeat (constructor; [done|]). constructor. Qed.

Lemma natStep_then {A} s (m : io fakeIPTables A) k t1 t2 t3 :
  natStep (m ;; mret ()) t1 t2 → natStep k t2 t3 → natStep (wrap_err s m ;; k) t1 t3.
Proof.
  intros Hm Hk f Hf. specialize (Hm f Hf). unfold wrap_err, mbind, io_bind in *.
  destruct (m f) as [[a| |] f'] eqn:E; [|done|done]. injection Hm as ->.
  rewrite Hk by apply setNat_lookup. by rewrite setNat_setNat.
Qed.

Lemma natStep_tail s (m : io fakeIPTables bool) t1 t2 :
  natStep (m ;; mret ()) t1 t2 → natStep (wrap_err s m ;; mret ()) t1 t2.
Proof. intros Hm. eapply natStep_then; [exact Hm|apply natStep_ret]. Qed.

(** [ensureKubeHostportChains] on the nat table. *)
Lemma ensure_nat t : natStep ensureKubeHostportChains t (ensured t).
Proof.
  assert (∀ c ws args t, ruleOfArgs args = Join ws " " → ws ≠ [] → Forall (λ w, constWord w = true) ws →
    natStep (EnsureRule Append TableNAT c args ;; mret ()) t (ensureJump c (Join ws " ") t)) as Hrule.
  { intros c ws args t' E Hne Hw. cbn [EnsureRule fake_interface]. unfold fakeEnsureRule. rewrite E.
    apply ensureRule_nat. by apply (const_rule "" ws). }
  unfold ensureKubeHostportChains. eapply natStep_then; [apply ensureChain_nat|].
  eapply natStep_bind.
  { cbn [for_each]. eapply natStep_bind; [apply natStep_tail, (Hrule _ portalsWords); [done|done|apply portals_const]|].
    eapply natStep_bind; [apply natStep_tail, (Hrule _ portalsWords); [done|done|apply portals_const]|apply natStep_ret]. }
  eapply natStep_then; [apply ensureChain_nat|].
  apply natStep_tail, (Hrule _ masqueradeWords); [done|done|apply masquerade_const].
Qed.

Lemma ensureEmpty_wf c t : wfNat t → baseChain c → wfNat (ensureEmpty c t).
Proof.
  intros Ht Hb. unfold ensureEmpty, wfNat. apply map_Forall_insert_2; [|done]. destruct (t !! c) as [rs|] eqn:E; [by apply Ht|].
  destruct Hb as [-> | ->]; (split; [done|constructor|constructor|constructor|]); intros _; (split; [done|]); (split; [done|constructor]).
Qed.

Lemma ensureJump_wf c rule t :
  wfNat t → chainName c = true → isHostportChain c = false → goodRule c rule → wfNat (ensureJump c rule t).
Proof.
  intros Ht Hn Hh (Ho & Hr & _). unfold ensureJump, wfNat. apply map_Forall_insert_2; [|done].
  assert (wfChain c (default [] (t !! c))) as Hw.
  { destruct (t !! c) as [rs|] eqn:E; [by apply Ht|]. split; [done|constructor|constructor|constructor|]. by rewrite Hh. }
  unfold place. case_bool_decide as Hin; [done|].
  destruct Hw as [_ Hl Hnm Hnd _]. split; [done|by apply Forall_app; auto|by apply Forall_app; auto| |by rewrite Hh].
  by apply NoDup_app_singleton.
Qed.

Lemma ensured_wf t : wfNat t → wfNat (ensured t).
Proof.
  intros Ht. unfold ensured.
  apply ensureJump_wf; [|done|done|by apply const_rule; [|apply masquerade_const|]].
  apply ensureEmpty_wf; [|by right].
  apply ensureJump_wf; [|done|done|by apply const_rule; [|apply portals_const|]].
  apply ensureJump_wf; [|done|done|by apply const_rule; [|apply portals_const|]].
  apply ensureEmpty_wf; [done|by left].
Qed.

(** Only the base chains and the three built-in ones change. *)
Lemma ensured_other t c :
  c ∉ [kubeHostportsChain; crioMasqueradeChain; ChainOutput; ChainPrerouting; ChainPostrouting] → ensured t !! c = t !! c.
Proof.
  rewrite !not_elem_of_cons. intros (? & ? & ? & ? & ? & _). unfold ensured, ensureJump, ensureEmpty.
  by rewrite !lookup_insert_ne by done.
Qed.

Lemma ensured_base t c : baseChain c → ensured t !! c = Some (default [] (t !! c)).
Proof.
  unfold ensured, ensureJump, ensureEmpty. intros [-> | ->].
  - rewrite !lookup_insert_ne by done. by rewrite lookup_insert_eq.
  - rewrite lookup_insert_ne, lookup_insert_eq by done. by rewrite !lookup_insert_ne by done.
Qed.

End wellformed.

(** ** [Add] *)

Section Add.
Context `{RangeOrderLaw} `{NetUtilsLaw}.
Context (ConntrackDeleteFilters : Z → Z → Z → option goerr).

Abbreviation manager := (hostportManager (T := fakeIPTables)).

Definition tablesOf (v6 : bool) (w : manager) : fakeIPTables := if v6 then ip6tables w else ip4tables w.
Definition setTables (v6 : bool) (f : fakeIPTables) (w : manager) : manager :=
  if v6 then w <| ip6tables := f |> else w <| ip4tables := f |>.

Lemma tablesOf_set v6 f w : tablesOf v6 (setTables v6 f w) = f.
Proof. by destruct v6. Qed.
Lemma setTables_set v6 f f' w : setTables v6 f (setTables v6 f' w) = setTables v6 f w.
Proof. by destruct v6. Qed.
Lemma setTables_id v6 w : setTables v6 (tablesOf v6 w) w = w.
Proof. by destruct v6, w. Qed.

Lemma onTables_nat v6 m (w : manager) t t' :
  natStep m t t' → tables (tablesOf v6 w) !! TableNAT = Some t →
  onTables v6 m w = (Ret (), setTables v6 (setNat t' (tablesOf v6 w)) w).
Proof. intros Hm Hw. unfold onTables, tablesOf in *. destruct v6; by rewrite Hm. Qed.

Lemma onTables_existing v6 (w : manager) t :
  wfNat t → tables (tablesOf v6 w) !! TableNAT = Some t →
  onTables v6 getExistingHostportIPTablesRules w = (Ret (hpChains t, hpRules t), w).
Proof.
  intros Ht Hw. unfold onTables, tablesOf in *. destruct v6; rewrite (getExisting_nat t) by done; by destruct w.
Qed.

(** The ports whose connections are forgotten. *)
Definition udpPorts (ms : list PortMapping) : list Z :=
  HostPort <$> List.filter (λ pm, bool_decide (PMProtocol pm = ProtocolUDP)) ms.

Lemma fold_addMapping n ip id ms acc :
  foldl (addMapping n ip id) acc ms =
  mkAdditions (newChains acc ++ podChains id ms) (conntrackPortsToRemove acc ++ udpPorts ms)
    (natChains acc ++ (MakeChainLine <$> podChains id ms)) (natRules acc ++ (op_line <$> newOps n ip id ms)).
Proof.
  revert acc. induction ms as [|pm ms IH]; intros acc.
  { cbn. rewrite !app_nil_r. by destruct acc. }
  cbn [foldl]. rewrite IH. unfold podChains, newOps. rewrite !bind_cons, !fmap_app. unfold addMapping. cbn [newChains conntrackPortsToRemove natChains natRules].
  rewrite !app_assoc. f_equal.
  - unfold udpPorts. cbn [List.filter]. case_bool_decide; [by rewrite fmap_cons, <- app_assoc|done].
  - by rewrite (foldl_writeLine (λ chain, [MakeChainLine chain])).
  - f_equal. etrans; [exact (foldl_writeLine (λ ws : list string, ws) (mappingRules n ip id pm) (natRules acc))|].
    f_equal. rewrite <- list_fmap_compose. unfold mappingRules. destruct (_ || _ || _); done.
Qed.

Lemma conntrack_loop family ports (w : manager) :
  for_each (λ port, ignore (deleteConntrackEntriesForDstPort ConntrackDeleteFilters (u16 port) protocolUDPNumber family)) ports w =
  (Ret (), w <| conntrackCalls ::= λ l, l ++ ((λ port, (family, protocolUDPNumber, u16 port)) <$> ports) |>).
Proof.
  revert w. induction ports as [|p ports IH]; intros w.
  { cbn. rewrite app_nil_r. by destruct w. }
  cbn [for_each]. unfold mbind, io_bind.
  assert (ignore (deleteConntrackEntriesForDstPort ConntrackDeleteFilters (u16 p) protocolUDPNumber family) w =
    (Ret (), w <| conntrackCalls ::= λ l, l ++ [(family, protocolUDPNumber, u16 p)] |>)) as ->.
  { unfold ignore, deleteConntrackEntriesForDstPort, modify, wrap_err, lift, mbind, io_bind, of_err.
    by destruct (ConntrackDeleteFilters _ _ _). }
  rewrite IH. destruct w as [f4 f6 calls]. cbn. by rewrite <- app_assoc.
Qed.

Definition addTables (id : string) (pod : PodPortMapping) (ms : list PortMapping) (t : natTable) : natTable :=
  added (podChains id ms) (newOps (getPodFullName pod) (NetIP.IPString (IP pod)) id ms) (ensured t).

(** The body of [Add] after the checks. *)
Lemma Add_body id pod ms v6 (w : manager) t :
  wfPod pod → Forall wfMapping ms → is_Some (NetIP.To16 (IP pod)) → NoDup (podChains id ms) →
  tables (tablesOf v6 w) !! TableNAT = Some t → wfNat t →
  NetIP.IsIPv6 (IP pod) = v6 → gatherHostportMappings pod v6 = ms → ms ≠ [] →
  Add ConntrackDeleteFilters id pod w =
  (Ret (), (setTables v6 (setNat (addTables id pod ms t) (tablesOf v6 w)) w)
             <| conntrackCalls ::= λ l, l ++ ((λ port, (getNetlinkFamily v6, protocolUDPNumber, u16 port)) <$> udpPorts ms) |>).
Proof.
  intros Hpod Hms H16 Hnd Hw Ht Hv Hg Hne. unfold Add. destruct H16 as [ip16 E16]. rewrite E16, Hv, Hg.
  destruct ms as [|m ms'] eqn:Ems; [done|]. rewrite <- Ems in *. clear Ems m ms' Hne.
  rewrite (io_bind_ret _ _ _ _ _ (onTables_nat v6 _ w t (ensured t) (ensure_nat t) Hw)).
  set (w1 := setTables v6 (setNat (ensured t) (tablesOf v6 w)) w).
  assert (tables (tablesOf v6 w1) !! TableNAT = Some (ensured t)) as Hw1
    by (unfold w1; rewrite tablesOf_set; apply setNat_lookup).
  rewrite (io_bind_ret _ _ _ _ _ (onTables_existing v6 w1 (ensured t) (ensured_wf t Ht) Hw1)). cbv beta iota zeta.
  rewrite fold_addMapping. cbn [newChains conntrackPortsToRemove natChains natRules]. rewrite !app_nil_l.
  set (R := podChains id ms) in *. set (ops := newOps _ _ _ _).
  rewrite !(foldl_writeLine (λ x : string, [x])). rewrite <- text_app.
  assert (wfOps R ops) as Hops by (apply newOps_wf; [done|done|by exists ip16|done]).
  assert (natStep (syncIPTables (text ((writeLine [] ["*nat"] ++ (MakeChainLine <$> R)) ++ ((λ x, Join [x] " ") <$> (range (filterChains (hpChains (ensured t)) R)).*2)
     ++ writeLine ((op_line <$> ops) ++ ((λ x, Join [x] " ") <$> filterRules (hpRules (ensured t)) R)) ["COMMIT"])))
     (ensured t) (addTables id pod ms t)) as Hsync.
  { apply syncIPTables_nat. unfold writeLine. cbn [Join app]. rewrite !list_fmap_id.
    replace (text _) with (text ("*nat" :: addBody R ops (ensured t) ++ ["COMMIT"])).
    - apply add_restore; [by apply ensured_wf|intros c Hc; rewrite ensured_base by done; by eexists|apply podChains_lines|done].
    - unfold addBody. f_equal. f_equal. by rewrite <- !app_assoc. }
  rewrite <- app_assoc in Hsync. rewrite <- !app_assoc.
  rewrite (io_bind_ret _ _ _ _ _ (onTables_nat v6 _ w1 _ _ Hsync Hw1)). rewrite conntrack_loop.
  unfold w1. rewrite tablesOf_set, setTables_set, setNat_setNat. done.
Qed.

(** ** [Remove] on both families *)

(** The firewall of a family, with its well-formed nat table. *)
Definition wfFamily (v6 : bool) (w : manager) (t : natTable) : Prop :=
  fakeIsIPv6 (tablesOf v6 w) = v6 ∧ tables (tablesOf v6 w) !! TableNAT = Some t ∧ wfNat t.

Lemma removeForFamily_set id pod v6 w t :
  wfFamily v6 w t → NoDup (podChains id (gatherHostportMappings pod v6)) →
  removeForFamily id pod v6 w = (Ret (), setTables v6 (setNat (removeTables id pod v6 t) (tablesOf v6 w)) w).
Proof.
  intros (Hv & Hf & Ht) Hnd. unfold tablesOf, setTables in *. pose proof (removeForFamily_nat id pod v6 w t Hv Hf Ht Hnd) as E.
  rewrite E. by destruct v6.
Qed.

Lemma wfFamily_other v6 f w t : wfFamily (negb v6) w t → wfFamily (negb v6) (setTables v6 f w) t.
Proof. by destruct v6. Qed.

Lemma Remove_body id pod w t4 t6 :
  wfFamily false w t4 → wfFamily true w t6 →
  NoDup (podChains id (gatherHostportMappings pod false)) → NoDup (podChains id (gatherHostportMappings pod true)) →
  Remove id pod w =
  (Ret (), setTables true (setNat (removeTables id pod true t6) (tablesOf true w))
             (setTables false (setNat (removeTables id pod false t4) (tablesOf false w)) w)).
Proof.
  intros H4 H6 Hn4 Hn6. unfold Remove, try, mbind, io_bind.
  rewrite (removeForFamily_set id pod false w t4) by done. cbv beta iota.
  rewrite (removeForFamily_set id pod true _ t6); [done|by apply (wfFamily_other false)|done].
Qed.

Lemma Remove_families id pod v6 w t u :
  wfFamily v6 w t → wfFamily (negb v6) w u →
  NoDup (podChains id (gatherHostportMappings pod v6)) → NoDup (podChains id (gatherHostportMappings pod (negb v6))) →
  ∃ w', Remove id pod w = (Ret (), w') ∧
    tablesOf v6 w' = setNat (removeTables id pod v6 t) (tablesOf v6 w) ∧
    tablesOf (negb v6) w' = setNat (removeTables id pod (negb v6) u) (tablesOf (negb v6) w).
Proof. destruct v6; cbn [negb]; intros; eexists; (split; [by eapply Remove_body|]); by destruct w. Qed.

(** No chain of [R] is in the table and no rule of the manager's chains mentions one. *)
Definition unknown (R : list Chain) (t : natTable) : Prop :=
  Forall (λ c, t !! c = None) R ∧
  ∀ c rules, t !! c = Some rules → isHostportChain c = true → keepRules R c rules = rules.

Lemma afterRemove_unknown R t : Forall (λ c, ownName c = true) R → Forall (λ c, t !! c = None) R → afterRemove R t = t.
Proof.
  intros HR Hu. unfold afterRemove. rewrite bool_decide_eq_true_2; [done|].
  destruct (present t R) as [|c l] eqn:E; [done|].
  assert (c ∈ present t R) as Hc by (rewrite E; left). apply present_spec in Hc as [Hc [rs Hs]]; [|done].
  rewrite Forall_forall in Hu. by rewrite (Hu c Hc) in Hs.
Qed.

Lemma base_not_podChain id ms c : baseChain c → c ∉ podChains id ms.
Proof.
  intros Hb Hc. pose proof (podChains_own id ms) as Ho. rewrite Forall_forall in Ho. eapply base_not_own; [exact Hb|by apply Ho].
Qed.

Lemma ensured_None (t : natTable) id ms c : c ∈ podChains id ms → ensured t !! c = t !! c.
Proof.
  intros Hc. pose proof (podChains_own id ms) as Ho. rewrite Forall_forall in Ho. apply Ho, ownName_hostport in Hc as Hh.
  apply ensured_other. intros Hin.
  repeat (apply elem_of_cons in Hin as [->|Hin]); [done|done|done|done|done|by apply elem_of_nil in Hin].
Qed.

Lemma unknown_ensured id ms t : unknown (podChains id ms) t → unknown (podChains id ms) (ensured t).
Proof.
  intros [Hn Hk]. split.
  - apply Forall_forall. intros c Hc. rewrite (ensured_None t id ms) by done. rewrite Forall_forall in Hn. by apply Hn.
  - intros c rules Hc Hh. destruct (decide (baseChain c)) as [Hb|Hb].
    + rewrite ensured_base in Hc by done. injection Hc as <-. destruct (t !! c) eqn:E; [by apply Hk|done].
    + rewrite ensured_other in Hc; [by apply Hk|]. unfold baseChain in Hb. intros Hin.
      repeat (apply elem_of_cons in Hin as [->|Hin]); [tauto|tauto|done|done|done|by apply elem_of_nil in Hin].
Qed.

Abbreviation hpChain id pm := (getHostportChain kubeHostportChainPrefix id pm).
Abbreviation masqChain id pm := (getHostportChain crioMasqueradeChainPrefix id pm).

Lemma gather_wf pod v6 : wfPod pod → Forall wfMapping (gatherHostportMappings pod v6).
Proof.
  intros Hp. pose proof (wf_mappings _ Hp) as Hm. rewrite Forall_forall in *. intros pm Hin.
  apply list_elem_of_In, List.filter_In in Hin as [Hin _]. apply Hm. by apply list_elem_of_In.
Qed.

(** C39: [Add] of a pod's host ports succeeds and leaves exactly this nat table of
    the pod's family: each mapping's own chain holds its DNAT rule and its
    masquerade chain its MASQUERADE rule; the base chains begin with the jumps to
    them, the last mapping first, and keep the older rules that do not mention the
    pod's chains; the manager's other chains keep such rules too; every other chain
    is as the set-up of the base chains left it.  The other family is untouched,
    and the connections of the pod's UDP ports (reduced to 16 bits) are dropped. *)
Theorem Add_exact id pod v6 ms w t :
  wfPod pod → is_Some (NetIP.To16 (IP pod)) → NetIP.IsIPv6 (IP pod) = v6 →
  gatherHostportMappings pod v6 = ms → ms ≠ [] → NoDup (podChains id ms) → wfFamily v6 w t →
  let R := podChains id ms in
  let rule := ruleOf (getPodFullName pod) (NetIP.IPString (IP pod)) id in
  ∃ w' t', Add ConntrackDeleteFilters id pod w = (Ret (), w') ∧
    tables (tablesOf v6 w') !! TableNAT = Some t' ∧ tablesOf (negb v6) w' = tablesOf (negb v6) w ∧
    (∀ pm, pm ∈ ms → t' !! hpChain id pm = Some [rule pm 2%nat] ∧ t' !! masqChain id pm = Some [rule pm 3%nat]) ∧
    t' !! kubeHostportsChain =
      Some (rev ((λ pm, rule pm 0%nat) <$> ms) ++ keepRules R kubeHostportsChain (default [] (t !! kubeHostportsChain))) ∧
    t' !! crioMasqueradeChain =
      Some (rev ((λ pm, rule pm 1%nat) <$> ms) ++ keepRules R crioMasqueradeChain (default [] (t !! crioMasqueradeChain))) ∧
    (∀ c, isHostportChain c = true → ¬ baseChain c → c ∉ R → t' !! c = keepRules R c <$> t !! c) ∧
    (∀ c, isHostportChain c = false → t' !! c = ensured t !! c) ∧
    conntrackCalls w' = conntrackCalls w ++ ((λ port, (getNetlinkFamily v6, protocolUDPNumber, u16 port)) <$> udpPorts ms).
Proof.
  intros Hpod H16 Hv Hg Hne Hnd (_ & Hw & Ht) R rule.
  assert (Forall wfMapping ms) as Hms by (rewrite <- Hg; by apply gather_wf).
  pose proof (newOps_wf pod id ms Hpod Hms H16 Hnd) as Hops. pose proof (podChains_own id ms) as Hown. rewrite Forall_forall in Hown.
  destruct (newOps_jumps (getPodFullName pod) (NetIP.IPString (IP pod)) id ms) as [E0 E1].
  eexists _, (addTables id pod ms t). split; [by eapply Add_body|]. unfold addTables.
  split; [destruct v6; apply setNat_lookup|]. split; [by destruct v6|].
  split; [intros pm Hpm; split|]; [..|repeat split].
  - rewrite added_lookup, bool_decide_eq_true_2 by (apply list_elem_of_bind; eexists; split; [left|done]).
    by rewrite (proj1 (newOps_chain _ _ id ms pm Hnd Hpm)).
  - rewrite added_lookup, bool_decide_eq_true_2 by (apply list_elem_of_bind; eexists; split; [right; left|done]).
    by rewrite (proj2 (newOps_chain _ _ id ms pm Hnd Hpm)).
  - rewrite added_lookup, bool_decide_eq_false_2 by (by apply base_not_podChain; left).
    rewrite ensured_base by by left. cbn [fmap option_fmap option_map].
    change (isHostportChain kubeHostportsChain) with true. by rewrite E0.
  - rewrite added_lookup, bool_decide_eq_false_2 by (by apply base_not_podChain; right).
    rewrite ensured_base by by right. cbn [fmap option_fmap option_map].
    change (isHostportChain crioMasqueradeChain) with true. by rewrite E1.
  - intros c Hh Hb Hc. rewrite added_lookup, bool_decide_eq_false_2, Hh by done.
    rewrite ensured_other, (placed_none Prepend c); [done| |].
    + intros o Ho Hp <-. by apply (ops_prepend _ _ Hops) in Ho as [? _].
    + unfold baseChain in Hb. intros Hin. repeat (apply elem_of_cons in Hin as [->|Hin]); [tauto|tauto|done|done|done|by apply elem_of_nil in Hin].
  - intros c Hh. rewrite added_lookup, bool_decide_eq_false_2, Hh by (intros Hc%Hown%ownName_hostport; congruence).
    by destruct (ensured t !! c).
  - by destruct v6, w.
Qed.

(** C12: [Remove] succeeds on both families, whatever order the maps are visited in.
    In a family where none of the pod's chains exists nothing changes; otherwise
    the pod's chains are gone, the manager's other chains have lost exactly the
    rules that mention them, in the order they had, and every other chain of the
    nat table is untouched. *)
Theorem Remove_exact id pod w t4 t6 :
  wfFamily false w t4 → wfFamily true w t6 →
  NoDup (podChains id (gatherHostportMappings pod false)) → NoDup (podChains id (gatherHostportMappings pod true)) →
  ∃ w', Remove id pod w = (Ret (), w') ∧ conntrackCalls w' = conntrackCalls w ∧
  ∀ v6, let R := podChains id (gatherHostportMappings pod v6) in
        let t := if v6 then t6 else t4 in
    ∃ t', tables (tablesOf v6 w') !! TableNAT = Some t' ∧
      ((∀ c, c ∈ R → t !! c = None) → t' = t) ∧
      ((∃ c, c ∈ R ∧ is_Some (t !! c)) → ∀ c,
        t' !! c = if bool_decide (c ∈ R) then None
                  else (λ rules, if isHostportChain c then keepRules R c rules else rules) <$> t !! c).
Proof.
  intros H4 H6 Hn4 Hn6. eexists. split; [by apply Remove_body|]. split; [by destruct w|]. intros v6 R t.
  exists (removeTables id pod v6 t). split; [destruct v6; apply setNat_lookup|].
  pose proof (podChains_own id (gatherHostportMappings pod v6)) as HR. unfold removeTables. fold R in HR |- *. split.
  - intros Hu. apply afterRemove_unknown; [done|]. by apply Forall_forall.
  - intros (d & Hd & Ht) c. unfold afterRemove. rewrite bool_decide_eq_false_2.
    2:{ intros E. assert (d ∈ present t R) as Hin by by apply present_spec. rewrite E in Hin. by apply elem_of_nil in Hin. }
    unfold removed. rewrite map_lookup_imap. destruct (t !! c) as [rs|]; cbn [mbind option_bind fmap option_fmap option_map].
    + case_bool_decide; [done|]. by destruct (isHostportChain c).
    + by case_bool_decide.
Qed.

(** C11: [Remove] undoes [Add]: when the firewall knows none of the pod's chains,
    adding the pod's host ports and removing them both succeed, and leave the
    firewall as the set-up of the base chains alone leaves it; the other address
    family is as it was. *)
Theorem Add_Remove_roundtrip id pod v6 w t u :
  let ms := gatherHostportMappings pod v6 in
  wfPod pod → is_Some (NetIP.To16 (IP pod)) → NetIP.IsIPv6 (IP pod) = v6 → ms ≠ [] →
  NoDup (podChains id ms) → NoDup (podChains id (gatherHostportMappings pod (negb v6))) →
  wfFamily v6 w t → unknown (podChains id ms) t →
  wfFamily (negb v6) w u → unknown (podChains id (gatherHostportMappings pod (negb v6))) u →
  ∃ w1 w2, Add ConntrackDeleteFilters id pod w = (Ret (), w1) ∧ Remove id pod w1 = (Ret (), w2) ∧
    tablesOf v6 w2 = (ensureKubeHostportChains (tablesOf v6 w)).2 ∧ tablesOf (negb v6) w2 = tablesOf (negb v6) w.
Proof.
  intros ms Hpod H16 Hv Hne Hnd Hnd' (Hp & Hw & Ht) Hu Hfam' [Hu' _]. pose proof (gather_wf pod v6 Hpod) as Hms.
  pose proof (newOps_wf pod id ms Hpod Hms H16 Hnd) as Hops. apply unknown_ensured in Hu as [Hn Hk].
  pose proof (podChains_own id ms) as Hown. pose proof (podChains_own id (gatherHostportMappings pod (negb v6))) as Hown'.
  rewrite (Add_body id pod ms v6 w t) by done. set (w1 := set _ _ _).
  assert (wfFamily v6 w1 (addTables id pod ms t)) as Hf1.
  { split; [by destruct v6|]. split; [destruct v6; apply setNat_lookup|].
    apply added_wf; [by apply ensured_wf|apply podChains_lines|done|]. intros o Ho. by eapply newOps_good. }
  assert (wfFamily (negb v6) w1 u) as Hf2 by by destruct v6.
  assert (removeTables id pod v6 (addTables id pod ms t) = ensured t) as E1.
  { unfold removeTables, afterRemove. fold ms. rewrite bool_decide_eq_false_2.
    - apply removed_added; [done|done|done|]. by apply Forall_forall.
    - destruct ms as [|pm ms'] eqn:Ems; [done|]. intros E. rewrite <- Ems in *. apply not_elem_of_nil with (x := hpChain id pm).
      rewrite <- E. apply present_spec; [done|]. assert (hpChain id pm ∈ podChains id ms) as Hin.
      { rewrite Ems. apply list_elem_of_bind. exists pm. split; [left|left]. }
      split; [done|]. unfold addTables. rewrite added_lookup, bool_decide_eq_true_2 by done. by eexists. }
  assert (removeTables id pod (negb v6) u = u) as E2 by by apply afterRemove_unknown.
  destruct (Remove_families id pod v6 w1 _ u Hf1 Hf2 Hnd Hnd') as (w2 & Er & Ea & Eb).
  exists w1, w2. split; [done|]. split; [done|]. rewrite Ea, Eb, E1, E2, (ensure_nat t _ Hw).
  destruct Hfam' as (_ & Hw' & _). split; [|by destruct v6; apply setNat_id].
  destruct v6; cbn; by rewrite setNat_setNat.
Qed.

End Add.

(** ** Examples and witnesses *)

Module HostPortExample.

#[local] Instance order : RangeOrder := λ A m, map_to_list m.
#[local] Instance order_law : RangeOrderLaw.
Proof. by intros A m. Qed.

#[local] Instance family : NetUtils := λ s,
  if bool_decide (s ∈ ["10.1.1.2"; "10.1.1.4"; "127.0.0.1"]) then IPv4
  else if bool_decide (s ∈ ["::1"; "2001:beef::2"]) then IPv6 else IPFamilyUnknown.
#[local] Instance family_law : NetUtilsLaw.
Proof.
  intros s. unfold IPFamilyOfString, family. case_bool_decide as H4.
  - intros _. repeat (apply elem_of_cons in H4 as [->|H4]; [done|]). by apply elem_of_nil in H4.
  - case_bool_decide as H6; [|done].
    intros _. repeat (apply elem_of_cons in H6 as [->|H6]; [done|]). by apply elem_of_nil in H6.
Qed.

(** The pods of the repository's tests, less a mapping or two. *)
Definition id1 : string := "0855d5396cdc673af13203c9cc5c95367cad0133306ba4d74d1da6e2876ebe51".
Definition pod1 : PodPortMapping :=
  mkPPM "ns1" "pod1" [mkPM 8080 80 "TCP" ""; mkPM 8081 81 "UDP" ""; mkPM 8084 84 "TCP" "127.0.0.1"] [10; 1; 1; 2].
Definition id3 : string := "2da827da280ff31f6b257138f625d94b90472f614dee4d5f415d99b3e49a2c72".
Definition pod3 : PodPortMapping := mkPPM "ns1" "pod3" [mkPM 8443 443 "TCP" ""] (NetIP.v4InV6Prefix ++ [10; 1; 1; 4]).

(** The names of the chains are those the repository's tests expect. *)
Example chain_names :
  podChains id3 (PortMappings pod3) = ["KUBE-HP-WLTFZLTJ4QV7FRX3"; "CRIO-MASQ-WLTFZLTJ4QV7FRX3"] ∧
  getHostportChain kubeHostportChainPrefix id1 (mkPM 8084 84 "TCP" "::1") = "KUBE-HP-MGT4WGWISEW3X3JW".
Proof. vm_compute. done. Qed.

(** A firewall in which the other pod's ports are open. *)
Definition nat0 : natTable :=
  {[ ChainOutput := ["-j SOMEWHERE"];
     kubeHostportsChain := ["-m tcp -p tcp --dport 8443 -j KUBE-HP-WLTFZLTJ4QV7FRX3"];
     "KUBE-HP-WLTFZLTJ4QV7FRX3" := ["-m tcp -p tcp -j DNAT --to-destination 10.1.1.4:443"] ]}.
Definition nat6 : natTable := {[ ChainOutput := [] ]}.
Definition manager0 : hostportManager :=
  mkManager (mkFake {[ TableNAT := nat0 ]} ProtocolIPv4) (mkFake {[ TableNAT := nat6 ]} ProtocolIPv6) [].
Definition noConntrack (family protocol port : Z) : option goerr := None.

Definition normal (r : string) : bool := match normalizeRule r with Ret r' => bool_decide (r' = r) | _ => false end.

Definition wfChainb (c : string) (rules : list string) : bool :=
  chainName c && forallb oneLine rules && forallb normal rules && bool_decide (NoDup rules)
  && (negb (isHostportChain c) || hostportName c && noDelete (MakeChainLine c) && forallb (λ r, noDelete (ruleText "-A" c r)) rules).

Lemma wfChain_compute c rules : wfChainb c rules = true → wfChain c rules.
Proof.
  unfold wfChainb. rewrite !andb_true_iff, orb_true_iff, negb_true_iff, !andb_true_iff, bool_decide_eq_true.
  assert (∀ f, forallb f rules = true → Forall (λ r, f r = true) rules) as Hf.
  { intros f Hall. apply Forall_forall. intros r Hr. rewrite List.forallb_forall in Hall. by apply Hall, list_elem_of_In. }
  intros ((((Hn & Hl) & Hr) & Hd) & Hh). split; [done|by apply Hf| |done|].
  - eapply Forall_impl; [by apply Hf|]. intros r Hnr. unfold normal in Hnr.
    destruct (normalizeRule r); [|done|done]. apply bool_decide_eq_true in Hnr. by subst.
  - intros Hc. destruct Hh as [?|((Hh & Hm) & Ha)]; [congruence|]. split; [done|]. split; [done|]. by apply Hf.
Qed.

Lemma wfNat_compute t : forallb (λ cr, wfChainb cr.1 cr.2) (map_to_list t) = true → wfNat t.
Proof.
  rewrite List.forallb_forall. intros Hall c rules Hc%elem_of_map_to_list%list_elem_of_In%Hall. by apply wfChain_compute.
Qed.

Lemma wf_nat0 : wfNat nat0.
Proof. apply wfNat_compute. by vm_compute. Qed.
Lemma wf_nat6 : wfNat nat6.
Proof. apply wfNat_compute. by vm_compute. Qed.

Lemma wf_pod1 : wfPod pod1.
Proof.
  split; [done|done| |].
  - repeat apply Forall_cons_2; try apply Forall_nil_2; (split; simpl; [lia|lia|set_solver|]); first [by left|by right].
  - repeat constructor; simpl; lia.
Qed.

Lemma wf_family4 : wfFamily false manager0 nat0.
Proof. split; [done|]. split; [done|]. apply wf_nat0. Qed.
Lemma wf_family6 : wfFamily true manager0 nat6.
Proof. split; [done|]. split; [done|]. apply wf_nat6. Qed.

Lemma chains_distinct v6 : NoDup (podChains id1 (gatherHostportMappings pod1 v6)).
Proof. destruct v6; refine (bool_decide_unpack _ _); vm_compute; exact I. Qed.

Lemma unknown_compute R t :
  forallb (λ c, bool_decide (t !! c = None)) R
  && forallb (λ cr, negb (isHostportChain cr.1) || bool_decide (keepRules R cr.1 cr.2 = cr.2)) (map_to_list t) = true →
  unknown R t.
Proof.
  rewrite andb_true_iff, !List.forallb_forall. intros [Hn Hk]. split.
  - apply Forall_forall. intros c Hc%list_elem_of_In%Hn. by apply bool_decide_eq_true in Hc.
  - intros c rules Hc%elem_of_map_to_list%list_elem_of_In%Hk Hh. simpl in Hc. rewrite Hh in Hc. by apply bool_decide_eq_true in Hc.
Qed.

End HostPortExample.

Import HostPortExample.
#[local] Existing Instances order order_law family family_law.

Lemma Add_exact_witness :
  ∃ w', Add noConntrack id1 pod1 manager0 = (Ret (), w') ∧ conntrackCalls w' = [(AF_INET, protocolUDPNumber, 8081)].
Proof.
  destruct (Add_exact noConntrack id1 pod1 false (gatherHostportMappings pod1 false) manager0 nat0) as (w' & t' & E & _ & _ & _ & _ & _ & _ & _ & Hc).
  - apply wf_pod1.
  - by eexists.
  - done.
  - done.
  - done.
  - apply chains_distinct.
  - apply wf_family4.
  - exists w'. split; [exact E|exact Hc].
Defined.

Lemma Remove_exact_witness : ∃ w', Remove id3 pod3 manager0 = (Ret (), w') ∧
  ∃ t', tables (tablesOf false w') !! TableNAT = Some t' ∧ t' !! "KUBE-HP-WLTFZLTJ4QV7FRX3" = None ∧
        t' !! kubeHostportsChain = Some [] ∧ t' !! ChainOutput = Some ["-j SOMEWHERE"].
Proof.
  destruct (Remove_exact id3 pod3 manager0 nat0 nat6) as (w' & E & _ & Hw).
  - apply wf_family4.
  - apply wf_family6.
  - refine (bool_decide_unpack _ _); vm_compute; exact I.
  - refine (bool_decide_unpack _ _); vm_compute; exact I.
  - exists w'. split; [exact E|]. destruct (Hw false) as (t' & Et & _ & Hr). exists t'. split; [exact Et|].
    assert (∃ c, c ∈ podChains id3 (gatherHostportMappings pod3 false) ∧ is_Some (nat0 !! c)) as Hex.
    { exists "KUBE-HP-WLTFZLTJ4QV7FRX3". split; refine (bool_decide_unpack _ _); vm_compute; exact I. }
    split; [|split]; rewrite (Hr Hex); vm_compute; reflexivity.
Defined.

Lemma Add_Remove_roundtrip_witness :
  ∃ w1 w2, Add noConntrack id1 pod1 manager0 = (Ret (), w1) ∧ Remove id1 pod1 w1 = (Ret (), w2) ∧
    tablesOf false w2 = (ensureKubeHostportChains (tablesOf false manager0)).2 ∧ tablesOf true w2 = tablesOf true manager0.
Proof.
  apply (Add_Remove_roundtrip noConntrack id1 pod1 false manager0 nat0 nat6).
  - apply wf_pod1.
  - by eexists.
  - done.
  - done.
  - apply chains_distinct.
  - apply chains_distinct.
  - apply wf_family4.
  - apply unknown_compute. by vm_compute.
  - apply wf_family6.
  - apply unknown_compute. by vm_compute.
Defined.

(** A gap: two mappings of one host port (same protocol and host address) share a
    chain; [Add] puts both destinations in it, and [Remove] then asks for the chain
    to be deleted twice, which [iptables-restore] refuses. *)
Theorem Remove_duplicate_mapping :
  let pod := mkPPM "ns1" "pod1" [mkPM 8080 80 "TCP" ""; mkPM 8080 81 "TCP" ""] [10; 1; 1; 2] in
  let '(r, w) := Add noConntrack id1 pod manager0 in
  r = Ret () ∧
  (length <$> ((tables (ip4tables w) !! TableNAT) ≫= lookup (getHostportChain kubeHostportChainPrefix id1 (mkPM 8080 80 "TCP" "")))) = Some 2%nat ∧
  ∃ e, (Remove id1 pod w).1 = Fail e.
Proof. vm_compute. split; [done|]. split; [done|]. by eexists. Qed.

(** A gap: at the end of a buffer without a newline, [readLine] loses the last word
    when it is a single character, although its comment promises the last character
    is part of the line. *)
Theorem readLine_last_char : readLine 0 ":A - x" = (":A -", 6%nat) ∧ readLine 0 "x" = ("", 1%nat).
Proof. by vm_compute. Qed.

Lemma getChainLines_lines_witness :
  getChainLines TableNAT (text ["*nat"; " :KUBE-HOSTPORTS - [0:0] "; "COMMIT"]) =
  Ret {[ "KUBE-HOSTPORTS" := ":KUBE-HOSTPORTS - [0:0]" ]}.
Proof. rewrite getChainLines_lines; [vm_compute; reflexivity|]. repeat (constructor; [reflexivity|]). constructor. Defined.
