(* ===== verification/MemoryStore.v ===== *)
(** * MemoryStore: the keyed store of containers (internal/memorystore)

    [memoryStore] is a [sync.Map] from identifiers to values; each method is one
    atomic operation of the map, here a [gmap].  [Range] visits the entries in an
    order Go leaves open: [range] is any enumeration of the map.  The interface
    [Storer] is a class of operations with the laws its clients use. *)

From S2P Require Import Prelude.
Local Open Scope Z_scope.

(** ** The interface *)

(** [AnyCreated]: the creation time of a value.  For pointers it depends on the
    heap, so it is an argument of the operations that need it. *)
Class Storer (T S : Type) := {
  st_new : S;
  st_add : string → T → S → S;
  st_get : string → S → option T;
  st_delete : string → S → S;
  st_list : (T → Z) → S → list T;
  st_size : S → nat;
  st_first : (T → bool) → S → option T;
}.

(** What a client may rely on: the store is a finite map [st_model] seen through
    its operations. *)
Class StorerLaws (T S : Type) `{Storer T S} := {
  st_model : S → gmap string T;
  model_new : st_model st_new = ∅;
  model_add k v s : st_model (st_add k v s) = <[k := v]> (st_model s);
  model_delete k s : st_model (st_delete k s) = delete k (st_model s);
  st_get_model k s : st_get k s = st_model s !! k;
  st_list_model created s : st_list created s ≡ₚ (map_to_list (st_model s)).*2;
  st_list_sorted created s : StronglySorted (λ x y, created y ≤ created x) (st_list created s);
  st_size_model s : st_size s = size (st_model s);
  st_first_some f s v : st_first f s = Some v → f v = true ∧ ∃ k, st_model s !! k = Some v;
  st_first_none f s k v : st_first f s = None → st_model s !! k = Some v → f v = false;
}.

Section memory_store.
Context {T : Type}.

(** The order in which [sync.Map.Range] visits the entries. *)
Variable range : gmap string T → list (string * T).

Definition memoryStore := gmap string T.

Definition New : memoryStore := ∅.

(** "It overrides the id if it existed before." *)
Definition Add (id : string) (value : T) (c : memoryStore) : memoryStore := <[id := value]> c.

(** [nil] for an unknown id. *)
Definition Get (id : string) (c : memoryStore) : option T := c !! id.

Definition Delete (id : string) (c : memoryStore) : memoryStore := delete id c.

Definition all (c : memoryStore) : list T := (range c).*2.

(** [Less(i, j)]: the value at [j] was created before the one at [i]. *)
Definition Less (created : T → Z) (x y : T) : bool := created y <? created x.

(** What [sort.Sort] may leave in order: not [Less(j, i)]. *)
Definition sorted_before (created : T → Z) (x y : T) : Prop := Less created y x = false.

#[local] Instance sorted_before_dec created : RelDecision (sorted_before created).
Proof. intros x y. unfold sorted_before. apply _. Defined.

(** [sort.Sort(history)]: newest first.  The order of two values created at the
    same time is not specified; no theorem depends on it. *)
Definition sort (created : T → Z) (values : list T) : list T :=
  merge_sort (sorted_before created) values.

Definition List (created : T → Z) (c : memoryStore) : list T := sort created (all c).

Definition Size (c : memoryStore) : nat := foldr (λ _ l, S l) O (range c).

Definition First (filter : T → bool) (c : memoryStore) : option T :=
  list_find (λ v, filter v = true) (all c) ≫= λ '(_, v), Some v.

(** [ApplyAll]: the reducer once per value, here the trace of its calls. *)
Definition ApplyAll {W : Type} (apply : T → W → W) (c : memoryStore) (w : W) : W :=
  foldr apply w (all c).

Lemma sorted_before_le created x y : sorted_before created x y ↔ created y ≤ created x.
Proof. unfold sorted_before, Less. rewrite Z.ltb_ge. lia. Qed.

#[local] Instance sorted_before_total created : Total (sorted_before created).
Proof. intros x y. rewrite !sorted_before_le. lia. Qed.
#[local] Instance sorted_before_trans created : Transitive (sorted_before created).
Proof. intros x y z. rewrite !sorted_before_le. lia. Qed.

Hypothesis range_perm : ∀ c, range c ≡ₚ map_to_list c.

Lemma elem_of_all v c : v ∈ all c ↔ ∃ k, c !! k = Some v.
Proof.
  unfold all. rewrite range_perm, list_elem_of_fmap. split.
  - intros ([k x] & -> & Hk%elem_of_map_to_list). eauto.
  - intros [k Hk]. exists (k, v). by rewrite elem_of_map_to_list.
Qed.

Lemma Size_all c : Size c = length (all c).
Proof.
  unfold Size, all. rewrite length_fmap. by induction (range c); simpl; [|f_equal].
Qed.

Lemma First_spec f c :
  match First f c with
  | Some v => f v = true ∧ v ∈ all c
  | None => ∀ v, v ∈ all c → f v = false
  end.
Proof.
  unfold First. destruct (list_find _ _) as [[i v]|] eqn:E; simpl.
  - apply list_find_Some in E as (Hl & Hv & _). split; [done|]. by eapply list_elem_of_lookup_2.
  - intros v Hv. apply list_find_None in E. rewrite Forall_forall in E.
    apply not_true_iff_false. by apply E.
Qed.

Lemma List_perm created c : List created c ≡ₚ (map_to_list c).*2.
Proof.
  unfold List, sort, all. by rewrite merge_sort_Permutation, range_perm.
Qed.

Lemma List_sorted_newest created c :
  StronglySorted (λ x y, created y ≤ created x) (List created c).
Proof.
  rewrite <- (list_fmap_id (List created c)).
  eapply (StronglySorted_fmap id);
    [|apply (StronglySorted_merge_sort (sorted_before created)); apply _].
  intros x y. by rewrite sorted_before_le.
Qed.

Lemma Size_map c : Size c = size c.
Proof. by rewrite Size_all; unfold all; rewrite range_perm, length_fmap, length_map_to_list. Qed.

(** C32: [List] returns each stored value exactly once, newest first, and as many
    of them as [Size] says. *)
Theorem List_newest_first created c :
  List created c ≡ₚ (map_to_list c).*2 ∧
  StronglySorted (λ x y, created y ≤ created x) (List created c) ∧
  length (List created c) = Size c.
Proof.
  split_and!; [apply List_perm|apply List_sorted_newest|].
  rewrite Size_map, (Permutation_length (List_perm created c)), length_fmap. apply length_map_to_list.
Qed.

#[export] Instance memoryStore_storer : Storer T memoryStore := {
  st_new := New; st_add := Add; st_get := Get; st_delete := Delete;
  st_list := List; st_size := Size; st_first := First;
}.

#[export] Instance memoryStore_laws : StorerLaws T memoryStore.
Proof.
  apply (Build_StorerLaws T memoryStore memoryStore_storer (λ s, s)); simpl; try done.
  - apply List_perm.
  - apply List_sorted_newest.
  - apply Size_map.
  - intros f s v Hf. pose proof (First_spec f s) as H. rewrite Hf, elem_of_all in H. done.
  - intros f s k v Hf Hk. pose proof (First_spec f s) as H. rewrite Hf in H.
    apply H, elem_of_all. eauto.
Defined.
End memory_store.

(** ** Witness *)

Lemma List_newest_first_witness :
  List map_to_list (λ z, z) ({["a" := 1; "b" := 3; "c" := 2]} : gmap string Z) = [3; 2; 1] ∧
  StronglySorted (λ x y, y ≤ x)
    (List map_to_list (λ z, z) ({["a" := 1; "b" := 3; "c" := 2]} : gmap string Z)).
Proof.
  split; [vm_compute; reflexivity|].
  apply (List_newest_first map_to_list (λ c, reflexivity (map_to_list c)) (λ z, z)).
Defined.
