(* ===== verification/Cpuset.v ===== *)
(** * Cpuset: CPU lists (vendor/k8s.io/utils/cpuset)

    A [CPUSet] is a set of CPU numbers; [Parse] and [String] convert from and to
    the kernel's list format.  The CPU sets of CRI-O's configuration, of
    containers and of the hooks all go through them. *)

From S2P Require Import Prelude GoStrings.
From Stdlib Require Import Ascii.
Local Open Scope Z_scope.

Definition CPUSet := gset Z.

Definition Union (s s2 : CPUSet) : CPUSet := s ∪ s2.
Definition Intersection (s s2 : CPUSet) : CPUSet := filter (λ c, c ∈ s2) s.
Definition Difference (s s2 : CPUSet) : CPUSet := filter (λ c, c ∉ s2) s.
Definition IsSubsetOf (s s2 : CPUSet) : bool := bool_decide (set_Forall (λ c, c ∈ s2) s).

(** The sorted elements. *)
Definition List (s : CPUSet) : list Z := merge_sort Z.le (elements s).

(** ** Printing *)

(** The maximal ranges of a sorted list, [lo] to [hi] being the current one. *)
Fixpoint ranges (lo hi : Z) (elems : list Z) : list (Z * Z) :=
  match elems with
  | [] => [(lo, hi)]
  | e :: elems =>
      if bool_decide (e = hi + 1) then ranges lo e elems
      else (lo, hi) :: ranges e e elems
  end.

Definition print_range (r : Z * Z) : string :=
  if bool_decide (r.1 = r.2) then Itoa r.1 else Itoa r.1 +:+ "-" +:+ Itoa r.2.

Definition String_ (s : CPUSet) : string :=
  match List s with
  | [] => ""
  | e :: elems => Join (print_range <$> ranges e e elems) ","
  end.

(** ** Parsing *)

(** One comma-separated part; [start..end] is added element by element. *)
Definition parse_range (r : string) : outcome CPUSet :=
  match Cut r "-" with
  | None => e ← Atoi r; Ret {[ e ]}
  | Some (b0, b1) =>
      start ← Atoi b0;
      end_ ← Atoi b1;
      if end_ <? start then Fail (ErrorsNew "invalid range")
      else Ret (list_to_set (seqZ start (end_ - start + 1)))
  end.

Fixpoint parse_ranges (result : CPUSet) (rs : list string) : outcome CPUSet :=
  match rs with
  | [] => Ret result
  | r :: rs => s ← parse_range r; parse_ranges (result ∪ s) rs
  end.

Definition Parse (s : string) : outcome CPUSet :=
  if bool_decide (s = "") then Ret ∅ else parse_ranges ∅ (Split s ",").

(** ** Lemmas *)

Lemma elem_of_List s c : c ∈ List s ↔ c ∈ s.
Proof. unfold List. rewrite merge_sort_Permutation. apply elem_of_elements. Qed.

Lemma List_sorted s : StronglySorted Z.le (List s).
Proof. apply StronglySorted_merge_sort; apply _. Qed.

Lemma List_NoDup s : NoDup (List s).
Proof. unfold List. rewrite merge_sort_Permutation. apply NoDup_elements. Qed.

Lemma List_Permutation s : List s ≡ₚ elements s.
Proof. apply merge_sort_Permutation. Qed.

(** The CPUs a list of ranges covers. *)
Definition covered (rs : list (Z * Z)) (c : Z) : Prop := ∃ lo hi, (lo, hi) ∈ rs ∧ lo ≤ c ≤ hi.

Lemma covered_cons lo hi rs c : covered ((lo, hi) :: rs) c ↔ lo ≤ c ≤ hi ∨ covered rs c.
Proof.
  unfold covered. split.
  - intros (lo' & hi' & [[= -> ->]|?]%elem_of_cons & ?); eauto 6.
  - intros [?|(lo' & hi' & ? & ?)]; [exists lo, hi|exists lo', hi']; rewrite elem_of_cons; auto.
Qed.

(** The ranges cover what was collected and the elements to come. *)
Lemma ranges_covered lo hi elems c :
  lo ≤ hi → covered (ranges lo hi elems) c ↔ lo ≤ c ≤ hi ∨ c ∈ elems.
Proof.
  revert lo hi. induction elems as [|e elems IH]; intros lo hi Hle; simpl.
  - rewrite covered_cons. split; [|set_solver].
    intros [?|(? & ? & ?%elem_of_nil & _)]; [by left|done].
  - rewrite elem_of_cons. case_bool_decide.
    + rewrite IH by lia. destruct (decide (c ∈ elems)); [naive_solver|].
      split; intros [?|?]; try done; [destruct (decide (c = e)); [auto|left; lia]| |];
        left; [lia|]. naive_solver lia.
    + rewrite covered_cons, IH by lia. destruct (decide (c ∈ elems)); [naive_solver|].
      naive_solver lia.
Qed.

Lemma ranges_bounds (P : Z → Prop) lo hi elems :
  P lo → P hi → Forall P elems → Forall (λ r, P r.1 ∧ P r.2) (ranges lo hi elems).
Proof.
  revert lo hi. induction elems as [|e elems IH]; intros lo hi Hlo Hhi Hall; simpl.
  - by constructor.
  - inv Hall. case_bool_decide; [by apply IH|]. constructor; [done|]. by apply IH.
Qed.

Lemma ranges_le lo hi elems : lo ≤ hi → Forall (λ r, r.1 ≤ r.2) (ranges lo hi elems).
Proof.
  revert lo hi. induction elems as [|e elems IH]; intros lo hi Hle; simpl; [by constructor|].
  case_bool_decide; [apply IH; lia|]. constructor; [done|]. apply IH. lia.
Qed.

Definition valid_cpu (c : Z) : Prop := 0 ≤ c < 2 ^ 63.

Lemma parse_print_range lo hi :
  valid_cpu lo → valid_cpu hi → lo ≤ hi →
  ∃ s, parse_range (print_range (lo, hi)) = Ret s ∧ ∀ c, c ∈ s ↔ lo ≤ c ≤ hi.
Proof.
  unfold valid_cpu, parse_range, print_range. simpl. intros Hlo Hhi Hle. case_bool_decide.
  - subst. assert (Cut (Itoa hi) "-" = None) as ->.
    { apply Cut_none, Itoa_not_char; [lia|done]. }
    rewrite Atoi_Itoa by lia. simpl. exists {[ hi ]}. split; [done|]. set_solver by lia.
  - rewrite append_cons, append_nil_l, Cut_app by (apply Itoa_not_char; [lia|done]).
    rewrite !Atoi_Itoa by lia. simpl. rewrite (proj2 (Z.ltb_ge _ _)) by lia.
    eexists. split; [done|]. intros c. rewrite elem_of_list_to_set, elem_of_seqZ. lia.
Qed.

Lemma parse_print_ranges rs acc :
  Forall (λ r, (valid_cpu r.1 ∧ valid_cpu r.2) ∧ r.1 ≤ r.2) rs →
  ∃ s, parse_ranges acc (print_range <$> rs) = Ret s ∧ ∀ c, c ∈ s ↔ c ∈ acc ∨ covered rs c.
Proof.
  intros Hall. revert acc. induction Hall as [|[lo hi] rs [[Hlo Hhi] Hle] Hall IH]; intros acc.
  - exists acc. split; [done|]. intros c. split; [by left|].
    intros [?|(? & ? & ?%elem_of_nil & _)]; done.
  - destruct (parse_print_range lo hi Hlo Hhi Hle) as (s1 & Hs1 & Hc1).
    destruct (IH (acc ∪ s1)) as (s & Hs & Hc). exists s. simpl. rewrite Hs1. simpl.
    split; [done|]. intros c. rewrite Hc, elem_of_union, Hc1, covered_cons. tauto.
Qed.

Lemma print_range_no_comma r : 0 ≤ r.1 → 0 ≤ r.2 → contains_char "," (print_range r) = false.
Proof.
  intros. unfold print_range. case_bool_decide; [by apply Itoa_not_char|].
  rewrite !contains_char_app, !Itoa_not_char by done. done.
Qed.

(** Every CPU of a parsed list is a natural number. *)
Lemma parse_range_nonneg r s c : parse_range r = Ret s → c ∈ s → 0 ≤ c.
Proof.
  unfold parse_range. intros H Hc. destruct (Cut r "-") as [[b0 b1]|] eqn:HC.
  - apply Cut_some in HC as [-> Hb0]. destruct (Atoi b0) as [start| |] eqn:H0; simplify_eq/=.
    destruct (Atoi b1) as [end_| |]; simplify_eq/=. case_match; simplify_eq.
    rewrite elem_of_list_to_set, elem_of_seqZ in Hc. apply Atoi_nonneg in H0; [lia|done].
  - apply Cut_none_inv in HC. destruct (Atoi r) as [e| |] eqn:H0; simplify_eq/=.
    apply Atoi_nonneg in H0; [|done]. set_solver by lia.
Qed.

Lemma Parse_nonneg str s c : Parse str = Ret s → c ∈ s → 0 ≤ c.
Proof.
  unfold Parse. case_bool_decide; [intros [= <-]; set_solver|].
  assert (∀ rs acc, set_Forall (λ c, 0 ≤ c) acc → parse_ranges acc rs = Ret s → c ∈ s → 0 ≤ c)
    as Hgo; [|by apply Hgo].
  induction rs as [|r rs IH]; intros acc Hacc; simpl; [intros [= <-]; apply Hacc|].
  destruct (parse_range r) as [s1| |] eqn:H1; simpl; [|done|done]. apply IH.
  intros x [?|?]%elem_of_union; [by apply Hacc|]. by eapply parse_range_nonneg.
Qed.

Lemma Parse_String_ s : set_Forall valid_cpu s → Parse (String_ s) = Ret s.
Proof.
  intros Hval. unfold String_. destruct (List s) as [|e elems] eqn:HL.
  - assert (s = ∅) as ->; [|done]. apply set_eq. intros c.
    rewrite <- (elem_of_List s), HL. set_solver.
  - assert (Forall valid_cpu (e :: elems)) as Hall.
    { rewrite <- HL. apply Forall_forall. intros c ?%elem_of_List. by apply Hval. }
    inv Hall as [|? ? He Helems].
    pose proof (ranges_bounds valid_cpu e e elems He He Helems) as Hb.
    pose proof (ranges_le e e elems ltac:(lia)) as Hle.
    assert (ranges e e elems ≠ []) as Hne.
    { clear. generalize e at 2. induction elems as [|e' elems IH]; intros hi; simpl; [done|].
      by case_bool_decide; [apply IH|]. }
    assert (Forall (λ w, contains_char "," w = false) (print_range <$> ranges e e elems)) as Hnc.
    { apply Forall_fmap. eapply Forall_impl; [exact Hb|]. unfold valid_cpu. simpl.
      intros r [? ?]. apply print_range_no_comma; lia. }
    unfold Parse. rewrite bool_decide_eq_false_2.
    2:{ intros E. assert (Split (Join (print_range <$> ranges e e elems) ",") "," = [""]) as H
          by (by rewrite E). rewrite Split_Join in H; [|by destruct (ranges e e elems)|done].
        destruct (ranges e e elems) as [|r rs]; [done|]. simplify_eq/=.
        inv Hb as [|? ? [Hr1 Hr2] _]. unfold print_range in *.
        case_bool_decide.
        - rewrite Itoa_nonneg in * by (unfold valid_cpu in *; lia). by eapply pretty_N_nonempty.
        - match goal with H : _ +:+ _ = "" |- _ => apply (f_equal String.length) in H;
            rewrite !length_append in H; simpl in H; lia end. }
    rewrite Split_Join; [|by destruct (ranges e e elems)|done].
    destruct (parse_print_ranges (ranges e e elems) ∅) as (s' & -> & Hc).
    { apply Forall_and. split; [done|exact Hle]. }
    f_equal. apply set_eq. intros c. rewrite Hc, ranges_covered by lia.
    rewrite <- (elem_of_List s), HL, elem_of_cons. set_solver by lia.
Qed.

(** Printing a CPU set and parsing it again gives the same set. *)
Theorem Parse_String s : set_Forall valid_cpu s → Parse (String_ s) = Ret s.
Proof. apply Parse_String_. Qed.

Lemma Parse_String_witness : Parse (String_ {[0; 2; 3; 4; 9]}) = Ret {[0; 2; 3; 4; 9]}.
Proof.
  apply (Parse_String {[0; 2; 3; 4; 9]}). unfold valid_cpu. intros c Hc. set_solver by lia.
Defined.

Example String_ex : String_ {[9; 3; 2; 4; 0]} = "0,2-4,9".
Proof. vm_compute. reflexivity. Qed.
