(* ===== verification/IrqMask.v ===== *)
(** * IrqMask: the IRQ affinity mask (internal/runtimehandlerhooks/utils_linux.go)

    /proc/irq/default_smp_affinity is a hexadecimal bit mask in comma-separated
    groups of eight digits, most significant first.
    [UpdateIRQSmpAffinityMask] sets or clears the bits of a container's CPUs and
    also returns the complement, which irqbalance wants as its banned CPUs. *)

From S2P Require Import Prelude GoStrings Cpuset.
From Stdlib Require Import Ascii.
Local Open Scope Z_scope.

(** ** Bytes and hexadecimal *)

Definition isASCII (s : string) : bool := str_forallb (λ c, (nat_of_ascii c <=? 127)%nat) s.

(** [byte(1 << c)] *)
Definition cpuMaskByte (c : Z) : Z := u8 (Z.shiftl 1 c).

(** [encoding/hex] *)
Definition hex_value (c : ascii) : option Z :=
  let n := Z.of_nat (nat_of_ascii c) in
  if (48 <=? n) && (n <=? 57) then Some (n - 48)
  else if (97 <=? n) && (n <=? 102) then Some (n - 87)
  else if (65 <=? n) && (n <=? 70) then Some (n - 55)
  else None.
Definition hex_char (d : Z) : ascii :=
  ascii_of_nat (Z.to_nat (if d <? 10 then d + 48 else d + 87)).

Fixpoint DecodeString (s : string) : outcome (list Z) :=
  match s with
  | EmptyString => Ret []
  | String _ EmptyString => Fail (ErrorsNew "encoding/hex: odd length hex string")
  | String a (String b s) =>
      match hex_value a, hex_value b with
      | Some hi, Some lo => l ← DecodeString s; Ret (16 * hi + lo :: l)
      | _, _ => Fail (ErrorsNew "encoding/hex: invalid byte")
      end
  end.

Definition EncodeToString (b : list Z) : string :=
  foldr (λ x s, String (hex_char (x `div` 16)) (String (hex_char (x `mod` 16)) s)) "" b.

(** Index 0 is the least significant byte. *)
Definition mapHexCharToByte (h : string) : outcome (list Z) :=
  let hexin := if Nat.odd (String.length h) then "0" +:+ h else h in
  breversed ← DecodeString hexin;
  Ret (reverse breversed).

(** Aligned to four bytes with zeros. *)
Definition align4 (b : list Z) : list Z :=
  let l := length b in
  if bool_decide (l mod 4 = 0)%nat then b else b ++ replicate (4 - l mod 4) 0.
Definition mapByteToHexChar (b : list Z) : string := EncodeToString (reverse (align4 b)).

Definition invertByteArray (b : list Z) : list Z := (λ x, u8 (255 - x)) <$> b.

Definition isAllBitSet (b : list Z) : bool := forallb (λ x, Z.land x (u8 (x + 1)) =? 0) b.

(** ** The update *)

(** The loop over the CPUs; both arrays are indexed by [cpu/8]. *)
Fixpoint update_masks (set_ : bool) (cpus : list Z) (m inv_ : list Z) :
    outcome (list Z * list Z) :=
  match cpus with
  | [] => Ret (m, inv_)
  | cpu :: cpus =>
      let i := Z.to_nat (cpu `div` 8) in
      let bit := cpuMaskByte (cpu `mod` 8) in
      match m !! i, inv_ !! i with
      | Some b, Some b' =>
          if set_ then update_masks set_ cpus (<[i := Z.lor b bit]> m) (<[i := Z.ldiff b' bit]> inv_)
          else update_masks set_ cpus (<[i := Z.ldiff b bit]> m) (<[i := Z.lor b' bit]> inv_)
      | _, _ => Panic "index out of range"
      end
  end.

(** The loop that appends ",XXXXXXXX" for each further group of eight. *)
Fixpoint comma_groups (s : string) : string :=
  match s with
  | String a (String b (String c (String d (String e (String f (String g (String h r))))))) =>
      String "," (String a (String b (String c (String d (String e (String f (String g (String h
        (comma_groups r)))))))))
  | _ => ""
  end.

(** [s[0:8]] panics on a shorter string. *)
Definition with_commas (s : string) : outcome string :=
  if (String.length s <? 8)%nat then Panic "slice bounds out of range"
  else Ret (str_take 8 s +:+ comma_groups (str_drop 8 s)).

Definition UpdateIRQSmpAffinityMask (cpus current : string) (set_ : bool) :
    outcome (string * string) :=
  podcpuset ← Parse cpus;
  if negb (isASCII current) then Fail (ErrorsNew "non ascii character detected")
  else
    let s := replace_char current "," "" in
    currentMaskArray ← mapHexCharToByte s;
    let invertedMaskArray := invertByteArray currentMaskArray in
    '(m, i) ← update_masks set_ (List podcpuset) currentMaskArray invertedMaskArray;
    mask ← with_commas (mapByteToHexChar m);
    inverted ← with_commas (mapByteToHexChar i);
    Ret (mask, inverted).

(** ** irqbalance's configuration file *)

Definition irqBalanceBannedCpus : string := "IRQBALANCE_BANNED_CPUS".
Definition quote : string := String "034" "".
Definition setting_line (v : string) : string :=
  irqBalanceBannedCpus +:+ "=" +:+ quote +:+ v +:+ quote.

(** [updateIrqBalanceConfigFile]: the text written back. *)
Definition updateIrqBalanceConfig (input newSetting : string) : string :=
  let lines := Split input "010" in
  let is_setting l := HasPrefix l (irqBalanceBannedCpus +:+ "=") in
  let found := existsb is_setting lines in
  let lines := (λ l, if is_setting l then setting_line newSetting else l) <$> lines in
  let output := Join lines (String "010" "") in
  if found then output
  else output +:+ String "010" (setting_line newSetting) +:+ String "010" "".

(** [strings.Trim] of double quotes *)
Fixpoint drop_quotes (s : string) : string :=
  match s with
  | String "034" s' => drop_quotes s'
  | _ => s
  end.
Definition trim_quotes (s : string) : string :=
  str_rev (drop_quotes (str_rev (drop_quotes s))).

(** [retrieveIrqBannedCPUMasks] on the file's text. *)
Fixpoint retrieve_lines (lines : list string) : string :=
  match lines with
  | [] => ""
  | l :: lines =>
      if HasPrefix l (irqBalanceBannedCpus +:+ "=") then
        trim_quotes (default "" (Split l "=" !! 1%nat))
      else retrieve_lines lines
  end.
Definition retrieveIrqBannedCPUMasks (input : string) : string :=
  retrieve_lines (Split input "010").

(** ** Lemmas: bytes *)

Definition byte (b : Z) : Prop := 0 ≤ b < 256.

Lemma byte_land b : byte b ↔ Z.land b 255 = b.
Proof.
  change 255 with (Z.ones 8). rewrite Z.land_ones by lia. unfold byte. split.
  - intros. by apply Z.mod_small.
  - intros <-. apply Z.mod_pos_bound. lia.
Qed.

Lemma byte_lor a b : byte a → byte b → byte (Z.lor a b).
Proof. rewrite !byte_land. intros Ha Hb. by rewrite Z.land_lor_distr_l, Ha, Hb. Qed.

Lemma byte_ldiff a b : byte a → byte (Z.ldiff a b).
Proof.
  rewrite !byte_land, Z.ldiff_land. intros Ha.
  by rewrite <- Z.land_assoc, (Z.land_comm (Z.lnot b)), Z.land_assoc, Ha.
Qed.

Lemma cpuMaskByte_pow c : 0 ≤ c < 8 → cpuMaskByte c = 2 ^ c.
Proof.
  intros. unfold cpuMaskByte. rewrite Z.shiftl_1_l. apply Z.mod_small.
  split; [by apply Z.pow_nonneg|]. apply Z.pow_lt_mono_r; lia.
Qed.

Lemma byte_mask c : 0 ≤ c < 8 → byte (cpuMaskByte c).
Proof.
  intros. rewrite cpuMaskByte_pow by done. split; [by apply Z.pow_nonneg|].
  change 256 with (2 ^ 8). apply Z.pow_lt_mono_r; lia.
Qed.

Lemma testbit_mask c n : 0 ≤ c < 8 → 0 ≤ n → Z.testbit (cpuMaskByte c) n = bool_decide (n = c).
Proof.
  intros. rewrite cpuMaskByte_pow, Z.pow2_bits_eqb by lia.
  case_bool_decide; [subst; apply Z.eqb_refl|]. apply Z.eqb_neq. lia.
Qed.

Lemma testbit_inverted b n : byte b → 0 ≤ n < 8 → Z.testbit (u8 (255 - b)) n = negb (Z.testbit b n).
Proof.
  intros Hb Hn. rewrite wrap_u_id by (unfold byte, in_u in *; lia).
  assert (Z.ldiff b 255 = 0) as Hd.
  { rewrite Z.ldiff_land. apply byte_land in Hb. rewrite <- Hb, <- Z.land_assoc.
    change (Z.land 255 (Z.lnot 255)) with 0. apply Z.land_0_r. }
  rewrite Z.sub_nocarry_ldiff by done. rewrite Z.ldiff_spec.
  change 255 with (Z.ones 8). rewrite Z.ones_spec_low by lia. done.
Qed.

(** ** Lemmas: hexadecimal *)

Lemma hex_value_char d : 0 ≤ d < 16 → hex_value (hex_char d) = Some d.
Proof.
  intros. assert (d = 0 ∨ d = 1 ∨ d = 2 ∨ d = 3 ∨ d = 4 ∨ d = 5 ∨ d = 6 ∨ d = 7 ∨ d = 8
    ∨ d = 9 ∨ d = 10 ∨ d = 11 ∨ d = 12 ∨ d = 13 ∨ d = 14 ∨ d = 15) as Hd by lia.
  repeat (destruct Hd as [->|Hd]; [reflexivity|]). by subst.
Qed.

Lemma hex_value_range c d : hex_value c = Some d → 0 ≤ d < 16.
Proof.
  unfold hex_value. intros H.
  repeat (case_match; simplify_eq);
    match goal with H : (_ <=? _) && (_ <=? _) = true |- _ =>
      apply andb_true_iff in H as [?%Z.leb_le ?%Z.leb_le] end; lia.
Qed.

Lemma Decode_Encode l : Forall byte l → DecodeString (EncodeToString l) = Ret l.
Proof.
  induction 1 as [|b l Hb Hl IH]; [done|]. unfold byte in Hb. simpl.
  rewrite !hex_value_char, IH.
  - simpl. do 2 f_equal. pose proof (Z.div_mod b 16). lia.
  - apply Z.mod_pos_bound. lia.
  - split; [apply Z.div_pos; lia|apply Z.div_lt_upper_bound; lia].
Qed.

Lemma Decode_bytes s l : DecodeString s = Ret l → Forall byte l.
Proof.
  revert l. assert (∀ n s l, (String.length s ≤ n)%nat → DecodeString s = Ret l → Forall byte l)
    as Hgo; [|intros l; by eapply Hgo].
  clear s. induction n as [|n IH]; intros [|a [|b s]] l Hn; simpl in *; try lia;
    try (by intros [= <-]); try done.
  destruct (hex_value a) as [hi|] eqn:Ha; [|done]. destruct (hex_value b) as [lo|] eqn:Hb; [|done].
  destruct (DecodeString s) as [l'| |] eqn:Hs; simpl; [|done|done]. intros [= <-].
  apply hex_value_range in Ha, Hb. constructor; [unfold byte; lia|]. eapply IH; [|done]. lia.
Qed.

Lemma length_Encode l : String.length (EncodeToString l) = (2 * length l)%nat.
Proof. induction l as [|b l IH]; [done|]. simpl in *. rewrite IH. lia. Qed.

Lemma align4_spec b :
  ∃ k, align4 b = b ++ replicate k 0 ∧ (length (align4 b) mod 4 = 0)%nat.
Proof.
  unfold align4. case_bool_decide as H.
  - exists O. by rewrite app_nil_r.
  - eexists. split; [done|]. rewrite length_app, length_replicate.
    pose proof (Nat.mod_upper_bound (length b) 4 ltac:(done)).
    pose proof (Nat.div_mod_eq (length b) 4) as Hd.
    replace (length b + (4 - length b mod 4))%nat with ((length b / 4 + 1) * 4)%nat by lia.
    apply Nat.Div0.mod_mul.
Qed.

(** Writing an array and reading it back appends zeros only. *)
Lemma map_roundtrip b :
  Forall byte b →
  ∃ k, mapHexCharToByte (mapByteToHexChar b) = Ret (b ++ replicate k 0) ∧
    (String.length (mapByteToHexChar b) mod 8 = 0)%nat ∧
    (b ≠ [] → (8 ≤ String.length (mapByteToHexChar b))%nat).
Proof.
  intros Hb. destruct (align4_spec b) as (k & Hk & H4). exists k.
  unfold mapHexCharToByte, mapByteToHexChar. rewrite length_Encode, length_reverse.
  replace (Nat.odd (2 * length (align4 b))) with false.
  2:{ symmetry. rewrite <- Nat.negb_even, Nat.even_mul. done. }
  rewrite Decode_Encode.
  2:{ apply Forall_reverse. rewrite Hk. apply Forall_app. split; [done|].
      apply Forall_replicate. unfold byte. lia. }
  assert (∃ q, length (align4 b) = 4 * q)%nat as [q Hq].
  { exists (length (align4 b) / 4)%nat. by apply Nat.Div0.div_exact. }
  cbn [mbind outcome_bind]. rewrite reverse_involutive, Hq, <- Hk. split_and!; [done| |].
  - replace (2 * (4 * q))%nat with (q * 8)%nat by lia. apply Nat.Div0.mod_mul.
  - intros Hne. rewrite Hk, length_app in Hq. destruct b as [|x b]; [done|]. simpl in Hq. lia.
Qed.

(** ** Lemmas: commas *)

Lemma replace_char_app s t c r :
  replace_char (s +:+ t) c r = replace_char s c r +:+ replace_char t c r.
Proof.
  induction s as [|d s IH]; [done|]. rewrite append_cons. simpl. rewrite IH.
  case_bool_decide; [by rewrite append_assoc|done].
Qed.

Lemma replace_char_absent s c r : contains_char c s = false → replace_char s c r = s.
Proof.
  induction s as [|d s IH]; simpl; [done|]. case_bool_decide; simpl; [done|].
  intros Hs. by rewrite IH.
Qed.

Lemma str_take_drop n s : str_take n s +:+ str_drop n s = s.
Proof. revert s. induction n as [|n IH]; intros [|c s]; try done. simpl. rewrite append_cons. by rewrite IH. Qed.

Lemma strip_groups s k :
  String.length s = (8 * k)%nat → contains_char "," s = false →
  replace_char (comma_groups s) "," "" = s.
Proof.
  revert s. induction k as [|k IH]; intros s Hlen Hc.
  { destruct s; [done|]. simpl in Hlen. lia. }
  do 8 (destruct s as [|? s]; [simpl in Hlen; lia|]). simpl in Hlen.
  cbn [comma_groups]. cbn [contains_char] in Hc. rewrite !orb_false_iff in Hc.
  destruct Hc as (?&?&?&?&?&?&?&?&Hc). cbn [replace_char].
  rewrite bool_decide_eq_true_2 by done. rewrite append_nil_l.
  repeat match goal with H : bool_decide _ = false |- _ => rewrite H; clear H end.
  rewrite IH; [done|lia|done].
Qed.

Lemma hex_char_no_comma d : 0 ≤ d < 16 → hex_char d ≠ ","%char.
Proof. intros Hd E. pose proof (hex_value_char d Hd) as H. by rewrite E in H. Qed.

Lemma Encode_no_comma l : Forall byte l → contains_char "," (EncodeToString l) = false.
Proof.
  induction 1 as [|b l Hb Hl IH]; [done|]. unfold byte in Hb. simpl in *.
  rewrite IH, !bool_decide_eq_false_2; [done| |]; apply hex_char_no_comma.
  - apply Z.mod_pos_bound. lia.
  - split; [apply Z.div_pos; lia|apply Z.div_lt_upper_bound; lia].
Qed.

Lemma with_commas_spec b :
  Forall byte b → b ≠ [] →
  ∃ s k, with_commas (mapByteToHexChar b) = Ret s ∧
    mapHexCharToByte (replace_char s "," "") = Ret (b ++ replicate k 0).
Proof.
  intros Hb Hne. destruct (map_roundtrip b Hb) as (k & Hk & H8 & Hlen).
  assert (contains_char "," (mapByteToHexChar b) = false) as Hc.
  { apply Encode_no_comma, Forall_reverse. destruct (align4_spec b) as (j & -> & _).
    apply Forall_app. split; [done|]. apply Forall_replicate. unfold byte. lia. }
  eexists _, k. unfold with_commas.
  rewrite (proj2 (Nat.ltb_ge _ _)) by auto. split; [done|].
  set (s := mapByteToHexChar b) in *.
  assert (∃ q, String.length s = 8 * q)%nat as [q Hq].
  { exists (String.length s / 8)%nat. by apply Nat.Div0.div_exact. }
  specialize (Hlen Hne).
  pose proof (str_take_drop 8 s) as Hs. rewrite <- Hs in Hc, Hq. rewrite contains_char_app in Hc.
  apply orb_false_iff in Hc as [Hc1 Hc2]. rewrite length_append in Hq.
  assert (String.length (str_take 8 s) = 8%nat) as Ht.
  { clear -Hlen. do 8 (destruct s as [|? s]; [simpl in Hlen; lia|]). done. }
  rewrite replace_char_app, replace_char_absent by done.
  rewrite (strip_groups _ (q - 1)); [by rewrite Hs|lia|done].
Qed.

(** ** Lemmas: bits *)

(** Bit [cpu] of a mask. *)
Definition mask_bit (m : list Z) (cpu : Z) : bool :=
  match m !! Z.to_nat (cpu `div` 8) with
  | Some b => Z.testbit b (cpu `mod` 8)
  | None => false
  end.

Lemma same_byte c d : 0 ≤ c → 0 ≤ d → Z.to_nat (c `div` 8) = Z.to_nat (d `div` 8) →
  c `mod` 8 = d `mod` 8 ↔ c = d.
Proof.
  intros Hc Hd Heq. apply Z2Nat.inj in Heq; [|by apply Z.div_pos; lia..].
  split; [|by intros ->]. intros Hm. pose proof (Z.div_mod c 8). pose proof (Z.div_mod d 8). lia.
Qed.

(** Replacing one byte with its bit set or cleared. *)
Lemma mask_bit_update (b : Z) (v : bool) m cpu c :
  0 ≤ cpu → 0 ≤ c → m !! Z.to_nat (cpu `div` 8) = Some b →
  mask_bit (<[Z.to_nat (cpu `div` 8) :=
      if v then Z.lor b (cpuMaskByte (cpu `mod` 8)) else Z.ldiff b (cpuMaskByte (cpu `mod` 8))]> m) c =
    if bool_decide (c = cpu) then v else mask_bit m c.
Proof.
  intros Hcpu Hc Hb. unfold mask_bit.
  pose proof (Z.mod_pos_bound cpu 8). pose proof (Z.mod_pos_bound c 8).
  destruct (decide (Z.to_nat (cpu `div` 8) = Z.to_nat (c `div` 8))) as [He|He].
  - rewrite <- He, Hb, list_lookup_insert_eq by (by eapply lookup_lt_Some).
    assert (c `mod` 8 = cpu `mod` 8 ↔ c = cpu) as Hsame by (by apply same_byte).
    destruct v; rewrite ?Z.lor_spec, ?Z.ldiff_spec, testbit_mask by lia.
    + destruct (decide (c = cpu)).
      * rewrite !bool_decide_eq_true_2 by tauto. apply orb_true_r.
      * rewrite !bool_decide_eq_false_2 by tauto. apply orb_false_r.
    + destruct (decide (c = cpu)).
      * rewrite !bool_decide_eq_true_2 by tauto. apply andb_false_r.
      * rewrite !bool_decide_eq_false_2 by tauto. apply andb_true_r.
  - rewrite list_lookup_insert_ne by done. rewrite bool_decide_eq_false_2; [done|]. by intros ->.
Qed.

Lemma Forall_byte_insert (v : bool) m cpu b :
  0 ≤ cpu → Forall byte m → m !! Z.to_nat (cpu `div` 8) = Some b →
  Forall byte (<[Z.to_nat (cpu `div` 8) :=
    if v then Z.lor b (cpuMaskByte (cpu `mod` 8)) else Z.ldiff b (cpuMaskByte (cpu `mod` 8))]> m).
Proof.
  intros Hcpu Hm Hb. apply Forall_insert; [done|].
  assert (byte b) by (by eapply Forall_lookup_1).
  destruct v; [apply byte_lor; [done|]; apply byte_mask, Z.mod_pos_bound; lia|by apply byte_ldiff].
Qed.

Lemma update_masks_spec set_ cpus m i :
  Forall (λ c, 0 ≤ c < 8 * Z.of_nat (length m)) cpus → length i = length m →
  Forall byte m → Forall byte i →
  ∃ m' i', update_masks set_ cpus m i = Ret (m', i') ∧
    length m' = length m ∧ length i' = length m ∧ Forall byte m' ∧ Forall byte i' ∧
    ∀ c, 0 ≤ c →
      mask_bit m' c = (if bool_decide (c ∈ cpus) then set_ else mask_bit m c) ∧
      mask_bit i' c = (if bool_decide (c ∈ cpus) then negb set_ else mask_bit i c).
Proof.
  intros Hall. revert m i Hall. induction cpus as [|cpu cpus IH]; intros m i Hall Hlen Hm Hi.
  - exists m, i. split_and!; try done. 
  - inv Hall as [|? ? Hcpu Hcpus]. simpl.
    assert (Z.to_nat (cpu `div` 8) < length m)%nat as Hlt.
    { assert (cpu `div` 8 < Z.of_nat (length m)) by (apply Z.div_lt_upper_bound; lia).
      assert (0 ≤ cpu `div` 8) by (apply Z.div_pos; lia). lia. }
    destruct (lookup_lt_is_Some_2 m _ Hlt) as [b Hb].
    destruct (lookup_lt_is_Some_2 i (Z.to_nat (cpu `div` 8))) as [b' Hb']; [lia|].
    rewrite Hb, Hb'.
    set (m1 := <[Z.to_nat (cpu `div` 8) := if set_ then Z.lor b (cpuMaskByte (cpu `mod` 8))
                 else Z.ldiff b (cpuMaskByte (cpu `mod` 8))]> m).
    set (i1 := <[Z.to_nat (cpu `div` 8) := if negb set_ then Z.lor b' (cpuMaskByte (cpu `mod` 8))
                 else Z.ldiff b' (cpuMaskByte (cpu `mod` 8))]> i).
    destruct (IH m1 i1) as (m' & i' & Hu & Hl1 & Hl2 & Hbm & Hbi & Hbits).
    { unfold m1. by rewrite length_insert. }
    { unfold m1, i1. by rewrite !length_insert. }
    { apply Forall_byte_insert; [lia|done|done]. }
    { apply Forall_byte_insert; [lia|done|done]. }
    exists m', i'. split; [destruct set_; exact Hu|].
    unfold m1 in Hl1, Hl2. rewrite length_insert in Hl1, Hl2.
    split_and!; try done. intros c Hc. destruct (Hbits c Hc) as [-> ->]. unfold m1, i1.
    rewrite !mask_bit_update by (done || lia).
    destruct (decide (c = cpu)) as [->|Hne].
    + rewrite (bool_decide_eq_true_2 (cpu = cpu)) by done.
      rewrite (bool_decide_eq_true_2 (cpu ∈ cpu :: cpus)) by (by left).
      by case_bool_decide.
    + rewrite (bool_decide_eq_false_2 (c = cpu)) by done.
      rewrite (bool_decide_ext (c ∈ cpu :: cpus) (c ∈ cpus)) by set_solver. done.
Qed.

Lemma mask_bit_inverted m c :
  Forall byte m → 0 ≤ c < 8 * Z.of_nat (length m) →
  mask_bit (invertByteArray m) c = negb (mask_bit m c).
Proof.
  intros Hm Hc. unfold mask_bit, invertByteArray. rewrite list_lookup_fmap.
  assert (Z.to_nat (c `div` 8) < length m)%nat as Hlt.
  { assert (c `div` 8 < Z.of_nat (length m)) by (apply Z.div_lt_upper_bound; lia).
    assert (0 ≤ c `div` 8) by (apply Z.div_pos; lia). lia. }
  destruct (lookup_lt_is_Some_2 m _ Hlt) as [b Hb]. rewrite Hb. simpl.
  apply testbit_inverted; [by eapply Forall_lookup_1|]. apply Z.mod_pos_bound. lia.
Qed.

Lemma mask_bit_padding m k c : mask_bit (m ++ replicate k 0) c = mask_bit m c.
Proof.
  unfold mask_bit. destruct (decide (Z.to_nat (c `div` 8) < length m)%nat).
  - by rewrite lookup_app_l.
  - rewrite lookup_app_r, (lookup_ge_None_2 m) by lia.
    destruct (replicate k 0 !! _) as [z|] eqn:E; [|done].
    apply lookup_replicate in E as [-> _]. apply Z.bits_0.
Qed.

(** ** Properties *)

(** The returned mask differs from the current one exactly on the given CPUs,
    whose bits have the requested value, and the banned mask is its complement on
    the CPUs the current mask has bits for and zero beyond. Both are read back
    with the parser that reads the kernel's file. *)
Theorem UpdateIRQSmpAffinityMask_bits cpus current set_ cs m :
  Parse cpus = Ret cs → isASCII current = true →
  mapHexCharToByte (replace_char current "," "") = Ret m → m ≠ [] →
  set_Forall (λ c, c < 8 * Z.of_nat (length m)) cs →
  ∃ mask banned m' b',
    UpdateIRQSmpAffinityMask cpus current set_ = Ret (mask, banned) ∧
    mapHexCharToByte (replace_char mask "," "") = Ret m' ∧
    mapHexCharToByte (replace_char banned "," "") = Ret b' ∧
    ∀ c, 0 ≤ c →
      mask_bit m' c = (if bool_decide (c ∈ cs) then set_ else mask_bit m c) ∧
      mask_bit b' c = bool_decide (c < 8 * Z.of_nat (length m)) && negb (mask_bit m' c).
Proof.
  intros Hp Ha Hm Hne Hcs. unfold UpdateIRQSmpAffinityMask. rewrite Hp. simpl. rewrite Ha, Hm. simpl.
  assert (Forall byte m) as Hbm.
  { unfold mapHexCharToByte in Hm. destruct (DecodeString _) eqn:Hd; simplify_eq/=.
    apply Forall_reverse. by eapply Decode_bytes. }
  assert (Forall byte (invertByteArray m)) as Hbi.
  { apply Forall_fmap. eapply Forall_impl; [exact Hbm|]. intros b _. apply wrap_u_range. lia. }
  assert (length (invertByteArray m) = length m) as Hli by apply length_fmap.
  destruct (update_masks_spec set_ (List cs) m (invertByteArray m)) as
    (m1 & i1 & Hu & Hl1 & Hl2 & Hb1 & Hb2 & Hbits); try done.
  { apply Forall_forall. intros c Hc%elem_of_List. split; [by eapply Parse_nonneg|by apply Hcs]. }
  rewrite Hu. simpl.
  destruct (with_commas_spec m1) as (mask & k1 & -> & Hk1); [done|by destruct m1, m|].
  destruct (with_commas_spec i1) as (banned & k2 & -> & Hk2); [done|by destruct i1, m|].
  simpl. eexists _, _, _, _. split_and!; [done|exact Hk1|exact Hk2|].
  intros c Hc. rewrite !mask_bit_padding. destruct (Hbits c Hc) as [-> ->].
  rewrite (bool_decide_ext (c ∈ List cs) (c ∈ cs)) by apply elem_of_List. split; [done|].
  destruct (decide (c < 8 * Z.of_nat (length m))) as [Hlt|Hge].
  - rewrite (bool_decide_eq_true_2 (c < _)) by done. simpl. rewrite mask_bit_inverted by done.
    by case_bool_decide.
  - rewrite (bool_decide_eq_false_2 (c < _)) by done. simpl.
    rewrite bool_decide_eq_false_2 by (intros ?%Hcs; done).
    unfold mask_bit. rewrite lookup_ge_None_2; [done|]. rewrite Hli.
    apply Nat2Z.inj_le. rewrite Z2Nat.id by (by apply Z.div_pos; lia).
    apply Z.div_le_lower_bound; lia.
Qed.

Lemma UpdateIRQSmpAffinityMask_bits_witness :
  ∃ mask banned m' b',
    UpdateIRQSmpAffinityMask "1,8-9" "ffff" false = Ret (mask, banned) ∧
    mapHexCharToByte (replace_char mask "," "") = Ret m' ∧
    mapHexCharToByte (replace_char banned "," "") = Ret b' ∧
    mask_bit m' 9 = false ∧ mask_bit m' 10 = true ∧ mask_bit b' 9 = true.
Proof.
  destruct (UpdateIRQSmpAffinityMask_bits "1,8-9" "ffff" false {[1; 8; 9]} [255; 255])
    as (mask & banned & m' & b' & H1 & H2 & H3 & H).
  - vm_compute. reflexivity.
  - reflexivity.
  - reflexivity.
  - done.
  - intros c Hc. simpl. set_solver by lia.
  - exists mask, banned, m', b'. split_and!; [exact H1|exact H2|exact H3|..].
    + by destruct (H 9 ltac:(lia)) as [-> _].
    + by destruct (H 10 ltac:(lia)) as [-> _].
    + destruct (H 9 ltac:(lia)) as [Hm ->]. by rewrite Hm.
Defined.

(** A finding: [isAllBitSet] also accepts bytes that are not 0xff, such as 0. *)
Theorem isAllBitSet_zero : isAllBitSet [0; 1; 3; 127] = true.
Proof. reflexivity. Qed.

(** A CPU beyond the mask makes the update panic rather than fail. *)
Theorem UpdateIRQSmpAffinityMask_out_of_range :
  UpdateIRQSmpAffinityMask "8" "ff" true = Panic "index out of range" ∧
  UpdateIRQSmpAffinityMask "" "" true = Panic "slice bounds out of range".
Proof. split; vm_compute; reflexivity. Qed.
