(* ===== verification/ConfigData.v ===== *)
(** * ConfigData: values of the configuration (pkg/config/sysctl.go,
    pkg/config/workloads.go, the annotation lists of pkg/annotations and
    pkg/config/config.go, internal/config/device/device_linux.go)

    Sysctls, the experimental annotations a pod may use, the resources a workload
    gives to its containers, and device specifications: their parsing, validation
    and effect. *)

From S2P Require Import Prelude GoStrings Cpuset.
From Stdlib Require Import Ascii.
Local Open Scope Z_scope.

(** ** Sysctls *)

Record Sysctl := mkSysctl { sysctl_key : string; sysctl_value : string }.

(** [strings.SplitN(s, "=", 2)] with two results is [Cut]. *)
Fixpoint Sysctls (defaultSysctls : list string) : outcome (list Sysctl) :=
  match defaultSysctls with
  | [] => Ret []
  | s :: rest =>
      if bool_decide (s = "") then Sysctls rest
      else match Cut s "=" with
           | None => Fail (ErrorsNew "is not in key=value format")
           | Some (k, v) =>
               if bool_decide (TrimSpace k +:+ "=" +:+ TrimSpace v = s)
               then l ← Sysctls rest; Ret (mkSysctl k v :: l)
               else Fail (ErrorsNew "is invalid, extra spaces found: format should be key=value")
           end
  end.

Inductive Namespace := IpcNamespace | NetNamespace.
#[export] Instance Namespace_eq_dec : EqDecision Namespace.
Proof. solve_decision. Defined.

Definition namespaces : gmap string Namespace := {["kernel.sem" := IpcNamespace]}.

Definition prefixNamespaces : list (string * Namespace) :=
  [("kernel.shm", IpcNamespace); ("kernel.msg", IpcNamespace); ("fs.mqueue.", IpcNamespace);
   ("net.", NetNamespace)].

Definition nsForbidden (ns : Namespace) (hostNet hostIPC : bool) : bool :=
  bool_decide (ns = IpcNamespace) && hostIPC || bool_decide (ns = NetNamespace) && hostNet.

(** The loop over a map of prefixes: [order] is the order of the visits. *)
Fixpoint validatePrefixes (order : list (string * Namespace)) (key : string) (hostNet hostIPC : bool) :
    option goerr :=
  match order with
  | [] => Some (ErrorsNew (key +:+ " not whitelisted"))
  | (p, ns) :: order =>
      if HasPrefix key p then
        if nsForbidden ns hostNet hostIPC then Some (ErrorsNew "not allowed with host namespace enabled")
        else None
      else validatePrefixes order key hostNet hostIPC
  end.

Definition Sysctl_Validate (order : list (string * Namespace)) (s : Sysctl) (hostNet hostIPC : bool) :
    option goerr :=
  match namespaces !! sysctl_key s with
  | Some ns =>
      if bool_decide (ns = IpcNamespace) && hostIPC
      then Some (ErrorsNew "not allowed with host namespace enabled") else None
  | None => validatePrefixes order (sysctl_key s) hostNet hostIPC
  end.

(** ** Experimental annotations *)

Definition AllAllowedAnnotations : list string :=
  ["io.kubernetes.cri-o.userns-mode"; "io.kubernetes.cri-o.cgroup2-mount-hierarchy-rw";
   "io.kubernetes.cri-o.UnifiedCgroup"; "io.kubernetes.cri-o.ShmSize"; "io.kubernetes.cri-o.Devices";
   "cpu-load-balancing.crio.io"; "cpu-quota.crio.io"; "irq-load-balancing.crio.io";
   "io.containers.trace-syscall"; "io.kubernetes.cri.rdt-class";
   "io.kubernetes.cri-o.TrySkipVolumeSELinuxLabel"; "cpu-c-states.crio.io"; "cpu-freq-governor.crio.io";
   "io.kubernetes.cri-o.seccompNotifierAction"; "io.kubernetes.cri-o.umask";
   "io.kubernetes.cri-o.PodLinuxOverhead"; "io.kubernetes.cri-o.PodLinuxResources";
   "io.kubernetes.cri-o.LinkLogs"; "cpu-shared.crio.io"; "seccomp-profile.kubernetes.cri-o.io";
   "io.kubernetes.cri-o.DisableFIPS"; "bundle"; "org.systemd.property."; "org.criu.config";
   "module.wasm.image/variant"; "io.kubernetes.cri.container-type"; "run.oci."].

Definition disallowedMap0 : gmap string bool :=
  foldl (λ m ann, <[ann := false]> m) ∅ AllAllowedAnnotations.

Fixpoint markAllowed (allowed : list string) (m : gmap string bool) : outcome (gmap string bool) :=
  match allowed with
  | [] => Ret m
  | ann :: rest =>
      match m !! ann with
      | None => Fail (ErrorsNew ("invalid allowed_annotation: " +:+ ann))
      | Some _ => markAllowed rest (<[ann := true]> m)
      end
  end.

(** The disallowed annotations, in the order of the map. *)
Definition validateAllowedAndGenerateDisallowedAnnotations (allowed : list string) :
    outcome (list string) :=
  m ← markAllowed allowed disallowedMap0;
  Ret ((filter (λ kv, kv.2 = false) (map_to_list m)).*1).

(** [delete(toFilter, ann)] for every annotation with a disallowed prefix. *)
Definition filterPrefixes (disallowed : list string) (toFilter : gmap string string) :
    gmap string string :=
  filter (λ kv, Forall (λ d, HasPrefix kv.1 d = false) disallowed) toFilter.

(** The map is filtered in place; on an error it is untouched. *)
Definition Workloads_FilterDisallowedAnnotations (allowed : list string) (toFilter : gmap string string) :
    outcome (gmap string string) :=
  disallowed ← validateAllowedAndGenerateDisallowedAnnotations allowed;
  Ret (filterPrefixes disallowed toFilter).

(** ** Workloads *)

Definition milliCPUToCPU : Z := 1000.
Definition defaultQuotaPeriod : Z := 100000.
Definition minQuotaPeriod : Z := 1000.

(** [uint64], [int64], [uint64] and [int64] fields. *)
Record WResources := mkWResources {
  CPUShares : Z; CPUQuota : Z; CPUPeriod : Z; CPUSetStr : string; CPULimit : Z }.
#[export] Instance WResources_eta : Eta WResources := λ r,
  mkWResources (CPUShares r) (CPUQuota r) (CPUPeriod r) (CPUSetStr r) (CPULimit r).

Record WorkloadConfig := mkWorkload {
  ActivationAnnotation : string;
  AnnotationPrefix : string;
  w_AllowedAnnotations : list string;
  w_DisallowedAnnotations : list string;
  w_Resources : option WResources }.
#[export] Instance WorkloadConfig_eta : Eta WorkloadConfig := λ w,
  mkWorkload (ActivationAnnotation w) (AnnotationPrefix w) (w_AllowedAnnotations w)
    (w_DisallowedAnnotations w) (w_Resources w).

Definition ValidateDefaults (r : option WResources) : option goerr :=
  match r with
  | None => None
  | Some r =>
      match Parse (CPUSetStr r) with
      | Fail e => Some (Errorf "unable to parse cpuset: " e)
      | Panic s => Some (ErrorsNew s)
      | Ret _ =>
          if negb (CPUQuota r =? 0) && (CPUQuota r <? i64 (CPUShares r)) then
            Some (ErrorsNew "cpuquota cannot be less than cpushares")
          else if negb (CPUPeriod r =? 0) && (CPUPeriod r <? minQuotaPeriod) then
            Some (ErrorsNew "cpuperiod cannot be less than 1000 microseconds")
          else None
      end
  end.

Definition WorkloadConfig_Validate : io WorkloadConfig () :=
  w ← gets id;
  if bool_decide (ActivationAnnotation w = "") then fail (ErrorsNew "annotation shouldn't be empty for workload")
  else
    disallowed ← lift (validateAllowedAndGenerateDisallowedAnnotations (w_AllowedAnnotations w));
    modify (λ w, w <| w_DisallowedAnnotations := disallowed |>) ;;
    lift (of_err (ValidateDefaults (w_Resources w))).

(** [Workloads.Validate] visits the workloads in the order [names]. *)
Fixpoint Workloads_Validate (names : list string) (ws : gmap string WorkloadConfig) :
    outcome () * gmap string WorkloadConfig :=
  match names with
  | [] => (Ret (), ws)
  | n :: names =>
      match ws !! n with
      | None => Workloads_Validate names ws
      | Some w =>
          match WorkloadConfig_Validate w with
          | (Ret _, w') => Workloads_Validate names (<[n := w']> ws)
          | (Fail e, w') => (Fail e, <[n := w']> ws)
          | (Panic s, w') => (Panic s, <[n := w']> ws)
          end
      end
  end.

(** The first workload, in the order of the map, whose activation annotation the
    sandbox has. *)
Definition workloadGivenActivationAnnotation (ws : gmap string WorkloadConfig)
    (sboxAnnotations : gmap string string) : option WorkloadConfig :=
  head (filter (λ w, is_Some (sboxAnnotations !! ActivationAnnotation w)) (map_to_list ws).*2).

Definition Workloads_AllowedAnnotations (ws : gmap string WorkloadConfig) (toFind : gmap string string) :
    list string :=
  match workloadGivenActivationAnnotation ws toFind with
  | None => []
  | Some w => w_AllowedAnnotations w
  end.

(** Quotas are [int64]: the product wraps around; Go's division truncates. *)
Definition milliCPUToQuota (milliCPU period : Z) : Z :=
  if milliCPU =? 0 then 0
  else
    let period := if period =? 0 then defaultQuotaPeriod else period in
    let quota := i64 (milliCPU * period) `quot` milliCPUToCPU in
    if quota <? minQuotaPeriod then minQuotaPeriod else quota.

(** [unmarshal] decodes the annotation's JSON; [null] gives a nil pointer.  The
    defaults are dereferenced when a field is absent. *)
Definition resourcesFromAnnotation (unmarshal : string → outcome (option WResources))
    (prefix ctrName : string) (allAnnotations : gmap string string) (defaults : option WResources) :
    outcome (option WResources) :=
  match allAnnotations !! (prefix +:+ "/" +:+ ctrName) with
  | None => Ret defaults
  | Some value =>
      o ← unmarshal value;
      match o with
      | None => Ret None
      | Some r =>
          let dflt {A} (absent : bool) (v : A) (f : WResources → A) : outcome A :=
            if absent then match defaults with
                           | Some d => Ret (f d)
                           | None => Panic "nil pointer dereference"
                           end
            else Ret v in
          set_ ← dflt (bool_decide (CPUSetStr r = "")) (CPUSetStr r) CPUSetStr;
          shares ← dflt (CPUShares r =? 0) (CPUShares r) CPUShares;
          quota ← dflt (CPUQuota r =? 0) (CPUQuota r) CPUQuota;
          period ← dflt (CPUPeriod r =? 0) (CPUPeriod r) CPUPeriod;
          limit ← dflt (CPULimit r =? 0) (CPULimit r) CPULimit;
          Ret (Some (mkWResources shares
                 (if limit =? 0 then quota else milliCPUToQuota limit (i64 period)) period set_ limit))
      end
  end.

(** The CPU section of the OCI spec a workload may change. *)
Record SpecCPU := mkSpecCPU {
  spec_cpus : string; spec_shares : option Z; spec_quota : option Z; spec_period : option Z }.
#[export] Instance SpecCPU_eta : Eta SpecCPU := λ c,
  mkSpecCPU (spec_cpus c) (spec_shares c) (spec_quota c) (spec_period c).

Definition MutateSpec (r : option WResources) (g : SpecCPU) : SpecCPU :=
  match r with
  | None => g
  | Some r =>
      let g := if bool_decide (CPUSetStr r = "") then g else g <| spec_cpus := CPUSetStr r |> in
      let g := if CPUShares r =? 0 then g else g <| spec_shares := Some (CPUShares r) |> in
      let g := if CPUQuota r =? 0 then g else g <| spec_quota := Some (CPUQuota r) |> in
      if CPUPeriod r =? 0 then g else g <| spec_period := Some (CPUPeriod r) |>
  end.

Definition MutateSpecGivenAnnotations (unmarshal : string → outcome (option WResources))
    (ws : gmap string WorkloadConfig) (ctrName : string) (g : SpecCPU)
    (sboxAnnotations : gmap string string) : outcome SpecCPU :=
  match workloadGivenActivationAnnotation ws sboxAnnotations with
  | None => Ret g
  | Some w =>
      r ← resourcesFromAnnotation unmarshal (AnnotationPrefix w) ctrName sboxAnnotations (w_Resources w);
      Ret (MutateSpec r g)
  end.

(** ** Devices *)

(** Each of r, w and m at most once, and at least one. *)
Fixpoint deviceModeFrom (legal : gmap ascii bool) (mode : string) : bool :=
  match mode with
  | EmptyString => true
  | String c mode => if default false (legal !! c) then deviceModeFrom (<[c := false]> legal) mode else false
  end.

Definition isValidDeviceMode (mode : string) : bool :=
  if bool_decide (mode = "") then false
  else deviceModeFrom {["r"%char := true; "w"%char := true; "m"%char := true]} mode.

(** The cases fall through: three parts, then two, then one. *)
Definition parseDevice_dst (arr1 permissions : string) : outcome (string * string) :=
  if isValidDeviceMode arr1 then Ret ("", arr1)
  else match arr1 with
       | String c _ => if Ascii.eqb c "/" then Ret (arr1, permissions)
                       else Fail (ErrorsNew ("invalid device mode: " +:+ arr1))
       | EmptyString => Ret ("", permissions)
       end.

Definition parseDevice (device : string) : outcome (string * string * string) :=
  let finish src dst permissions :=
    Ret (src, if bool_decide (dst = "") then src else dst, permissions) in
  match Split device ":" with
  | [src; dst; mode] =>
      if isValidDeviceMode mode then
        '(dst, permissions) ← parseDevice_dst dst mode; finish src dst permissions
      else Fail (ErrorsNew ("invalid device mode: " +:+ mode))
  | [src; dst] => '(dst, permissions) ← parseDevice_dst dst "rwm"; finish src dst permissions
  | [src] => finish src "" "rwm"
  | _ => Fail (ErrorsNew ("invalid device specification: " +:+ device))
  end.

(** What [devices.DeviceFromPath] reads of a device node. *)
Record DevNode := mkDevNode {
  dev_type : ascii; dev_major : Z; dev_minor : Z; dev_fileMode : Z; dev_uid : Z; dev_gid : Z }.

(** The runtime spec's device and its cgroup rule. *)
Record Device := mkDevice { dev_path : string; dev_node : DevNode; dev_access : string }.

Fixpoint devicesFromStrings (DeviceFromPath : string → string → outcome DevNode) (devs : list string)
    (allowedDevices : option (gset string)) : outcome (list Device) :=
  match devs with
  | [] => Ret []
  | d :: devs =>
      if bool_decide (d = "") then devicesFromStrings DeviceFromPath devs allowedDevices
      else
        '(src, dst, permissions) ← parseDevice d;
        if match allowedDevices with Some a => negb (bool_decide (src ∈ a)) | None => false end
        then Fail (ErrorsNew ("device " +:+ src +:+ " is specified but is not in allowed_devices"))
        else if negb (HasPrefix dst "/dev/") then Fail (ErrorsNew ("invalid device mode: " +:+ dst))
        else match DeviceFromPath src permissions with
             | Ret n =>
                 l ← devicesFromStrings DeviceFromPath devs allowedDevices;
                 Ret (mkDevice dst n permissions :: l)
             | Fail e => Fail (Errorf (src +:+ " is not a valid device: ") e)
             | Panic s => Panic s
             end
  end.

Definition DevicesFromAnnotation (DeviceFromPath : string → string → outcome DevNode)
    (annotation : string) (allowedDevices : list string) : outcome (list Device) :=
  devicesFromStrings DeviceFromPath (Split annotation ",") (Some (list_to_set allowedDevices)).

Definition LoadDevices (DeviceFromPath : string → string → outcome DevNode) (devs : list string) :
    outcome (list Device) := devicesFromStrings DeviceFromPath devs None.

(** ** Lemmas *)

(** Two prefixes of the same string are comparable. *)
Lemma HasPrefix_comparable k a d :
  HasPrefix k a = true → HasPrefix k d = true → HasPrefix a d = true ∨ HasPrefix d a = true.
Proof.
  unfold HasPrefix. revert k d. induction a as [|x a IH]; intros k d Ha Hd; [right; by destruct d|].
  destruct k as [|y k]; [done|]. destruct d as [|z d]; [left; done|]. simpl in *.
  destruct (Ascii.ascii_dec x y); [|done]. destruct (Ascii.ascii_dec z y); [|done]. subst.
  destruct (Ascii.ascii_dec y y); [|done]. by apply (IH k).
Qed.

Lemma HasPrefix_refl s : HasPrefix s s = true.
Proof. pose proof (HasPrefix_app s "") as H. by rewrite append_nil_r in H. Qed.

(** No string of the list is a proper prefix of another. *)
Definition prefix_free (l : list string) : Prop :=
  ∀ a d, a ∈ l → d ∈ l → HasPrefix a d = true → a = d.

Lemma prefix_free_Forall l :
  Forall (λ a, Forall (λ d, HasPrefix a d = true → a = d) l) l → prefix_free l.
Proof.
  intros Hl a d Ha Hd. rewrite Forall_forall in Hl. specialize (Hl a Ha).
  rewrite Forall_forall in Hl. by apply Hl.
Qed.

Lemma prefix_free_unique l k a d :
  prefix_free l → a ∈ l → d ∈ l → HasPrefix k a = true → HasPrefix k d = true → a = d.
Proof.
  intros Hl Ha Hd Hka Hkd. destruct (HasPrefix_comparable k a d Hka Hkd) as [H|H].
  - by apply Hl.
  - symmetry. by apply Hl.
Qed.

Lemma AllAllowed_prefix_free : prefix_free AllAllowedAnnotations.
Proof. apply prefix_free_Forall. refine (bool_decide_unpack _ _). vm_compute. exact I. Qed.

Lemma markAllowed_spec allowed m m' :
  markAllowed allowed m = Ret m' →
  Forall (λ a, is_Some (m !! a)) allowed ∧
  ∀ k, m' !! k = (if bool_decide (k ∈ allowed) then Some true else m !! k).
Proof.
  revert m. induction allowed as [|a allowed IH]; intros m Hm; simpl in Hm.
  { simplify_eq. split; [done|]. intros k. by rewrite bool_decide_false by apply not_elem_of_nil. }
  destruct (m !! a) as [b|] eqn:Ha; [|done]. destruct (IH _ Hm) as [Hall Hk]. split.
  - constructor; [by eexists|]. eapply Forall_impl; [exact Hall|]. simpl. intros x [y Hy].
    destruct (decide (a = x)) as [->|Hne]; [by eexists|]. rewrite lookup_insert_ne in Hy by done. by eexists.
  - intros k. rewrite Hk. destruct (decide (k ∈ allowed)) as [Hin|Hin].
    + rewrite !bool_decide_true; [done|by right|done].
    + rewrite (bool_decide_false (k ∈ allowed)) by done. destruct (decide (a = k)) as [->|Hne].
      * rewrite lookup_insert_eq, bool_decide_true by left. done.
      * rewrite lookup_insert_ne, bool_decide_false; [done|set_solver|done].
Qed.

Lemma disallowedMap0_lookup k :
  disallowedMap0 !! k = (if bool_decide (k ∈ AllAllowedAnnotations) then Some false else None).
Proof.
  unfold disallowedMap0.
  assert (∀ l (m : gmap string bool), foldl (λ m ann, <[ann := false]> m) m l !! k =
    if bool_decide (k ∈ l) then Some false else m !! k) as Hl.
  { induction l as [|a l IH]; intros m; simpl; [done|].
    rewrite IH. destruct (decide (k ∈ l)) as [Hin|Hin].
    - rewrite !bool_decide_true; [done|by right|done].
    - rewrite (bool_decide_false (k ∈ l)) by done. destruct (decide (a = k)) as [->|Hne].
      + rewrite lookup_insert_eq, bool_decide_true by left. done.
      + rewrite lookup_insert_ne, bool_decide_false; [done|set_solver|done]. }
  rewrite Hl. by case_bool_decide.
Qed.

(** The disallowed annotations are the listed ones that are not allowed. *)
Lemma disallowed_spec allowed disallowed :
  validateAllowedAndGenerateDisallowedAnnotations allowed = Ret disallowed →
  (∀ a, a ∈ allowed → a ∈ AllAllowedAnnotations) ∧
  ∀ d, d ∈ disallowed ↔ d ∈ AllAllowedAnnotations ∧ d ∉ allowed.
Proof.
  unfold validateAllowedAndGenerateDisallowedAnnotations, mbind, outcome_bind.
  destruct (markAllowed allowed disallowedMap0) as [m| |] eqn:Hm; [|done|done]. intros [= <-].
  apply markAllowed_spec in Hm as [Hall Hk]. split.
  - intros a Ha. rewrite Forall_forall in Hall. specialize (Hall a Ha) as [b Hb].
    rewrite disallowedMap0_lookup in Hb. by case_bool_decide.
  - intros d. rewrite list_elem_of_fmap. split.
    + intros ([k b] & -> & Hin). apply list_elem_of_filter in Hin as [Hb Hin]. simpl in *. subst b.
      apply elem_of_map_to_list in Hin. rewrite Hk, disallowedMap0_lookup in Hin.
      repeat case_bool_decide; by simplify_eq.
    + intros [Hd Hna]. exists (d, false). split; [done|]. apply list_elem_of_filter. split; [done|].
      apply elem_of_map_to_list. rewrite Hk, disallowedMap0_lookup.
      by rewrite bool_decide_false, bool_decide_true.
Qed.

(** Filtering the annotations of a pod removes exactly those that begin with an
    experimental annotation the handler and the workload do not allow; an
    annotation that begins with an allowed one always stays, with its value. *)
Theorem FilterDisallowedAnnotations_spec allowed m m' k :
  Workloads_FilterDisallowedAnnotations allowed m = Ret m' →
  (∀ d, d ∈ AllAllowedAnnotations → d ∉ allowed → HasPrefix k d = true → m' !! k = None) ∧
  ((∀ d, d ∈ AllAllowedAnnotations → HasPrefix k d = true → d ∈ allowed) → m' !! k = m !! k) ∧
  (∀ a, a ∈ allowed → HasPrefix k a = true → m' !! k = m !! k).
Proof.
  unfold Workloads_FilterDisallowedAnnotations, mbind, outcome_bind.
  destruct (validateAllowedAndGenerateDisallowedAnnotations allowed) as [dis| |] eqn:Hd; [|done|done].
  intros [= <-]. apply disallowed_spec in Hd as [Hin Hdis].
  assert ((∀ d, d ∈ AllAllowedAnnotations → HasPrefix k d = true → d ∈ allowed) →
    filterPrefixes dis m !! k = m !! k) as Hkeep.
  { intros Hk. unfold filterPrefixes. rewrite map_lookup_filter. destruct (m !! k) as [v|]; [|done]. simpl.
    rewrite option_guard_True; [done|]. apply Forall_forall. intros d Hdd. apply Hdis in Hdd as [? Hna].
    destruct (HasPrefix k d) eqn:Hp; [|done]. by destruct Hna; apply Hk. }
  split_and!; [|done|].
  - intros d HdA Hna Hp. unfold filterPrefixes. rewrite map_lookup_filter.
    destruct (m !! k) as [v|]; [|done]. simpl. rewrite option_guard_False; [done|].
    rewrite Forall_forall. intros Hall. specialize (Hall d). rewrite Hp in Hall. discriminate Hall. by apply Hdis.
  - intros a Ha Hp. apply Hkeep. intros d HdA Hpd.
    by rewrite (prefix_free_unique _ k d a AllAllowed_prefix_free HdA (Hin a Ha) Hpd Hp).
Qed.

Lemma FilterDisallowedAnnotations_spec_witness :
  ∃ m', Workloads_FilterDisallowedAnnotations ["io.kubernetes.cri-o.Devices"]
      {["io.kubernetes.cri-o.Devices" := "/dev/fuse"; "io.kubernetes.cri-o.ShmSize" := "1G"]} = Ret m' ∧
    m' !! "io.kubernetes.cri-o.Devices" = Some "/dev/fuse" ∧ m' !! "io.kubernetes.cri-o.ShmSize" = None.
Proof.
  eexists. split; [vm_compute; reflexivity|]. split.
  - refine (proj2 (proj2 (FilterDisallowedAnnotations_spec ["io.kubernetes.cri-o.Devices"]
      {["io.kubernetes.cri-o.Devices" := "/dev/fuse"; "io.kubernetes.cri-o.ShmSize" := "1G"]} _
      "io.kubernetes.cri-o.Devices" _)) "io.kubernetes.cri-o.Devices" _ _).
    + vm_compute. reflexivity.
    + apply list_elem_of_singleton. reflexivity.
    + reflexivity.
  - refine (proj1 (FilterDisallowedAnnotations_spec ["io.kubernetes.cri-o.Devices"]
      {["io.kubernetes.cri-o.Devices" := "/dev/fuse"; "io.kubernetes.cri-o.ShmSize" := "1G"]} _
      "io.kubernetes.cri-o.ShmSize" _) "io.kubernetes.cri-o.ShmSize" _ _ _).
    + vm_compute. reflexivity.
    + refine (bool_decide_unpack _ _). vm_compute. exact I.
    + refine (bool_decide_unpack _ _). vm_compute. exact I.
    + reflexivity.
Defined.

(** *** Sysctls *)

(** A sysctl may be set in a pod: it lives in a namespace, and in one the pod does
    not share with the host. *)
Definition sysctl_ns (key : string) : option Namespace :=
  match namespaces !! key with
  | Some ns => Some ns
  | None => snd <$> head (filter (λ pn, HasPrefix key pn.1 = true) prefixNamespaces)
  end.

Lemma prefixes_free : prefix_free (prefixNamespaces.*1).
Proof. apply prefix_free_Forall. refine (bool_decide_unpack _ _). vm_compute. exact I. Qed.

Lemma prefixes_NoDup : NoDup (prefixNamespaces.*1).
Proof. refine (bool_decide_unpack _ _). vm_compute. exact I. Qed.

(** At most one prefix applies, so the order of the visits does not matter. *)
Lemma validatePrefixes_spec order key hostNet hostIPC :
  order ≡ₚ prefixNamespaces →
  match filter (λ pn, HasPrefix key pn.1 = true) prefixNamespaces with
  | [] => validatePrefixes order key hostNet hostIPC = Some (ErrorsNew (key +:+ " not whitelisted"))
  | pn :: _ => validatePrefixes order key hostNet hostIPC =
      if nsForbidden pn.2 hostNet hostIPC then Some (ErrorsNew "not allowed with host namespace enabled")
      else None
  end.
Proof.
  intros Ho.
  assert (∀ l, validatePrefixes l key hostNet hostIPC =
    match filter (λ pn, HasPrefix key pn.1 = true) l with
    | [] => Some (ErrorsNew (key +:+ " not whitelisted"))
    | pn :: _ => if nsForbidden pn.2 hostNet hostIPC
                 then Some (ErrorsNew "not allowed with host namespace enabled") else None
    end) as Hv.
  { induction l as [|[p ns] l IH]; [done|]. simpl. rewrite filter_cons. simpl.
    destruct (HasPrefix key p); [by rewrite decide_True|by rewrite decide_False]. }
  rewrite Hv. assert (filter (λ pn, HasPrefix key pn.1 = true) order ≡ₚ
    filter (λ pn, HasPrefix key pn.1 = true) prefixNamespaces) as Hf by by rewrite Ho.
  destruct (filter _ prefixNamespaces) as [|[p ns] l] eqn:Hp.
  { symmetry in Hf. apply Permutation_nil_l in Hf. by rewrite <- Hf. }
  destruct l as [|[p2 ns2] l].
  { symmetry in Hf. apply Permutation_singleton_l in Hf. by rewrite <- Hf. }
  assert (∀ q, q ∈ (p, ns) :: (p2, ns2) :: l → q.1 ∈ prefixNamespaces.*1 ∧ HasPrefix key q.1 = true) as Hq.
  { intros q Hq. rewrite <- Hp in Hq. apply list_elem_of_filter in Hq as [? Hq]. split; [|done].
    by apply list_elem_of_fmap_2. }
  destruct (Hq (p, ns)) as [Hi1 Hk1]; [by left|]. destruct (Hq (p2, ns2)) as [Hi2 Hk2]; [by right; left|].
  pose proof (prefix_free_unique _ key p p2 prefixes_free Hi1 Hi2 Hk1 Hk2) as ->.
  assert (NoDup (filter (λ pn, HasPrefix key pn.1 = true) prefixNamespaces).*1) as Hnd.
  { eapply sublist_NoDup; [exact prefixes_NoDup|]. apply fmap_sublist, sublist_filter. }
  rewrite Hp in Hnd. simpl in Hnd. apply NoDup_cons in Hnd as [Hn _]. destruct Hn. left.
Qed.

Lemma Sysctl_Validate_spec s hostNet hostIPC order order' :
  order ≡ₚ prefixNamespaces → order' ≡ₚ prefixNamespaces →
  Sysctl_Validate order s hostNet hostIPC = Sysctl_Validate order' s hostNet hostIPC ∧
  (Sysctl_Validate order s hostNet hostIPC = None ↔
   ∃ ns, sysctl_ns (sysctl_key s) = Some ns ∧ nsForbidden ns hostNet hostIPC = false).
Proof.
  intros Ho Ho'. unfold Sysctl_Validate, sysctl_ns.
  destruct (namespaces !! sysctl_key s) as [ns|] eqn:Hn.
  { split; [done|]. unfold namespaces in Hn. apply lookup_singleton_Some in Hn as [_ <-].
    unfold nsForbidden. destruct hostIPC; simpl; [|by split; eauto].
    split; [done|]. by intros (? & [= <-] & ?). }
  pose proof (validatePrefixes_spec order (sysctl_key s) hostNet hostIPC Ho) as H1.
  pose proof (validatePrefixes_spec order' (sysctl_key s) hostNet hostIPC Ho') as H2.
  destruct (filter _ prefixNamespaces) as [|[p ns] l]; rewrite H1, H2; simpl; (split; [done|]).
  - split; [done|]. by intros (? & ? & _).
  - destruct (nsForbidden ns hostNet hostIPC) eqn:Hf; [|by split; eauto].
    split; [done|]. intros (ns' & [= <-] & Hf'). congruence.
Qed.

(** A default sysctl is accepted exactly when it lives in a namespace of its own
    that the pod does not share with the host, whatever the order in which Go visits
    the map of the prefixes: any two orders give the same answer. *)
Theorem Sysctl_Validate_order s hostNet hostIPC order order' :
  order ≡ₚ prefixNamespaces → order' ≡ₚ prefixNamespaces →
  Sysctl_Validate order s hostNet hostIPC = Sysctl_Validate order' s hostNet hostIPC ∧
  (Sysctl_Validate order s hostNet hostIPC = None ↔
   ∃ ns, sysctl_ns (sysctl_key s) = Some ns ∧ nsForbidden ns hostNet hostIPC = false).
Proof. apply Sysctl_Validate_spec. Qed.

Lemma Sysctl_Validate_order_witness :
  Sysctl_Validate (reverse prefixNamespaces) (mkSysctl "net.ipv4.ip_forward" "1") false false = None ∧
  Sysctl_Validate prefixNamespaces (mkSysctl "net.ipv4.ip_forward" "1") true false ≠ None.
Proof.
  split.
  - apply (Sysctl_Validate_order (mkSysctl "net.ipv4.ip_forward" "1") false false
      (reverse prefixNamespaces) prefixNamespaces); [apply reverse_Permutation|done|].
    exists NetNamespace. split; reflexivity.
  - intros H. apply (Sysctl_Validate_order (mkSysctl "net.ipv4.ip_forward" "1") true false
      prefixNamespaces prefixNamespaces) in H as (ns & Hns & Hf); [|done|done].
    vm_compute in Hns. injection Hns as <-. discriminate Hf.
Defined.

Definition sysctl_print (s : Sysctl) : string := sysctl_key s +:+ "=" +:+ sysctl_value s.

(** A sysctl the parser can produce: no "=" in the key, no spaces around. *)
Definition sysctl_ok (s : Sysctl) : Prop :=
  contains_char "=" (sysctl_key s) = false ∧
  TrimSpace (sysctl_key s) = sysctl_key s ∧ TrimSpace (sysctl_value s) = sysctl_value s.

Lemma contains_trim_left c s : contains_char c s = false → contains_char c (trim_left s) = false.
Proof.
  induction s as [|d s IH]; simpl; [done|]. intros H. case_match; [|done].
  apply IH. by apply orb_false_iff in H as [_ H].
Qed.

Lemma contains_TrimSpace c s : contains_char c s = false → contains_char c (TrimSpace s) = false.
Proof.
  intros H. unfold TrimSpace. rewrite contains_char_rev. apply contains_trim_left. rewrite contains_char_rev.
  by apply contains_trim_left.
Qed.

(** Parsing the default sysctls is a round trip: a list parses exactly to the
    well-formed sysctls that print back to its non-empty entries, in their order. *)
Theorem Sysctls_roundtrip l ss :
  Sysctls l = Ret ss ↔ filter (λ s, s ≠ "") l = sysctl_print <$> ss ∧ Forall sysctl_ok ss.
Proof.
  revert ss. induction l as [|s l IH]; intros ss; simpl.
  { split; [intros [= <-]; done|]. intros [H _]. by destruct ss. }
  rewrite filter_cons. case_bool_decide as Hs.
  { rewrite decide_False by auto. apply IH. }
  rewrite decide_True by done. split.
  - destruct (Cut s "=") as [[k v]|] eqn:Hc; [|done]. apply Cut_some in Hc as [-> Hk].
    case_bool_decide as Ht; [|done]. unfold mbind, outcome_bind.
    destruct (Sysctls l) as [r|e|e] eqn:Hl; [|done..]. intros [= <-].
    destruct (proj1 (IH r) eq_refl) as [Hp Hok]. split; [by rewrite Hp|]. constructor; [|done]. split; [done|].
    pose proof (Cut_app (TrimSpace k) (TrimSpace v) "=" (contains_TrimSpace _ _ Hk)) as H1.
    pose proof (Cut_app k v "=" Hk) as H2. assert (Cut (k +:+ String "=" v) "=" = Some (TrimSpace k, TrimSpace v)) as H3 by by rewrite <- Ht.
    rewrite H3 in H2. injection H2. done.
  - intros [Hp Hok]. destruct ss as [|[k v] ss]; [done|]. simpl in Hp.
    injection Hp as -> Hp. inv Hok. destruct H1 as (Hk & Ht1 & Ht2). simpl in *.
    change (sysctl_print (mkSysctl k v)) with (k +:+ String "=" v).
    rewrite (Cut_app k v "=" Hk). rewrite Ht1, Ht2.
    rewrite bool_decide_true by done. rewrite (proj2 (IH ss)) by done. done.
Qed.

(** *** Workload resources *)

Lemma milliCPUToQuota_min milliCPU period :
  milliCPU ≠ 0 → minQuotaPeriod ≤ milliCPUToQuota milliCPU period.
Proof.
  intros H. unfold milliCPUToQuota. rewrite (proj2 (Z.eqb_neq _ _) H). case_match; lia.
Qed.

(** A CPU limit in thousandths gives the exact quota of the period, rounded down,
    and never less than the kernel's minimum of 1000 microseconds, as long as the
    product fits 63 bits; beyond, the product wraps around and the quota may collapse
    to the minimum. *)
Theorem milliCPUToQuota_bounds milliCPU period :
  0 < milliCPU → 0 < period → milliCPU * period < 2 ^ 63 →
  milliCPUToQuota milliCPU period = Z.max minQuotaPeriod (milliCPU * period / milliCPUToCPU).
Proof.
  intros Hm Hp Hlt. unfold milliCPUToQuota. rewrite (proj2 (Z.eqb_neq milliCPU 0)) by lia.
  rewrite (proj2 (Z.eqb_neq period 0)) by lia. rewrite wrap_s_id by (unfold in_s; lia).
  rewrite Z.quot_div_nonneg by (unfold milliCPUToCPU; lia).
  case_match; lia.
Qed.

Lemma milliCPUToQuota_bounds_witness :
  milliCPUToQuota 1500 100000 = 150000 ∧ milliCPUToQuota 1 1000 = 1000 ∧
  milliCPUToQuota (2 ^ 50) (2 ^ 13) = minQuotaPeriod.
Proof.
  split; [|split].
  - exact (milliCPUToQuota_bounds 1500 100000 eq_refl eq_refl eq_refl).
  - exact (milliCPUToQuota_bounds 1 1000 eq_refl eq_refl eq_refl).
  - reflexivity.
Defined.

(** An annotation that leaves a field out, on a workload without default resources,
    dereferences the nil defaults. *)
Lemma resourcesFromAnnotation_panics :
  let ann : gmap string string := {["target.workload/ctr" := "{cpuset: 0-1}"]} in
  resourcesFromAnnotation (λ _, Ret (Some (mkWResources 0 0 0 "0-1" 0))) "target.workload" "ctr" ann None =
  Panic "nil pointer dereference".
Proof. reflexivity. Qed.

(** *** Devices *)

Lemma deviceModeFrom_char c mode m :
  m !! c ≠ Some true → deviceModeFrom m mode = true → contains_char c mode = false.
Proof.
  revert m. induction mode as [|d mode IH]; intros m Hm; [done|]. simpl.
  destruct (m !! d) as [[]|] eqn:Hd; simpl; try done. intros Hr.
  rewrite bool_decide_false by congruence. simpl. apply (IH (<[d := false]> m)); [|done].
  rewrite lookup_insert. by case_decide.
Qed.

Lemma deviceMode_char c mode :
  c ∉ ["r"; "w"; "m"]%char → isValidDeviceMode mode = true → contains_char c mode = false.
Proof.
  intros Hc. unfold isValidDeviceMode. case_bool_decide; [done|]. apply deviceModeFrom_char.
  rewrite !not_elem_of_cons in Hc. destruct Hc as (? & ? & ? & _). by simplify_map_eq.
Qed.

(** Parsing a device is the inverse of printing it: a specification built of a
    source, an absolute destination and a mode parses to them, and leaving the mode
    out gives all permissions, leaving the destination out gives the source. *)
Theorem parseDevice_roundtrip src dst mode :
  contains_char ":" src = false → contains_char ":" dst = false → HasPrefix dst "/" = true →
  isValidDeviceMode mode = true →
  parseDevice (Join [src; dst; mode] ":") = Ret (src, dst, mode) ∧
  parseDevice (Join [src; dst] ":") = Ret (src, dst, "rwm") ∧
  parseDevice (Join [src; mode] ":") = Ret (src, src, mode) ∧
  parseDevice src = Ret (src, src, "rwm").
Proof.
  intros Hs Hd Hsl Hm. assert (contains_char ":" mode = false) as Hcm.
  { by apply deviceMode_char; [set_solver|]. }
  assert (isValidDeviceMode dst = false) as Hdm.
  { destruct (isValidDeviceMode dst) eqn:Hv; [|done]. apply (deviceMode_char "/") in Hv; [|set_solver].
    apply prefix_char_absent in Hv. congruence. }
  assert (parseDevice_dst dst mode = Ret (dst, mode) ∧ parseDevice_dst dst "rwm" = Ret (dst, "rwm")) as [H1 H2].
  { unfold parseDevice_dst. rewrite Hdm. destruct dst as [|c dst]; [done|].
    destruct (Ascii.eqb c "/") eqn:Hc; [by split|]. exfalso. apply Ascii.eqb_neq in Hc.
    apply HasPrefix_spec in Hsl as [r Hr]. injection Hr as -> _. done. }
  assert (dst ≠ "") as Hne by by intros ->.
  unfold parseDevice. rewrite !(Split_Join _ ":") by by repeat constructor.
  rewrite (Split_word src) by done. rewrite Hm, H1, H2. unfold parseDevice_dst. rewrite Hm.
  unfold mbind, outcome_bind. by rewrite (bool_decide_false _ Hne).
Qed.

Lemma parseDevice_roundtrip_witness :
  parseDevice (Join ["/dev/fuse"; "/dev/fuse0"; "rw"] ":") = Ret ("/dev/fuse", "/dev/fuse0", "rw") ∧
  parseDevice (Join ["/dev/fuse"; "/dev/fuse0"] ":") = Ret ("/dev/fuse", "/dev/fuse0", "rwm") ∧
  parseDevice (Join ["/dev/fuse"; "rw"] ":") = Ret ("/dev/fuse", "/dev/fuse", "rw") ∧
  parseDevice "/dev/fuse" = Ret ("/dev/fuse", "/dev/fuse", "rwm").
Proof. by apply (parseDevice_roundtrip "/dev/fuse" "/dev/fuse0" "rw"). Defined.

(** A pod's device annotation gives only devices the administrator allowed, under
    /dev/ in the container, each with the permissions of its specification; and every
    non-empty entry of the annotation gives one device. *)
Theorem DevicesFromAnnotation_safe DeviceFromPath annotation allowedDevices devs :
  DevicesFromAnnotation DeviceFromPath annotation allowedDevices = Ret devs →
  Forall2 (λ d dev, ∃ src dst permissions,
      parseDevice d = Ret (src, dst, permissions) ∧ src ∈ allowedDevices ∧
      HasPrefix dst "/dev/" = true ∧ dev_path dev = dst ∧ dev_access dev = permissions ∧
      DeviceFromPath src permissions = Ret (dev_node dev))
    (filter (λ d, d ≠ "") (Split annotation ",")) devs.
Proof.
  unfold DevicesFromAnnotation. generalize (Split annotation ",") as ds. intros ds. revert devs.
  induction ds as [|d ds IH]; simpl; intros devs; [by intros [= <-]|]. rewrite filter_cons.
  case_bool_decide as Hd; [rewrite decide_False by auto; apply IH|]. rewrite decide_True by done.
  unfold mbind, outcome_bind. destruct (parseDevice d) as [[[src dst] perm]|e|e] eqn:Hp; [|done..].
  case_bool_decide as Ha; simpl; [|done]. destruct (HasPrefix dst "/dev/") eqn:Hpre; simpl; [|done].
  destruct (DeviceFromPath src perm) as [n|e|e] eqn:Hn; [|done..].
  destruct (devicesFromStrings _ ds _) as [l|e|e]; [|done..]. intros [= <-].
  constructor; [|by apply IH]. exists src, dst, perm. by apply elem_of_list_to_set in Ha.
Qed.

Lemma DevicesFromAnnotation_safe_witness :
  ∃ dev, DevicesFromAnnotation (λ _ _, Ret (mkDevNode "c" 10 229 438 0 0)) "/dev/fuse:rw" ["/dev/fuse"] = Ret [dev] ∧
  dev_access dev = "rw" ∧ HasPrefix (dev_path dev) "/dev/" = true.
Proof.
  exists (mkDevice "/dev/fuse" (mkDevNode "c" 10 229 438 0 0) "rw"). split; [reflexivity|].
  assert (DevicesFromAnnotation (λ _ _, Ret (mkDevNode "c" 10 229 438 0 0)) "/dev/fuse:rw" ["/dev/fuse"] =
    Ret [mkDevice "/dev/fuse" (mkDevNode "c" 10 229 438 0 0) "rw"]) as H by reflexivity.
  apply DevicesFromAnnotation_safe in H. simpl in H. inversion H as [|? ? ? ? Hd]; subst.
  destruct Hd as (src & dst & perm & Hp & _ & Hpre & <- & Ha & _). split; [reflexivity|exact Hpre].
Defined.
