(* ===== verification/ConfigRuntime.v ===== *)
(** * ConfigRuntime: the table of runtime handlers (pkg/config/config.go,
    pkg/config/template.go, pkg/config/reload.go, internal/oci/oci.go)

    A handler names the OCI runtime of a class of pods.  The table is validated when
    the server starts and when its configuration is reloaded: handlers that ask for
    it inherit from the default one, invalid handlers are dropped, and the features
    of the runtimes are asked of them.  [internal/oci/oci.go] then finds the handler
    and the runtime implementation of a container. *)

From S2P Require Import Prelude GoStrings ConfigData.
From Stdlib Require Import Ascii.
Local Open Scope Z_scope.

Definition RuntimeTypeVM : string := "vm".
Definition RuntimeTypePod : string := "pod".
Definition DefaultRuntime : string := "crun".
Definition DefaultRuntimeType : string := "oci".
Definition DefaultRuntimeRoot : string := "/run/crun".
Definition defaultMonitorCgroup : string := "system.slice".
Definition PodCgroupName : string := "pod".
Definition defaultContainerMinMemory : Z := 12 * 1024 * 1024.
Definition defaultContainerMinMemoryCrun : Z := 500 * 1024.

(** The part of the features structure the server reads; [f_IDMap] is [None] where
    one of the pointers on the way is nil. *)
Record runtimeHandlerFeatures := mkFeatures {
  RecursiveReadOnlyMounts : bool;
  OCIVersionMin : string; OCIVersionMax : string;
  MountOptions : list string;
  f_IDMap : option bool }.
#[export] Instance runtimeHandlerFeatures_eta : Eta runtimeHandlerFeatures := λ f,
  mkFeatures (RecursiveReadOnlyMounts f) (OCIVersionMin f) (OCIVersionMax f) (MountOptions f) (f_IDMap f).
#[export] Instance runtimeHandlerFeatures_eq_dec : EqDecision runtimeHandlerFeatures.
Proof. solve_decision. Defined.
Definition noFeatures : runtimeHandlerFeatures := mkFeatures false "" "" [] None.

Record RuntimeHandler := mkHandler {
  RuntimeConfigPath : string; RuntimePath : string; RuntimeType : string; RuntimeRoot : string;
  h_PrivilegedWithoutHostDevices : bool;
  AllowedAnnotations : list string; DisallowedAnnotations : list string;
  MonitorPath : string; MonitorCgroup : string; MonitorEnv : list string; MonitorExecCgroup : string;
  PlatformRuntimePaths : gmap string string;
  RuntimePullImage : bool;
  ContainerMinMemory : string;
  NoSyncLog : bool;
  h_features : runtimeHandlerFeatures;
  InheritDefaultRuntime : bool;
  DefaultAnnotations : gmap string string }.
#[export] Instance RuntimeHandler_eta : Eta RuntimeHandler := λ h,
  mkHandler (RuntimeConfigPath h) (RuntimePath h) (RuntimeType h) (RuntimeRoot h)
    (h_PrivilegedWithoutHostDevices h) (AllowedAnnotations h) (DisallowedAnnotations h)
    (MonitorPath h) (MonitorCgroup h) (MonitorEnv h) (MonitorExecCgroup h) (PlatformRuntimePaths h)
    (RuntimePullImage h) (ContainerMinMemory h) (NoSyncLog h) (h_features h)
    (InheritDefaultRuntime h) (DefaultAnnotations h).
#[export] Instance RuntimeHandler_eq_dec : EqDecision RuntimeHandler.
Proof. solve_decision. Defined.

(** The host and the packages validation asks: it changes none of them.  [Stat] is
    [None] when the file exists; [RuntimeVersion] and [RuntimeFeatures] are the
    outputs of the runtime's [--version] and [features]; [UnmarshalFeatures] decodes
    JSON into the features structure, also on an error; [kernelRRO] is the error
    that [checkKernelRROMountSupport] remembers. *)
Class ConfigEnv := {
  LookPath : string → string + goerr;
  Stat : string → option goerr;
  IsNotExist : goerr → bool;
  RAMInBytes : string → Z + goerr;
  BytesSize : Z → string;
  RuntimeVersion : string → string + goerr;
  RuntimeFeatures : string → string + goerr;
  UnmarshalFeatures : runtimeHandlerFeatures → string → option goerr * runtimeHandlerFeatures;
  kernelRRO : option goerr;
}.

(** The characters of [a-zA-Z0-9\-\+]. *)
Definition shimChar (c : ascii) : bool :=
  let n := nat_of_ascii c in
  ((97 <=? n) && (n <=? 122) || (65 <=? n) && (n <=? 90) || (48 <=? n) && (n <=? 57))%nat
  || Ascii.eqb c "-" || Ascii.eqb c "+".

(** [([a-zA-Z0-9\-\+])+-v2] at the start of the string. *)
Fixpoint shimTail (s : string) : bool :=
  match s with
  | EmptyString => false
  | String c s => shimChar c && (HasPrefix s "-v2" || shimTail s)
  end.

(** [regexp.MatchString(RuntimeTypeVMBinaryPattern, s)]: the pattern is not anchored. *)
Fixpoint matchShim (s : string) : bool :=
  HasPrefix s "containerd-shim-" && shimTail (str_drop (String.length "containerd-shim-") s) ||
  match s with
  | EmptyString => false
  | String _ s => matchShim s
  end.

Section handlers.
Context `{ConfigEnv}.

(** [Validate] and its parts: the error, and the handler they leave. *)
Definition checked : Type := option goerr * RuntimeHandler.

Definition ValidateRuntimeType (r : RuntimeHandler) : option goerr :=
  if bool_decide (RuntimeType r ∈ [""; DefaultRuntimeType; RuntimeTypeVM; RuntimeTypePod]) then None
  else Some (ErrorsNew "invalid `runtime_type`").

Definition ValidateRuntimeVMBinaryPattern (r : RuntimeHandler) : bool :=
  if bool_decide (RuntimeType r ≠ RuntimeTypeVM) then true else matchShim (Base (RuntimePath r)).

Definition missing (p : string) : bool :=
  match Stat p with Some e => IsNotExist e | None => false end.

Definition ValidateRuntimePath (name : string) (r : RuntimeHandler) : checked :=
  let pattern r :=
    if ValidateRuntimeVMBinaryPattern r then None
    else Some (ErrorsNew "invalid runtime_path: containerd binary naming pattern is not followed") in
  if bool_decide (RuntimePath r = "") then
    match LookPath name with
    | inr e => (Some (Errorf (name +:+ " not found in $PATH: ") e), r)
    | inl executable => let r := r <| RuntimePath := executable |> in (pattern r, r)
    end
  else if missing (RuntimePath r) then (Some (ErrorsNew "invalid runtime_path"), r)
  else (pattern r, r).

Definition ValidateRuntimeConfigPath (r : RuntimeHandler) : option goerr :=
  if bool_decide (RuntimeConfigPath r = "") then None
  else if bool_decide (RuntimeType r ≠ RuntimeTypeVM) then
    Some (ErrorsNew "runtime_config_path can only be used with the 'vm' runtime type")
  else if missing (RuntimeConfigPath r) then Some (ErrorsNew "invalid runtime_config_path")
  else None.

Definition ValidateRuntimeAllowedAnnotations (r : RuntimeHandler) : checked :=
  match validateAllowedAndGenerateDisallowedAnnotations (AllowedAnnotations r) with
  | Ret disallowed => (None, r <| DisallowedAnnotations := disallowed |>)
  | Fail e => (Some e, r)
  | Panic s => (Some (ErrorsNew s), r)
  end.

Definition ValidateNoSyncLog (r : RuntimeHandler) : option goerr :=
  if negb (NoSyncLog r) then None
  else if bool_decide (RuntimeType r ∈ [DefaultRuntimeType; ""]) then None
  else Some (ErrorsNew "no_sync_log is only allowed with runtime type 'oci'").

Definition ValidateContainerMinMemory (r : RuntimeHandler) : checked :=
  let r := if bool_decide (ContainerMinMemory r = "")
           then r <| ContainerMinMemory := BytesSize defaultContainerMinMemory |> else r in
  match RAMInBytes (ContainerMinMemory r) with
  | inl _ => (None, r)
  | inr e => (Some (Errorf "unable to set runtime memory: " e),
              r <| ContainerMinMemory := BytesSize defaultContainerMinMemory |>)
  end.

Definition Handler_Validate (name : string) (r : RuntimeHandler) : checked :=
  match ValidateRuntimeType r with
  | Some e => (Some e, r)
  | None =>
  match ValidateRuntimePath name r with
  | (Some e, r) => (Some e, r)
  | (None, r) =>
  match ValidateRuntimeConfigPath r with
  | Some e => (Some e, r)
  | None =>
  match ValidateRuntimeAllowedAnnotations r with
  | (Some e, r) => (Some e, r)
  | (None, r) =>
      (* the error of ValidateContainerMinMemory is only logged *)
      let r := (ValidateContainerMinMemory r).2 in
      (ValidateNoSyncLog r, r)
  end end end end.

Definition LoadRuntimeFeatures (input : string) (r : RuntimeHandler) : checked :=
  match UnmarshalFeatures (h_features r) input with
  | (Some e, f) => (Some (Errorf "unable to unmarshal features structure: " e), r <| h_features := f |>)
  | (None, f) =>
      let r := r <| h_features := f |> in
      if bool_decide (OCIVersionMin f = "") || bool_decide (OCIVersionMax f = "")
      then (Some (ErrorsNew "runtime features structure is not valid"), r)
      else (None, r)
  end.

Definition Handler_SupportsIDMap (r : RuntimeHandler) : bool := default false (f_IDMap (h_features r)).
Definition Handler_SupportsRROMounts (r : RuntimeHandler) : bool := RecursiveReadOnlyMounts (h_features r).
Definition Handler_SupportsMountFlag (r : RuntimeHandler) (flag : string) : bool :=
  bool_decide (flag ∈ MountOptions (h_features r)).

(** The body of the loop of [initializeRuntimeFeatures]; every error is logged and
    ends the iteration. *)
Definition initializeFeatures (r : RuntimeHandler) : RuntimeHandler :=
  match RuntimeVersion (RuntimePath r) with
  | inr _ => r
  | inl _ =>
      match RuntimeFeatures (RuntimePath r) with
      | inr _ => r
      | inl output =>
          match LoadRuntimeFeatures output r with
          | (Some _, r) => r
          | (None, r) =>
              let rro := Handler_SupportsMountFlag r "rro" && bool_decide (kernelRRO = None) in
              r <| h_features ::= λ f, f <| RecursiveReadOnlyMounts := rro |> |>
          end
      end
  end.

Definition defaultRuntimeHandler : RuntimeHandler :=
  mkHandler "" "" DefaultRuntimeType DefaultRuntimeRoot false
    ["io.containers.trace-syscall"; "io.kubernetes.cri-o.Devices"] [] "" defaultMonitorCgroup
    ["PATH=/usr/local/sbin:/usr/local/bin:/usr/sbin:/usr/bin:/sbin:/bin"] "" ∅ false
    (BytesSize defaultContainerMinMemoryCrun) false noFeatures false ∅.

(** ** The table *)

(** The fields of [RuntimeConfig] that validating the table reads or writes. *)
Record RuntimeTable := mkTable {
  t_DefaultRuntime : string; t_Runtimes : gmap string RuntimeHandler;
  t_ConmonCgroup : string; t_Conmon : string; t_ConmonEnv : list string }.
#[export] Instance RuntimeTable_eta : Eta RuntimeTable := λ c,
  mkTable (t_DefaultRuntime c) (t_Runtimes c) (t_ConmonCgroup c) (t_Conmon c) (t_ConmonEnv c).

Definition ValidateDefaultRuntime : io RuntimeTable () :=
  c ← gets id;
  match t_Runtimes c !! t_DefaultRuntime c with
  | Some _ => mret ()
  | None =>
      if bool_decide (t_DefaultRuntime c ≠ "") then
        fail (ErrorsNew ("default_runtime set to " +:+ t_DefaultRuntime c +:+ ", but no runtime entry table was found"))
      else
        (match t_Runtimes c !! DefaultRuntime with
         | Some _ => mret ()
         | None => modify (λ c, c <| t_Runtimes ::= <[DefaultRuntime := defaultRuntimeHandler]> |>)
         end) ;;
        modify (λ c, c <| t_DefaultRuntime := DefaultRuntime |>)
  end.

(** What a handler takes of the default one [d]. *)
Definition inheritFrom (defaultRuntime : string) (d h : RuntimeHandler) : RuntimeHandler :=
  if InheritDefaultRuntime h then
    let path := if bool_decide (RuntimePath d = "")
                then match LookPath defaultRuntime with inl executable => executable | inr _ => "" end
                else RuntimePath d in
    h <| RuntimePath := path |> <| RuntimeType := RuntimeType d |>
      <| RuntimeConfigPath := RuntimeConfigPath d |> <| RuntimeRoot := RuntimeRoot d |>
  else h.

Definition inheritHandler (name : string) : io RuntimeTable () :=
  c ← gets id;
  match t_Runtimes c !! name with
  | None => mret ()
  | Some h =>
      if InheritDefaultRuntime h then
        match t_Runtimes c !! t_DefaultRuntime c with
        | None => panic "nil pointer dereference"
        | Some d => modify (λ c, c <| t_Runtimes ::= <[name := inheritFrom (t_DefaultRuntime c) d h]> |>)
        end
      else mret ()
  end.

(** The loop that validates: the names of the handlers to drop. *)
Fixpoint validateHandlers (names : list string) : io RuntimeTable (list string) :=
  match names with
  | [] => mret []
  | name :: names =>
      c ← gets id;
      match t_Runtimes c !! name with
      | None => validateHandlers names
      | Some h =>
          let '(err, h) := Handler_Validate name h in
          modify (λ c, c <| t_Runtimes ::= <[name := h]> |>) ;;
          match err with
          | None => validateHandlers names
          | Some e =>
              if bool_decide (t_DefaultRuntime c = name) then fail e
              else failed ← validateHandlers names; mret (name :: failed)
          end
      end
  end.

Definition dropHandler (name : string) : io RuntimeTable () :=
  modify (λ c, c <| t_Runtimes ::= delete name |>).

Definition initializeHandler (name : string) : io RuntimeTable () :=
  modify (λ c, c <| t_Runtimes ::= alter initializeFeatures name |>).

(** Go visits a map in any order: [o1], [o2] and [o3] are the orders of the three
    loops over the table. *)
Definition ValidateRuntimes (o1 o2 o3 : list string) : io RuntimeTable () :=
  for_each inheritHandler o1 ;;
  failedValidation ← validateHandlers o2;
  for_each dropHandler failedValidation ;;
  for_each initializeHandler o3.

Definition validateExecutablePath (executable currentPath : string) : string + goerr :=
  if bool_decide (currentPath = "") then LookPath executable
  else match Stat currentPath with
       | Some e => inr (Errorf ("invalid " +:+ executable +:+ " path: ") e)
       | None => inl currentPath
       end.

(** [conmonNew] is [conmonmgr.New], [systemd] whether the cgroup manager is systemd.
    On an error [validateExecutablePath] has emptied [MonitorPath]. *)
Definition TranslateMonitorFieldsForHandler (conmonNew : string → option goerr) (systemd : bool)
    (c : RuntimeTable) (onExecution : bool) (h : RuntimeHandler) : checked :=
  let h := if bool_decide (t_ConmonCgroup c ≠ "") then h <| MonitorCgroup := t_ConmonCgroup c |> else h in
  let h := if bool_decide (t_Conmon c ≠ "") then h <| MonitorPath := t_Conmon c |> else h in
  let h := if bool_decide (t_ConmonEnv c ≠ []) then h <| MonitorEnv := t_ConmonEnv c |> else h in
  let h := if bool_decide (MonitorCgroup h = "") then h <| MonitorCgroup := defaultMonitorCgroup |> else h in
  if onExecution then
    match validateExecutablePath "conmon" (MonitorPath h) with
    | inr e => (Some e, h <| MonitorPath := "" |>)
    | inl path =>
        let h := h <| MonitorPath := path |> in
        match conmonNew path with
        | Some e => (Some e, h)
        | None =>
            if negb systemd then
              if bool_decide (MonitorCgroup h ≠ PodCgroupName) && bool_decide (MonitorCgroup h ≠ "")
              then (Some (ErrorsNew "cgroupfs manager conmon cgroup should be 'pod' or empty"), h)
              else (None, h)
            else if bool_decide (MonitorCgroup h = PodCgroupName) || HasSuffix (MonitorCgroup h) ".slice"
            then (None, h)
            else (Some (ErrorsNew "conmon cgroup should be 'pod' or a systemd slice"), h)
        end
    end
  else (None, h).

Fixpoint TranslateMonitorFields (conmonNew : string → option goerr) (systemd onExecution : bool)
    (names : list string) : io RuntimeTable () :=
  match names with
  | [] => mret ()
  | name :: names =>
      c ← gets id;
      match t_Runtimes c !! name with
      | None => TranslateMonitorFields conmonNew systemd onExecution names
      | Some h =>
          if bool_decide (RuntimeType h ∈ [DefaultRuntimeType; ""]) then
            let '(err, h) := TranslateMonitorFieldsForHandler conmonNew systemd c onExecution h in
            modify (λ c, c <| t_Runtimes ::= <[name := h]> |>) ;;
            match err with
            | Some e => fail (Errorf ("failed to translate monitor fields for runtime " +:+ name +:+ ": ") e)
            | None => TranslateMonitorFields conmonNew systemd onExecution names
            end
          else TranslateMonitorFields conmonNew systemd onExecution names
      end
  end.

(** ** Reload *)

Definition RuntimesEqual (a b : gmap string RuntimeHandler) : bool :=
  bool_decide (size a = size b) &&
  forallb (λ '(key, valueA), bool_decide (b !! key = Some valueA)) (map_to_list a).

Definition ReloadRuntimes (o1 o2 o3 : list string) (newConfig : RuntimeTable) : io RuntimeTable () :=
  c ← gets id;
  let changed := negb (RuntimesEqual (t_Runtimes c) (t_Runtimes newConfig)) in
  when changed (modify (λ c, c <| t_Runtimes := t_Runtimes newConfig |>)) ;;
  let changedDefault := bool_decide (t_DefaultRuntime c ≠ t_DefaultRuntime newConfig) in
  when changedDefault
    (modify (λ c, c <| t_DefaultRuntime := t_DefaultRuntime newConfig |>) ;;
     wrap_err "unable to reload runtimes: " ValidateDefaultRuntime) ;;
  if changed || changedDefault then wrap_err "unabled to reload runtimes: " (ValidateRuntimes o1 o2 o3)
  else mret ().
End handlers.

(** ** The table after validation *)

Section table.
Context `{ConfigEnv}.

(** The handlers [f] changes, of those the loop has visited. *)
Definition visited (o : list string) (f : string → RuntimeHandler → RuntimeHandler)
    (m : gmap string RuntimeHandler) : gmap string RuntimeHandler :=
  map_imap (λ n h, Some (if bool_decide (n ∈ o) then f n h else h)) m.

Lemma visited_lookup o f m n :
  visited o f m !! n = (λ h, if bool_decide (n ∈ o) then f n h else h) <$> m !! n.
Proof. unfold visited. rewrite map_lookup_imap. by destruct (m !! n). Qed.

Lemma visited_nil f m : visited [] f m = m.
Proof. apply map_eq. intros n. rewrite visited_lookup. by destruct (m !! n). Qed.

Lemma visited_cons name o f m h :
  name ∉ o → m !! name = Some h → visited o f (<[name := f name h]> m) = visited (name :: o) f m.
Proof.
  intros Hn Hh. apply map_eq. intros n. rewrite !visited_lookup, lookup_insert.
  case_decide as Hd; [subst n; rewrite Hh; simpl; f_equal; rewrite bool_decide_false by done;
    by rewrite bool_decide_true by left|].
  destruct (m !! n) as [h'|]; [|done]. simpl. f_equal. apply not_eq_sym in Hd.
  by rewrite (bool_decide_ext (n ∈ name :: o) (n ∈ o)) by set_solver.
Qed.

Lemma visited_cons_none name o f m :
  m !! name = None → visited o f m = visited (name :: o) f m.
Proof.
  intros Hn. apply map_eq. intros n. rewrite !visited_lookup. destruct (m !! n) as [h'|] eqn:Hm; [|done].
  simpl. f_equal. assert (n ≠ name) by congruence.
  by rewrite (bool_decide_ext (n ∈ name :: o) (n ∈ o)) by set_solver.
Qed.

Lemma visited_all o f m : (∀ n, is_Some (m !! n) → n ∈ o) → visited o f m = map_imap (λ n h, Some (f n h)) m.
Proof.
  intros Ho. apply map_eq. intros n. rewrite visited_lookup, map_lookup_imap.
  destruct (m !! n) eqn:Hm; [|done]. simpl. by rewrite bool_decide_true by (apply Ho; eauto).
Qed.

(** Inheriting twice from the default handler is inheriting once. *)
Lemma inheritFrom_default dr d h : inheritFrom dr (inheritFrom dr d d) h = inheritFrom dr d h.
Proof.
  unfold inheritFrom. destruct (InheritDefaultRuntime d); [|done].
  destruct (InheritDefaultRuntime h); [|done]. destruct d, h. cbn.
  destruct (decide (RuntimePath0 = "")) as [->|Hne].
  - destruct (LookPath dr); cbn; [|done]. by case_bool_decide; subst.
  - rewrite (bool_decide_false (RuntimePath0 = "")) by done. by rewrite (bool_decide_false _ Hne).
Qed.

Lemma visited_one name f m :
  visited [name] f m = match m !! name with Some h => <[name := f name h]> m | None => m end.
Proof.
  destruct (m !! name) as [h|] eqn:Hh.
  - by rewrite <- (visited_cons name [] f m h), visited_nil by (done || set_solver).
  - by rewrite <- visited_cons_none, visited_nil by done.
Qed.

Lemma visited_step name o f m :
  name ∉ o → visited o f (visited [name] f m) = visited (name :: o) f m.
Proof.
  intros Hn. rewrite visited_one. destruct (m !! name) as [h|] eqn:Hh;
    [by apply visited_cons|by apply visited_cons_none].
Qed.

Lemma visited_ext o f g m : (∀ n h, f n h = g n h) → visited o f m = visited o g m.
Proof.
  intros Hfg. apply map_eq. intros n. rewrite !visited_lookup. destruct (m !! n); [|done]. simpl.
  by rewrite Hfg.
Qed.

Lemma inheritHandler_run name c d :
  t_Runtimes c !! t_DefaultRuntime c = Some d →
  inheritHandler name c =
    (Ret (), c <| t_Runtimes := visited [name] (λ _, inheritFrom (t_DefaultRuntime c) d) (t_Runtimes c) |>).
Proof.
  intros Hd. rewrite visited_one. unfold inheritHandler, mbind, io_bind, gets, mret, io_ret, modify. cbn.
  destruct (t_Runtimes c !! name) as [h|] eqn:Hh; [|by destruct c].
  destruct (InheritDefaultRuntime h) eqn:Hi; [by rewrite Hd|].
  unfold inheritFrom. rewrite Hi, insert_id by done. by destruct c.
Qed.

Lemma inheritLoop o c d :
  NoDup o → t_Runtimes c !! t_DefaultRuntime c = Some d →
  for_each inheritHandler o c =
    (Ret (), c <| t_Runtimes := visited o (λ _, inheritFrom (t_DefaultRuntime c) d) (t_Runtimes c) |>).
Proof.
  revert c d. induction o as [|name o IH]; intros c d Hnd Hd.
  { rewrite visited_nil. by destruct c. }
  apply NoDup_cons in Hnd as [Hn Hnd]. cbn [for_each].
  rewrite (io_bind_ret _ _ _ _ _ (inheritHandler_run name c d Hd)).
  set (c' := c <| t_Runtimes := visited [name] _ _ |>).
  set (d' := if bool_decide (name = t_DefaultRuntime c) then inheritFrom (t_DefaultRuntime c) d d else d).
  rewrite (IH c' d'); [|done|].
  - subst c'. destruct c as [dr m ? ? ?]. cbn in *. do 2 f_equal.
    rewrite <- (visited_step name o) by done. apply visited_ext. intros n h. subst d'.
    case_bool_decide; [apply inheritFrom_default|done].
  - subst c' d'. destruct c as [dr m ? ? ?]. cbn in *. rewrite visited_lookup, Hd. cbn. f_equal.
    rewrite (bool_decide_ext (dr ∈ [name]) (name = dr)) by set_solver. done.
Qed.

(** The handlers that do not validate. *)
Definition invalid (m : gmap string RuntimeHandler) (name : string) : Prop :=
  ∃ h e, m !! name = Some h ∧ (Handler_Validate name h).1 = Some e.

Definition revalidated (name : string) (h : RuntimeHandler) : RuntimeHandler := (Handler_Validate name h).2.

Lemma validateLoop_fail o c d e :
  NoDup o → t_DefaultRuntime c ∈ o → t_Runtimes c !! t_DefaultRuntime c = Some d →
  (Handler_Validate (t_DefaultRuntime c) d).1 = Some e → (validateHandlers o c).1 = Fail e.
Proof.
  revert c. induction o as [|name o IH]; intros c Hnd Ho Hd He; [set_solver|].
  apply NoDup_cons in Hnd as [Hn Hnd]. cbn [validateHandlers]. unfold mbind, io_bind, gets. cbn [id].
  destruct (t_Runtimes c !! name) as [h|] eqn:Hh.
  2:{ apply IH; try done. apply elem_of_cons in Ho as [<-|]; [congruence|done]. }
  destruct (Handler_Validate name h) as [err h'] eqn:Hv. unfold modify. cbn beta iota zeta.
  destruct (decide (t_DefaultRuntime c = name)) as [Heq|Hne].
  { rewrite <- Heq in *. assert (h = d) as -> by congruence. rewrite Hv in He. cbn in He. subst err.
    by rewrite bool_decide_true by done. }
  set (c' := c <| t_Runtimes ::= <[name:=h']> |>).
  assert ((validateHandlers o c').1 = Fail e) as Hf.
  { apply IH; subst c'; destruct c; cbn in *; try done; [set_solver|by rewrite lookup_insert_ne by auto]. }
  destruct err; [rewrite bool_decide_false by done|done].
  destruct (validateHandlers o c') as [[]]; cbn in *; congruence.
Qed.

Lemma validateLoop o c :
  NoDup o → (t_DefaultRuntime c ∈ o → ¬ invalid (t_Runtimes c) (t_DefaultRuntime c)) →
  ∃ failed, (∀ n, n ∈ failed ↔ n ∈ o ∧ invalid (t_Runtimes c) n) ∧
    validateHandlers o c = (Ret failed, c <| t_Runtimes := visited o revalidated (t_Runtimes c) |>).
Proof.
  revert c. induction o as [|name o IH]; intros c Hnd Hok.
  { exists []. split; [set_solver|]. cbn. rewrite visited_nil. by destruct c. }
  apply NoDup_cons in Hnd as [Hn Hnd]. cbn [validateHandlers]. unfold mbind, io_bind, gets. cbn [id].
  destruct (t_Runtimes c !! name) as [h|] eqn:Hh.
  2:{ destruct (IH c Hnd) as (failed & Hf & Hrun); [set_solver|]. exists failed. split.
      - intros n. rewrite Hf, elem_of_cons. split; [tauto|]. intros [[->|] (h & e & Hl & ?)]; [congruence|].
        split; [done|]. by exists h, e.
      - rewrite Hrun. by rewrite (visited_cons_none name). }
  destruct (Handler_Validate name h) as [err h'] eqn:Hv. unfold modify. cbn beta iota zeta.
  set (c' := c <| t_Runtimes ::= <[name:=h']> |>).
  assert (t_DefaultRuntime c' = t_DefaultRuntime c) as Hdr by by destruct c.
  assert (t_Runtimes c' = <[name := h']> (t_Runtimes c)) as Hr by by destruct c.
  assert (∀ n, n ∈ o → (invalid (t_Runtimes c') n ↔ invalid (t_Runtimes c) n)) as Hinv.
  { intros n Hno. unfold invalid. rewrite Hr, lookup_insert_ne by (intros ->; done). done. }
  destruct (IH c' Hnd) as (failed & Hf & Hrun).
  { rewrite Hdr. intros Hi. rewrite Hinv by done. apply Hok. by right. }
  assert ((c' <| t_Runtimes := visited o revalidated (t_Runtimes c') |>) =
    c <| t_Runtimes := visited (name :: o) revalidated (t_Runtimes c) |>) as Hst.
  { rewrite Hr. unfold c'. replace h' with (revalidated name h) by (unfold revalidated; by rewrite Hv).
    rewrite (visited_cons name o revalidated _ h) by done. by destruct c. }
  rewrite Hst in Hrun. destruct err as [e|]; cbn.
  - assert (invalid (t_Runtimes c) name) as Hi by (exists h, e; by rewrite Hv).
    rewrite bool_decide_false by (intros <-; apply Hok; [by left|done]). rewrite Hrun.
    exists (name :: failed). split; [|done]. intros n. rewrite !elem_of_cons, Hf.
    split; [intros [->|[Hno Hb]]; [auto|]|intros [[->|Hno] Hb]; [auto|right]].
    + split; [auto|by apply Hinv]. + split; [done|by apply Hinv].
  - rewrite Hrun. exists failed. split; [|done]. intros n. rewrite Hf, elem_of_cons.
    split; [intros [Hno Hb]; split; [auto|by apply Hinv]|].
    intros [[->|Hno] Hb]; [|split; [done|by apply Hinv]]. destruct Hb as (h2 & e & Hl & He).
    assert (h2 = h) as -> by congruence. by rewrite Hv in He.
Qed.
Lemma dropLoop l c :
  for_each dropHandler l c = (Ret (), c <| t_Runtimes := filter (λ nh, nh.1 ∉ l) (t_Runtimes c) |>).
Proof.
  revert c. induction l as [|name l IH]; intros c.
  { cbn. unfold mret, io_ret. destruct c as [dr m ? ? ?]. cbn. do 2 f_equal. symmetry.
    apply map_filter_id. set_solver. }
  cbn [for_each]. rewrite (io_bind_ret _ _ c () (c <| t_Runtimes ::= delete name |>)) by done. rewrite IH.
  destruct c as [dr m ? ? ?]. cbn. do 2 f_equal. apply map_eq. intros n. apply option_eq. intros h.
  rewrite !map_lookup_filter_Some, lookup_delete_Some. cbn. set_solver.
Qed.

Lemma initLoop o c :
  NoDup o →
  for_each initializeHandler o c = (Ret (), c <| t_Runtimes := visited o (λ _, initializeFeatures) (t_Runtimes c) |>).
Proof.
  revert c. induction o as [|name o IH]; intros c Hnd.
  { rewrite visited_nil. by destruct c. }
  apply NoDup_cons in Hnd as [Hn Hnd]. cbn [for_each].
  rewrite (io_bind_ret _ _ c () (c <| t_Runtimes ::= alter initializeFeatures name |>)) by done.
  rewrite IH by done. destruct c as [dr m ? ? ?]. cbn. do 2 f_equal. rewrite <- visited_step by done.
  f_equal. rewrite visited_one. apply map_eq. intros n. destruct (decide (name = n)) as [->|Hne].
  - rewrite lookup_alter_eq. destruct (m !! n) as [h|] eqn:Hh; cbn; [by rewrite lookup_insert_eq|by rewrite Hh].
  - rewrite lookup_alter_ne by done. destruct (m !! name); [by rewrite lookup_insert_ne|done].
Qed.

(** The reference: each handler inherits, is validated, and has its features read,
    on its own. *)
Definition validHandler (dr : string) (d : RuntimeHandler) (name : string) (h : RuntimeHandler) :
    option RuntimeHandler :=
  match Handler_Validate name (inheritFrom dr d h) with
  | (None, h) => Some (initializeFeatures h)
  | (Some _, _) => None
  end.

Definition validTable (dr : string) (d : RuntimeHandler) (m : gmap string RuntimeHandler) :
    gmap string RuntimeHandler := map_imap (validHandler dr d) m.

(** [o] visits the keys of [m] once each. *)
Definition visits (o : list string) (m : gmap string RuntimeHandler) : Prop :=
  NoDup o ∧ ∀ n, n ∈ o ↔ is_Some (m !! n).

Lemma visits_dom o m : NoDup o ∧ list_to_set o = dom m → visits o m.
Proof. intros [Hn Hd]. split; [done|]. intros n. rewrite <- elem_of_dom, <- Hd. set_solver. Qed.

Lemma ValidateRuntimes_run c d o1 o2 o3 :
  t_Runtimes c !! t_DefaultRuntime c = Some d →
  visits o1 (t_Runtimes c) → visits o2 (t_Runtimes c) →
  visits o3 (validTable (t_DefaultRuntime c) d (t_Runtimes c)) →
  match (Handler_Validate (t_DefaultRuntime c) (inheritFrom (t_DefaultRuntime c) d d)).1 with
  | Some e => (ValidateRuntimes o1 o2 o3 c).1 = Fail e
  | None => ValidateRuntimes o1 o2 o3 c =
      (Ret (), c <| t_Runtimes := validTable (t_DefaultRuntime c) d (t_Runtimes c) |>)
  end.
Proof.
  intros Hd [Hn1 Ho1] [Hn2 Ho2] [Hn3 Ho3]. unfold ValidateRuntimes.
  rewrite (io_bind_ret _ _ _ _ _ (inheritLoop o1 c d Hn1 Hd)).
  rewrite visited_all by (intros n Hs; by apply Ho1). destruct c as [dr m cc cm ce]. cbn in *.
  set (m1 := map_imap (λ n h, Some (inheritFrom dr d h)) m). set (c1 := mkTable dr m1 cc cm ce).
  assert (∀ n, m1 !! n = inheritFrom dr d <$> m !! n) as Hm1.
  { intros n. unfold m1. rewrite map_lookup_imap. by destruct (m !! n). }
  assert (m1 !! dr = Some (inheritFrom dr d d)) as Hd1 by by rewrite Hm1, Hd.
  destruct (Handler_Validate dr (inheritFrom dr d d)).1 as [e|] eqn:He.
  { pose proof (validateLoop_fail o2 c1 (inheritFrom dr d d) e Hn2) as Hf. cbn in Hf. specialize (Hf (proj2 (Ho2 _) ltac:(eauto)) Hd1 He).
    unfold mbind at 1, io_bind. destruct (validateHandlers o2 c1) as [[]]; cbn in *; congruence. }
  destruct (validateLoop o2 c1 Hn2) as (failed & Hf & Hrun).
  { intros _ (h & e & Hl & Hv). cbn in *. rewrite Hd1 in Hl. injection Hl as <-. congruence. }
  rewrite (io_bind_ret _ _ _ _ _ Hrun), (io_bind_ret _ _ _ _ _ (dropLoop _ _)), initLoop by done.
  cbn. do 2 f_equal. apply map_eq. intros n.
  assert (∀ h, m !! n = Some h → n ∈ failed ↔ ∃ e, (Handler_Validate n (inheritFrom dr d h)).1 = Some e) as Hfn.
  { intros h Hh. rewrite Hf. unfold invalid. cbn. rewrite Hm1, Hh. cbn. split.
    - intros [_ (? & e & [= <-] & ?)]. eauto.
    - intros [e ?]. split; [apply Ho2; eauto|eauto]. }
  rewrite visited_lookup. unfold validTable. rewrite map_lookup_imap.
  rewrite map_lookup_filter. cbn. rewrite visited_lookup, Hm1.
  pose proof (Ho3 n) as H3. unfold validTable in H3. rewrite map_lookup_imap in H3.
  destruct (m !! n) as [h|] eqn:Hh; [|done]. cbn in *. specialize (Hfn h eq_refl).
  rewrite (bool_decide_true (n ∈ o2)) by (apply Ho2; eauto).
  unfold validHandler, revalidated in *.
  destruct (Handler_Validate n (inheritFrom dr d h)) as [[e|] h'] eqn:Hv; cbn in *.
  - rewrite option_guard_False; [done|]. rewrite Hfn. eauto.
  - rewrite option_guard_True by (rewrite Hfn; by intros [? ?]). cbn.
    by rewrite bool_decide_true by (apply H3; eauto).
Qed.

(** C24: Validating the table of runtime handlers is the same as validating each
    handler on its own, whatever the orders in which the loops visit the map: when
    the default handler is valid the table keeps exactly the valid handlers, each
    with what it inherits and its features; when it is not, its error is returned. *)
Theorem ValidateRuntimes_equiv c d o1 o2 o3 :
  t_Runtimes c !! t_DefaultRuntime c = Some d →
  visits o1 (t_Runtimes c) → visits o2 (t_Runtimes c) →
  visits o3 (validTable (t_DefaultRuntime c) d (t_Runtimes c)) →
  match (Handler_Validate (t_DefaultRuntime c) (inheritFrom (t_DefaultRuntime c) d d)).1 with
  | Some e => (ValidateRuntimes o1 o2 o3 c).1 = Fail e
  | None => ValidateRuntimes o1 o2 o3 c =
      (Ret (), c <| t_Runtimes := validTable (t_DefaultRuntime c) d (t_Runtimes c) |>)
  end.
Proof. apply ValidateRuntimes_run. Qed.

(** ** What validation promises of a handler *)

(** The promises of the packages: a found executable has a name, and the default
    minimum memory prints to something that parses. *)
Class ConfigEnvOk := {
  LookPath_nonempty n p : LookPath n = inl p → p ≠ "";
  default_memory : is_Some (match RAMInBytes (BytesSize defaultContainerMinMemory) with
                            | inl v => Some v | inr _ => None end);
}.

Context `{!ConfigEnvOk}.

Record handler_ok (h : RuntimeHandler) : Prop := {
  ok_type : RuntimeType h ∈ [""; DefaultRuntimeType; RuntimeTypeVM; RuntimeTypePod];
  ok_path : RuntimePath h ≠ "";
  ok_shim : RuntimeType h = RuntimeTypeVM → matchShim (Base (RuntimePath h)) = true;
  ok_configPath : RuntimeConfigPath h ≠ "" → RuntimeType h = RuntimeTypeVM;
  ok_annotations : ∀ a, a ∈ AllAllowedAnnotations → (a ∈ AllowedAnnotations h ↔ a ∉ DisallowedAnnotations h);
  ok_allowed : ∀ a, a ∈ AllowedAnnotations h → a ∈ AllAllowedAnnotations;
  ok_memory : ∃ v, RAMInBytes (ContainerMinMemory h) = inl v;
  ok_log : NoSyncLog h = true → RuntimeType h ∈ [DefaultRuntimeType; ""] }.

Lemma ValidateRuntimePath_ok name r r' :
  ValidateRuntimePath name r = (None, r') →
  RuntimePath r' ≠ "" ∧ (∃ p, r' = r <| RuntimePath := p |>) ∧
  (RuntimeType r' = RuntimeTypeVM → matchShim (Base (RuntimePath r')) = true).
Proof.
  assert (∀ r, (if ValidateRuntimeVMBinaryPattern r then None
    else Some (ErrorsNew "invalid runtime_path: containerd binary naming pattern is not followed")) = None →
    RuntimeType r = RuntimeTypeVM → matchShim (Base (RuntimePath r)) = true) as Hp.
  { intros r0. unfold ValidateRuntimeVMBinaryPattern. case_bool_decide as Ht; [done|].
    destruct (matchShim _); done. }
  unfold ValidateRuntimePath. case_bool_decide as He.
  - destruct (LookPath name) as [p|e] eqn:Hl; [|done]. intros [= Hv <-]. split; [|split; [by eexists|by apply Hp]].
    destruct r. by apply LookPath_nonempty in Hl.
  - destruct (missing _); [done|]. intros [= Hv <-]. split; [done|split; [|by apply Hp]].
    exists (RuntimePath r). by destruct r.
Qed.

Lemma ValidateContainerMinMemory_ok r :
  ∃ v, RAMInBytes (ContainerMinMemory (ValidateContainerMinMemory r).2) = inl v.
Proof.
  unfold ValidateContainerMinMemory. destruct default_memory as [v0 Hv0].
  destruct (RAMInBytes (BytesSize defaultContainerMinMemory)) as [v|e] eqn:Hd; [|done].
  set (r1 := if bool_decide _ then _ else r). clearbody r1.
  destruct (RAMInBytes (ContainerMinMemory r1)) as [z|] eqn:Hr; cbn; [by exists z|by exists v].
Qed.

Lemma ValidateContainerMinMemory_same r :
  ∃ mem, (ValidateContainerMinMemory r).2 = r <| ContainerMinMemory := mem |>.
Proof.
  unfold ValidateContainerMinMemory. case_bool_decide; destruct (RAMInBytes _); cbn;
    destruct r; cbn in *; eexists; cbn; reflexivity.
Qed.

(** A valid handler keeps every promise. *)
Lemma Handler_Validate_ok name r r' : Handler_Validate name r = (None, r') → handler_ok r'.
Proof.
  unfold Handler_Validate. destruct (ValidateRuntimeType r) eqn:Ht; [done|].
  destruct (ValidateRuntimePath name r) as [[e|] r1] eqn:Hp; [done|].
  destruct (ValidateRuntimeConfigPath r1) eqn:Hc; [done|].
  unfold ValidateRuntimeAllowedAnnotations.
  destruct (validateAllowedAndGenerateDisallowedAnnotations (AllowedAnnotations r1)) as [dis|e|e] eqn:Ha; [|done..].
  set (r2 := r1 <| DisallowedAnnotations := dis |>). intros [= Hl <-].
  apply ValidateRuntimePath_ok in Hp as (Hne & [p Hr1] & Hsh).
  destruct (ValidateContainerMinMemory_same r2) as [mem Hmem].
  pose proof (ValidateContainerMinMemory_ok r2) as Hok. rewrite Hmem in Hok, Hl |- *.
  apply disallowed_spec in Ha as [Hall Hdis].
  unfold ValidateRuntimeType in Ht. case_bool_decide as Htype; [|done].
  assert (RuntimeType r1 = RuntimeType r) as Htr by (subst r1; by destruct r).
  subst r2. clear Hr1 Hmem. destruct r1. cbn in *. split; cbn in *; try done.
  - by rewrite Htr.
  - intros Hcp. unfold ValidateRuntimeConfigPath in Hc. cbn in Hc. rewrite bool_decide_false in Hc by done.
    destruct (decide (RuntimeType0 = RuntimeTypeVM)); [done|]. by rewrite bool_decide_true in Hc by done.
  - intros a Hin. rewrite Hdis. destruct (decide (a ∈ AllowedAnnotations0)); tauto.
  - intros Hlog. unfold ValidateNoSyncLog in Hl. cbn in Hl. rewrite Hlog in Hl. simpl in Hl.
    case_bool_decide; [done|done].
Qed.

Lemma initializeFeatures_same r : ∃ f, initializeFeatures r = r <| h_features := f |>.
Proof.
  assert (∃ f, r = r <| h_features := f |>) as Hid by (exists (h_features r); by destruct r).
  unfold initializeFeatures, LoadRuntimeFeatures.
  destruct (RuntimeVersion _); [|done]. destruct (RuntimeFeatures _) as [out|]; [|done].
  destruct (UnmarshalFeatures _ _) as [[e|] f]; [by eexists|]. destruct (_ || _); [by eexists|].
  destruct r; cbn. eexists. cbn. reflexivity.
Qed.

Lemma handler_ok_features h f : handler_ok h → handler_ok (h <| h_features := f |>).
Proof. intros []. destruct h. by split. Qed.

Lemma validTable_ok dr d m name h : validTable dr d m !! name = Some h → handler_ok h.
Proof.
  unfold validTable. rewrite map_lookup_imap. destruct (m !! name) as [h0|]; [|done]. cbn.
  unfold validHandler. destruct (Handler_Validate name _) as [[e|] h1] eqn:Hv; [done|]. intros [= <-].
  destruct (initializeFeatures_same h1) as [f ->]. apply handler_ok_features. by apply (Handler_Validate_ok name _ _ Hv).
Qed.

(** Without a default runtime, or with one in the table, there is one afterwards. *)
Lemma ValidateDefaultRuntime_spec c :
  match t_Runtimes c !! t_DefaultRuntime c with
  | Some _ => ValidateDefaultRuntime c = (Ret (), c)
  | None =>
      if bool_decide (t_DefaultRuntime c = "") then
        ∃ c' d, ValidateDefaultRuntime c = (Ret (), c') ∧ t_DefaultRuntime c' = DefaultRuntime ∧
          t_Runtimes c' !! DefaultRuntime = Some d
      else ∃ e, ValidateDefaultRuntime c = (Fail e, c)
  end.
Proof.
  unfold ValidateDefaultRuntime, mbind, io_bind, gets, modify, mret, io_ret, fail. cbn.
  destruct c as [dr m ? ? ?]. cbn.
  destruct (m !! dr) as [h|]; [done|]. case_bool_decide as Hd; cbn.
  - rewrite bool_decide_false by auto. destruct (m !! DefaultRuntime) as [h|] eqn:Hm.
    + by eexists _, h.
    + eexists _, _. cbn. split; [done|]. split; [done|]. exact (lookup_insert_eq m DefaultRuntime _).
  - rewrite bool_decide_true by done. by eexists.
Qed.
End table.

(** ** An example, and two gaps of the reload *)

Module ExampleTable.
(** A host with crun and conmon, whose runtimes do not know the features command. *)
Definition env : ConfigEnv := Build_ConfigEnv
  (λ n, if bool_decide (n ∈ ["crun"; "conmon"]) then inl ("/usr/bin/" +:+ n) else inr (ErrorsNew "not found"))
  (λ p, if bool_decide (p ∈ ["/usr/bin/crun"; "/usr/bin/conmon"]) then None else Some (ErrorsNew "no such file"))
  (λ e, true) (λ _, inl 12582912) (λ _, "12MiB") (λ _, inl "1.0") (λ _, inr (ErrorsNew "exit status 1"))
  (λ f _, (None, f)) None.
#[export] Existing Instance env.

#[export] Instance env_ok : ConfigEnvOk.
Proof.
  split; [|by eexists]. intros n p. cbn. case_bool_decide; [|done]. intros [= <-]. done.
Qed.

Definition kata : RuntimeHandler := defaultRuntimeHandler <| RuntimeType := "vm" |> <| RuntimePath := "/usr/bin/kata" |>.
Definition high : RuntimeHandler := defaultRuntimeHandler <| RuntimeType := "" |> <| InheritDefaultRuntime := true |>.
Definition table : RuntimeTable :=
  mkTable "crun" {["crun" := defaultRuntimeHandler; "kata" := kata; "high" := high]} "" "" [].

(** A table whose default is not there. *)
Definition broken : RuntimeTable := mkTable "runc" {["crun" := defaultRuntimeHandler]} "" "" [].
End ExampleTable.

Section gaps.
Import ExampleTable.

(** The table with kata and high loses kata, and high has the path of crun. *)
Lemma ValidateRuntimes_equiv_witness :
  ∃ c, ValidateRuntimes ["kata"; "high"; "crun"] ["high"; "crun"; "kata"] ["crun"; "high"] table = (Ret (), c) ∧
  t_Runtimes c !! "kata" = None ∧ RuntimePath <$> t_Runtimes c !! "high" = Some "/usr/bin/crun".
Proof.
  exists (table <| t_Runtimes := validTable "crun" defaultRuntimeHandler (t_Runtimes table) |>).
  assert ((Handler_Validate "crun" (inheritFrom "crun" defaultRuntimeHandler defaultRuntimeHandler)).1 = None)
    as Hv by (vm_compute; reflexivity).
  pose proof (ValidateRuntimes_equiv table defaultRuntimeHandler ["kata"; "high"; "crun"]
    ["high"; "crun"; "kata"] ["crun"; "high"] eq_refl) as H.
  change (t_DefaultRuntime table) with "crun" in H. rewrite Hv in H.
  split; [apply H; apply visits_dom; refine (bool_decide_unpack _ _); vm_compute; exact I|].
  split; vm_compute; reflexivity.
Defined.

(** A reload that only changes the handler of crun: the validated handlers never
    compare equal to those read from the file, the table is replaced, and the new
    handlers have no monitor path, since only the start of the server runs
    [TranslateMonitorFields]. *)
Lemma ReloadRuntimes_loses_monitor :
  let start := (ValidateRuntimes ["crun"] ["crun"] ["crun"] ;;
                TranslateMonitorFields (λ _, None) true true ["crun"])
                 (mkTable "crun" {["crun" := defaultRuntimeHandler]} "" "" []) in
  let live := start.2 in
  let reloaded := ReloadRuntimes ["crun"] ["crun"] ["crun"]
                    (mkTable "crun" {["crun" := defaultRuntimeHandler]} "" "" []) live in
  start.1 = Ret () ∧ reloaded.1 = Ret () ∧
  MonitorPath <$> t_Runtimes live !! "crun" = Some "/usr/bin/conmon" ∧
  MonitorPath <$> t_Runtimes reloaded.2 !! "crun" = Some "".
Proof. vm_compute. done. Qed.

(** A reload that fails has already put the new table in place: the default runtime
    of the running server does not exist. *)
Lemma ReloadRuntimes_not_atomic :
  let live := mkTable "crun" {["crun" := defaultRuntimeHandler]} "" "" [] in
  let reloaded := ReloadRuntimes ["crun"] ["crun"] ["crun"] broken live in
  (∃ e, reloaded.1 = Fail e) ∧ t_Runtimes reloaded.2 !! t_DefaultRuntime reloaded.2 = None.
Proof. vm_compute. eauto. Qed.
End gaps.
