(* ===== verification/RuntimeDispatch.v ===== *)
(** * RuntimeDispatch: the runtime of a container (internal/oci/oci.go)

    The [Runtime] answers every operation on a container by the implementation that
    belongs to it: created with the container from its handler, kept by container ID
    until the container is deleted, and made anew for a container of before a
    restart. *)

From S2P Require Import Prelude GoStrings ConfigData ConfigRuntime.
Local Open Scope Z_scope.

Inductive ImplKind := RuntimeOCI | RuntimeVM | RuntimePod.
#[export] Instance ImplKind_eq_dec : EqDecision ImplKind.
Proof. solve_decision. Defined.

(** An implementation is a fresh object [impl_ref] with its handler. *)
Record Impl := mkImpl { impl_ref : nat; impl_kind : ImplKind; impl_handler : RuntimeHandler }.
#[export] Instance Impl_eq_dec : EqDecision Impl.
Proof. solve_decision. Defined.

(** The calls of the [RuntimeImpl] interface, without the container and the streams. *)
Inductive Call :=
  | CreateContainer (cgroupParent : string) (restore : bool)
  | StartContainer
  | ExecContainer (cmd : list string) (tty : bool)
  | ExecSyncContainer (cmd : list string) (timeout : Z)
  | UpdateContainer (resources : string)
  | StopContainer (timeout : Z)
  | DeleteContainer
  | UpdateContainerStatus
  | PauseContainer
  | UnpauseContainer
  | ContainerStats (cgroup : string)
  | SignalContainer (sig : Z)
  | AttachContainer (tty : bool)
  | PortForwardContainer (netNsPath : string) (port : Z)
  | ReopenContainerLog
  | CheckpointContainer (leaveRunning : bool)
  | RestoreContainer (cgroupParent mountLabel : string)
  | IsContainerAlive.

(** The runtime's part of a container: its ID and its handler. *)
Record Ctr := mkCtr { c_ID : string; c_runtimeHandler : string }.

Record Runtime := mkRuntime {
  r_config : RuntimeTable;
  runtimeImplMap : gmap string Impl;
  r_objects : nat;                        (** objects made so far *)
  r_calls : list (nat * string * Call) }. (** calls answered: object, container, call *)
#[export] Instance Runtime_eta : Eta Runtime := λ r,
  mkRuntime (r_config r) (runtimeImplMap r) (r_objects r) (r_calls r).

(** [oci.New]; [mkdir] is the creation of the directory for exec PIDs. *)
Definition New (mkdir : outcome ()) (c : RuntimeTable) : outcome Runtime :=
  mkdir ;; Ret (mkRuntime c ∅ 0 []).

(** ** Handlers *)

Definition ValidateRuntimeHandler (handler : string) : io Runtime RuntimeHandler :=
  if bool_decide (handler = "") then fail (ErrorsNew "empty runtime handler")
  else
    r ← gets id;
    match t_Runtimes (r_config r) !! handler with
    | None => fail (ErrorsNew ("failed to find runtime handler " +:+ handler +:+ " from runtime list"))
    | Some rh =>
        if bool_decide (RuntimePath rh = "") then fail (ErrorsNew ("empty runtime path for runtime handler " +:+ handler))
        else mret rh
    end.

(** [None] is the nil pointer of a default runtime that is not in the table. *)
Definition getRuntimeHandler (handler : string) : io Runtime (option RuntimeHandler) :=
  if bool_decide (handler ≠ "") then Some <$> ValidateRuntimeHandler handler
  else gets (λ r, t_Runtimes (r_config r) !! t_DefaultRuntime (r_config r)).

(** A field of the handler: the pointer is dereferenced. *)
Definition handlerField {A} (f : RuntimeHandler → A) (handler : string) : io Runtime A :=
  rh ← getRuntimeHandler handler;
  match rh with
  | Some rh => mret (f rh)
  | None => panic "nil pointer dereference"
  end.

(** An error makes the answer false. *)
Definition orFalse (m : io Runtime bool) : io Runtime bool :=
  r ← try m; mret (match r with inl b => b | inr _ => false end).

Definition PrivilegedWithoutHostDevices : string → io Runtime bool := handlerField h_PrivilegedWithoutHostDevices.
Definition PlatformRuntimePath (handler platform : string) : io Runtime string :=
  handlerField (λ rh, default "" (PlatformRuntimePaths rh !! platform)) handler.
Definition r_AllowedAnnotations : string → io Runtime (list string) := handlerField AllowedAnnotations.
Definition r_RuntimeType : string → io Runtime string := handlerField RuntimeType.
Definition RuntimeSupportsIDMap (handler : string) : io Runtime bool :=
  orFalse (handlerField Handler_SupportsIDMap handler).
Definition RuntimeSupportsRROMounts (handler : string) : io Runtime bool :=
  orFalse (handlerField Handler_SupportsRROMounts handler).
Definition RuntimeDefaultAnnotations : string → io Runtime (gmap string string) := handlerField DefaultAnnotations.

(** The error of [units.RAMInBytes] is ignored, its value is then zero. *)
Definition GetContainerMinMemory `{ConfigEnv} : string → io Runtime Z :=
  handlerField (λ rh, match RAMInBytes (ContainerMinMemory rh) with inl v => v | inr _ => 0 end).

(** ** Implementations *)

Section dispatch.
(** [newRuntimePod] starts the conmon-rs server of the container's pod and may fail;
    [answer] is what the implementation answers to a call. *)
Variable newRuntimePod : Runtime → RuntimeHandler → Ctr → option goerr.
Variable answer : Runtime → Impl → Ctr → Call → outcome ().

Definition newRuntimeImpl (c : Ctr) : io Runtime Impl :=
  rh ← getRuntimeHandler (c_runtimeHandler c);
  match rh with
  | None => panic "nil pointer dereference"
  | Some rh =>
      r ← gets id;
      let make kind :=
        modify (λ r, r <| r_objects ::= S |>) ;; mret (mkImpl (r_objects r) kind rh) in
      if bool_decide (RuntimeType rh = RuntimeTypeVM) then make RuntimeVM
      else if bool_decide (RuntimeType rh = RuntimeTypePod) then
        match newRuntimePod r rh c with
        | Some e => fail e
        | None => make RuntimePod
        end
      else make RuntimeOCI
  end.

(** [RuntimeImpl] in its two critical sections: under the read lock, then under the
    write lock. *)
Definition lookupImpl (c : Ctr) : io Runtime (option Impl) := gets (λ r, runtimeImplMap r !! c_ID c).

Definition storeImpl (c : Ctr) : io Runtime Impl :=
  impl ← newRuntimeImpl c;
  modify (λ r, r <| runtimeImplMap ::= <[c_ID c := impl]> |>) ;; mret impl.

Definition r_RuntimeImpl (c : Ctr) : io Runtime Impl :=
  o ← lookupImpl c;
  match o with
  | Some impl => mret impl
  | None => storeImpl c
  end.

Definition callImpl (impl : Impl) (c : Ctr) (call : Call) : io Runtime () :=
  r ← gets id;
  modify (λ r, r <| r_calls ::= (.++ [(impl_ref impl, c_ID c, call)]) |>) ;;
  lift (answer r impl c call).

Definition r_CreateContainer (c : Ctr) (cgroupParent : string) (restore : bool) : io Runtime () :=
  impl ← storeImpl c;
  callImpl impl c (CreateContainer cgroupParent restore).

(** The deferred removal from the map happens only for an implementation that was in
    it, and when the deletion succeeds. *)
Definition r_DeleteContainer (c : Ctr) : io Runtime () :=
  o ← lookupImpl c;
  match o with
  | None => impl ← newRuntimeImpl c; callImpl impl c DeleteContainer
  | Some impl =>
      callImpl impl c DeleteContainer ;;
      modify (λ r, r <| runtimeImplMap ::= delete (c_ID c) |>)
  end.

(** Every other operation asks for the implementation and passes the call on. *)
Definition dispatch (c : Ctr) (call : Call) : io Runtime () :=
  impl ← r_RuntimeImpl c; callImpl impl c call.

Definition r_StartContainer (c : Ctr) := dispatch c StartContainer.
Definition r_ExecContainer (c : Ctr) (cmd : list string) (tty : bool) := dispatch c (ExecContainer cmd tty).
Definition r_ExecSyncContainer (c : Ctr) (cmd : list string) (timeout : Z) := dispatch c (ExecSyncContainer cmd timeout).
Definition r_UpdateContainer (c : Ctr) (resources : string) := dispatch c (UpdateContainer resources).
Definition r_StopContainer (c : Ctr) (timeout : Z) := dispatch c (StopContainer timeout).
Definition r_UpdateContainerStatus (c : Ctr) := dispatch c UpdateContainerStatus.
Definition r_PauseContainer (c : Ctr) := dispatch c PauseContainer.
Definition r_UnpauseContainer (c : Ctr) := dispatch c UnpauseContainer.
Definition r_ContainerStats (c : Ctr) (cgroup : string) := dispatch c (ContainerStats cgroup).
Definition r_SignalContainer (c : Ctr) (sig : Z) := dispatch c (SignalContainer sig).
Definition r_AttachContainer (c : Ctr) (tty : bool) := dispatch c (AttachContainer tty).
Definition r_PortForwardContainer (c : Ctr) (netNsPath : string) (port : Z) :=
  dispatch c (PortForwardContainer netNsPath port).
Definition r_ReopenContainerLog (c : Ctr) := dispatch c ReopenContainerLog.
Definition r_CheckpointContainer (c : Ctr) (leaveRunning : bool) := dispatch c (CheckpointContainer leaveRunning).
Definition r_RestoreContainer (c : Ctr) (cgroupParent mountLabel : string) :=
  dispatch c (RestoreContainer cgroupParent mountLabel).
Definition r_IsContainerAlive (c : Ctr) := dispatch c IsContainerAlive.

(** One operation of a client. *)
Definition op (c : Ctr) (call : Call) : io Runtime () :=
  match call with
  | CreateContainer cgroupParent restore => r_CreateContainer c cgroupParent restore
  | DeleteContainer => r_DeleteContainer c
  | call => dispatch c call
  end.

Fixpoint ops (l : list (Ctr * Call)) (r : Runtime) : Runtime :=
  match l with
  | [] => r
  | (c, call) :: l => ops l (op c call r).2
  end.
End dispatch.

(** ** Lemmas *)

Lemma getRuntimeHandler_run handler r :
  (getRuntimeHandler handler r).2 = r ∧
  match (getRuntimeHandler handler r).1 with
  | Ret None => handler = "" ∧ t_Runtimes (r_config r) !! t_DefaultRuntime (r_config r) = None
  | Ret (Some rh) =>
      t_Runtimes (r_config r) !! (if bool_decide (handler = "") then t_DefaultRuntime (r_config r) else handler)
        = Some rh
  | Fail _ => handler ≠ "" ∧ ∀ rh, t_Runtimes (r_config r) !! handler = Some rh → RuntimePath rh = ""
  | Panic _ => False
  end.
Proof.
  unfold getRuntimeHandler, ValidateRuntimeHandler. case_bool_decide as Hh.
  - rewrite bool_decide_false by done. unfold fmap, io_fmap, mbind, io_bind, gets. cbn.
    destruct (t_Runtimes (r_config r) !! handler) as [rh|] eqn:Hl; cbn; [|done].
    case_bool_decide as Hp; cbn; [|done].
    split; [done|]. split; [done|]. intros rh' [= <-]. done.
  - cbn. split; [done|]. destruct (t_Runtimes _ !! _) eqn:Hl.
    + by rewrite bool_decide_true.
    + by split.
Qed.

(** [f] leaves the implementations, and answers no call. *)
Definition quiet {A} (m : io Runtime A) : Prop := ∀ r,
  runtimeImplMap (m r).2 = runtimeImplMap r ∧ r_calls (m r).2 = r_calls r ∧ r_config (m r).2 = r_config r.

Lemma newRuntimeImpl_quiet nrp c : quiet (newRuntimeImpl nrp c).
Proof.
  intros r. unfold newRuntimeImpl, mbind, io_bind, gets, mret, io_ret, modify. cbn.
  destruct (getRuntimeHandler_run (c_runtimeHandler c) r) as [Hr _].
  destruct (getRuntimeHandler (c_runtimeHandler c) r) as [[[rh|]|e|e] r1]; cbn in *; subst; try done.
  repeat case_match; done.
Qed.

Section lemmas.
Variable newRuntimePod : Runtime → RuntimeHandler → Ctr → option goerr.
Variable answer : Runtime → Impl → Ctr → Call → outcome ().
Local Abbreviation storeImpl' := (storeImpl newRuntimePod).
Local Abbreviation op' := (op newRuntimePod answer).

Lemma storeImpl_run c r :
  let '(o, r') := storeImpl' c r in
  r_calls r' = r_calls r ∧ r_config r' = r_config r ∧
  match o with
  | Ret impl => runtimeImplMap r' = <[c_ID c := impl]> (runtimeImplMap r)
  | _ => runtimeImplMap r' = runtimeImplMap r
  end.
Proof.
  unfold storeImpl, mbind, io_bind, modify, mret, io_ret.
  pose proof (newRuntimeImpl_quiet newRuntimePod c r) as (Hm & Hc & Hg).
  destruct (newRuntimeImpl newRuntimePod c r) as [[impl|e|e] r1]; cbn in *; try done. by rewrite Hm.
Qed.

(** What one operation does to the implementation of container [id]. *)
Lemma op_run c call r id impl :
  runtimeImplMap r !! id = Some impl →
  (c_ID c = id → (∀ cg b, call ≠ CreateContainer cg b) ∧ call ≠ DeleteContainer) →
  let r' := (op' c call r).2 in
  runtimeImplMap r' !! id = Some impl ∧
  ∃ new, r_calls r' = r_calls r ++ new ∧ ∀ x, x ∈ new → x.1.2 = id → x.1.1 = impl_ref impl.
Proof.
  intros Hi Hc r'. subst r'.
  assert (∀ k o r1, runtimeImplMap r1 !! id = Some impl → r_calls r1 = r_calls r →
    (c_ID c = id → o = impl) →
    let r2 := (callImpl answer o c k r1).2 in
    runtimeImplMap r2 !! id = Some impl ∧
    ∃ new, r_calls r2 = r_calls r ++ new ∧ ∀ x, x ∈ new → x.1.2 = id → x.1.1 = impl_ref impl) as Hcall.
  { intros k o r1 Hm Hr Ho. split; [by destruct r1|]. exists [(impl_ref o, c_ID c, k)].
    split; [rewrite <- Hr; by destruct r1|]. intros x ->%list_elem_of_singleton. cbn. intros Hid. by rewrite Ho. }
  assert (∃ new, r_calls r = r_calls r ++ new ∧ ∀ x, x ∈ new → x.1.2 = id → x.1.1 = impl_ref impl) as Hnone.
  { exists []. split; [by rewrite app_nil_r|set_solver]. }
  assert (∀ k, let r2 := (dispatch newRuntimePod answer c k r).2 in runtimeImplMap r2 !! id = Some impl ∧
    ∃ new, r_calls r2 = r_calls r ++ new ∧ ∀ x, x ∈ new → x.1.2 = id → x.1.1 = impl_ref impl) as Hdisp.
  { intros k. unfold dispatch, r_RuntimeImpl, mbind, io_bind, lookupImpl, gets. cbn.
    destruct (runtimeImplMap r !! c_ID c) as [o|] eqn:Ho; cbn.
    - apply Hcall; [done|done|]. intros Hid. congruence.
    - pose proof (storeImpl_run c r) as Hs. destruct (storeImpl' c r) as [[o|e|e] r1]; destruct Hs as (Hk & _ & Hm);
        cbn [snd]; [|by rewrite Hm, Hk..].
      apply Hcall; rewrite ?Hm; [|done|congruence]. rewrite lookup_insert_ne by congruence. done. }
  destruct (decide (c_ID c = id)) as [Hid|Hid].
  { destruct (Hc Hid) as [Hcr Hdel]. destruct call; try apply Hdisp; naive_solver. }
  destruct call; try apply Hdisp.
  - unfold op', r_CreateContainer, mbind, io_bind. pose proof (storeImpl_run c r) as Hs.
    destruct (storeImpl' c r) as [[o|e|e] r1]; destruct Hs as (Hk & _ & Hm); cbn [snd]; [|by rewrite Hm, Hk..].
    apply Hcall; rewrite ?Hm; [|done|done]. by rewrite lookup_insert_ne.
  - unfold op', r_DeleteContainer, mbind, io_bind, lookupImpl, gets. cbn.
    destruct (runtimeImplMap r !! c_ID c) as [o|] eqn:Ho; cbn.
    + destruct (Hcall DeleteContainer o r Hi eq_refl) as [Hm Hn]; [done|]. unfold callImpl, mbind, io_bind in *.
      cbn in *. destruct (answer _ _ _ _); cbn; [|done..]. rewrite lookup_delete_ne by done. by split.
    + pose proof (newRuntimeImpl_quiet newRuntimePod c r) as (Hm & Hk & _).
      destruct (newRuntimeImpl newRuntimePod c r) as [[o|e|e] r1]; cbn in *; rewrite ?Hm, ?Hk; try done.
      apply Hcall; [by rewrite Hm|done|done].
Qed.
End lemmas.

(** ** Theorems *)

(** Once the table of handlers is validated, looking a handler up is total and
    typed: the empty name and every name of the table give a handler whose type,
    path, annotations and memory are well formed, so no field access dereferences a
    nil pointer and the minimum memory that is read without an error check parses;
    any other name is an error. *)
Theorem getRuntimeHandler_typed `{ConfigEnv, !ConfigEnvOk} c d o1 o2 o3 r handler :
  t_Runtimes c !! t_DefaultRuntime c = Some d →
  visits o1 (t_Runtimes c) → visits o2 (t_Runtimes c) →
  visits o3 (validTable (t_DefaultRuntime c) d (t_Runtimes c)) →
  ValidateRuntimes o1 o2 o3 c = (Ret (), r_config r) →
  if bool_decide (handler = "" ∨ is_Some (t_Runtimes (r_config r) !! handler)) then
    ∃ rh v, getRuntimeHandler handler r = (Ret (Some rh), r) ∧ handler_ok rh ∧
      RAMInBytes (ContainerMinMemory rh) = inl v ∧ GetContainerMinMemory handler r = (Ret v, r)
  else ∃ e, getRuntimeHandler handler r = (Fail e, r).
Proof.
  intros Hd H1 H2 H3 Hrun. pose proof (ValidateRuntimes_run c d o1 o2 o3 Hd H1 H2 H3) as He.
  rewrite Hrun in He. destruct (Handler_Validate _ _).1 as [e|] eqn:Hv; [done|]. injection He as Hc.
  assert (∃ dh, t_Runtimes (r_config r) !! t_DefaultRuntime (r_config r) = Some dh) as [dh Hdh].
  { rewrite Hc. destruct c as [dr m ? ? ?]. cbn in *. unfold validTable. rewrite map_lookup_imap, Hd. cbn.
    unfold validHandler. destruct (Handler_Validate dr _) as [[]]; cbn in Hv; [done|by eexists]. }
  assert (∀ n rh, t_Runtimes (r_config r) !! n = Some rh → handler_ok rh) as Hok.
  { intros n rh. rewrite Hc. destruct c. cbn. apply validTable_ok. }
  destruct (getRuntimeHandler_run handler r) as [Hs Hg]. unfold GetContainerMinMemory, handlerField, mbind, io_bind.
  destruct (getRuntimeHandler handler r) as [[[rh|]|e|e] r']; cbn in Hs, Hg; subst r'; [|by destruct Hg; congruence| |done].
  - pose proof (Hok _ _ Hg) as Hrh. destruct (ok_memory _ Hrh) as [v Hmem].
    rewrite bool_decide_true; [exists rh, v; cbn; by rewrite Hmem|].
    case_bool_decide; [by left|right; by eexists].
  - destruct Hg as [Hne Hp]. rewrite bool_decide_false; [by eexists|]. intros [?|[rh Hrh]]; [done|].
    by destruct (ok_path _ (Hok _ _ Hrh)), (Hp rh Hrh).
Qed.

(** From the creation of a container to its deletion one implementation answers:
    in any sequence of operations without a creation or a deletion of container [id],
    the implementation of [id] stays, and every call on [id] goes to it, however the
    operations on other containers interleave and fail. *)
Theorem ops_same_impl newRuntimePod answer l r id impl :
  runtimeImplMap r !! id = Some impl →
  Forall (λ x, c_ID x.1 = id → (∀ cg b, x.2 ≠ CreateContainer cg b) ∧ x.2 ≠ DeleteContainer) l →
  let r' := ops newRuntimePod answer l r in
  runtimeImplMap r' !! id = Some impl ∧
  ∃ new, r_calls r' = r_calls r ++ new ∧ ∀ x, x ∈ new → x.1.2 = id → x.1.1 = impl_ref impl.
Proof.
  intros Hi Hl. revert r Hi. induction Hl as [|[c call] l Hc Hl IH]; intros r Hi; cbn.
  { split; [done|]. exists []. split; [by rewrite app_nil_r|set_solver]. }
  destruct (op_run newRuntimePod answer c call r id impl Hi Hc) as (Hi1 & new1 & Hk1 & Hn1).
  destruct (IH _ Hi1) as (Hi2 & new2 & Hk2 & Hn2). split; [done|]. exists (new1 ++ new2).
  split; [by rewrite Hk2, Hk1, app_assoc|]. intros x [Hx|Hx]%elem_of_app; auto.
Qed.

Lemma callImpl_run answer impl c call r :
  callImpl answer impl c call r =
    (answer r impl c call, r <| r_calls ::= (.++ [(impl_ref impl, c_ID c, call)]) |>).
Proof. reflexivity. Qed.

(** A deletion forgets the implementation only when the runtime succeeds, so a failed
    one can be repeated. *)
Lemma r_DeleteContainer_spec newRuntimePod answer c r impl :
  runtimeImplMap r !! c_ID c = Some impl →
  (r_DeleteContainer newRuntimePod answer c r).1 = answer r impl c DeleteContainer ∧
  runtimeImplMap (r_DeleteContainer newRuntimePod answer c r).2 !! c_ID c =
    match answer r impl c DeleteContainer with Ret _ => None | _ => Some impl end.
Proof.
  intros Hi. unfold r_DeleteContainer, lookupImpl.
  rewrite (io_bind_ret (gets _) _ r (Some impl) r) by (unfold gets; by rewrite Hi).
  unfold mbind, io_bind. rewrite callImpl_run.
  destruct (answer r impl c DeleteContainer) as [[]|e|e]; split; try done.
  exact (lookup_delete_eq (runtimeImplMap r) (c_ID c)).
Qed.

Module ExampleDispatch.
Import ExampleTable.
Definition c0 : Ctr := mkCtr "c0" "".
Definition c1 : Ctr := mkCtr "c1" "crun".
Definition config : RuntimeTable :=
  (ValidateRuntimes ["crun"] ["crun"] ["crun"] (mkTable "crun" {["crun" := defaultRuntimeHandler]} "" "" [])).2.
Definition start : Runtime := mkRuntime config ∅ 0 [].
Definition impl0 : Impl := mkImpl 0 RuntimeOCI (default defaultRuntimeHandler (t_Runtimes config !! "crun")).
Definition after_create : Runtime := (r_CreateContainer (λ _ _ _, None) (λ _ _ _ _, Ret ()) c0 "pod" false start).2.
End ExampleDispatch.

Section witnesses.
Import ExampleTable ExampleDispatch.

Lemma getRuntimeHandler_typed_witness :
  (∃ rh v, getRuntimeHandler "" start = (Ret (Some rh), start) ∧ handler_ok rh ∧
     RAMInBytes (ContainerMinMemory rh) = inl v ∧ GetContainerMinMemory "" start = (Ret v, start)) ∧
  ∃ e, getRuntimeHandler "runc" start = (Fail e, start).
Proof.
  split.
  - apply (getRuntimeHandler_typed (mkTable "crun" {["crun" := defaultRuntimeHandler]} "" "" [])
      defaultRuntimeHandler ["crun"] ["crun"] ["crun"] start "");
      first [reflexivity | apply visits_dom; refine (bool_decide_unpack _ _); vm_compute; exact I
            | vm_compute; reflexivity].
  - apply (getRuntimeHandler_typed (mkTable "crun" {["crun" := defaultRuntimeHandler]} "" "" [])
      defaultRuntimeHandler ["crun"] ["crun"] ["crun"] start "runc");
      first [reflexivity | apply visits_dom; refine (bool_decide_unpack _ _); vm_compute; exact I
            | vm_compute; reflexivity].
Defined.

Lemma ops_same_impl_witness :
  runtimeImplMap (ops (λ _ _ _, None) (λ _ _ _ _, Ret ())
    [(c0, StartContainer); (c1, CreateContainer "pod" false); (c1, DeleteContainer); (c0, StopContainer 10)]
    after_create) !! "c0" = Some impl0.
Proof.
  apply (ops_same_impl (λ _ _ _, None) (λ _ _ _ _, Ret ())
    [(c0, StartContainer); (c1, CreateContainer "pod" false); (c1, DeleteContainer); (c0, StopContainer 10)]
    after_create "c0" impl0).
  - vm_compute. reflexivity.
  - repeat constructor; cbn; try discriminate; intros; discriminate.
Defined.

(** The two critical sections of [RuntimeImpl] do not check again: two first calls
    on a container of before a restart make two implementations, and only the second
    stays in the map. *)
Lemma RuntimeImpl_race :
  let find : io Runtime (option Impl) := lookupImpl c0 in
  let store := storeImpl (λ _ _ _, None) c0 in
  let s1 := (find ;; find ;; store) start in
  let s2 := store s1.2 in
  (find start).1 = Ret None ∧
  match s1.1, s2.1 with
  | Ret a, Ret b => impl_ref a ≠ impl_ref b ∧ runtimeImplMap s2.2 !! "c0" = Some b
  | _, _ => False
  end.
Proof. split; [reflexivity|]. vm_compute. split; [discriminate|reflexivity]. Qed.
End witnesses.
