(* ===== verification/Config.v ===== *)
(** * Config: validation and reload of the whole configuration (pkg/config/config.go,
    pkg/config/reload.go, internal/config/ulimits, internal/config/capabilities)

    The sections of the configuration as records, their validation as the code chains
    it, and the options a SIGHUP reloads.  What the code hands to other packages
    (profiles to load, directories to make, processes to probe) is a [Load]: the
    configuration keeps the list of those done, and a class says which ones fail. *)

From S2P Require Import Prelude GoStrings Cpuset ConfigData ConfigRuntime.
From Stdlib Require Import Ascii.
Local Open Scope Z_scope.

Inductive Load :=
  | LoadUlimit (u : string)
  | LoadDeviceList (devs : list string)
  | LoadLocation (timezone : string)
  | ValidateCapabilities (caps : list string)
  | PrependCommandsWith (executable cpus : string)
  | SetCgroupManager (name : string)
  | MakeHooksDir (dir : string)
  | CdiConfigure (dirs : list string)
  | NamespacesInitialize (dir pinns : string)
  | SeccompLoadProfile (profile : string)
  | SeccompLoadDefaultProfile
  | SeccompSetNotifierPath (path : string)
  | ApparmorLoadProfile (profile : string)
  | BlockioLoad (file : string)
  | BlockioSetReload (b : bool)
  | RdtLoad (file : string)
  | MakeLogDir (dir : string)
  | MakeNetworkDir (dir : string)
  | MakePluginDir (dir : string)
  | CniNew (network dir : string) (plugins : list string)
  | NodeValidate
  | RemoveUnusedSocket (path : string)
  | SelinuxSetDisabled
  | NriValidate (onExecution : bool)
  | SetLogLevel (level : string)
  | SetLogFilter (filter : string).

Class LoadFaults := { loadFault : Load → option goerr }.

Record RootConfig := mkRoot { LogDir : string }.
Record APIConfig := mkAPI {
  Listen : string; GRPCMaxSendMsgSize : Z; GRPCMaxRecvMsgSize : Z;
  StreamEnableTLS : bool; StreamTLSCert : string; StreamTLSKey : string }.
#[export] Instance APIConfig_eta : Eta APIConfig := λ c,
  mkAPI (Listen c) (GRPCMaxSendMsgSize c) (GRPCMaxRecvMsgSize c) (StreamEnableTLS c) (StreamTLSCert c) (StreamTLSKey c).
Record NetworkConfig := mkNetwork {
  CNIDefaultNetwork : string; NetworkDir : string; PluginDirs : list string; PluginDir : string }.
#[export] Instance NetworkConfig_eta : Eta NetworkConfig := λ c,
  mkNetwork (CNIDefaultNetwork c) (NetworkDir c) (PluginDirs c) (PluginDir c).
Record ImageConfig := mkImage {
  ImageVolumes : string; PauseImage : string; PauseCommand : string; PinnedImages : list string }.
#[export] Instance ImageConfig_eta : Eta ImageConfig := λ c,
  mkImage (ImageVolumes c) (PauseImage c) (PauseCommand c) (PinnedImages c).
Record RuntimeConfig := mkRuntimeConfig {
  SELinux : bool;
  DefaultUlimits : list string; AdditionalDevices : list string;
  Table : RuntimeTable;  (** DefaultRuntime, Runtimes and the conmon fields *)
  Timezone : string; LogSizeMax : Z; CtrStopTimeout : Z;
  DefaultSysctls : list string; DefaultCapabilities : list string;
  InfraCtrCPUSet : string; c_Workloads : gmap string WorkloadConfig;
  CgroupManagerName : string; HooksDir : list string; CDISpecDirs : list string;
  PinnsPath : string; NamespacesDir : string;
  SeccompProfile : string; ApparmorProfile : string;
  BlockIOConfigFile : string; BlockIOReload : bool; RdtConfigFile : string;
  LogLevel : string; LogFilter : string }.
#[export] Instance RuntimeConfig_eta : Eta RuntimeConfig := λ c,
  mkRuntimeConfig (SELinux c) (DefaultUlimits c) (AdditionalDevices c) (Table c) (Timezone c) (LogSizeMax c)
    (CtrStopTimeout c) (DefaultSysctls c) (DefaultCapabilities c) (InfraCtrCPUSet c) (c_Workloads c)
    (CgroupManagerName c) (HooksDir c) (CDISpecDirs c) (PinnsPath c) (NamespacesDir c) (SeccompProfile c)
    (ApparmorProfile c) (BlockIOConfigFile c) (BlockIOReload c) (RdtConfigFile c) (LogLevel c) (LogFilter c).

Record Config := mkConfig {
  c_Root : RootConfig; c_API : APIConfig; c_Runtime : RuntimeConfig; c_Image : ImageConfig;
  c_Network : NetworkConfig; c_loads : list Load }.
#[export] Instance Config_eta : Eta Config := λ c,
  mkConfig (c_Root c) (c_API c) (c_Runtime c) (c_Image c) (c_Network c) (c_loads c).

Definition OCIBufSize : Z := 8192.
Definition defaultCtrStopTimeout : Z := 30.
Definition defaultGRPCMaxMsgSize : Z := 80 * 1024 * 1024.

Section validate.
Context `{ConfigEnv, LoadFaults}.
(** The devices of the host; which hooks directories exist and are directories,
    [Some true] for a path that is something else; the node's [IsDirectory];
    [conmonmgr.New]; and the orders of the visits of maps. *)
Variable DeviceFromPath : string → string → outcome DevNode.
Variable IsDirectory : string → option goerr.
Variable conmonNew : string → option goerr.
Variables o1 o2 o3 o4 : list string.
Variable workloadNames : list string.

Definition load (l : Load) : io Config () := λ c,
  match loadFault l with
  | Some e => (Fail e, c)
  | None => (Ret (), c <| c_loads ::= (.++ [l]) |>)
  end.

(** A change of one section. *)
Definition rt (f : RuntimeConfig → RuntimeConfig) : io Config () := modify (λ c, c <| c_Runtime ::= f |>).

(** An operation on the table of runtime handlers. *)
Definition on_table {A} (m : io RuntimeTable A) : io Config A := λ c,
  let '(o, t) := m (Table (c_Runtime c)) in
  (o, c <| c_Runtime ::= λ r, r <| Table := t |> |>).

Definition APIConfig_Validate (onExecution : bool) : io Config () :=
  c ← gets id;
  when (GRPCMaxSendMsgSize (c_API c) <=? 0)
    (modify (λ c, c <| c_API ::= λ a, a <| GRPCMaxSendMsgSize := defaultGRPCMaxMsgSize |> |>)) ;;
  when (GRPCMaxRecvMsgSize (c_API c) <=? 0)
    (modify (λ c, c <| c_API ::= λ a, a <| GRPCMaxRecvMsgSize := defaultGRPCMaxMsgSize |> |>)) ;;
  if StreamEnableTLS (c_API c) && bool_decide (StreamTLSCert (c_API c) = "") then
    fail (ErrorsNew "stream TLS cert path is empty")
  else if StreamEnableTLS (c_API c) && bool_decide (StreamTLSKey (c_API c) = "") then
    fail (ErrorsNew "stream TLS key path is empty")
  else when onExecution (load (RemoveUnusedSocket (Listen (c_API c)))).

Definition RootConfig_Validate (onExecution : bool) : io Config () :=
  c ← gets id;
  when onExecution
    (if negb (HasPrefix (LogDir (c_Root c)) "/") then fail (ErrorsNew "log_dir is not an absolute path")
     else wrap_err "invalid log_dir: " (load (MakeLogDir (LogDir (c_Root c))))).

Definition NetworkConfig_Validate (onExecution : bool) : io Config () :=
  when onExecution
    (c ← gets id;
     (match IsDirectory (NetworkDir (c_Network c)) with
      | None => mret ()
      | Some e =>
          if IsNotExist e then wrap_err "cannot create network_dir: " (load (MakeNetworkDir (NetworkDir (c_Network c))))
          else fail (Errorf "invalid network_dir: " e)
      end) ;;
     for_each (λ d, wrap_err "invalid plugin_dirs entry: " (load (MakePluginDir d))) (PluginDirs (c_Network c)) ;;
     when (bool_decide (PluginDir (c_Network c) ≠ ""))
       (wrap_err "invalid plugin_dir entry: " (load (MakePluginDir (PluginDir (c_Network c)))) ;;
        modify (λ c, c <| c_Network ::= λ n, (n <| PluginDirs := PluginDirs n ++ [PluginDir n] |>) <| PluginDir := "" |> |>)) ;;
     c ← gets id;
     let n := c_Network c in
     wrap_err "initialize CNI plugin: " (load (CniNew (CNIDefaultNetwork n) (NetworkDir n) (PluginDirs n)))).

(** The hooks directories to use: those there are, and those that can be made. *)
Definition useHooksDir (d : string) : io Config bool :=
  match IsDirectory d with
  | None => mret true
  | Some e =>
      if IsNotExist e then r ← try (load (MakeHooksDir d)); mret (match r with inl _ => true | inr _ => false end)
      else mret false
  end.

Fixpoint hooksDirs (dirs : list string) : io Config (list string) :=
  match dirs with
  | [] => mret []
  | d :: dirs => keep ← useHooksDir d; l ← hooksDirs dirs; mret (if keep : bool then d :: l else l)
  end.

(** A missing profile falls back to the default one. *)
Definition loadSeccomp (profile : string) : io Config () :=
  r ← try (load (SeccompLoadProfile profile));
  match r with
  | inl _ => mret ()
  | inr e =>
      if IsNotExist e then wrap_err "load default seccomp profile: " (load SeccompLoadDefaultProfile)
      else fail (Errorf "unable to load seccomp profile: " e)
  end.

(** The checks of a server that starts. *)
Definition RuntimeConfig_onExecution : io Config () :=
  c ← gets id;
  wrap_err "unable to update cgroup manager: " (load (SetCgroupManager (CgroupManagerName (c_Runtime c)))) ;;
  wrap_err "runtime validation: " (on_table (ValidateRuntimes o1 o2 o3)) ;;
  dirs ← hooksDirs (HooksDir (c_Runtime c));
  rt (λ r, r <| HooksDir := dirs |>) ;;
  load (CdiConfigure (CDISpecDirs (c_Runtime c))) ;;
  (match validateExecutablePath "pinns" (PinnsPath (c_Runtime c)) with
   | inl p => rt (λ r, r <| PinnsPath := p |>)
   | inr e => rt (λ r, r <| PinnsPath := "" |>) ;; fail (Errorf "pinns validation: " e)
   end) ;;
  c ← gets id;
  wrap_err "initialize nsmgr: " (load (NamespacesInitialize (NamespacesDir (c_Runtime c)) (PinnsPath (c_Runtime c)))) ;;
  loadSeccomp (SeccompProfile (c_Runtime c)) ;;
  wrap_err "unable to load AppArmor profile: " (load (ApparmorLoadProfile (ApparmorProfile (c_Runtime c)))) ;;
  wrap_err "blockio configuration: " (load (BlockioLoad (BlockIOConfigFile (c_Runtime c)))) ;;
  load (BlockioSetReload (BlockIOReload (c_Runtime c))) ;;
  wrap_err "rdt configuration: " (load (RdtLoad (RdtConfigFile (c_Runtime c)))).

Definition on_workloads : io Config () := λ c,
  let '(o, ws) := Workloads_Validate workloadNames (c_Workloads (c_Runtime c)) in
  (o, c <| c_Runtime ::= λ r, r <| c_Workloads := ws |> |>).

(** The executable that pins the commands to the CPUs of infra containers. *)
Definition infraCPUs (cpus : string) : io Config () :=
  when (bool_decide (cpus ≠ ""))
    (set_ ← wrap_err "invalid infra_ctr_cpuset: " (lift (Parse cpus));
     match LookPath "taskset" with
     | inr e => fail (Errorf "taskset not found in $PATH: " e)
     | inl executable => load (PrependCommandsWith executable (String_ set_))
     end).

Definition RuntimeConfig_Validate (onExecution : bool) : io Config () :=
  c ← gets id;
  for_each (λ u, wrap_err ("unrecognized ulimit " +:+ u +:+ ": ") (load (LoadUlimit u))) (DefaultUlimits (c_Runtime c)) ;;
  lift (LoadDevices DeviceFromPath (AdditionalDevices (c_Runtime c))) ;;
  modify (λ c, c <| c_loads ::= (.++ [LoadDeviceList (AdditionalDevices (c_Runtime c))]) |>) ;;
  on_table ValidateDefaultRuntime ;;
  when (bool_decide (Timezone (c_Runtime c) ≠ "") && negb (EqualFold (Timezone (c_Runtime c)) "local"))
    (wrap_err "invalid timezone: " (load (LoadLocation (Timezone (c_Runtime c))))) ;;
  if (0 <=? LogSizeMax (c_Runtime c)) && (LogSizeMax (c_Runtime c) <? OCIBufSize) then
    fail (ErrorsNew "log size max should be negative or >= 8192")
  else
    when (CtrStopTimeout (c_Runtime c) <? defaultCtrStopTimeout)
      (rt (λ r, r <| CtrStopTimeout := defaultCtrStopTimeout |>)) ;;
    wrap_err "invalid default_sysctls: " (lift (Sysctls (DefaultSysctls (c_Runtime c)))) ;;
    wrap_err "invalid capabilities: "
      (load (ValidateCapabilities ((λ cap, "CAP_" +:+ ToUpper cap) <$> DefaultCapabilities (c_Runtime c)))) ;;
    infraCPUs (InfraCtrCPUSet (c_Runtime c)) ;;
    wrap_err "workloads validation: " on_workloads ;;
    when onExecution RuntimeConfig_onExecution ;;
    wrap_err "monitor fields translation: "
      (on_table (TranslateMonitorFields conmonNew
         (bool_decide (CgroupManagerName (c_Runtime c) = "systemd")) onExecution o4)).

Definition Config_Validate (onExecution : bool) : io Config () :=
  c ← gets id;
  if bool_decide (ImageVolumes (c_Image c) ∉ ["mkdir"; "ignore"; "bind"]) then
    fail (ErrorsNew "unrecognized image volume type specified")
  else
    when onExecution (load NodeValidate) ;;
    wrap_err "validating root config: " (RootConfig_Validate onExecution) ;;
    wrap_err "validating runtime config: " (RuntimeConfig_Validate onExecution) ;;
    load (SeccompSetNotifierPath (PathJoin [Dir (Listen (c_API c)); "seccomp"])) ;;
    wrap_err "validating network config: " (NetworkConfig_Validate onExecution) ;;
    wrap_err "validating api config: " (APIConfig_Validate onExecution) ;;
    when (negb (SELinux (c_Runtime c))) (load SelinuxSetDisabled) ;;
    wrap_err "validating NRI config: " (load (NriValidate onExecution)).
End validate.

(** ** Reload *)

(** [cmp.Equal] with [SortSlices]: equal up to the order. *)
Definition sameImages (a b : list string) : bool :=
  bool_decide (merge_sort String.le a = merge_sort String.le b).

Section reload.
Context `{ConfigEnv, LoadFaults}.
Variables o1 o2 o3 : list string.

(** [logrus.ParseLevel], [log.NewFilterHook] are checked by [load]. *)
Definition ReloadLogLevel (newConfig : Config) : io Config () :=
  c ← gets id;
  when (bool_decide (LogLevel (c_Runtime c) ≠ LogLevel (c_Runtime newConfig)))
    (load (SetLogLevel (LogLevel (c_Runtime newConfig))) ;;
     rt (λ r, r <| LogLevel := LogLevel (c_Runtime newConfig) |>)).

Definition ReloadLogFilter (newConfig : Config) : io Config () :=
  c ← gets id;
  when (bool_decide (LogFilter (c_Runtime c) ≠ LogFilter (c_Runtime newConfig)))
    (load (SetLogFilter (LogFilter (c_Runtime newConfig))) ;;
     rt (λ r, r <| LogFilter := LogFilter (c_Runtime newConfig) |>)).

Definition ReloadPauseImage (newConfig : Config) : io Config () :=
  modify (λ c, c <| c_Image ::= λ i, i <| PauseImage := PauseImage (c_Image newConfig) |> |>) ;;
  modify (λ c, c <| c_Image ::= λ i, i <| PauseCommand := PauseCommand (c_Image newConfig) |> |>).

Definition ReloadPinnedImages (newConfig : Config) : io Config () :=
  c ← gets id;
  if bool_decide (PinnedImages (c_Image newConfig) = []) then
    modify (λ c, c <| c_Image ::= λ i, i <| PinnedImages := [] |> |>)
  else if sameImages (PinnedImages (c_Image c)) (PinnedImages (c_Image newConfig)) then mret ()
  else modify (λ c, c <| c_Image ::= λ i,
         i <| PinnedImages := filter (λ img, img ≠ "") (PinnedImages (c_Image newConfig)) |> |>).

Definition ReloadSeccompProfile (newConfig : Config) : io Config () :=
  loadSeccomp (SeccompProfile (c_Runtime newConfig)) ;;
  rt (λ r, r <| SeccompProfile := SeccompProfile (c_Runtime newConfig) |>).

Definition ReloadAppArmorProfile (newConfig : Config) : io Config () :=
  c ← gets id;
  when (bool_decide (ApparmorProfile (c_Runtime c) ≠ ApparmorProfile (c_Runtime newConfig)))
    (wrap_err "unable to reload apparmor_profile: "
       (load (ApparmorLoadProfile (ApparmorProfile (c_Runtime newConfig)))) ;;
     rt (λ r, r <| ApparmorProfile := ApparmorProfile (c_Runtime newConfig) |>)).

Definition ReloadBlockIOConfig (newConfig : Config) : io Config () :=
  c ← gets id;
  when (bool_decide (BlockIOConfigFile (c_Runtime c) ≠ BlockIOConfigFile (c_Runtime newConfig)))
    (wrap_err "unable to reload blockio_config_file: "
       (load (BlockioLoad (BlockIOConfigFile (c_Runtime newConfig)))) ;;
     rt (λ r, r <| BlockIOConfigFile := BlockIOConfigFile (c_Runtime newConfig) |>)) ;;
  rt (λ r, r <| BlockIOReload := BlockIOReload (c_Runtime newConfig) |>).

Definition ReloadRdtConfig (newConfig : Config) : io Config () :=
  c ← gets id;
  when (bool_decide (RdtConfigFile (c_Runtime c) ≠ RdtConfigFile (c_Runtime newConfig)))
    (wrap_err "unable to reload rdt_config_file: " (load (RdtLoad (RdtConfigFile (c_Runtime newConfig)))) ;;
     rt (λ r, r <| RdtConfigFile := RdtConfigFile (c_Runtime newConfig) |>)).

(** [read] is the new configuration: the defaults updated from the files. *)
Definition Reload (read : outcome Config) : io Config () :=
  newConfig ← lift read;
  ReloadLogLevel newConfig ;;
  ReloadLogFilter newConfig ;;
  ReloadPauseImage newConfig ;;
  ReloadPinnedImages newConfig ;;
  ReloadSeccompProfile newConfig ;;
  ReloadAppArmorProfile newConfig ;;
  ReloadBlockIOConfig newConfig ;;
  ReloadRdtConfig newConfig ;;
  on_table (ReloadRuntimes o1 o2 o3 (Table (c_Runtime newConfig))) ;;
  load (CdiConfigure (CDISpecDirs (c_Runtime newConfig))).
End reload.

(** ** A valid configuration *)

(** The default runtime is [dr], and the table has it. *)
Definition defaultIs (dr : string) (t : RuntimeTable) : Prop :=
  t_DefaultRuntime t = dr ∧ is_Some (t_Runtimes t !! dr).
Definition hasDefault (t : RuntimeTable) : Prop := defaultIs (t_DefaultRuntime t) t.

Section tables.
Context `{ConfigEnv}.

Lemma defaultIs_insert dr t name h :
  defaultIs dr t → defaultIs dr (t <| t_Runtimes ::= <[name := h]> |>).
Proof. intros [Hd Hs]. split; [by destruct t|]. destruct t. cbn in *. apply lookup_insert_is_Some'. by right. Qed.

Lemma inheritHandler_default dr name :
  triple (defaultIs dr) (inheritHandler name) (λ _, defaultIs dr) (λ _ _, True).
Proof.
  intros t Hd. unfold inheritHandler, mbind, io_bind, gets, modify, mret, io_ret, panic. cbn [id].
  destruct (t_Runtimes t !! name) as [h|]; [|done]. destruct (InheritDefaultRuntime h); [|done].
  destruct (t_Runtimes t !! t_DefaultRuntime t); [|done]. by apply defaultIs_insert.
Qed.

Lemma validateHandlers_default dr o :
  triple (defaultIs dr) (validateHandlers o) (λ failed t, defaultIs dr t ∧ dr ∉ failed) (λ _ _, True).
Proof.
  induction o as [|name o IH]; intros t Hd; cbn [validateHandlers].
  { split; [done|set_solver]. }
  unfold mbind, io_bind, gets, modify. cbn [id].
  destruct (t_Runtimes t !! name) as [h|] eqn:Hh; [|by apply IH].
  destruct (Handler_Validate name h) as [err h']. cbn beta iota.
  pose proof (IH _ (defaultIs_insert dr t name h' Hd)) as Hrun.
  destruct err as [e|]; [|done]. case_bool_decide as Hdr; [done|].
  destruct (validateHandlers o _) as [[failed|?|?] t']; [|done..]. destruct Hrun as [? ?]. split; [done|].
  apply not_elem_of_cons. split; [|done]. destruct Hd as [<- _]. done.
Qed.

Lemma for_each_triple {W A} (P : W → Prop) (R : goerr → W → Prop) (f : A → io W ()) l :
  (∀ x, x ∈ l → triple P (f x) (λ _, P) R) → triple P (for_each f l) (λ _, P) R.
Proof.
  induction l as [|x l IH]; intros Hf; cbn [for_each]; [by apply triple_ret|].
  eapply triple_bind; [apply Hf; by left|]. intros []. apply IH. intros y Hy. apply Hf. by right.
Qed.

Lemma ValidateRuntimes_default dr o1 o2 o3 :
  triple (defaultIs dr) (ValidateRuntimes o1 o2 o3) (λ _, defaultIs dr) (λ _ _, True).
Proof.
  unfold ValidateRuntimes. eapply triple_bind.
  { apply for_each_triple. intros x _. apply inheritHandler_default. }
  intros []. eapply triple_bind; [apply validateHandlers_default|]. intros failed. cbn beta.
  eapply triple_bind with (Q := λ _, defaultIs dr).
  - intros t [Hd Hn]. revert t Hd. induction failed as [|x l IH]; intros t Hd; [done|].
    cbn [for_each]. unfold mbind, io_bind, dropHandler, modify. apply not_elem_of_cons in Hn as [Hx Hn].
    apply IH; [done|]. destruct Hd as [Hd Hs]. split; [by destruct t|]. destruct t. cbn in *.
    by rewrite lookup_delete_ne.
  - intros []. apply for_each_triple. intros x _. apply triple_modify. intros t [Hd Hs].
    split; [by destruct t|]. destruct t. cbn in *. destruct (decide (x = dr)) as [->|].
    + rewrite lookup_alter_eq. destruct Hs as [? ->]. by eexists.
    + by rewrite lookup_alter_ne.
Qed.

Lemma TranslateMonitorFields_default dr conmonNew systemd onExecution o :
  triple (defaultIs dr) (TranslateMonitorFields conmonNew systemd onExecution o) (λ _, defaultIs dr) (λ _ _, True).
Proof.
  induction o as [|name o IH]; intros t Hd; cbn [TranslateMonitorFields]; [done|].
  unfold mbind, io_bind, gets, modify. cbn [id].
  destruct (t_Runtimes t !! name) as [h|] eqn:Hh; [|by apply IH].
  case_bool_decide; [|by apply IH]. destruct (TranslateMonitorFieldsForHandler _ _ _ _ h) as [[e|] h']; [done|].
  apply IH. by apply defaultIs_insert.
Qed.

Lemma ValidateDefaultRuntime_default :
  triple (λ _, True) ValidateDefaultRuntime (λ _, hasDefault) (λ _ _, True).
Proof.
  intros t _. pose proof (ValidateDefaultRuntime_spec t) as Hs.
  destruct (t_Runtimes t !! t_DefaultRuntime t) as [d|] eqn:Hd.
  { rewrite Hs. split; [done|]. by eexists. }
  case_bool_decide; [|by destruct Hs as [e ->]]. destruct Hs as (c' & d & -> & Hdr & Hl).
  split; [done|]. rewrite Hdr. by eexists.
Qed.
End tables.

(** What every step of a validation that succeeds keeps. *)
Record frame (c c' : Config) : Prop := {
  fr_image : c_Image c' = c_Image c;
  fr_log : LogSizeMax (c_Runtime c') = LogSizeMax (c_Runtime c);
  fr_sysctls : DefaultSysctls (c_Runtime c') = DefaultSysctls (c_Runtime c);
  fr_stop : defaultCtrStopTimeout ≤ CtrStopTimeout (c_Runtime c) → defaultCtrStopTimeout ≤ CtrStopTimeout (c_Runtime c');
  fr_default : hasDefault (Table (c_Runtime c)) → hasDefault (Table (c_Runtime c'));
  fr_plugin : PluginDir (c_Network c) = "" → PluginDir (c_Network c') = "" }.

#[export] Instance frame_preorder : PreOrder frame.
Proof.
  split; [by intros c; split|]. intros c1 c2 c3 [] []. split; try congruence; auto.
Qed.

Definition frames {A} (m : io Config A) : Prop := ∀ c a c', m c = (Ret a, c') → frame c c'.

Create HintDb frames.

Section frames.
Context `{ConfigEnv, LoadFaults}.

Lemma frames_bind {A B} (m : io Config A) (k : A → io Config B) :
  frames m → (∀ a, frames (k a)) → frames (m ≫= k).
Proof. intros Hm Hk c b c' (a & c1 & H1 & H2)%io_bind_inv. etrans; [by eapply Hm|by eapply Hk]. Qed.
Lemma frames_ret {A} (a : A) : frames (mret a).
Proof. intros c a' c' [= _ <-]. done. Qed.
Lemma frames_gets {A} (f : Config → A) : frames (gets f).
Proof. intros c a' c' [= _ <-]. done. Qed.
Lemma frames_fail {A} e : frames (fail (A := A) e).
Proof. by intros c a c'. Qed.
Lemma frames_lift {A} (o : outcome A) : frames (lift o).
Proof. intros c a c' [= _ <-]. done. Qed.
Lemma frames_when b (m : io Config ()) : frames m → frames (when b m).
Proof. intros Hm. destruct b; [done|apply frames_ret]. Qed.
Lemma frames_wrap {A} s (m : io Config A) : frames m → frames (wrap_err s m).
Proof.
  intros Hm c a c'. unfold wrap_err. destruct (m c) as [[a1|e|e] c1] eqn:Hr; intros [= <- <-]. by eapply Hm.
Qed.
Lemma frames_for_each {A} (f : A → io Config ()) l : (∀ x, frames (f x)) → frames (for_each f l).
Proof. intros Hf. induction l; cbn; [apply frames_ret|]. by apply frames_bind. Qed.
Lemma frames_load l : frames (load l).
Proof. intros c a c'. unfold load. destruct (loadFault l); [done|]. intros [= _ <-]. by destruct c. Qed.
Lemma frames_modify f : (∀ c, frame c (f c)) → frames (modify f).
Proof. intros Hf c a c' [= _ <-]. done. Qed.
Lemma frames_try_load l : frames (try (load l)).
Proof.
  intros c a c'. unfold try, load. destruct (loadFault l); intros [= _ <-]; [done|by destruct c].
Qed.
Lemma frames_table {A} (m : io RuntimeTable A) :
  triple hasDefault m (λ _, hasDefault) (λ _ _, True) → frames (on_table m).
Proof.
  intros Hm c a c'. unfold on_table. destruct (m (Table (c_Runtime c))) as [o t] eqn:Hr. intros [= -> <-].
  split; try (by destruct c). intros Hd. specialize (Hm _ Hd). rewrite Hr in Hm. by destruct c as [? ? [] ? ? ?].
Qed.
Lemma defaultIs_triple {A} (m : io RuntimeTable A) :
  (∀ dr, triple (defaultIs dr) m (λ _, defaultIs dr) (λ _ _, True)) →
  triple hasDefault m (λ _, hasDefault) (λ _ _, True).
Proof.
  intros Hm t Ht. specialize (Hm _ t Ht). destruct (m t) as [[a|e|e] t']; [|done..].
  unfold hasDefault. destruct Hm as [Hd Hs]. rewrite Hd. by split.
Qed.
End frames.

Section table_frames.
Context `{ConfigEnv}.
Lemma frames_ValidateDefaultRuntime : frames (on_table ValidateDefaultRuntime).
Proof. apply frames_table. intros t _. by apply ValidateDefaultRuntime_default. Qed.
Lemma frames_ValidateRuntimes o1 o2 o3 : frames (on_table (ValidateRuntimes o1 o2 o3)).
Proof. apply frames_table, defaultIs_triple. intros. apply ValidateRuntimes_default. Qed.
Lemma frames_TranslateMonitorFields conmonNew systemd onExecution o :
  frames (on_table (TranslateMonitorFields conmonNew systemd onExecution o)).
Proof. apply frames_table, defaultIs_triple. intros. apply TranslateMonitorFields_default. Qed.
End table_frames.

#[export] Hint Resolve frames_ValidateDefaultRuntime frames_ValidateRuntimes frames_TranslateMonitorFields : frames.
#[export] Hint Resolve frames_bind frames_ret frames_gets frames_fail frames_lift frames_when frames_wrap
  frames_for_each frames_load frames_try_load : frames.

Section valid.
Context `{ConfigEnv, LoadFaults}.
Variable DeviceFromPath : string → string → outcome DevNode.
Variable IsDirectory : string → option goerr.
Variable conmonNew : string → option goerr.
Variables o1 o2 o3 o4 : list string.
Variable workloadNames : list string.

Ltac frames_step :=
  repeat first [ progress intros | apply frames_bind | apply frames_when | apply frames_wrap
               | apply frames_for_each | progress auto with frames | case_match
               | apply frames_modify; intros []; by split ].

Lemma hooksDirs_frames dirs : frames (hooksDirs IsDirectory dirs).
Proof. induction dirs; cbn [hooksDirs]; unfold useHooksDir; frames_step. Qed.

Lemma onExecution_frames : frames (RuntimeConfig_onExecution IsDirectory o1 o2 o3).
Proof.
  pose proof hooksDirs_frames. unfold RuntimeConfig_onExecution, rt, loadSeccomp. frames_step.
Qed.

Lemma network_frames onExecution : frames (NetworkConfig_Validate IsDirectory onExecution).
Proof. unfold NetworkConfig_Validate. frames_step. Qed.

Lemma api_frames onExecution : frames (APIConfig_Validate onExecution).
Proof. unfold APIConfig_Validate. frames_step. Qed.

Lemma workloads_frames : frames (on_workloads workloadNames).
Proof. intros c a c'. unfold on_workloads. destruct (Workloads_Validate _ _) as [o ws]. intros [= -> <-]. by destruct c. Qed.

Lemma root_frames onExecution : frames (RootConfig_Validate onExecution).
Proof. unfold RootConfig_Validate. frames_step. Qed.

#[local] Hint Resolve hooksDirs_frames onExecution_frames network_frames api_frames workloads_frames root_frames : frames.

(** The frame of a step that succeeded. *)
Ltac frame_of H :=
  match type of H with
  | ?m ?c = (Ret ?a, ?c') =>
      let F := fresh "F" in
      assert (frame c c') as F by (refine ((_ : frames m) c a c' H); unfold rt, infraCPUs; frames_step)
  end.

Lemma RuntimeConfig_Validate_ok onExecution c c' :
  RuntimeConfig_Validate DeviceFromPath IsDirectory conmonNew o1 o2 o3 o4 workloadNames onExecution c = (Ret (), c') →
  frame c c' ∧ (LogSizeMax (c_Runtime c) < 0 ∨ OCIBufSize ≤ LogSizeMax (c_Runtime c)) ∧
  defaultCtrStopTimeout ≤ CtrStopTimeout (c_Runtime c') ∧
  (∃ ss, Sysctls (DefaultSysctls (c_Runtime c)) = Ret ss) ∧ hasDefault (Table (c_Runtime c')).
Proof.
  unfold RuntimeConfig_Validate. intros (c0 & ? & [-> ->]%gets_ret & Hr)%io_bind_inv.
  apply io_bind_inv in Hr as ([] & c1 & Hul & Hr). apply io_bind_inv in Hr as (devs & c2 & Hdev & Hr).
  apply io_bind_inv in Hr as ([] & c3 & Hmod & Hr). apply io_bind_inv in Hr as ([] & c4 & Hdef & Hr).
  apply io_bind_inv in Hr as ([] & c5 & Htz & Hr). cbn [id] in *.
  destruct (_ && _) eqn:Hlog in Hr; [done|].
  apply io_bind_inv in Hr as ([] & c6 & Hstop & Hr). apply io_bind_inv in Hr as (ss & c7 & Hsys & Hr).
  apply wrap_err_ret in Hsys. injection Hsys as Hss <-.
  frame_of Hul. frame_of Hdev. frame_of Hmod. frame_of Hdef. frame_of Htz.
  assert (hasDefault (Table (c_Runtime c4))) as Hd4.
  { revert Hdef. unfold on_table. pose proof (ValidateDefaultRuntime_default (Table (c_Runtime c3)) I) as Ht.
    destruct (ValidateDefaultRuntime _) as [[|?|?] t]; [|done..]. intros [= _ <-]. by destruct c3 as [? ? [] ? ? ?]. }
  assert (frame c4 c5 ∧ frame c c5) as [F45 F5] by (split; [done|repeat (etrans; [eassumption|]); done]).
  frame_of Hstop.
  assert (defaultCtrStopTimeout ≤ CtrStopTimeout (c_Runtime c6)) as Hs6.
  { destruct (Z.ltb_spec (CtrStopTimeout (c_Runtime c)) defaultCtrStopTimeout) as [Hlt|Hge].
    - unfold rt in Hstop. injection Hstop as <-. by destruct c5 as [? ? [] ? ? ?].
    - apply F4, F5. lia. }
  apply io_bind_inv in Hr as ([] & c8 & Hcap & Hr). apply io_bind_inv in Hr as ([] & c9 & Hcpu & Hr).
  apply io_bind_inv in Hr as ([] & c10 & Hwl & Hr). apply io_bind_inv in Hr as ([] & c11 & Hex & Hr).
  frame_of Hcap. frame_of Hcpu. frame_of Hwl. frame_of Hex. frame_of Hr.
  assert (frame c6 c') as F6' by (repeat (etrans; [eassumption|]); done).
  split; [etrans; [exact F5|]; etrans; [exact F4|done]|].
  split; [unfold OCIBufSize in *; lia|]. split; [by apply F6'|]. split; [by eexists|].
  by apply F6', F4, F45.
Qed.

(** A valid configuration: what the rest of the server relies on. *)
Record config_wf (onExecution : bool) (c : Config) : Prop := {
  wf_volumes : ImageVolumes (c_Image c) ∈ ["mkdir"; "ignore"; "bind"];
  wf_log : LogSizeMax (c_Runtime c) < 0 ∨ OCIBufSize ≤ LogSizeMax (c_Runtime c);
  wf_stop : defaultCtrStopTimeout ≤ CtrStopTimeout (c_Runtime c);
  wf_sysctls : ∃ ss, Sysctls (DefaultSysctls (c_Runtime c)) = Ret ss;
  wf_default : hasDefault (Table (c_Runtime c));
  wf_send : 0 < GRPCMaxSendMsgSize (c_API c);
  wf_recv : 0 < GRPCMaxRecvMsgSize (c_API c);
  wf_tls : StreamEnableTLS (c_API c) = true → StreamTLSCert (c_API c) ≠ "" ∧ StreamTLSKey (c_API c) ≠ "";
  wf_plugins : onExecution = true → PluginDir (c_Network c) = "" }.

Lemma load_same l c a c' : load l c = (Ret a, c') → c' = c <| c_loads := c_loads c' |>.
Proof. unfold load. destruct (loadFault l); [done|]. intros [= _ <-]. by destruct c. Qed.

Definition api_ok (a : APIConfig) : Prop :=
  0 < GRPCMaxSendMsgSize a ∧ 0 < GRPCMaxRecvMsgSize a ∧
  (StreamEnableTLS a = true → StreamTLSCert a ≠ "" ∧ StreamTLSKey a ≠ "").

Lemma APIConfig_Validate_ok onExecution c c' :
  APIConfig_Validate onExecution c = (Ret (), c') → api_ok (c_API c').
Proof.
  unfold APIConfig_Validate. intros (c0 & ? & [-> ->]%gets_ret & Hr)%io_bind_inv. cbn [id] in *.
  apply io_bind_inv in Hr as ([] & c1 & H1 & Hr). apply io_bind_inv in Hr as ([] & c2 & H2 & Hr).
  assert (c_API c' = c_API c2 ∧ (StreamEnableTLS (c_API c) = true → StreamTLSCert (c_API c) ≠ "" ∧ StreamTLSKey (c_API c) ≠ ""))
    as [-> Htls].
  { destruct (StreamEnableTLS (c_API c)); cbn in Hr; repeat case_bool_decide; try done;
      (split; [|done]); (destruct onExecution; [apply load_same in Hr as ->; by destruct c2|by injection Hr as <-]). }
  destruct c as [? [li s r tls ce ke] ? ? ? ?]. cbn in *.
  destruct (Z.leb_spec s 0); injection H1 as <-; cbn in *; destruct (Z.leb_spec r 0); injection H2 as <-; cbn;
    unfold api_ok, defaultGRPCMaxMsgSize; cbn; repeat split; try lia; by apply Htls.
Qed.

Lemma NetworkConfig_Validate_ok c c' :
  NetworkConfig_Validate IsDirectory true c = (Ret (), c') → PluginDir (c_Network c') = "".
Proof.
  unfold NetworkConfig_Validate, when at 1. intros (c0 & ? & [-> ->]%gets_ret & Hr)%io_bind_inv. cbn [id] in *.
  apply io_bind_inv in Hr as ([] & c1 & H1 & Hr). apply io_bind_inv in Hr as ([] & c2 & H2 & Hr).
  apply io_bind_inv in Hr as ([] & c3 & H3 & Hr). apply io_bind_inv in Hr as (c4 & ? & [-> ->]%gets_ret & Hr).
  assert (PluginDir (c_Network c3) = "") as Hp.
  { frame_of H1. frame_of H2. destruct (decide (PluginDir (c_Network c) = "")) as [He|Hne].
    - rewrite bool_decide_false in H3 by auto. injection H3 as <-. by apply F0, F.
    - rewrite bool_decide_true in H3 by done. apply io_bind_inv in H3 as ([] & c5 & _ & [= <-]). by destruct c5. }
  cbn [id] in Hr. frame_of Hr. by apply F.
Qed.

(** C33: A configuration that validates is well formed, whatever the loads did: a known
    image volume type, a log limit that is off or at least a buffer, a stop timeout of
    at least 30 seconds, sysctls that parse, a default runtime that is in the table,
    positive message sizes, a certificate and a key when TLS is on, and, when the
    server starts, no deprecated plugin_dir left. *)
Theorem Config_Validate_wf onExecution c c' :
  Config_Validate DeviceFromPath IsDirectory conmonNew o1 o2 o3 o4 workloadNames onExecution c = (Ret (), c') →
  config_wf onExecution c'.
Proof.
  unfold Config_Validate. intros (c0 & ? & [-> ->]%gets_ret & Hr)%io_bind_inv. cbn [id] in *.
  case_bool_decide as Hv; [done|].
  apply io_bind_inv in Hr as ([] & c1 & H1 & Hr). apply io_bind_inv in Hr as ([] & c2 & H2 & Hr).
  apply io_bind_inv in Hr as ([] & c3 & H3%wrap_err_ret & Hr). apply io_bind_inv in Hr as ([] & c4 & H4 & Hr).
  apply io_bind_inv in Hr as ([] & c5 & H5%wrap_err_ret & Hr). apply io_bind_inv in Hr as ([] & c6 & H6%wrap_err_ret & Hr).
  frame_of H1. frame_of H2. apply RuntimeConfig_Validate_ok in H3 as (F3 & Hlog & Hstop & Hsys & Hdef).
  frame_of H4. frame_of H5. frame_of H6. pose proof (APIConfig_Validate_ok _ _ _ H6) as (Ha & Hb & Htls).
  apply io_bind_inv in Hr as ([] & c7 & H7 & Hr). frame_of H7. frame_of Hr.
  assert (c_API c' = c_API c6) as Hapi.
  { apply wrap_err_ret, load_same in Hr as ->. cbn. destruct (SELinux (c_Runtime c)); cbn in H7; [by injection H7 as <-|].
    apply load_same in H7 as ->. done. }
  assert (frame c3 c') as F' by (repeat (etrans; [eassumption|]); done).
  assert (frame c c3) as F'' by (do 3 (etrans; [eassumption|]); done).
  split; rewrite ?Hapi; try done.
  - by rewrite (fr_image _ _ F'), (fr_image _ _ F'').
  - by rewrite (fr_log _ _ F'), (fr_log _ _ F3).
  - by apply F'.
  - by rewrite (fr_sysctls _ _ F'), (fr_sysctls _ _ F3).
  - by apply F'.
  - intros ->. apply F6, F5, F4. by eapply NetworkConfig_Validate_ok.
Qed.
End valid.

(** ** Reload *)

Section reloading.
Context `{ConfigEnv, LoadFaults}.
Variables o1 o2 o3 : list string.

(** The reloadable options of [c] are those of [n]; the pinned images without the
    empty names, up to their order when it is all that changed. *)
Record reloaded (n c : Config) : Prop := {
  re_level : LogLevel (c_Runtime c) = LogLevel (c_Runtime n);
  re_filter : LogFilter (c_Runtime c) = LogFilter (c_Runtime n);
  re_pause : PauseImage (c_Image c) = PauseImage (c_Image n);
  re_command : PauseCommand (c_Image c) = PauseCommand (c_Image n);
  re_pinned : filter (λ i, i ≠ "") (PinnedImages (c_Image c)) ≡ₚ filter (λ i, i ≠ "") (PinnedImages (c_Image n));
  re_seccomp : SeccompProfile (c_Runtime c) = SeccompProfile (c_Runtime n);
  re_apparmor : ApparmorProfile (c_Runtime c) = ApparmorProfile (c_Runtime n);
  re_blockio : BlockIOConfigFile (c_Runtime c) = BlockIOConfigFile (c_Runtime n);
  re_blockioReload : BlockIOReload (c_Runtime c) = BlockIOReload (c_Runtime n);
  re_rdt : RdtConfigFile (c_Runtime c) = RdtConfigFile (c_Runtime n) }.

(** The options a validation fixes and a reload leaves. *)
Definition restart_only (c : Config) :=
  (c_Root c, c_API c, c_Network c, ImageVolumes (c_Image c), LogSizeMax (c_Runtime c), CtrStopTimeout (c_Runtime c),
   (DefaultSysctls (c_Runtime c), CgroupManagerName (c_Runtime c), HooksDir (c_Runtime c), PinnsPath (c_Runtime c))).

(** The state after a step, up to the list of loads. *)
Definition upto (c c' : Config) : Prop := c' = c <| c_loads := c_loads c' |>.

Lemma upto_load l c c' : load l c = (Ret (), c') → upto c c'.
Proof. apply load_same. Qed.

(** An option that is loaded only when it changes. *)
Lemma reload_option (b : bool) (s : string) l f c c' :
  when b (wrap_err s (load l) ;; rt f) c = (Ret (), c') →
  upto (if b then c <| c_Runtime ::= f |> else c) c'.
Proof.
  destruct b; [|by intros [= <-]; destruct c]. unfold when, rt.
  intros ([] & c1 & H1%wrap_err_ret%load_same & [= <-])%io_bind_inv. rewrite H1. by destruct c.
Qed.

Lemma reload_option_plain (b : bool) l f c c' :
  when b (load l ;; rt f) c = (Ret (), c') → upto (if b then c <| c_Runtime ::= f |> else c) c'.
Proof.
  destruct b; [|by intros [= <-]; destruct c]. unfold when, rt.
  intros ([] & c1 & H1%load_same & [= <-])%io_bind_inv. rewrite H1. by destruct c.
Qed.

Lemma loadSeccomp_upto p c c' : loadSeccomp p c = (Ret (), c') → upto c c'.
Proof.
  unfold loadSeccomp. intros (r & c1 & H1 & Hr)%io_bind_inv.
  assert (upto c c1) as Hu.
  { revert H1. unfold try, load. destruct (loadFault _); intros [= _ <-]; by destruct c. }
  destruct r as [[]|e]; [by injection Hr as <-|]. destruct (IsNotExist e); [|done].
  apply wrap_err_ret, load_same in Hr. rewrite Hr, Hu. by destruct c.
Qed.

(** Setting an option only when it differs is setting it. *)
Lemma upto_changed {A} `{!EqDecision A} (g : RuntimeConfig → A) (f : RuntimeConfig → RuntimeConfig) (v : A) c c' :
  (g (c_Runtime c) = v → f (c_Runtime c) = c_Runtime c) →
  upto (if bool_decide (g (c_Runtime c) ≠ v) then c <| c_Runtime ::= f |> else c) c' →
  upto (c <| c_Runtime ::= f |>) c'.
Proof.
  intros Hid. case_bool_decide as Hb; [done|]. specialize (Hid Hb).
  destruct c as [? ? r ? ? ?]. cbn in *. unfold upto. cbn. by rewrite Hid.
Qed.

Lemma ReloadRuntimes_only t c c' :
  on_table (ReloadRuntimes o1 o2 o3 t) c = (Ret (), c') → ∃ t', c' = c <| c_Runtime ::= λ r, r <| Table := t' |> |>.
Proof.
  unfold on_table. destruct (ReloadRuntimes o1 o2 o3 t _) as [o t']. intros [= _ <-]. by exists t'.
Qed.

Lemma pinned_ok n c c' :
  ReloadPinnedImages n c = (Ret (), c') →
  ∃ l, c' = c <| c_Image ::= λ i, i <| PinnedImages := l |> |> ∧
    filter (λ i, i ≠ "") l ≡ₚ filter (λ i, i ≠ "") (PinnedImages (c_Image n)).
Proof.
  unfold ReloadPinnedImages. intros (? & ? & [-> ->]%gets_ret & Hr)%io_bind_inv. cbn [id] in Hr.
  case_bool_decide as Hn; [injection Hr as <-; exists []; by rewrite Hn|].
  destruct (sameImages _ _) eqn:Hs; injection Hr as <-.
  - exists (PinnedImages (c_Image c)). split; [by destruct c as [? ? ? [] ? ?]|].
    unfold sameImages in Hs. apply bool_decide_eq_true in Hs.
    by rewrite <- (merge_sort_Permutation String.le (PinnedImages (c_Image c))), Hs, merge_sort_Permutation.
  - eexists. split; [done|]. by rewrite list_filter_filter_l.
Qed.

(** A reload that succeeds has taken every reloadable option from the new
    configuration, and left the options that need a restart as they were. *)
Theorem Reload_ok n c c' :
  Reload o1 o2 o3 (Ret n) c = (Ret (), c') → reloaded n c' ∧ restart_only c' = restart_only c.
Proof.
  unfold Reload. intros (n' & c0 & [= <- <-] & Hr)%io_bind_inv.
  apply io_bind_inv in Hr as ([] & c1 & H1 & Hr). apply io_bind_inv in Hr as ([] & c2 & H2 & Hr).
  apply io_bind_inv in Hr as ([] & c3 & H3 & Hr). apply io_bind_inv in Hr as ([] & c4 & H4 & Hr).
  apply io_bind_inv in Hr as ([] & c5 & H5 & Hr). apply io_bind_inv in Hr as ([] & c6 & H6 & Hr).
  apply io_bind_inv in Hr as ([] & c7 & H7 & Hr). apply io_bind_inv in Hr as ([] & c8 & H8 & Hr).
  apply io_bind_inv in Hr as ([] & c9 & H9 & Hr).
  unfold ReloadLogLevel in H1. apply io_bind_inv in H1 as (? & ? & [-> ->]%gets_ret & H1%reload_option_plain).
  unfold ReloadLogFilter in H2. apply io_bind_inv in H2 as (? & ? & [-> ->]%gets_ret & H2%reload_option_plain).
  unfold ReloadPauseImage in H3. apply io_bind_inv in H3 as ([] & ? & [= <-] & [= <-]).
  apply pinned_ok in H4 as (l & -> & Hl).
  unfold ReloadSeccompProfile in H5. apply io_bind_inv in H5 as ([] & ? & H5%loadSeccomp_upto & [= <-]).
  unfold ReloadAppArmorProfile in H6. apply io_bind_inv in H6 as (? & ? & [-> ->]%gets_ret & H6%reload_option).
  unfold ReloadBlockIOConfig in H7. apply io_bind_inv in H7 as (? & ? & [-> ->]%gets_ret & H7).
  apply io_bind_inv in H7 as ([] & ? & H7%reload_option & [= <-]).
  unfold ReloadRdtConfig in H8. apply io_bind_inv in H8 as (? & ? & [-> ->]%gets_ret & H8%reload_option).
  apply ReloadRuntimes_only in H9 as [t' ->]. apply load_same in Hr. cbn [id] in *.
  apply (upto_changed LogLevel) in H1; [|destruct (c_Runtime c); by intros <-].
  apply (upto_changed LogFilter) in H2; [|destruct (c_Runtime c1); by intros <-].
  apply (upto_changed ApparmorProfile) in H6; [|destruct (c_Runtime _); by intros <-].
  apply (upto_changed BlockIOConfigFile) in H7; [|destruct (c_Runtime c6); by intros <-].
  apply (upto_changed RdtConfigFile) in H8; [|destruct (c_Runtime _); by intros <-].
  unfold upto in *. destruct c as [? ? [] [] ? ?]. 
  rewrite H1 in H2. rewrite H2 in H5. rewrite H5 in H6. rewrite H6 in H7. rewrite H7 in H8. rewrite H8 in Hr.
  rewrite Hr. cbn. split; [by split|done].
Qed.
End reloading.

Module ExampleConfig.
Import ExampleTable.
#[export] Instance noLoadFaults : LoadFaults := Build_LoadFaults (λ _, None).

Definition runtime (timeout : Z) : RuntimeConfig :=
  mkRuntimeConfig true [] [] (mkTable "" {["crun" := defaultRuntimeHandler]} "" "" []) "" (-1) timeout
    ["net.ipv4.ip_forward=1"] ["CHOWN"] "" ∅ "systemd" [] [] "/usr/bin/conmon" "/var/run" "" "" "" false "" "info" "".
Definition config : Config :=
  mkConfig (mkRoot "/var/log/crio") (mkAPI "/run/crio.sock" 0 0 false "" "") (runtime 5)
    (mkImage "mkdir" "pause:3" "/pause" []) (mkNetwork "" "/etc/cni" ["/opt/cni/bin"] "/usr/libexec/cni") [].

Definition validated : outcome () * Config :=
  Config_Validate (λ _ _, Ret (mkDevNode "c"%char 1 3 438 0 0)) (λ _, None) (λ _, None) ["crun"] ["crun"] ["crun"] ["crun"]
    [] true config.

(** A file that changes the log level and the pinned images. *)
Definition changed : Config :=
  (config <| c_Runtime ::= λ r, r <| LogLevel := "debug" |> |>) <| c_Image ::= λ i, i <| PinnedImages := ["a"; ""] |> |>.

(** A file that drops the handler of its own default runtime. *)
Definition live : RuntimeTable :=
  mkTable "kata" {["crun" := defaultRuntimeHandler; "kata" := defaultRuntimeHandler]} "" "" [].
Definition dropped : RuntimeTable := mkTable "kata" {["crun" := defaultRuntimeHandler]} "" "" [].
End ExampleConfig.

Section examples.
Import ExampleTable ExampleConfig.

Lemma Config_Validate_wf_witness :
  config_wf true validated.2 ∧ CtrStopTimeout (c_Runtime validated.2) = 30 ∧
  PluginDirs (c_Network validated.2) = ["/opt/cni/bin"; "/usr/libexec/cni"].
Proof.
  split; [|vm_compute; done].
  apply (Config_Validate_wf (λ _ _, Ret (mkDevNode "c"%char 1 3 438 0 0)) (λ _, None) (λ _, None)
    ["crun"] ["crun"] ["crun"] ["crun"] [] true config validated.2).
  vm_compute. reflexivity.
Defined.

Lemma Reload_ok_witness :
  let r := Reload ["crun"] ["crun"] ["crun"] (Ret changed) validated.2 in
  reloaded changed r.2 ∧ restart_only r.2 = restart_only validated.2 ∧ PinnedImages (c_Image r.2) = ["a"].
Proof.
  assert (Reload ["crun"] ["crun"] ["crun"] (Ret changed) validated.2 =
    (Ret (), (Reload ["crun"] ["crun"] ["crun"] (Ret changed) validated.2).2)) as H by (vm_compute; reflexivity).
  destruct (Reload_ok ["crun"] ["crun"] ["crun"] changed validated.2 _ H) as [H1 H2].
  split; [exact H1|]. split; [exact H2|]. vm_compute. reflexivity.
Defined.

(** A reload checks the default runtime only when its name changes: a new table
    without the handler of the same default is accepted, and the default handler of
    the running server is then a nil pointer. *)
Lemma ReloadRuntimes_loses_default :
  let r := ReloadRuntimes ["crun"; "kata"] ["crun"; "kata"] ["crun"] dropped live in
  r.1 = Ret () ∧ t_Runtimes r.2 !! t_DefaultRuntime r.2 = None.
Proof. vm_compute. done. Qed.
End examples.
