(* ===== verification/Host.v ===== *)
(** * Host: the files of the node

    What the components read and write of the host: regular files by path, and
    the commands they run.  A class carries the failures of the operating
    system: which paths cannot be read, written or examined.  A read of a path
    that is not a file fails with [os.ErrNotExist]. *)

From S2P Require Import Prelude GoStrings.

Definition os_ErrNotExist := ErrorsNew "file does not exist".

Record host := mkHost {
  fs : gmap string string;
  cmds : list (list string);  (** the commands run, oldest first *)
}.
#[export] Instance host_eta : Eta host := λ h, mkHost (fs h) (cmds h).

(** [None]: the operation succeeds. *)
Class HostFaults := {
  rfault : string → option goerr;   (** [os.ReadFile] of an existing file *)
  wfault : string → option goerr;   (** [os.WriteFile], [os.Create], [os.Remove] *)
  sfault : string → option goerr;   (** [os.Stat], other than not existing *)
  dfault : string → option goerr;   (** [os.MkdirAll] *)
  run : list string → outcome string;   (** a command's combined output *)
}.

Section host.
Context `{HostFaults}.

Definition ReadFile (p : string) : io host string := λ h,
  match fs h !! p with
  | None => (Fail os_ErrNotExist, h)
  | Some c => match rfault p with Some e => (Fail e, h) | None => (Ret c, h) end
  end.

Definition WriteFile (p data : string) : io host () := λ h,
  match wfault p with
  | Some e => (Fail e, h)
  | None => (Ret (), h <| fs ::= <[p := data]> |>)
  end.

Definition Remove (p : string) : io host () := λ h,
  match fs h !! p with
  | None => (Fail os_ErrNotExist, h)
  | Some _ => match wfault p with
              | Some e => (Fail e, h)
              | None => (Ret (), h <| fs ::= delete p |>)
              end
  end.

Definition MkdirAll (p : string) : io host () := λ h, (of_err (dfault p), h).

(** [os.Stat] reports something else than not existing: the [FileInfo] is nil and
    dereferenced. *)
Definition fileExists (p : string) : io host bool := λ h,
  match sfault p with
  | Some _ => (Panic "nil pointer dereference", h)
  | None => (Ret (bool_decide (is_Some (fs h !! p))), h)
  end.

Definition command (args : list string) : io host string := λ h,
  (run args, h <| cmds ::= (.++ [args]) |>).

(** The libcontainer helpers: a file of a cgroup directory. *)
Definition cg_ReadFile (dir file : string) : io host string := ReadFile (PathJoin [dir; file]).
Definition cg_WriteFile (dir file data : string) : io host () := WriteFile (PathJoin [dir; file]) data.
End host.

(** Every operation succeeds. *)
Definition noFaults (r : list string → outcome string) : HostFaults :=
  Build_HostFaults (λ _, None) (λ _, None) (λ _, None) (λ _, None) r.

(** ** cgroup managers of libcontainer

    A manager is known by the paths it answers; what [Set], [Apply], [Destroy] do
    to the host is a parameter of the components that use it. *)

Record Manager := mkManager { m_Path : string → string }.

(** [configs.Cgroup] as the callers fill it, and [configs.Resources]. *)
Record Cgroup := mkCgroup {
  cg_Name : string; cg_Parent : string; cg_Path : string; cg_Systemd : bool; cg_ScopePrefix : string }.
Record Resources := mkResources {
  r_CpusetCpus : string; r_CpuShares : Z; r_CpuQuota : Z; r_CpuPeriod : Z }.
#[export] Instance Resources_eta : Eta Resources := λ r,
  mkResources (r_CpusetCpus r) (r_CpuShares r) (r_CpuQuota r) (r_CpuPeriod r).
Definition noResources : Resources := mkResources "" 0 0 0.

Class Libcontainer := {
  mgr_New : Cgroup → outcome Manager;
  mgr_Set : Manager → Resources → io host ();
  mgr_Apply : Manager → Z → io host ();
  mgr_Destroy : Manager → io host ();
}.
