(* ===== verification/Container.v ===== *)
(** * Container: the container object (internal/oci/container.go,
    container_linux.go)

    The struct [Container] with its [ContainerState], the identification of the
    init process by PID and start time, the copy-on-write CRI message, the
    resources derived from the OCI spec, and the killing of exec sessions.  The
    stop protocol of the same struct is in StopLoop.

    The operating system is a parameter: [read_file] is [os.Open] followed by
    [io.ReadAll], [kill] is kill(2). *)

From S2P Require Import Prelude GoStrings.
From Stdlib Require Import Ascii.
Local Open Scope Z_scope.

(** ** Data *)

Definition ContainerStateCreated : string := "created".
Definition ContainerStatePaused : string := "paused".
Definition ContainerStateRunning : string := "running".
Definition ContainerStateStopped : string := "stopped".

Definition ErrContainerStopped := ErrorsNew "container is already stopped".
Definition ErrNotFound := ErrorsNew "container process not found".
Definition ErrNotInitialized := ErrorsNew "container PID not initialized".
(** [unix.ESRCH] *)
Definition ESRCH := ErrorsNew "no such process".

(** Times are in nanoseconds; 0 is the zero [time.Time]. *)
Record ContainerState := mkContainerState {
  Status : string;
  Pid : Z;
  Created : Z;
  Started : Z;
  Finished : Z;
  ExitCode : option Z;
  OOMKilled : bool;
  SeccompKilled : bool;
  Error_ : string;
  InitPid : Z;
  InitStartTime : string;
}.
#[export] Instance ContainerState_eta : Eta ContainerState := λ s,
  mkContainerState (Status s) (Pid s) (Created s) (Started s) (Finished s) (ExitCode s)
    (OOMKilled s) (SeccompKilled s) (Error_ s) (InitPid s) (InitStartTime s).

(** The zero value. *)
Definition emptyState : ContainerState :=
  mkContainerState "" 0 0 0 0 None false false "" 0 "".

(** [types.ContainerState] of the CRI. *)
Inductive CRIState := CONTAINER_CREATED | CONTAINER_RUNNING | CONTAINER_EXITED | CONTAINER_UNKNOWN.
#[export] Instance CRIState_eq_dec : EqDecision CRIState.
Proof. solve_decision. Defined.

Record ContainerMetadata := mkMetadata { md_Name : string; md_Attempt : Z }.

(** The CRI message [types.Container]. *)
Record CriContainer := mkCriContainer {
  cri_Id : string;
  cri_PodSandboxId : string;
  cri_Metadata : option ContainerMetadata;
  cri_Image : string;
  cri_ImageRef : string;
  cri_ImageId : string;
  cri_State : CRIState;
  cri_CreatedAt : Z;
  cri_Labels : gmap string string;
  cri_Annotations : gmap string string;
}.
#[export] Instance CriContainer_eta : Eta CriContainer := λ c,
  mkCriContainer (cri_Id c) (cri_PodSandboxId c) (cri_Metadata c) (cri_Image c) (cri_ImageRef c)
    (cri_ImageId c) (cri_State c) (cri_CreatedAt c) (cri_Labels c) (cri_Annotations c).

(** ** The OCI spec, as far as the container reads it *)

Record LinuxCPU := mkLinuxCPU {
  cpu_Shares : option Z; cpu_Quota : option Z; cpu_Period : option Z;
  cpu_Cpus : string; cpu_Mems : string }.
Record LinuxMemory := mkLinuxMemory { mem_Limit : option Z; mem_Swap : option Z }.
Record LinuxHugepageLimit := mkHuge { hp_Pagesize : string; hp_Limit : Z }.
Record LinuxResources := mkLinuxResources {
  lr_CPU : option LinuxCPU;
  lr_Memory : option LinuxMemory;
  lr_Unified : gmap string string;
  lr_HugepageLimits : list LinuxHugepageLimit }.
Record LinuxNamespace := mkLinuxNamespace { ns_Type : string; ns_Path : string }.
Record SpecLinux := mkSpecLinux {
  sl_Resources : option LinuxResources;
  sl_Namespaces : list LinuxNamespace;
  sl_MountLabel : string }.
Record SpecProcess := mkSpecProcess {
  sp_UID : Z; sp_GID : Z; sp_AdditionalGids : list Z;
  sp_OOMScoreAdj : option Z;
  sp_SelinuxLabel : string;
  sp_Env : list string }.
Record Spec := mkSpec { spec_Process : option SpecProcess; spec_Linux : option SpecLinux }.

#[export] Instance LinuxCPU_eta : Eta LinuxCPU := λ c,
  mkLinuxCPU (cpu_Shares c) (cpu_Quota c) (cpu_Period c) (cpu_Cpus c) (cpu_Mems c).
#[export] Instance LinuxMemory_eta : Eta LinuxMemory := λ m,
  mkLinuxMemory (mem_Limit m) (mem_Swap m).
#[export] Instance LinuxResources_eta : Eta LinuxResources := λ r,
  mkLinuxResources (lr_CPU r) (lr_Memory r) (lr_Unified r) (lr_HugepageLimits r).
#[export] Instance SpecLinux_eta : Eta SpecLinux := λ l,
  mkSpecLinux (sl_Resources l) (sl_Namespaces l) (sl_MountLabel l).
#[export] Instance Spec_eta : Eta Spec := λ s, mkSpec (spec_Process s) (spec_Linux s).

Definition PIDNamespace : string := "pid".

(** The zero [specs.Spec]. *)
Definition emptySpec : Spec := mkSpec None None.

(** [types.LinuxContainerResources] of the CRI. *)
Record LinuxContainerResources := mkLCR {
  CpuPeriod : Z; CpuQuota : Z; CpuShares : Z;
  MemoryLimitInBytes : Z; OomScoreAdj : Z;
  CpusetCpus : string; CpusetMems : string;
  HugepageLimits : list (string * Z);
  Unified : gmap string string;
  MemorySwapLimitInBytes : Z }.
#[export] Instance LCR_eta : Eta LinuxContainerResources := λ r,
  mkLCR (CpuPeriod r) (CpuQuota r) (CpuShares r) (MemoryLimitInBytes r) (OomScoreAdj r)
    (CpusetCpus r) (CpusetMems r) (HugepageLimits r) (Unified r) (MemorySwapLimitInBytes r).
Definition emptyLCR : LinuxContainerResources := mkLCR 0 0 0 0 0 "" "" [] ∅ 0.

(** [types.ContainerUser]: uid, gid and supplemental groups. *)
Record ContainerUser := mkUser { u_Uid : Z; u_Gid : Z; u_SupplementalGroups : list Z }.

Record ContainerVolume := mkVolume {
  v_ContainerPath : string; v_HostPath : string; v_Readonly : bool;
  v_RecursiveReadOnly : bool; v_Propagation : Z; v_SelinuxRelabel : bool;
  v_Image : option string }.

(** Addresses of CRI messages: [criContainer] is a pointer, and the messages it
    pointed to before may still be in use by a gRPC reply. *)
Definition loc := positive.

(** The struct, less the fields of the stop protocol (StopLoop) and the locks.
    [pidns] is the managed PID namespace's path. *)
Record Container := mkContainer {
  criContainer : loc;
  volumes : list ContainerVolume;
  name : string;
  logPath : string;
  runtimeHandler : string;
  bundlePath : string;
  dir : string;
  stopSignal : string;
  someNameOfTheImage : option string;
  imageID : option string;
  mountPoint : string;
  seccompProfilePath : string;
  conmonCgroupfsPath : string;
  crioAnnotations : gmap string string;
  state : ContainerState;
  spec : option Spec;
  terminal : bool;
  stdin : bool;
  stdinOnce : bool;
  created : bool;
  spoofed : bool;
  pidns : option string;
  resources : option LinuxContainerResources;
  runtimePath : string;
  runtimeUser : option ContainerUser;
}.
#[export] Instance Container_eta : Eta Container := λ c,
  mkContainer (criContainer c) (volumes c) (name c) (logPath c) (runtimeHandler c)
    (bundlePath c) (dir c) (stopSignal c) (someNameOfTheImage c) (imageID c) (mountPoint c) (seccompProfilePath c)
    (conmonCgroupfsPath c) (crioAnnotations c) (state c) (spec c) (terminal c) (stdin c)
    (stdinOnce c) (created c) (spoofed c) (pidns c) (resources c) (runtimePath c)
    (runtimeUser c).

(** The CRI messages allocated so far. *)
Definition crimem := gmap loc CriContainer.

(** ** Construction *)

Definition NewContainer (h : crimem) (id nm bundlePath_ logPath_ : string)
    (labels crioAnnotations_ annotations : gmap string string) (userRequestedImage : string)
    (someName : option string) (imageID_ : option string) (someRepoDigest : string) (md : option ContainerMetadata)
    (sandbox : string) (terminal_ stdin_ stdinOnce_ : bool) (runtimeHandler_ dir_ : string)
    (created_ : Z) (stopSignal_ : string) : crimem * Container :=
  let imageIDString := default "" imageID_ in
  let externalImageRef :=
    if bool_decide (someRepoDigest = "") then imageIDString else someRepoDigest in
  let l := fresh (dom h) in
  (<[l := mkCriContainer id sandbox md userRequestedImage externalImageRef imageIDString
            CONTAINER_CREATED created_ labels annotations]> h,
   mkContainer l [] nm logPath_ runtimeHandler_ bundlePath_ dir_ stopSignal_ someName imageID_ "" "" ""
     crioAnnotations_ (emptyState <| Created := created_ |>) None terminal_ stdin_ stdinOnce_
     false false None None "" None).

Definition SpoofedContainerAnnotation : string := "io.kubernetes.cri-o.Spoofed".

Definition NewSpoofedContainer (h : crimem) (id nm : string) (labels : gmap string string)
    (sandbox : string) (created_ : Z) (dir_ : string) : crimem * Container :=
  let l := fresh (dom h) in
  (<[l := mkCriContainer id sandbox (Some (mkMetadata "" 0)) "" "" "" CONTAINER_CREATED created_
            labels {[ SpoofedContainerAnnotation := "true" ]}]> h,
   mkContainer l [] nm "" "" "" dir_ "" None None "" "" "" ∅
     (emptyState <| Created := created_ |> <| Started := created_ |>) None false false false
     false true None None "" None).

(** ** Accessors *)

Definition ID (h : crimem) (c : Container) : option string := cri_Id <$> h !! criContainer c.
Definition Sandbox (h : crimem) (c : Container) : option string :=
  cri_PodSandboxId <$> h !! criContainer c.
Definition IsInfra (h : crimem) (c : Container) : bool :=
  match ID h c, Sandbox h c with Some i, Some s => bool_decide (i = s) | _, _ => false end.

(** [SetSandbox] writes through the shared pointer. *)
Definition SetSandbox (podSandboxID : string) (h : crimem) (c : Container) : crimem :=
  alter (λ m, m <| cri_PodSandboxId := podSandboxID |>) (criContainer c) h.

Definition GetSpec (c : Container) : Spec := default emptySpec (spec c).

Definition AddVolume (v : ContainerVolume) (c : Container) : Container :=
  c <| volumes ::= (.++ [v]) |>.
Definition SetMountPoint (mp : string) (c : Container) : Container := c <| mountPoint := mp |>.
Definition SetCreated (c : Container) : Container := c <| created := true |>.
Definition SetSeccompProfilePath (pp : string) (c : Container) : Container :=
  c <| seccompProfilePath := pp |>.
Definition SetRuntimePathForPlatform (p : string) (c : Container) : Container :=
  c <| runtimePath := p |>.
Definition RuntimePathForPlatform (handlerPath : string) (c : Container) : string :=
  if bool_decide (runtimePath c = "") then handlerPath else runtimePath c.

(** "adjust finished and started times"; the text of the error is kept. *)
Definition SetStartFailed (err : option string) (c : Container) : Container :=
  let s := (state c) <| Finished := Created (state c) |> <| Started := Created (state c) |> in
  c <| state := match err with Some e => s <| Error_ := e |> | None => s end |>.

Definition AddManagedPIDNamespace (ns : string) (c : Container) : Container :=
  c <| pidns := Some ns |>.

(** [fmt.Errorf("...: %w", err)] with a nil operand is still a non-nil error,
    whose text ends in "%!w(<nil>)". *)
Definition errorf_w (msg : string) (err : option goerr) : goerr :=
  match err with
  | Some e => Errorf msg e
  | None => ErrorsNew (msg +:+ "%!w(<nil>)")
  end.

(** [remove ns] is the result of [nsmgr.Namespace.Remove]. *)
Definition RemoveManagedPIDNamespace (remove : string → option goerr) (c : Container) :
    option goerr :=
  match pidns c with
  | None => None
  | Some ns => Some (errorf_w "remove PID namespace for container: " (remove ns))
  end.

(** A node-level PID namespace is one absent from the list; a nil [c.spec] is
    dereferenced. *)
Definition nodeLevelPIDNamespace (c : Container) : outcome bool :=
  match spec c with
  | None => Panic "nil pointer dereference"
  | Some s =>
      Ret match spec_Linux s with
          | Some l => negb (existsb (λ n, bool_decide (ns_Type n = PIDNamespace)) (sl_Namespaces l))
          | None => true
          end
  end.

(** ** The CRI message *)

Definition criStateOf (status : string) : CRIState :=
  if bool_decide (status = ContainerStateCreated) then CONTAINER_CREATED
  else if bool_decide (status = ContainerStateRunning) || bool_decide (status = ContainerStatePaused)
  then CONTAINER_RUNNING
  else if bool_decide (status = ContainerStateStopped) then CONTAINER_EXITED
  else CONTAINER_UNKNOWN.

(** A change of state is written to a copy, and the container then points to it. *)
Definition CRIContainer (h : crimem) (c : Container) : outcome (crimem * Container * loc) :=
  match h !! criContainer c with
  | None => Panic "nil pointer dereference"
  | Some m =>
      let newState := criStateOf (Status (state c)) in
      if bool_decide (newState = cri_State m) then Ret (h, c, criContainer c)
      else let l := fresh (dom h) in
           Ret (<[l := m <| cri_State := newState |>]> h, c <| criContainer := l |>, l)
  end.

(** ** Resources *)

(** [SetResources]: nil pointers leave the zero value; [int64(x)] of a [uint64]
    wraps. *)
Definition cpuStatus (cpu : option LinuxCPU) (r : LinuxContainerResources) :=
  match cpu with
  | None => r
  | Some cpu =>
      r <| CpusetCpus := cpu_Cpus cpu |> <| CpusetMems := cpu_Mems cpu |>
        <| CpuPeriod ::= λ z, match cpu_Period cpu with Some p => i64 p | None => z end |>
        <| CpuQuota ::= λ z, default z (cpu_Quota cpu) |>
        <| CpuShares ::= λ z, match cpu_Shares cpu with Some p => i64 p | None => z end |>
  end.
Definition memStatus (mem : option LinuxMemory) (r : LinuxContainerResources) :=
  match mem with
  | None => r
  | Some mem =>
      r <| MemoryLimitInBytes ::= λ z, default z (mem_Limit mem) |>
        <| MemorySwapLimitInBytes ::= λ z, default z (mem_Swap mem) |>
  end.
Definition oomStatus (p : option SpecProcess) (r : LinuxContainerResources) :=
  match p with
  | None => r
  | Some p => r <| OomScoreAdj ::= λ z, default z (sp_OOMScoreAdj p) |>
  end.

Definition SetResources (s : Spec) (c : Container) : Container :=
  match spec_Linux s ≫= sl_Resources with
  | None => c
  | Some lr =>
      let r := oomStatus (spec_Process s) (memStatus (lr_Memory lr) (cpuStatus (lr_CPU lr) emptyLCR)) in
      c <| resources := Some
             (r <| Unified := lr_Unified lr |>
                <| HugepageLimits := (λ e, (hp_Pagesize e, hp_Limit e)) <$> lr_HugepageLimits lr |>) |>
  end.

Definition SetRuntimeUser (s : Spec) (c : Container) : Container :=
  match spec_Process s with
  | None => c
  | Some p => c <| runtimeUser := Some (mkUser (sp_UID p) (sp_GID p) (sp_AdditionalGids p)) |>
  end.

Definition SetSpec (s : Spec) (c : Container) : Container :=
  SetRuntimeUser s (SetResources s (c <| spec := Some s |>)).

Definition LabelsToDescription (labels : gmap string string) : string :=
  default "" (labels !! "io.kubernetes.pod.namespace") +:+ "/" +:+
  default "" (labels !! "io.kubernetes.pod.name") +:+ "/" +:+
  default "" (labels !! "io.kubernetes.container.name").

Definition StatePath (c : Container) : string := PathJoin [dir c; "state.json"].
Definition exitFilePath (c : Container) : string := PathJoin [dir c; "exit"].
Definition conmonPidFilePath (c : Container) : string := PathJoin [bundlePath c; "conmon-pidfile"].
Definition CheckpointPath (c : Container) : string := PathJoin [dir c; "checkpoint"].

(** ** The stop signal *)

Definition defaultStopSignalInt : Z := 15.

(** [parse] is [signal.ParseSignal] of containers/common. *)
Definition StopSignal (parse : string → outcome Z) (c : Container) : Z :=
  if bool_decide (stopSignal c = "") then defaultStopSignalInt
  else match parse (ToUpper (stopSignal c)) with
       | Ret s => s
       | _ => defaultStopSignalInt
       end.
Definition GetStopSignal (parse : string → outcome Z) (c : Container) : string :=
  Itoa (StopSignal parse c).

(** ** The init process *)

Section host.
Variable read_file : string → outcome string.
Variable kill : Z → Z → option goerr.

Definition procStatFile (pid : Z) : string := "/proc/" +:+ Itoa pid +:+ "/stat".
Definition stateFieldIndex : nat := 0.
Definition startTimeFieldIndex : nat := 19.
(** The argument of [io.LimitReader]. *)
Definition statLimit : nat := 4096.

Definition getPidStatDataFromFile (file : string) : outcome (string * string) :=
  content ← read_file file;
  let data := str_take statLimit content in
  match LastIndexByte data ")" with
  | None => Fail (Errorf "unable to find ')' in stat file: " ErrNotFound)
  | Some bracket =>
      if (String.length data <? bracket + 2)%nat then Panic "slice bounds out of range"
      else
        let statFields := Fields (str_drop (bracket + 2) data) in
        if (length statFields <? startTimeFieldIndex + 1)%nat
        then Fail (Errorf "unable to parse malformed stat file: " ErrNotFound)
        else match statFields !! stateFieldIndex, statFields !! startTimeFieldIndex with
             | Some st, Some start => Ret (st, start)
             | _, _ => Panic "index out of range"
             end
  end.

Definition GetPidStartTimeFromFile (file : string) : outcome string :=
  snd <$> getPidStatDataFromFile file.
Definition getPidStartTime (pid : Z) : outcome string :=
  snd <$> getPidStatDataFromFile (procStatFile pid).
Definition getPidStatData (pid : Z) : outcome (string * string) :=
  getPidStatDataFromFile (procStatFile pid).

(** [SetInitPid]: the state after the call, and its error.  [InitPid] is stored
    before the start time is read. *)
Definition SetInitPid (pid : Z) (s : ContainerState) : ContainerState * outcome () :=
  if negb (bool_decide (InitPid s = 0)) || negb (bool_decide (InitStartTime s = ""))
  then (s, Fail (ErrorsNew "pid and start time already initialized"))
  else
    let s := s <| InitPid := pid |> in
    match getPidStartTime pid with
    | Ret startTime => (s <| InitStartTime := startTime |>, Ret ())
    | Fail e => (s, Fail e)
    | Panic w => (s, Panic w)
    end.

Definition verifyPid (s : ContainerState) : outcome string :=
  '(st, startTime) ← getPidStatData (InitPid s);
  if bool_decide (InitStartTime s = startTime) then Ret st
  else Fail (ErrorsNew "PID is running but has another start time. PID wrap may have occurred").

(** [c.pid()]; [c.state] may be nil. *)
Definition pid (cs : option ContainerState) : outcome (Z * string) :=
  match cs with
  | None => Fail ErrNotInitialized
  | Some s =>
      if InitPid s <=? 0 then Fail ErrNotInitialized
      else if bool_decide (Pid s = 0) then Fail ErrNotFound
      else match kill (InitPid s) 0 with
           | Some err =>
               if errors_is err ESRCH then Fail ErrNotFound
               else Fail (Errorf "error checking if process is running: " err)
           | None =>
               st ← verifyPid s;
               if bool_decide (st = "X") || bool_decide (st = "Z") then Fail ErrNotFound
               else Ret (InitPid s, st)
           end
  end.

Definition Living (c : Container) : outcome () :=
  match pid (Some (state c)) with
  | Ret _ => Ret ()
  | Fail e => Fail (Errorf "checking if PID is running failed: " e)
  | Panic w => Panic w
  end.
Definition ProcessState (c : Container) : outcome string :=
  match pid (Some (state c)) with
  | Ret (_, st) => Ret st
  | Fail e => Fail (Errorf "checking if PID is running failed: " e)
  | Panic w => Panic w
  end.
Definition PidOf (c : Container) : outcome Z := fst <$> pid (Some (state c)).

(** [decode] is the JSON decoder of [ContainerState]. *)
Definition FromDisk (decode : string → outcome ContainerState) (c : Container) :
    Container * outcome () :=
  match jsonSource ← read_file (StatePath c); decode jsonSource with
  | Fail e => (c, Fail e)
  | Panic w => (c, Panic w)
  | Ret tmpState =>
      if bool_decide (InitPid tmpState = 0) && bool_decide (InitStartTime tmpState = "") &&
         negb (bool_decide (Pid tmpState = 0))
      then match SetInitPid (Pid tmpState) tmpState with
           | (tmpState, Ret _) => (c <| state := tmpState |>, Ret ())
           | (_, r) => (c, r)
           end
      else (c <| state := tmpState |>, Ret ())
  end.
End host.

(** ** Killing the exec sessions *)

Definition SIGINT : Z := 2.
Definition SIGKILL : Z := 9.

(** One pass of the loop over [toKill]: the signals sent and the map [unkilled]. *)
Definition kill_one (kill : Z → Z → option goerr) (pid_ : Z) (shouldKill : bool)
    (acc : list (Z * Z) * gmap Z bool) : list (Z * Z) * gmap Z bool :=
  let '(sent, unkilled) := acc in
  if bool_decide (pid_ = 0) then acc
  else
    let sig := if shouldKill then SIGKILL else SIGINT in
    (sent ++ [(pid_, sig)],
     match kill pid_ sig with
     | None => unkilled
     | Some err => if errors_is err ESRCH then unkilled else <[pid_ := shouldKill]> unkilled
     end).

Definition kill_pass (kill : Z → Z → option goerr) (toKill : gmap Z bool) :
    list (Z * Z) * gmap Z bool :=
  map_fold (kill_one kill) ([], ∅) toKill.

(** [kills n] answers the signals of pass [n]; the fuel bounds the passes and
    [None] says it ran out. *)
Fixpoint KillExecPIDs (kills : nat → Z → Z → option goerr) (fuel n : nat)
    (toKill : gmap Z bool) : option (list (Z * Z)) :=
  if decide (toKill = ∅) then Some []
  else match fuel with
       | O => None
       | S fuel =>
           let '(sent, unkilled) := kill_pass (kills n) toKill in
           (sent ++.) <$> KillExecPIDs kills fuel (S n) unkilled
       end.

(** ** Lemmas *)

Section host_lemmas.
Variable read_file : string → outcome string.

Lemma verifyPid_ret s st :
  verifyPid read_file s = Ret st ↔
  getPidStatData read_file (InitPid s) = Ret (st, InitStartTime s).
Proof.
  unfold verifyPid. destruct (getPidStatData read_file (InitPid s)) as [[st' t]| |]; simpl;
    [|done|done].
  case_bool_decide; naive_solver.
Qed.

(** A stat line as proc(5) documents it: the PID, the command name in
    parentheses, and the remaining fields. *)
Definition stat_line (p comm : string) (fields : list string) : string :=
  p +:+ " (" +:+ comm +:+ ") " +:+ Join fields " " +:+ String "010" "".

(** Whatever bytes the command name holds (spaces, parentheses, newlines), a
    stat file with at least twenty fields after it yields the first of them as
    the process state and the twentieth as the start time. *)
Theorem getPidStatDataFromFile_comm file p comm fields :
  read_file file = Ret (stat_line p comm fields) →
  (String.length (stat_line p comm fields) ≤ statLimit)%nat →
  Forall (λ f, word f = true ∧ contains_char ")" f = false) fields →
  (20 ≤ length fields)%nat →
  ∃ st start, fields !! 0%nat = Some st ∧ fields !! 19%nat = Some start ∧
    getPidStatDataFromFile read_file file = Ret (st, start).
Proof.
  intros Hr Hlen Hf H20.
  destruct (lookup_lt_is_Some_2 fields 0) as [st Hst]; [lia|].
  destruct (lookup_lt_is_Some_2 fields 19) as [start Hstart]; [lia|].
  exists st, start. split_and!; [done..|].
  unfold getPidStatDataFromFile. rewrite Hr. cbn [mbind outcome_bind].
  rewrite str_take_all by done.
  set (head := p +:+ " (" +:+ comm).
  assert (stat_line p comm fields =
    head +:+ String ")" (" " +:+ Join fields " " +:+ String "010" "")) as Heq.
  { unfold stat_line, head. rewrite !append_assoc. done. }
  rewrite Heq, LastIndexByte_app.
  2:{ rewrite !contains_char_app. simpl. rewrite contains_char_Join; [done|done|].
      eapply Forall_impl; [exact Hf|]. naive_solver. }
  rewrite (proj2 (Nat.ltb_ge _ _)).
  2:{ rewrite length_append. simpl. lia. }
  replace (head +:+ String ")" (" " +:+ Join fields " " +:+ String "010" "")) with
    ((head +:+ ") ") +:+ (Join fields " " +:+ String "010" "")) by (by rewrite append_assoc).
  replace (String.length head + 2)%nat with (String.length (head +:+ ") "))
    by (by rewrite length_append).
  rewrite str_drop_app, Fields_trailing, Fields_Join;
    [|eapply Forall_impl; [exact Hf|]; naive_solver|done].
  rewrite (proj2 (Nat.ltb_ge _ _)) by (unfold startTimeFieldIndex; lia).
  unfold stateFieldIndex, startTimeFieldIndex. by rewrite Hst, Hstart.
Qed.

(** A finding: a file whose last byte is the bracket makes the slice expression
    [data[bracket+2:]] panic instead of returning the malformed-file error. *)
Theorem getPidStatDataFromFile_truncated file s :
  read_file file = Ret (s +:+ ")") → (String.length s < statLimit)%nat →
  getPidStatDataFromFile read_file file = Panic "slice bounds out of range".
Proof.
  intros Hr Hlen. unfold getPidStatDataFromFile. rewrite Hr. cbn [mbind outcome_bind].
  rewrite str_take_all by (rewrite length_append; simpl; lia).
  rewrite LastIndexByte_app by done.
  rewrite (proj2 (Nat.ltb_lt _ _)); [done|]. rewrite length_append. simpl. lia.
Qed.

(** C34: [SetInitPid] is effective at most once. On an initialised state it fails
    and changes nothing; on a fresh one it records the PID and, when it succeeds,
    the start time the stat file shows; after it, another call fails. *)
Theorem SetInitPid_once p s s' r :
  SetInitPid read_file p s = (s', r) → p ≠ 0 →
  (r = Ret () → InitPid s = 0 ∧ InitStartTime s = "" ∧
     s' = s <| InitPid := p |> <| InitStartTime := InitStartTime s' |> ∧
     getPidStartTime read_file p = Ret (InitStartTime s')) ∧
  (InitPid s ≠ 0 ∨ InitStartTime s ≠ "" → s' = s ∧ ∃ e, r = Fail e) ∧
  ∀ p', ∃ e, SetInitPid read_file p' s' = (s', Fail e).
Proof.
  intros H Hp. unfold SetInitPid in H.
  destruct (decide (InitPid s = 0 ∧ InitStartTime s = "")) as [[H1 H2]|Hinit].
  - rewrite !bool_decide_eq_true_2 in H by done. simpl in H.
    assert (InitPid s' = p) as Hs'.
    { destruct (getPidStartTime read_file p); by simplify_eq/=. }
    split_and!.
    + intros ->. clear Hs'. destruct (getPidStartTime read_file p) as [t0| |]; by simplify_eq/=.
    + naive_solver.
    + intros p'. unfold SetInitPid. rewrite Hs', (bool_decide_eq_false_2 (p = 0)) by done.
      simpl. eauto.
  - assert (negb (bool_decide (InitPid s = 0)) || negb (bool_decide (InitStartTime s = "")) = true)
      as Hg.
    { destruct (decide (InitPid s = 0)); [|by rewrite bool_decide_eq_false_2].
      rewrite (bool_decide_eq_false_2 (InitStartTime s = "")) by naive_solver. apply orb_true_r. }
    rewrite Hg in H. simplify_eq. split_and!; [done|eauto|].
    intros p'. unfold SetInitPid. rewrite Hg. eauto.
Qed.
Variable kill : Z → Z → option goerr.

(** The PID check is exact. [pid] returns a PID precisely when the state has
    one, the runtime has not cleared it, the process exists, its stat file shows
    the saved start time, and it is neither dead nor a zombie. *)
Theorem pid_safe s p st :
  pid read_file kill (Some s) = Ret (p, st) ↔
  p = InitPid s ∧ 0 < p ∧ Pid s ≠ 0 ∧ kill p 0 = None ∧
  getPidStatData read_file p = Ret (st, InitStartTime s) ∧ st ≠ "X" ∧ st ≠ "Z".
Proof.
  unfold pid. split.
  - intros H. case_match eqn:Hp; [done|]. apply Z.leb_gt in Hp.
    case_bool_decide; [done|]. destruct (kill (InitPid s) 0) eqn:Hk; [by case_match|].
    destruct (verifyPid read_file s) as [st'| |] eqn:Hv; [|done|done]. simpl in H.
    apply verifyPid_ret in Hv.
    destruct (bool_decide (st' = "X")) eqn:HX; [done|].
    destruct (bool_decide (st' = "Z")) eqn:HZ; [done|].
    apply bool_decide_eq_false in HX, HZ. by simplify_eq/=.
  - intros (-> & Hp & HPid & Hk & Hd & HX & HZ).
    rewrite (proj2 (Z.leb_gt _ _)) by done. rewrite bool_decide_eq_false_2 by done.
    rewrite Hk. apply verifyPid_ret in Hd. rewrite Hd. simpl.
    rewrite !bool_decide_eq_false_2 by done. done.
Qed.

End host_lemmas.

(** C35: [CRIContainer] returns a message that shows the container's status, and
    never changes a message handed out before: a change of state goes to a copy
    that differs in the state only. *)
Theorem CRIContainer_copy_on_write h c m :
  h !! criContainer c = Some m →
  ∃ h' c' l m', CRIContainer h c = Ret (h', c', l) ∧
    h ⊆ h' ∧ criContainer c' = l ∧ h' !! l = Some m' ∧
    m' = m <| cri_State := criStateOf (Status (state c)) |> ∧
    c' = c <| criContainer := l |> ∧
    CRIContainer h' c' = Ret (h', c', l).
Proof.
  intros Hm. unfold CRIContainer. rewrite Hm. case_bool_decide as Hs.
  - exists h, c, (criContainer c), m. rewrite Hm, bool_decide_eq_true_2 by done.
    split_and!; try done; [by rewrite Hs; destruct m|by destruct c].
  - set (l := fresh (dom h)).
    assert (h !! l = None) as Hl by apply not_elem_of_dom, is_fresh.
    eexists _, _, l, _. split_and!; [reflexivity|by apply insert_subseteq|done|
      apply lookup_insert_eq|done|done|].
    simpl. rewrite (lookup_insert_eq h l). simpl. by rewrite bool_decide_eq_true_2.
Qed.

(** A finding: the error of [RemoveManagedPIDNamespace] wraps whatever [Remove]
    returned, nil included, so a container with a managed PID namespace always
    gets an error. *)
Theorem RemoveManagedPIDNamespace_always_fails remove c ns :
  pidns c = Some ns → RemoveManagedPIDNamespace remove c ≠ None.
Proof. intros H. unfold RemoveManagedPIDNamespace. by rewrite H. Qed.

(** What one pass sends and keeps. *)
Lemma kill_pass_spec kill toKill sent unkilled :
  kill_pass kill toKill = (sent, unkilled) →
  (∀ p sg, (p, sg) ∈ sent ↔ p ≠ 0%Z ∧ ∃ k : bool, toKill !! p = Some k ∧
     sg = if k then SIGKILL else SIGINT) ∧
  (∀ p (k : bool), unkilled !! p = Some k ↔ p ≠ 0 ∧ toKill !! p = Some k ∧
     ∃ e, kill p (if k then SIGKILL else SIGINT) = Some e ∧ errors_is e ESRCH = false).
Proof.
  unfold kill_pass. revert sent unkilled.
  apply (map_fold_weak_ind (λ acc m, ∀ sent unkilled, acc = (sent, unkilled) →
    (∀ p sg, (p, sg) ∈ sent ↔ p ≠ 0%Z ∧ ∃ k : bool, m !! p = Some k ∧
       sg = if k then SIGKILL else SIGINT) ∧
    (∀ p (k : bool), unkilled !! p = Some k ↔ p ≠ 0 ∧ m !! p = Some k ∧
       ∃ e, kill p (if k then SIGKILL else SIGINT) = Some e ∧ errors_is e ESRCH = false))).
  { intros sent unkilled [= <- <-]. split; intros p ?; rewrite ?lookup_empty; set_solver. }
  intros q b m acc Hq IH sent unkilled Hacc.
  destruct acc as [sent0 un0]. destruct (IH _ _ eq_refl) as [IHs IHu]. unfold kill_one in Hacc.
  case_bool_decide; simplify_eq.
  - split; intros p ?.
    + rewrite IHs. split; intros (? & k & ? & ?); split_and!; try done; exists k;
        by rewrite lookup_insert_ne in *.
    + rewrite IHu. split; intros (? & ? & ?); split_and!; try done;
        by rewrite lookup_insert_ne in *.
  - split; intros p x.
    + rewrite elem_of_app, list_elem_of_singleton, IHs.
      destruct (decide (p = q)) as [->|].
      * rewrite lookup_insert_eq, Hq. split.
        -- intros [(_ & k & ? & _)|[= ->]]; [done|eauto].
        -- intros (_ & k & [= <-] & ->). by right.
      * rewrite lookup_insert_ne by done. split; [|by left].
        intros [?|[= -> _]]; done.
    + destruct (decide (p = q)) as [->|].
      * rewrite lookup_insert_eq. split.
        -- destruct (kill q _) as [e|] eqn:Hk; [destruct (errors_is e ESRCH) eqn:He|].
           1,3: rewrite IHu, Hq; by intros (_ & ? & _).
           rewrite lookup_insert_eq. intros [= <-]. eauto.
        -- intros (_ & [= <-] & e & -> & ->). apply lookup_insert_eq.
      * rewrite lookup_insert_ne by done. rewrite <- IHu.
        destruct (kill q _) as [e|]; [|done]. destruct (errors_is e ESRCH); [done|].
        by rewrite lookup_insert_ne.
Qed.


(** ** Witnesses *)

Definition w_fields : list string := "S" :: replicate 18 "0" ++ ["4711"; "9"].
Definition w_read (f : string) : outcome string :=
  if bool_decide (f = "/proc/42/stat") then Ret (stat_line "42" "a) (b" w_fields)
  else Fail (ErrorsNew "no such file").

Lemma getPidStatDataFromFile_comm_witness :
  getPidStatDataFromFile w_read "/proc/42/stat" = Ret ("S", "4711").
Proof.
  destruct (getPidStatDataFromFile_comm w_read "/proc/42/stat" "42" "a) (b" w_fields)
    as (st & start & Hst & Hstart & H);
    [reflexivity|vm_compute; lia|repeat constructor|vm_compute; lia|].
  injection Hst as <-. injection Hstart as <-. exact H.
Defined.

Lemma SetInitPid_once_witness :
  SetInitPid w_read 42 emptyState =
    (emptyState <| InitPid := 42 |> <| InitStartTime := "4711" |>, Ret ()) ∧
  ∃ e, SetInitPid w_read 7 (emptyState <| InitPid := 42 |> <| InitStartTime := "4711" |>) =
    (emptyState <| InitPid := 42 |> <| InitStartTime := "4711" |>, Fail e).
Proof.
  split; [vm_compute; reflexivity|].
  apply (SetInitPid_once w_read 42 emptyState
    (emptyState <| InitPid := 42 |> <| InitStartTime := "4711" |>) (Ret ()));
    [vm_compute; reflexivity|lia].
Defined.

Definition w_heap : crimem :=
  {[ 1%positive := mkCriContainer "id" "sb" None "img" "ref" "iid" CONTAINER_CREATED 0 ∅ ∅ ]}.
Definition w_container : Container :=
  mkContainer 1%positive [] "n" "" "" "" "/c" "" None None "" "" "" ∅
    (emptyState <| Status := "running" |>) None false false false true false None None "" None.

Lemma CRIContainer_copy_on_write_witness :
  ∃ h' c' l m', CRIContainer w_heap w_container = Ret (h', c', l) ∧ w_heap ⊆ h' ∧
    h' !! l = Some m' ∧ cri_State m' = CONTAINER_RUNNING.
Proof.
  destruct (CRIContainer_copy_on_write w_heap w_container
    (mkCriContainer "id" "sb" None "img" "ref" "iid" CONTAINER_CREATED 0 ∅ ∅))
    as (h' & c' & l & m' & H1 & H2 & _ & H4 & -> & _); [reflexivity|].
  exists h', c', l. eexists. split_and!; [exact H1|exact H2|exact H4|reflexivity].
Defined.

