(* ===== verification/CgMgr.v ===== *)
(** * CgMgr: the cgroup managers (internal/config/cgmgr)

    Where the cgroup of a container or sandbox is, for the systemd and the
    cgroupfs drivers; the cache of libcontainer managers on cgroup v1; the
    minimum memory check; and the statistics.  [cgroupIsV2] is what the node
    answers. *)

From S2P Require Import Prelude GoStrings Host Container.
From Stdlib Require Import Ascii.
Local Open Scope Z_scope.

Definition CrioPrefix : string := "crio".
Definition cgroupMemoryPathV1 : string := "/sys/fs/cgroup/memory".
Definition cgroupMemoryMaxFileV1 : string := "memory.limit_in_bytes".
Definition cgroupMemoryPathV2 : string := "/sys/fs/cgroup".
Definition cgroupMemoryMaxFileV2 : string := "memory.max".
Definition defaultSystemdParent : string := "system.slice".
Definition defaultCgroupfsParent : string := "/crio".

(** The two implementations of the interface [CgroupManager]. *)
Inductive driver := SystemdManager | CgroupfsManager.
#[export] Instance driver_eq_dec : EqDecision driver.
Proof. solve_decision. Defined.

Record CgroupManager := mkCgroupManager {
  cm_driver : driver;
  memoryPath : string;
  memoryMaxFile : string;
  v1CtrCgMgr : gmap string Manager;
  v1SbCgMgr : gmap string Manager;
}.
#[export] Instance CgroupManager_eta : Eta CgroupManager := λ m,
  mkCgroupManager (cm_driver m) (memoryPath m) (memoryMaxFile m) (v1CtrCgMgr m) (v1SbCgMgr m).

Definition IsSystemd (m : CgroupManager) : bool := bool_decide (cm_driver m = SystemdManager).

Definition containerCgroupPath (id : string) : string := CrioPrefix +:+ "-" +:+ id.

(** [systemd.ExpandSlice]: a-b.slice is /a.slice/a-b.slice. *)
Fixpoint expand_components (path prefix : string) (cs : list string) : option string :=
  match cs with
  | [] => Some path
  | c :: cs =>
      if bool_decide (c = "") then None
      else expand_components (path +:+ "/" +:+ prefix +:+ c +:+ ".slice") (prefix +:+ c +:+ "-") cs
  end.
Definition ExpandSlice (slice : string) : outcome string :=
  if negb (HasSuffix slice ".slice") then Fail (ErrorsNew "invalid slice name")
  else if Contains slice "/" then Fail (ErrorsNew "invalid slice name")
  else
    let sliceName := TrimSuffix slice ".slice" in
    if bool_decide (sliceName = "-") then Ret "/"
    else match expand_components "" "" (Split sliceName "-") with
         | Some path => Ret path
         | None => Fail (ErrorsNew "invalid slice name")
         end.

Definition convertCgroupFsNameToSystemd (cgroupfsName : string) : string := Base cgroupfsName.

Definition sandboxCgroupAbsolutePath (sbParent : string) : outcome (string * string) :=
  let cgParent := convertCgroupFsNameToSystemd sbParent in
  match ExpandSlice cgParent with
  | Ret slicePath => Ret (cgParent, slicePath)
  | Fail e => Fail (Errorf "expanding systemd slice path: " e)
  | Panic w => Panic w
  end.

Definition defaultParent (d : driver) : string :=
  match d with SystemdManager => defaultSystemdParent | CgroupfsManager => defaultCgroupfsParent end.
Definition parentOf (d : driver) (sbParent : string) : string :=
  if bool_decide (sbParent = "") then defaultParent d else sbParent.

Definition ContainerCgroupPath (m : CgroupManager) (sbParent containerID : string) : string :=
  let parent := parentOf (cm_driver m) sbParent in
  match cm_driver m with
  | SystemdManager => parent +:+ ":" +:+ CrioPrefix +:+ ":" +:+ containerID
  | CgroupfsManager => PathJoin ["/"; parent; containerCgroupPath containerID]
  end.

Definition ContainerCgroupAbsolutePath (m : CgroupManager) (sbParent containerID : string) : outcome string :=
  match cm_driver m with
  | CgroupfsManager => Ret (ContainerCgroupPath m sbParent containerID)
  | SystemdManager =>
      match ExpandSlice (parentOf SystemdManager sbParent) with
      | Ret cgroup => Ret (PathJoin [cgroup; containerCgroupPath containerID +:+ ".scope"])
      | Fail e => Fail (Errorf "expanding systemd slice to get container stats: " e)
      | Panic w => Panic w
      end
  end.

(** ** Memory *)

Definition VerifyMemoryIsEnough (memoryLimit minMemory : Z) : option goerr :=
  if negb (memoryLimit =? 0) && (memoryLimit <? minMemory)
  then Some (ErrorsNew "set memory limit too low") else None.

(** [strings.TrimRight(s, "\n")] *)
Fixpoint drop_newlines (s : string) : string :=
  match s with
  | String c s' => if Ascii.eqb c "010" then drop_newlines s' else s
  | EmptyString => s
  end.
Definition TrimRightNewlines (s : string) : string := str_rev (drop_newlines (str_rev s)).

Section cgmgr.
Context `{HostFaults} `{Libcontainer}.
Variable cgroupIsV2 : bool.

Definition newManager (d : driver) : CgroupManager :=
  if cgroupIsV2 then mkCgroupManager d cgroupMemoryPathV2 cgroupMemoryMaxFileV2 ∅ ∅
  else mkCgroupManager d cgroupMemoryPathV1 cgroupMemoryMaxFileV1 ∅ ∅.
Definition SetCgroupManager (cgroupManager : string) : outcome CgroupManager :=
  if bool_decide (cgroupManager = "systemd") then Ret (newManager SystemdManager)
  else if bool_decide (cgroupManager = "cgroupfs") then Ret (newManager CgroupfsManager)
  else Fail (ErrorsNew "invalid cgroup manager").

Definition verifyCgroupHasEnoughMemory (slicePath memorySubsystemPath memoryMaxFilename : string)
    (containerMinMemory : Z) : io host () :=
  r ← try (ReadFile (PathJoin [memorySubsystemPath; slicePath; memoryMaxFilename]));
  match r with
  | inr e =>
      if errors_is e os_ErrNotExist then mret ()
      else fail (Errorf "unable to read memory file for cgroups: " e)
  | inl fileData =>
      let strMemory := TrimRightNewlines fileData in
      if bool_decide (strMemory = "") || bool_decide (strMemory = "max") then mret ()
      else
        memoryLimit ← wrap_err "error converting cgroup memory value from string to int: "
                        (lift (ParseInt 64 strMemory));
        match VerifyMemoryIsEnough memoryLimit containerMinMemory with
        | Some e => fail (Errorf "pod " e)
        | None => mret ()
        end
  end.

(** The cgroup parent and the cgroup path. *)
Definition SandboxCgroupPath (m : CgroupManager) (sbParent sbID : string) (minMemory : Z) :
    io host (string * string) :=
  match cm_driver m with
  | SystemdManager =>
      if bool_decide (sbParent = "") then mret ("", "")
      else if negb (HasSuffix (Base sbParent) ".slice") then
        fail (ErrorsNew "cri-o configured with systemd cgroup manager, but did not receive slice as parent")
      else
        verifyCgroupHasEnoughMemory sbParent (memoryPath m) (memoryMaxFile m) minMemory ;;
        let cgParent := convertCgroupFsNameToSystemd sbParent in
        mret (cgParent, cgParent +:+ ":" +:+ CrioPrefix +:+ ":" +:+ sbID)
  | CgroupfsManager =>
      if HasSuffix (Base sbParent) ".slice" then
        fail (ErrorsNew "cri-o configured with cgroupfs cgroup manager, but received systemd slice as parent")
      else
        verifyCgroupHasEnoughMemory sbParent (memoryPath m) (memoryMaxFile m) minMemory ;;
        mret (sbParent, PathJoin [sbParent; containerCgroupPath sbID])
  end.

(** ** Managers *)

Definition libctrManager (cgroup parent : string) (systemd : bool) : outcome Manager :=
  let parent := if systemd
                then let b := Base parent in if bool_decide (b = ".") then "-.slice" else b
                else parent in
  mgr_New (mkCgroup cgroup parent "" systemd CrioPrefix).

(** What the two [*CgroupManager] methods compute when nothing is cached. *)
Definition freshCtrManager (m : CgroupManager) (sbParent containerID : string) : outcome Manager :=
  cgPath ← ContainerCgroupAbsolutePath m sbParent containerID;
  match cm_driver m with
  | SystemdManager => libctrManager containerID (Dir cgPath) true
  | CgroupfsManager => libctrManager (Base cgPath) (Dir cgPath) false
  end.
Definition freshSbManager (m : CgroupManager) (sbParent : string) : outcome Manager :=
  '(_, cgPath) ← sandboxCgroupAbsolutePath sbParent;
  libctrManager (Base cgPath) (Dir cgPath) (IsSystemd m).

Definition ContainerCgroupManager (sbParent containerID : string) : io CgroupManager Manager := λ m,
  match (if cgroupIsV2 then None else v1CtrCgMgr m !! containerID) with
  | Some mgr => (Ret mgr, m)
  | None =>
      match freshCtrManager m sbParent containerID with
      | Ret mgr => (Ret mgr, if cgroupIsV2 then m else m <| v1CtrCgMgr ::= <[containerID := mgr]> |>)
      | Fail e => (Fail e, m)
      | Panic w => (Panic w, m)
      end
  end.
Definition RemoveContainerCgManager (containerID : string) (m : CgroupManager) : CgroupManager :=
  if cgroupIsV2 then m else m <| v1CtrCgMgr ::= delete containerID |>.

Definition SandboxCgroupManager (sbParent sbID : string) : io CgroupManager Manager := λ m,
  match (if cgroupIsV2 then None else v1SbCgMgr m !! sbID) with
  | Some mgr => (Ret mgr, m)
  | None =>
      match freshSbManager m sbParent with
      | Ret mgr => (Ret mgr, if cgroupIsV2 then m else m <| v1SbCgMgr ::= <[sbID := mgr]> |>)
      | Fail e => (Fail e, m)
      | Panic w => (Panic w, m)
      end
  end.
Definition RemoveSandboxCgManager (sbID : string) (m : CgroupManager) : CgroupManager :=
  if cgroupIsV2 then m else m <| v1SbCgMgr ::= delete sbID |>.

(** ** Creating and removing a sandbox's own cgroup *)

Definition createSandboxCgroup (sbParent containerCgroup : string) : io host () :=
  mgr ← lift (mgr_New (mkCgroup containerCgroup sbParent "" false ""));
  (if cgroupIsV2 then mret ()
   else
     let path := m_Path mgr "cpuset" in
     if bool_decide (path = "") then
       fail (ErrorsNew "failed to find cpuset for newly created cgroup")
     else
       r ← try (MkdirAll path);
       match r with
       | inr e => if errors_is e os_ErrNotExist then mret ()
                  else fail (Errorf "failed to create cpuset for newly created cgroup: " e)
       | inl _ => mret ()
       end ;;
       wrap_err "failed to set sched_load_balance cpuset for newly created cgroup: "
         (cg_WriteFile path "cpuset.sched_load_balance" "0")) ;;
  mgr_Apply mgr (-1).
Definition removeSandboxCgroup (sbParent containerCgroup : string) : io host () :=
  mgr ← lift (mgr_New (mkCgroup containerCgroup sbParent "" false ""));
  mgr_Destroy mgr.

Definition onSandboxCgroup (f : string → string → io host ()) (m : CgroupManager)
    (sbParent containerID : string) : io host () :=
  match cm_driver m with
  | SystemdManager =>
      if bool_decide (sbParent = "") then mret ()
      else
        expandedParent ← lift (ExpandSlice sbParent);
        f expandedParent (containerCgroupPath containerID)
  | CgroupfsManager => f (PathJoin ["/"; sbParent]) (containerCgroupPath containerID)
  end.
Definition CreateSandboxCgroup := onSandboxCgroup createSandboxCgroup.
Definition RemoveSandboxCgroup := onSandboxCgroup removeSandboxCgroup.

(** ** Conmon's cgroup (cgroupfs) *)

Definition setWorkloadSettings (cgPath : string) (cpu : option LinuxCPU) : io host () :=
  match cpu with
  | None => mret ()
  | Some cpu =>
      let res := mkResources (cpu_Cpus cpu) (default 0 (cpu_Shares cpu)) (default 0 (cpu_Quota cpu))
                   (default 0 (cpu_Period cpu)) in
      mgr ← lift (mgr_New (mkCgroup "" "" ("/" +:+ cgPath) false ""));
      mgr_Set mgr res
  end.

(** [control] is the result of [cgroups.New], [addPid] its [AddPid]. *)
Definition MoveConmonToCgroup (control : string → bool) (addPid : string → Z → io host ())
    (cid cgroupParent conmonCgroup : string) (p : Z) (cpu : option LinuxCPU) : io host string :=
  if negb (bool_decide (conmonCgroup = "pod")) && negb (bool_decide (conmonCgroup = "")) then
    fail (ErrorsNew "conmon cgroup invalid for cgroupfs")
  else
    let cgroupPath := cgroupParent +:+ "/crio-conmon-" +:+ cid in
    if negb (control cgroupPath) then mret cgroupPath
    else
      setWorkloadSettings cgroupPath cpu ;;
      wrap_err "failed to add conmon to cgroupfs sandbox cgroup: " (addPid cgroupPath p) ;;
      mret cgroupPath.
End cgmgr.

(** ** Statistics *)

(** libcontainer's memory statistics, as far as they are read. *)
Record libctrMemoryStats := mkLibctrMemoryStats {
  ls_Cache : Z; ls_Usage : Z; ls_MaxUsage : Z; ls_Failcnt : Z; ls_Limit : Z;
  ls_SwapUsage : Z; ls_SwapLimit : Z; ls_KernelUsage : Z; ls_KernelTCPUsage : Z;
  ls_Stats : gmap string Z; ls_UseHierarchy : bool }.
Record MemoryStats := mkMemoryStats {
  ms_Usage : Z; ms_Cache : Z; ms_Limit : Z; ms_MaxUsage : Z; WorkingSetBytes : Z; RssBytes : Z;
  PageFaults : Z; MajorPageFaults : Z; AvailableBytes : Z; ms_KernelUsage : Z;
  ms_KernelTCPUsage : Z; ms_SwapUsage : Z; ms_SwapLimit : Z; FileMapped : Z; ms_Failcnt : Z }.

Definition MemLimitGivenSystem (sysinfo : outcome Z) (cgroupLimit : Z) : Z :=
  match sysinfo with
  | Ret physicalLimit => if physicalLimit <? cgroupLimit then physicalLimit else cgroupLimit
  | _ => cgroupLimit
  end.

Definition isMemoryUnlimited (v : Z) : bool := v =? 2 ^ 64 - 1.

(** An absent entry of the map reads 0. *)
Definition stat (m : libctrMemoryStats) (k : string) : Z := default 0 (ls_Stats m !! k).

Definition cgroupMemStats (v2 : bool) (m : libctrMemoryStats) : MemoryStats :=
  let usageBytes := ls_Usage m in
  let rssBytes := if v2 then stat m "anon" else stat m "total_rss" in
  let inactiveFileName := if v2 then "inactive_file" else "total_inactive_file" in
  let pageFaults := if v2 then stat m "pgfault" else 0 in
  let majorPageFaults := if v2 then stat m "pgmajfault" else 0 in
  let fileMapped := if v2 then stat m "file_mapped"
                    else if ls_UseHierarchy m then stat m "total_mapped_file"
                    else stat m "mapped_file" in
  let memSwap := if v2 then u64 (ls_SwapUsage m - usageBytes) else ls_SwapUsage m in
  let failcnt := if v2 then 0 else ls_Failcnt m in
  let workingSetBytes :=
    match ls_Stats m !! inactiveFileName with
    | Some v => if usageBytes <? v then 0 else u64 (usageBytes - v)
    | None => usageBytes
    end in
  let availableBytes := if isMemoryUnlimited (ls_Limit m) then 0
                        else u64 (ls_Limit m - workingSetBytes) in
  mkMemoryStats usageBytes (ls_Cache m) (ls_Limit m) (ls_MaxUsage m) workingSetBytes rssBytes
    pageFaults majorPageFaults availableBytes (ls_KernelUsage m) (ls_KernelTCPUsage m) memSwap
    (ls_SwapLimit m) fileMapped failcnt.

(** ** Lemmas *)

Lemma expand_components_last path prefix cs p :
  cs ≠ [] → expand_components path prefix cs = Some p →
  ∃ path', p = path' +:+ "/" +:+ (prefix +:+ Join cs "-") +:+ ".slice".
Proof.
  revert path prefix. induction cs as [|c cs IH]; intros path prefix Hne He; [done|].
  simpl in He. case_bool_decide; [done|]. destruct cs as [|c' cs].
  - simpl in He. simplify_eq. exists path. by rewrite !append_assoc.
  - destruct (IH _ _ ltac:(done) He) as [path' ->]. exists path'.
    rewrite (Join_cons c) by done. by rewrite !append_assoc.
Qed.

(** The expansion of a slice name ends in the name itself: converting the cgroupfs
    path back to systemd's name is the inverse of the expansion. *)
Theorem convert_ExpandSlice s p :
  ExpandSlice s = Ret p → p ≠ "/" → convertCgroupFsNameToSystemd p = s.
Proof.
  unfold ExpandSlice, convertCgroupFsNameToSystemd. intros He Hp.
  destruct (HasSuffix s ".slice") eqn:Hs; [|done]. simpl in He.
  apply HasSuffix_spec in Hs as [r ->]. rewrite TrimSuffix_app in He.
  destruct (Contains _ "/") eqn:Hc; [done|]. rewrite Contains_char in Hc.
  case_bool_decide; [by simplify_eq|]. destruct (expand_components _ _ _) as [p'|] eqn:Hx; [|done].
  injection He as <-. apply expand_components_last in Hx as [path' ->]; [|apply Split_ne_nil].
  rewrite Join_Split. simpl. rewrite Base_app; [done| |done].
  by destruct r.
Qed.

Lemma convert_ExpandSlice_witness :
  convertCgroupFsNameToSystemd "/test.slice/test-a.slice/test-a-b.slice" = "test-a-b.slice".
Proof. apply (convert_ExpandSlice "test-a-b.slice"); [vm_compute; reflexivity|done]. Defined.

Section memory.
Context `{HostFaults}.

(** What the memory limit file says: no limit, or a number. *)
Definition memoryLimitOf (content : string) : outcome (option Z) :=
  let s := TrimRightNewlines content in
  if bool_decide (s = "") || bool_decide (s = "max") then Ret None
  else n ← ParseInt 64 s; Ret (Some n).

(** The check of a pod's memory fails exactly when the limit file can be read and
    names a limit below the minimum, or holds no number; it leaves the host as
    it is. *)
Theorem SandboxCgroupPath_memory m sbParent sbID minMemory h content :
  cm_driver m = SystemdManager → sbParent ≠ "" → HasSuffix (Base sbParent) ".slice" = true →
  let path := PathJoin [memoryPath m; sbParent; memoryMaxFile m] in
  fs h !! path = Some content → rfault path = None →
  match memoryLimitOf content with
  | Ret limit =>
      SandboxCgroupPath m sbParent sbID minMemory h =
        if default true ((λ l, bool_decide (l = 0 ∨ minMemory ≤ l)) <$> limit)
        then (Ret (Base sbParent, Base sbParent +:+ ":crio:" +:+ sbID), h)
        else (Fail (Errorf "pod " (ErrorsNew "set memory limit too low")), h)
  | Fail _ => ∃ e, SandboxCgroupPath m sbParent sbID minMemory h = (Fail e, h)
  | Panic _ => True
  end.
Proof.
  intros Hd Hne Hs path Hf Hr. unfold SandboxCgroupPath. rewrite Hd.
  rewrite bool_decide_eq_false_2, Hs by done. simpl.
  unfold verifyCgroupHasEnoughMemory, memoryLimitOf, mbind, io_bind, try, ReadFile, wrap_err, lift.
  fold path. rewrite Hf, Hr. destruct (_ || _); [done|].
  destruct (ParseInt 64 _) as [n|e|]; simpl; [|eauto|done].
  unfold VerifyMemoryIsEnough. destruct (Z.eqb_spec n 0) as [->|]; simpl; [done|].
  destruct (Z.ltb_spec n minMemory); simpl.
  - by rewrite bool_decide_eq_false_2 by lia.
  - by rewrite bool_decide_eq_true_2 by lia.
Qed.
End memory.

(** The working set never wraps around, and the available memory is exact whenever
    the working set is within the limit. *)
Theorem cgroupMemStats_bounds v2 m :
  in_u 64 (ls_Usage m) → in_u 64 (ls_Limit m) → map_Forall (λ _ v, in_u 64 v) (ls_Stats m) →
  let s := cgroupMemStats v2 m in
  in_u 64 (WorkingSetBytes s) ∧
  WorkingSetBytes s = Z.max 0 (ls_Usage m - stat m (if v2 then "inactive_file" else "total_inactive_file")) ∧
  (ls_Limit m ≠ 2 ^ 64 - 1 → WorkingSetBytes s ≤ ls_Limit m →
     AvailableBytes s = ls_Limit m - WorkingSetBytes s) ∧
  (v2 = true → in_u 64 (ls_SwapUsage m) → ls_Usage m ≤ ls_SwapUsage m →
     ms_SwapUsage s = ls_SwapUsage m - ls_Usage m).
Proof.
  intros Hu Hl Hst s.
  set (f := if v2 then "inactive_file" else "total_inactive_file").
  assert (WorkingSetBytes s = Z.max 0 (ls_Usage m - stat m f)) as Hws.
  { unfold s, cgroupMemStats, stat. simpl. fold f. destruct (ls_Stats m !! f) as [v|] eqn:Hv; simpl.
    - specialize (Hst _ _ Hv). simpl in Hst. unfold in_u in *.
      destruct (Z.ltb_spec (ls_Usage m) v); [lia|]. rewrite wrap_u_id; [|unfold in_u]; lia.
    - unfold in_u in *. lia. }
  assert (0 ≤ stat m f) as Hf.
  { unfold stat. destruct (ls_Stats m !! f) as [v|] eqn:Hv; simpl; [|lia].
    specialize (Hst _ _ Hv). simpl in Hst. unfold in_u in Hst. lia. }
  unfold in_u in *. split_and!; [lia..| |].
  - intros Hn Hle. unfold s at 1, cgroupMemStats. simpl. unfold isMemoryUnlimited.
    destruct (Z.eqb_spec (ls_Limit m) (2 ^ 64 - 1)); [done|].
    fold f. change (match ls_Stats m !! f with Some v => _ | None => _ end) with (WorkingSetBytes s).
    rewrite wrap_u_id; [done|]. unfold in_u. lia.
  - intros -> Hsw Hle. unfold s, cgroupMemStats. simpl. apply wrap_u_id. unfold in_u. lia.
Qed.

(** ** Witnesses *)

Definition no_commands (args : list string) : outcome string := Fail (ErrorsNew "not found").

Lemma SandboxCgroupPath_memory_witness :
  let m := newManager true SystemdManager in
  let h := mkHost {["/sys/fs/cgroup/kubepods.slice/memory.max" := "4194304" +:+ String "010" ""]} [] in
  @SandboxCgroupPath (noFaults no_commands) m "kubepods.slice" "id" 12582912 h =
    (Fail (Errorf "pod " (ErrorsNew "set memory limit too low")), h).
Proof.
  set (h := mkHost _ _).
  refine (@SandboxCgroupPath_memory (noFaults no_commands) (newManager true SystemdManager)
    "kubepods.slice" "id" 12582912 h ("4194304" +:+ String "010" "") _ _ _ _ _).
  - reflexivity.
  - done.
  - vm_compute. reflexivity.
  - vm_compute. reflexivity.
  - reflexivity.
Defined.

Lemma cgroupMemStats_bounds_witness :
  WorkingSetBytes (cgroupMemStats true
    (mkLibctrMemoryStats 0 1000 0 0 4000 1200 0 0 0 {["inactive_file" := 300]} false)) = 700.
Proof.
  refine (proj1 (proj2 (cgroupMemStats_bounds true
    (mkLibctrMemoryStats 0 1000 0 0 4000 1200 0 0 0 {["inactive_file" := 300]} false) _ _ _))).
  - done.
  - done.
  - apply map_Forall_singleton. done.
Defined.
