(* ===== verification/HighPerfHooks.v ===== *)
(** * HighPerfHooks: the runtime handler hooks
    (internal/runtimehandlerhooks/high_performance_hooks_linux.go,
    default_cpu_load_balance_hooks_linux.go, runtime_handler_hooks_linux.go)

    The hooks that prepare the CPUs of a guaranteed pod before a container
    starts and give them back when it stops: cpuset cgroups, IRQ affinity, CFS
    quota, C-states and the frequency governor.  The hooks act on the host's
    files; libcontainer's managers are behind the class of Host. *)

From S2P Require Import Prelude GoStrings Cpuset IrqMask Host Container CgMgr.
From Stdlib Require Import Ascii.
Local Open Scope Z_scope.

Definition HighPerformance : string := "high-performance".
Definition IrqSmpAffinityProcFile : string := "/proc/irq/default_smp_affinity".
Definition annotationTrue : string := "true".
Definition annotationDisable : string := "disable".
Definition annotationEnable : string := "enable".
Definition cgroupMountPoint : string := "/sys/fs/cgroup".
Definition irqBalancedName : string := "irqbalance".
Definition sysCPUDir : string := "/sys/devices/system/cpu".
Definition sysCPUSaveDir : string := "/var/run/crio/cpu".
Definition milliCPUToCPU : Z := 1000.
Definition cpusetCpus : string := "cpuset.cpus".
Definition cpusetCpusExclusive : string := "cpuset.cpus.exclusive".

Definition CPULoadBalancingAnnotation : string := "cpu-load-balancing.crio.io".
Definition CPUQuotaAnnotation : string := "cpu-quota.crio.io".
Definition IRQLoadBalancingAnnotation : string := "irq-load-balancing.crio.io".
Definition CPUCStatesAnnotation : string := "cpu-c-states.crio.io".
Definition CPUFreqGovernorAnnotation : string := "cpu-freq-governor.crio.io".
Definition CPUSharedAnnotation : string := "cpu-shared.crio.io".

Abbreviation Annotations := (gmap string string).

(** ** What the annotations ask for *)

Definition disabledBy (a : string) (annotations : Annotations) : bool :=
  bool_decide (annotations !! a = Some annotationTrue) ||
  bool_decide (annotations !! a = Some annotationDisable).
Definition shouldCPULoadBalancingBeDisabled := disabledBy CPULoadBalancingAnnotation.
Definition shouldCPUQuotaBeDisabled := disabledBy CPUQuotaAnnotation.
Definition shouldIRQLoadBalancingBeDisabled := disabledBy IRQLoadBalancingAnnotation.
Definition shouldCStatesBeConfigured (annotations : Annotations) : option string :=
  annotations !! CPUCStatesAnnotation.
Definition shouldFreqGovernorBeConfigured (annotations : Annotations) : option string :=
  annotations !! CPUFreqGovernorAnnotation.
Definition requestedSharedCPUs (annotations : Annotations) (cName : string) : bool :=
  bool_decide (annotations !! (CPUSharedAnnotation +:+ "/" +:+ cName) = Some annotationEnable).

Definition convertAnnotationToLatency (annotation : string) : outcome string :=
  let invalid := Fail (ErrorsNew "invalid annotation value") in
  if bool_decide (annotation = annotationEnable) then Ret "0"
  else if bool_decide (annotation = annotationDisable) then Ret "n/a"
  else if HasPrefix annotation "max_latency:" then
    latency ← Atoi (TrimPrefix annotation "max_latency:");
    if 0 <? latency then Ret (Itoa latency) else invalid
  else invalid.

(** ** Whether the hooks apply *)

Definition isCgroupParentBurstable (cgroupParent : string) : bool := Contains cgroupParent "burstable".
Definition isCgroupParentBestEffort (cgroupParent : string) : bool := Contains cgroupParent "besteffort".

(** [spec.Linux.Resources.CPU], when no pointer on the way is nil. *)
Definition linuxCPU (sp : Spec) : option LinuxCPU :=
  l ← spec_Linux sp; r ← sl_Resources l; lr_CPU r.

(** Every pointer on the way to the shares is dereferenced. *)
Definition isContainerRequestWholeCPU (sp : Spec) : outcome bool :=
  match linuxCPU sp ≫= cpu_Shares with
  | Some shares => Ret (shares `mod` 1024 =? 0)
  | None => Panic "nil pointer dereference"
  end.

Definition shouldRunHooks (sp : Spec) (cgroupParent : string) : outcome bool :=
  if isCgroupParentBurstable cgroupParent then Ret false
  else if isCgroupParentBestEffort cgroupParent then Ret false
  else isContainerRequestWholeCPU sp.

Definition ShouldCPUQuotaBeDisabled (sp : Spec) (cgroupParent : string) (annotations : Annotations) :
    outcome bool :=
  b ← shouldRunHooks sp cgroupParent;
  if b : bool then Ret (shouldCPUQuotaBeDisabled annotations) else Ret false.

Definition cpusOf (sp : Spec) : string :=
  default "" (cpu_Cpus <$> linuxCPU sp).
Definition isContainerCPUsSpecEmpty (sp : Spec) : bool := bool_decide (cpusOf sp = "").

(** ** Quota *)

(** [resource.ParseQuantity(strconv.Itoa(n))] is the whole number [n]. *)
Definition calculateMaximalQuota (cpus : CPUSet) (period : Z) : Z :=
  i64 (u64 (u64 (Z.of_nat (size cpus) * 1000) * period) `div` milliCPUToCPU).

Definition getManagerByIndex (idx : Z) (ms : list Manager) : outcome Manager :=
  let length := Z.of_nat (length ms) in
  if length =? 0 then Fail (ErrorsNew "getManagerByIndex: no cgroup manager were found")
  else if (length - 1 <? idx) || (idx <? 0) then Fail (ErrorsNew "getManagerByIndex: invalid index")
  else match ms !! Z.to_nat idx with
       | Some m => Ret m
       | None => Panic "index out of range"
       end.

Record HighPerformanceHooks := mkHooks { irqBalanceConfigFile : string; sharedCPUs : string }.

(** A container as the hooks see it. *)
Record hookCtr := mkHookCtr { hc_id : string; hc_cName : string; hc_spec : Spec; hc_Spoofed : bool }.

Section hooks.
Context `{HostFaults} `{Libcontainer}.
Variable cgroupIsV2 : bool.

(** *** C-states and governor: save, set, restore *)

(** Save the current content of [file] in [dir]/[name] unless it was saved
    before, then write the new value. *)
Definition saveAndSet (file dir orig value : string) : io host () :=
  saved ← fileExists orig;
  (if saved : bool then mret ()
   else
     current ← ReadFile file;
     MkdirAll dir ;;
     WriteFile orig current) ;;
  WriteFile file value.

(** [true]: the saved value was restored; [false]: there was none. *)
Definition restoreSaved (file orig : string) : io host bool :=
  r ← try (ReadFile orig);
  match r with
  | inr e => if errors_is e os_ErrNotExist then mret false else fail e
  | inl saved => WriteFile file saved ;; Remove orig ;; mret true
  end.

Definition latencyFile (cpuDir : string) (cpu : Z) : string :=
  cpuDir +:+ "/cpu" +:+ Itoa cpu +:+ "/power/pm_qos_resume_latency_us".
Definition cpuPowerSaveDir (cpuSaveDir : string) (cpu : Z) : string :=
  cpuSaveDir +:+ "/cpu" +:+ Itoa cpu +:+ "/power".
Definition latencyFileOrig (cpuSaveDir : string) (cpu : Z) : string :=
  PathJoin [cpuPowerSaveDir cpuSaveDir cpu; "pm_qos_resume_latency_us"].

(** A CPU without a saved value ends the loop: [return nil]. *)
Fixpoint latency_loop (latency cpuDir cpuSaveDir : string) (cpus : list Z) : io host () :=
  match cpus with
  | [] => mret ()
  | cpu :: cpus =>
      let file := latencyFile cpuDir cpu in
      let orig := latencyFileOrig cpuSaveDir cpu in
      if negb (bool_decide (latency = "")) then
        saveAndSet file (cpuPowerSaveDir cpuSaveDir cpu) orig latency ;;
        latency_loop latency cpuDir cpuSaveDir cpus
      else
        restored ← restoreSaved file orig;
        if restored : bool then latency_loop latency cpuDir cpuSaveDir cpus else mret ()
  end.

Definition doSetCPUPMQOSResumeLatency (sp : Spec) (latency cpuDir cpuSaveDir : string) : io host () :=
  if isContainerCPUsSpecEmpty sp then fail (ErrorsNew "find container CPUs")
  else
    cpus ← lift (Parse (cpusOf sp));
    latency_loop latency cpuDir cpuSaveDir (Cpuset.List cpus).
Definition setCPUPMQOSResumeLatency (sp : Spec) (latency : string) : io host () :=
  doSetCPUPMQOSResumeLatency sp latency sysCPUDir sysCPUSaveDir.

Definition governorFile (cpuDir : string) (cpu : Z) : string :=
  cpuDir +:+ "/cpu" +:+ Itoa cpu +:+ "/cpufreq/scaling_governor".
Definition cpuFreqSaveDir (cpuSaveDir : string) (cpu : Z) : string :=
  cpuSaveDir +:+ "/cpu" +:+ Itoa cpu +:+ "/cpufreq".
Definition governorFileOrig (cpuSaveDir : string) (cpu : Z) : string :=
  PathJoin [cpuFreqSaveDir cpuSaveDir cpu; "scaling_governor"].

Definition isCPUGovernorSupported (governor cpuDir : string) (cpu : Z) : io host () :=
  availGovernors ← ReadFile (cpuDir +:+ "/cpu" +:+ Itoa cpu +:+ "/cpufreq/scaling_available_governors");
  if bool_decide (governor ∈ Fields availGovernors) then mret ()
  else fail (ErrorsNew "governor not available for cpu").

Fixpoint governor_loop (governor cpuDir cpuSaveDir : string) (cpus : list Z) : io host () :=
  match cpus with
  | [] => mret ()
  | cpu :: cpus =>
      let file := governorFile cpuDir cpu in
      let orig := governorFileOrig cpuSaveDir cpu in
      if negb (bool_decide (governor = "")) then
        isCPUGovernorSupported governor cpuDir cpu ;;
        saveAndSet file (cpuFreqSaveDir cpuSaveDir cpu) orig governor ;;
        governor_loop governor cpuDir cpuSaveDir cpus
      else
        restored ← restoreSaved file orig;
        if restored : bool then governor_loop governor cpuDir cpuSaveDir cpus else mret ()
  end.

Definition doSetCPUFreqGovernor (sp : Spec) (governor cpuDir cpuSaveDir : string) : io host () :=
  if isContainerCPUsSpecEmpty sp then fail (ErrorsNew "find container CPUs")
  else
    cpus ← lift (Parse (cpusOf sp));
    governor_loop governor cpuDir cpuSaveDir (Cpuset.List cpus).
Definition setCPUFreqGovernor (sp : Spec) (governor : string) : io host () :=
  doSetCPUFreqGovernor sp governor sysCPUDir sysCPUSaveDir.

(** *** IRQ balancing *)

Definition restartIrqBalanceService : io host () :=
  command ["systemctl"; "restart"; "irqbalance"] ;; mret ().
Definition isServiceEnabled (serviceName : string) : io host bool :=
  r ← try (command ["systemctl"; "is-enabled"; serviceName]);
  mret (match r with inl status => bool_decide (TrimSpace status = "enabled") | inr _ => false end).

Definition updateIrqBalanceConfigFile (file newSetting : string) : io host () :=
  input ← ReadFile file;
  WriteFile file (updateIrqBalanceConfig input newSetting).
Definition retrieveIrqBannedCPUMasksFile (file : string) : io host string :=
  input ← ReadFile file;
  mret (retrieveIrqBannedCPUMasks input).

(** [lookPath] is [exec.LookPath]; the environment is not part of the log. *)
Variable lookPath : string → bool.

Definition setIRQLoadBalancing (sp : Spec) (enable : bool) (irqSmpAffinityFile irqConfigFile : string) :
    io host () :=
  if isContainerCPUsSpecEmpty sp then fail (ErrorsNew "find container CPUs")
  else
    content ← ReadFile irqSmpAffinityFile;
    '(newIRQSMPSetting, newIRQBalanceSetting) ←
      lift (UpdateIRQSmpAffinityMask (cpusOf sp) (TrimSpace content) enable);
    WriteFile irqSmpAffinityFile newIRQSMPSetting ;;
    isIrqConfigExists ← fileExists irqConfigFile;
    when isIrqConfigExists (updateIrqBalanceConfigFile irqConfigFile newIRQBalanceSetting) ;;
    enabled ← isServiceEnabled irqBalancedName;
    if negb enabled || negb isIrqConfigExists then
      if lookPath irqBalancedName then command [irqBalancedName; "--oneshot"] ;; mret ()
      else mret ()
    else ignore restartIrqBalanceService.

Definition RestoreIrqBalanceConfig (irqConfigFile irqBannedCPUConfigFile irqSmpAffinityFile : string) :
    io host () :=
  content ← ReadFile irqSmpAffinityFile;
  currentMaskArray ← lift (mapHexCharToByte (replace_char (TrimSpace content) "," ""));
  if negb (isAllBitSet currentMaskArray) then mret ()
  else
    r ← try (retrieveIrqBannedCPUMasksFile irqConfigFile);
    match r with
    | inr _ => mret ()
    | inl bannedCPUMasks =>
        exists_ ← fileExists irqBannedCPUConfigFile;
        if negb exists_ then WriteFile irqBannedCPUConfigFile bannedCPUMasks
        else
          content ← ReadFile irqBannedCPUConfigFile;
          let origBannedCPUMasks := TrimSpace content in
          if bool_decide (bannedCPUMasks = origBannedCPUMasks) then mret ()
          else
            updateIrqBalanceConfigFile irqConfigFile origBannedCPUMasks ;;
            enabled ← isServiceEnabled irqBalancedName;
            when enabled (ignore restartIrqBalanceService)
    end.

(** *** CPU load balancing *)

Record desiredManagerCPUSetState := mkDesired {
  ds_manager : Manager; ds_exclusiveCPUs : CPUSet; ds_cpus : CPUSet }.

Definition addOrRemoveCpusetFromManager (mgr : Manager) (cpus : CPUSet) (add : bool) (file : string) :
    io host () :=
  currentCpusStr ← cg_ReadFile (m_Path mgr "") file;
  currentCpus ← lift (Parse (TrimSpace currentCpusStr));
  let targetCpus := if add then Union currentCpus cpus else Difference currentCpus cpus in
  if bool_decide (targetCpus = currentCpus) then mret ()
  else if bool_decide (file = cpusetCpusExclusive) then
    let toWrite := String_ targetCpus in
    cg_WriteFile (m_Path mgr "") file
      (if bool_decide (toWrite = "") then String "010" "" else toWrite)
  else mgr_Set mgr (noResources <| r_CpusetCpus := String_ targetCpus |>).

(** One cgroup: when adding, [cpuset.cpus] before the exclusive set; when
    removing, after it and only where it holds nothing but exclusive CPUs. *)
Definition updateOneManager (add : bool) (st : desiredManagerCPUSetState) : io host () :=
  when add (addOrRemoveCpusetFromManager (ds_manager st) (ds_cpus st) add cpusetCpus) ;;
  addOrRemoveCpusetFromManager (ds_manager st) (ds_exclusiveCPUs st) add cpusetCpusExclusive ;;
  when (negb add && bool_decide (ds_exclusiveCPUs st = ds_cpus st))
    (addOrRemoveCpusetFromManager (ds_manager st) (ds_cpus st) add cpusetCpus).

(** [slices.Reverse] reverses the caller's slice in place: this is the slice
    afterwards. *)
Definition statesAfter (states : list desiredManagerCPUSetState) (add : bool) :
    list desiredManagerCPUSetState := if add then states else reverse states.
Definition addOrRemoveCpusetFromManagers (states : list desiredManagerCPUSetState) (add : bool) :
    io host () := for_each (updateOneManager add) (statesAfter states add).

(** [online] is the result of the first [fullCPUSet], kept by the [sync.Once]. *)
Definition fullCPUSet : io host CPUSet :=
  content ← ReadFile (PathJoin [sysCPUDir; "online"]);
  lift (Parse (TrimSpace content)).
Variable online : outcome CPUSet.

Definition hookManager (cgroup parent : string) (systemd : bool) : outcome Manager :=
  let parent := if systemd
                then let b := Base parent in if bool_decide (b = ".") then "-.slice" else b
                else parent in
  mgr_New (mkCgroup cgroup parent "" systemd CrioPrefix).

(** The cgroups from the mount point down to the pod. *)
Fixpoint parentStates (systemd : bool) (exclusive all : CPUSet) (parent : string) (dirs : list string) :
    outcome (list desiredManagerCPUSetState) :=
  match dirs with
  | [] => Ret []
  | dir :: dirs =>
      if bool_decide (dir = "") then parentStates systemd exclusive all parent dirs
      else
        mgr ← hookManager dir parent systemd;
        rest ← parentStates systemd exclusive all (PathJoin [parent; dir]) dirs;
        Ret (mkDesired mgr exclusive all :: rest)
  end.

(** The cgroups of the container; a shared child replaces the last one. *)
Definition containerStates (h : HighPerformanceHooks) (exclusive : CPUSet) (ms : list Manager)
    (sharedRequested : bool) : outcome (list desiredManagerCPUSetState) :=
  if sharedRequested then
    childCgroup ← getManagerByIndex (Z.of_nat (length ms) - 1) ms;
    sharedCPUSet ← Parse (sharedCPUs h);
    let states := (λ m, mkDesired m exclusive (Union exclusive sharedCPUSet)) <$> ms in
    Ret (<[pred (length states) := mkDesired childCgroup exclusive exclusive]> states)
  else Ret ((λ m, mkDesired m exclusive exclusive) <$> ms).

Definition setCPULoadBalancingV2 (h : HighPerformanceHooks) (sp : Spec) (podManager : Manager)
    (ms : list Manager) (enable sharedRequested : bool) : io host () :=
  cpu ← lift (match linuxCPU sp with Some c => Ret c | None => Panic "nil pointer dereference" end);
  exclusiveCPUs ← lift (Parse (cpu_Cpus cpu));
  let podManagerPath := m_Path podManager "" in
  let systemd := HasSuffix podManagerPath ".slice" in
  let directories := Split (TrimPrefix podManagerPath cgroupMountPoint) "/" in
  allCPUs ← lift online;
  parents ← lift (parentStates systemd exclusiveCPUs allCPUs "" directories);
  ctrs ← lift (containerStates h exclusiveCPUs ms sharedRequested);
  let managers := parents ++ ctrs in
  match last managers with
  | None => fail (ErrorsNew "cgroup hierarchy setup unexpectedly, no cgroups of container found")
  | Some lst =>
      (** the revert sees the slice as the first call left it *)
      defer_on_err (ignore (addOrRemoveCpusetFromManagers (statesAfter managers (negb enable)) enable))
        (addOrRemoveCpusetFromManagers managers (negb enable) ;;
         if enable then mret ()
         else cg_WriteFile (m_Path (ds_manager lst) "") "cpuset.cpus.partition" "isolated")
  end.

Definition disableCPULoadBalancingV1 (ms : list Manager) : io host () :=
  for_each (λ m, cg_WriteFile (m_Path m "cpuset") "cpuset.sched_load_balance" "0") (reverse ms).

Definition setCPULoadBalancing (h : HighPerformanceHooks) (sp : Spec) (podManager : Manager)
    (ms : list Manager) (enable sharedRequested : bool) : io host () :=
  if cgroupIsV2 then setCPULoadBalancingV2 h sp podManager ms enable sharedRequested
  else if enable then mret () else disableCPULoadBalancingV1 ms.

(** *** Quota *)

Definition disableCPUQuotaForCgroup (m : Manager) : io host () :=
  mgr_Set m (noResources <| r_CpuQuota := -1 |>).
Definition setCPUQuota (podManager : Manager) (ms : list Manager) : io host () :=
  disableCPUQuotaForCgroup podManager ;; for_each disableCPUQuotaForCgroup ms.

Definition getPodQuotaV1 (m : Manager) : io host string :=
  q ← cg_ReadFile (m_Path m "cpu") "cpu.cfs_quota_us";
  mret (TrimSuffix q (String "010" "")).
Definition getPodQuotaV2 (m : Manager) : io host string :=
  q ← cg_ReadFile (m_Path m "") "cpu.max";
  mret (default "" (head (Split (TrimSuffix q (String "010" "")) " "))).

Definition calculatePodQuota (shared : CPUSet) (podManager : Manager) (period : Z) : io host Z :=
  existingQuota ← if cgroupIsV2 then getPodQuotaV2 podManager else getPodQuotaV1 podManager;
  if bool_decide (existingQuota = "-1") || bool_decide (existingQuota = "max") then mret (-1)
  else
    q ← lift (ParseInt 64 existingQuota);
    mret (i64 (q + calculateMaximalQuota shared period)).

Definition injectQuotaGivenSharedCPUs (sp : Spec) (podManager : Manager) (ms : list Manager)
    (shared : string) : io host () :=
  cpu ← lift (match linuxCPU sp with Some c => Ret c | None => Panic "nil pointer dereference" end);
  isolatedCPUSet ← lift (Parse (cpu_Cpus cpu));
  sharedCPUSet ← lift (Parse shared);
  if bool_decide (sharedCPUSet = ∅) then fail (ErrorsNew "shared CPU set is empty")
  else
    period ← lift (match cpu_Period cpu with Some p => Ret p | None => Panic "nil pointer dereference" end);
    newPodQuota ← wrap_err "failed to calculate pod quota: " (calculatePodQuota sharedCPUSet podManager period);
    mgr_Set podManager (noResources <| r_CpuQuota := newPodQuota |>) ;;
    manager ← lift (getManagerByIndex (Z.of_nat (length ms) - 1) ms);
    mgr_Set manager (noResources <| r_CpuQuota :=
      calculateMaximalQuota (Union isolatedCPUSet sharedCPUSet) period |>).

Definition setSharedCPUs (sp : Spec) (ms : list Manager) (shared : string) : io host (list Manager) :=
  if isContainerCPUsSpecEmpty sp then fail (ErrorsNew "no cpus found for container")
  else
    exclusiveCPUs ← lift (Parse (cpusOf sp));
    if bool_decide (shared = "") then
      fail (ErrorsNew "shared CPUs were requested for container but none are defined")
    else
      sharedCPUSet ← lift (Parse shared);
      ctrManager ← lift (getManagerByIndex (Z.of_nat (length ms) - 1) ms);
      mgr_Set ctrManager (noResources <| r_CpusetCpus := String_ (Union exclusiveCPUs sharedCPUSet) |>) ;;
      if cgroupIsV2 then
        let ctrCgroup := m_Path ctrManager "" in
        cg_WriteFile ctrCgroup "cgroup.subtree_control" "+cpu +cpuset" ;;
        childCgroup ← lift (hookManager "cgroup-child" (TrimPrefix ctrCgroup cgroupMountPoint) false);
        mgr_Apply childCgroup (-1) ;;
        mgr_Set childCgroup (noResources <| r_CpusetCpus := String_ exclusiveCPUs |>) ;;
        mret (ms ++ [childCgroup])
      else mret ms.

(** *** The managers of a pod and its container *)

(** [exists_] is [os.Stat] of a cgroup directory. *)
Variable exists_ : string → bool.

Definition trueContainerCgroupManager (expectedContainerCgroup : string) : outcome (option Manager) :=
  let actualContainerCgroup := PathJoin [expectedContainerCgroup; "container"] in
  let cgroupRoot := if cgroupIsV2 then cgroupMountPoint else cgroupMountPoint +:+ "/cpuset" in
  if negb (exists_ (PathJoin [cgroupRoot; actualContainerCgroup])) then Ret None
  else Some <$> hookManager (Base actualContainerCgroup) (Dir actualContainerCgroup) false.

Definition libctrManagersForPodAndContainerCgroup (id parentDir : string) :
    outcome (Manager * list Manager) :=
  let cm := newManager cgroupIsV2 (if HasSuffix parentDir ".slice" then SystemdManager else CgroupfsManager) in
  path ← ContainerCgroupAbsolutePath cm parentDir id;
  let podCgroupFullPath := Dir path in
  podManager ← hookManager (Base podCgroupFullPath) (Dir podCgroupFullPath) (IsSystemd cm);
  let containerCgroup := if IsSystemd cm then id else Base path in
  containerManager ← hookManager containerCgroup (Dir path) (IsSystemd cm);
  extraManager ← trueContainerCgroupManager path;
  Ret (podManager, match extraManager with
                   | Some m => [containerManager; m]
                   | None => [containerManager]
                   end).

(** *** The hooks *)

(** The two variables added to the environment of the process. *)
Definition injectCpusetEnv (env : list string) (isolated shared : CPUSet) : list string :=
  env ++ ["OPENSHIFT_ISOLATED_CPUS=" +:+ String_ isolated; "OPENSHIFT_SHARED_CPUS=" +:+ String_ shared].

Definition PreCreate (h : HighPerformanceHooks) (c : hookCtr) (cgroupParent : string)
    (annotations : Annotations) (env : list string) : outcome (list string) :=
  b ← shouldRunHooks (hc_spec c) cgroupParent;
  if negb b then Ret env
  else if negb (requestedSharedCPUs annotations (hc_cName c)) then Ret env
  else if isContainerCPUsSpecEmpty (hc_spec c) then Fail (ErrorsNew "no cpus found for container")
  else
    exclusiveCPUs ← Parse (cpusOf (hc_spec c));
    if bool_decide (sharedCPUs h = "") then
      Fail (ErrorsNew "shared CPUs were requested for container but none are defined")
    else
      sharedCPUSet ← Parse (sharedCPUs h);
      Ret (injectCpusetEnv env exclusiveCPUs sharedCPUSet).

Definition PreStart (h : HighPerformanceHooks) (c : hookCtr) (cgroupParent : string)
    (annotations : Annotations) : io host () :=
  b ← lift (shouldRunHooks (hc_spec c) cgroupParent);
  if negb b then mret ()
  else
    '(podManager, containerManagers) ← lift (libctrManagersForPodAndContainerCgroup (hc_id c) cgroupParent);
    let sharedCPUsRequested := requestedSharedCPUs annotations (hc_cName c) in
    containerManagers ←
      (if sharedCPUsRequested then
         ms ← wrap_err "setSharedCPUs: failed to set shared CPUs for container; "
                (setSharedCPUs (hc_spec c) containerManagers (sharedCPUs h));
         injectQuotaGivenSharedCPUs (hc_spec c) podManager ms (sharedCPUs h) ;;
         mret ms
       else mret containerManagers);
    when (shouldCPULoadBalancingBeDisabled annotations)
      (wrap_err "set CPU load balancing: "
         (setCPULoadBalancing h (hc_spec c) podManager containerManagers false sharedCPUsRequested)) ;;
    when (shouldIRQLoadBalancingBeDisabled annotations)
      (wrap_err "set IRQ load balancing: "
         (setIRQLoadBalancing (hc_spec c) false IrqSmpAffinityProcFile (irqBalanceConfigFile h))) ;;
    when (shouldCPUQuotaBeDisabled annotations)
      (wrap_err "set CPU CFS quota: " (setCPUQuota podManager containerManagers)) ;;
    match shouldCStatesBeConfigured annotations with
    | None => mret ()
    | Some value =>
        maxLatency ← lift (convertAnnotationToLatency value);
        when (negb (bool_decide (maxLatency = "")))
          (wrap_err "set CPU PM QOS resume latency: " (setCPUPMQOSResumeLatency (hc_spec c) maxLatency))
    end ;;
    match shouldFreqGovernorBeConfigured annotations with
    | None => mret ()
    | Some value => wrap_err "set CPU scaling governor: " (setCPUFreqGovernor (hc_spec c) value)
    end.

Definition PreStop (h : HighPerformanceHooks) (c : hookCtr) (cgroupParent : string)
    (annotations : Annotations) : io host () :=
  b ← lift (shouldRunHooks (hc_spec c) cgroupParent);
  if negb b then mret ()
  else
    when (shouldIRQLoadBalancingBeDisabled annotations)
      (wrap_err "set IRQ load balancing: "
         (setIRQLoadBalancing (hc_spec c) true IrqSmpAffinityProcFile (irqBalanceConfigFile h))) ;;
    when (shouldCPULoadBalancingBeDisabled annotations)
      ('(podManager, containerManagers) ← lift (libctrManagersForPodAndContainerCgroup (hc_id c) cgroupParent);
       wrap_err "set CPU load balancing: "
         (setCPULoadBalancing h (hc_spec c) podManager containerManagers true
            (requestedSharedCPUs annotations (hc_cName c)))) ;;
    when (bool_decide (is_Some (shouldCStatesBeConfigured annotations)))
      (wrap_err "set CPU PM QOS resume latency: " (setCPUPMQOSResumeLatency (hc_spec c) "")) ;;
    when (bool_decide (is_Some (shouldFreqGovernorBeConfigured annotations)))
      (wrap_err "set CPU scaling governor: " (setCPUFreqGovernor (hc_spec c) "")).

Definition defaultPostStop (c : hookCtr) (cgroupParent : string) : io host () :=
  if hc_Spoofed c || cgroupIsV2 then mret ()
  else
    '(_, containerManagers) ← lift (libctrManagersForPodAndContainerCgroup (hc_id c) cgroupParent);
    disableCPULoadBalancingV1 containerManagers.
Definition PostStop (h : HighPerformanceHooks) := defaultPostStop.
End hooks.

(** ** Which hooks a pod gets *)

Inductive RuntimeHandlerHooks :=
| HighPerformanceHooks_ (h : HighPerformanceHooks)
| DefaultCPULoadBalanceHooks.

Definition highPerformanceAnnotationsSpecified (annotations : Annotations) : bool :=
  existsb (λ k, HasPrefix k CPULoadBalancingAnnotation || HasPrefix k CPUQuotaAnnotation ||
    HasPrefix k IRQLoadBalancingAnnotation || HasPrefix k CPUCStatesAnnotation ||
    HasPrefix k CPUFreqGovernorAnnotation || HasPrefix k CPUSharedAnnotation)
    (elements (dom annotations)).

(** The allowed annotations of every runtime and every workload. *)
Definition cpuLoadBalancingAllowed (runtimes workloads : list (list string)) : bool :=
  bool_decide (Exists (λ anns, CPULoadBalancingAnnotation ∈ anns) (runtimes ++ workloads)).

Definition GetRuntimeHandlerHooks (irqConfig shared : string) (runtimes workloads : list (list string))
    (handler : string) (annotations : Annotations) : option RuntimeHandlerHooks :=
  if Contains handler HighPerformance then Some (HighPerformanceHooks_ (mkHooks irqConfig shared))
  else if highPerformanceAnnotationsSpecified annotations then
    Some (HighPerformanceHooks_ (mkHooks irqConfig shared))
  else if cpuLoadBalancingAllowed runtimes workloads then Some DefaultCPULoadBalanceHooks
  else None.

(** ** Lemmas: saving and restoring *)

Section save_restore.
Context `{HostFaults}.
Hypothesis rfault_none : ∀ p, rfault p = None.
Hypothesis wfault_none : ∀ p, wfault p = None.
Hypothesis sfault_none : ∀ p, sfault p = None.
Hypothesis dfault_none : ∀ p, dfault p = None.

(** The file of a CPU and the file its value is saved in. *)
Variable F O : Z → string.
Hypothesis F_inj : ∀ a b, F a = F b → a = b.
Hypothesis O_inj : ∀ a b, O a = O b → a = b.
Hypothesis F_O : ∀ a b, F a ≠ O b.

(** The host differs from [h0] on the CPUs of [S] only: their files hold [val] and
    the old values are saved. *)
Definition changed (h0 : host) (S : gset Z) (val : Z → string) (h : host) : Prop :=
  cmds h = cmds h0 ∧
  (∀ c, c ∈ S → fs h !! F c = Some (val c) ∧ fs h !! O c = fs h0 !! F c ∧ is_Some (fs h0 !! F c)) ∧
  (∀ p, (∀ c, c ∈ S → p ≠ F c ∧ p ≠ O c) → fs h !! p = fs h0 !! p).

Lemma changed_nothing h0 val h : changed h0 ∅ val h ↔ h = h0.
Proof.
  split.
  - intros (Hc & _ & Hp). destruct h, h0; simpl in *. subst. f_equal. apply map_eq. intros p.
    apply Hp. intros c Hc. by apply not_elem_of_empty in Hc.
  - intros ->. split; [done|]. split; [|done]. intros c Hc. by apply not_elem_of_empty in Hc.
Qed.

(** CPU [c] of a host that has a value for it and none saved. *)
Definition ready (h0 : host) (c : Z) : Prop := is_Some (fs h0 !! F c) ∧ fs h0 !! O c = None.

Lemma saveAndSet_changed h0 S val h c d v :
  changed h0 S val h → ready h0 c →
  ∃ h' val', saveAndSet (F c) d (O c) v h = (Ret (), h') ∧ changed h0 ({[c]} ∪ S) val' h' ∧
    val' c = v ∧ ∀ c', c' ≠ c → val' c' = val c'.
Proof.
  intros (Hc & HS & Hp) [[x Hx] Hn].
  set (val' := λ z, if decide (z = c) then v else val z).
  assert (∃ h1, fs h1 = <[O c := x]> (fs h) ∧ cmds h1 = cmds h ∧
    saveAndSet (F c) d (O c) v h = WriteFile (F c) v h1) as (h1 & Hfs & Hcm & Hrun).
  { unfold saveAndSet, mbind, io_bind, fileExists. rewrite sfault_none.
    destruct (decide (c ∈ S)) as [Hin|Hin].
    - destruct (HS c Hin) as (_ & HO & _). rewrite bool_decide_eq_true_2 by (rewrite HO; by eexists).
      exists h. rewrite insert_id by (by rewrite HO, Hx). done.
    - assert (fs h !! O c = None) as HO.
      { rewrite Hp; [done|]. intros c' Hc'. split; [intros E; by apply (F_O c' c)|].
        intros E%O_inj. by subst. }
      assert (fs h !! F c = Some x) as HF.
      { rewrite Hp; [done|]. intros c' Hc'. split; [intros E%F_inj; by subst|apply F_O]. }
      rewrite bool_decide_eq_false_2 by (rewrite HO; by intros []).
      unfold ReadFile. rewrite HF, rfault_none. unfold MkdirAll, of_err. rewrite dfault_none.
      unfold WriteFile at 1. rewrite wfault_none.
      by exists (h <| fs ::= <[O c := x]> |>). }
  exists (h1 <| fs ::= <[F c := v]> |>), val'. rewrite Hrun. unfold WriteFile. rewrite wfault_none.
  split; [done|]. split; [|by unfold val'; rewrite decide_True; [split; [done|intros; by rewrite decide_False]|]].
  split; [by simpl; rewrite Hcm|]. simpl. rewrite Hfs. split.
  - intros c' Hc'. unfold val'. destruct (decide (c' = c)) as [->|Hne].
    + rewrite lookup_insert_eq, lookup_insert_ne, lookup_insert_eq by apply F_O. by rewrite Hx.
    + assert (c' ∈ S) as Hin by set_solver. destruct (HS c' Hin) as (H1 & H2 & H3).
      rewrite !(lookup_insert_ne _ (F c)) by (first [apply F_O | by intros E%F_inj]).
      rewrite !(lookup_insert_ne _ (O c)); [done|by intros E%O_inj|intros E; by apply (F_O c' c)].
  - intros p Hpp. assert (p ≠ F c ∧ p ≠ O c) as [H1 H2] by (apply Hpp; set_solver).
    rewrite !lookup_insert_ne by done. apply Hp. intros c' Hc'. apply Hpp. set_solver.
Qed.

Lemma restoreSaved_changed h0 S val h c :
  changed h0 S val h → c ∈ S → fs h0 !! O c = None →
  ∃ h', restoreSaved (F c) (O c) h = (Ret true, h') ∧ changed h0 (S ∖ {[c]}) val h'.
Proof.
  intros (Hc & HS & Hp) Hin Hn. destruct (HS c Hin) as (HF & HO & [x Hx]).
  unfold restoreSaved, mbind, io_bind, try, ReadFile. rewrite HO, Hx, rfault_none.
  unfold WriteFile. rewrite wfault_none. unfold Remove. simpl.
  rewrite lookup_insert_ne, HO, Hx, wfault_none by apply F_O.
  eexists. split; [reflexivity|]. split; [done|]. simpl. split.
  - intros c' Hc'. assert (c' ∈ S ∧ c' ≠ c) as [Hc1 Hc2] by set_solver.
    destruct (HS c' Hc1) as (H1 & H2 & H3).
    rewrite !lookup_delete_ne by (first [by intros E%O_inj | intros E; by apply (F_O c' c)]).
    rewrite !lookup_insert_ne by (first [apply F_O | by intros E%F_inj]). done.
  - intros p Hpp. destruct (decide (p = O c)) as [->|H1]; [by rewrite lookup_delete_eq|].
    rewrite lookup_delete_ne by done.
    destruct (decide (p = F c)) as [->|H2]; [by rewrite lookup_insert_eq|].
    rewrite lookup_insert_ne by done. apply Hp. intros c' Hc'.
    destruct (decide (c' = c)) as [->|]; [done|]. apply Hpp. set_solver.
Qed.
End save_restore.

(** *** The paths *)

Lemma Itoa_no_slash z : contains_char "/" (Itoa z) = false.
Proof.
  destruct (decide (0 ≤ z)); [by apply Itoa_not_char|]. destruct z as [|q|q]; [lia..|].
  change (Itoa (Z.neg q)) with ("-" +:+ Itoa (Z.pos q)). rewrite contains_char_app.
  by rewrite Itoa_not_char by done.
Qed.

Lemma proper_cpu z : proper ("cpu" +:+ Itoa z) = true.
Proof.
  unfold proper. rewrite contains_char_app, Itoa_no_slash.
  change ("cpu" +:+ Itoa z) with (String "c" (String "p" (String "u" (Itoa z)))).
  by rewrite !bool_decide_eq_false_2 by done.
Qed.

(** The file a CPU's value is saved in, spelled out. *)
Lemma saved_path z sub name :
  proper sub = true → proper name = true →
  PathJoin [sysCPUSaveDir +:+ "/cpu" +:+ Itoa z +:+ "/" +:+ sub; name] =
    "/var/run/crio/cpu/cpu" +:+ Itoa z +:+ "/" +:+ sub +:+ "/" +:+ name.
Proof.
  intros Hs Hn. unfold PathJoin. rewrite bool_decide_eq_false_2 by done.
  pose proof (Clean_rooted ["var"; "run"; "crio"; "cpu"; "cpu" +:+ Itoa z; sub; name]) as Hc.
  assert (Join [sysCPUSaveDir +:+ "/cpu" +:+ Itoa z +:+ "/" +:+ sub; name] "/" =
    "/" +:+ Join ["var"; "run"; "crio"; "cpu"; "cpu" +:+ Itoa z; sub; name] "/") as ->.
  { simpl. by rewrite !append_assoc. }
  rewrite Hc; [simpl; by rewrite ?append_assoc|done|].
  repeat constructor; try done. apply proper_cpu.
Qed.

Lemma latencyFile_inj a b : latencyFile sysCPUDir a = latencyFile sysCPUDir b → a = b.
Proof.
  unfold latencyFile. intros E%append_cancel_l%append_cancel_l%append_cancel_r. by apply (inj Itoa).
Qed.
Lemma latencyFileOrig_inj a b : latencyFileOrig sysCPUSaveDir a = latencyFileOrig sysCPUSaveDir b → a = b.
Proof.
  unfold latencyFileOrig, cpuPowerSaveDir. rewrite !(saved_path _ "power") by done.
  intros E%append_cancel_l%append_cancel_r. by apply (inj Itoa).
Qed.
Lemma latencyFile_Orig a b : latencyFile sysCPUDir a ≠ latencyFileOrig sysCPUSaveDir b.
Proof. unfold latencyFileOrig, cpuPowerSaveDir. by rewrite (saved_path _ "power"). Qed.

(** *** The loops *)

Lemma difference_union_self (X : gset Z) : (X ∪ (X ∪ ∅)) ∖ X = ∅.
Proof. set_solver. Qed.

Section loops.
Context `{HostFaults}.
Hypothesis rfault_none : ∀ p, rfault p = None.
Hypothesis wfault_none : ∀ p, wfault p = None.
Hypothesis sfault_none : ∀ p, sfault p = None.
Hypothesis dfault_none : ∀ p, dfault p = None.

Abbreviation F := (latencyFile sysCPUDir).
Abbreviation O := (latencyFileOrig sysCPUSaveDir).
Abbreviation loop v := (latency_loop v sysCPUDir sysCPUSaveDir).

Lemma set_loop_changed h0 v l S val h :
  v ≠ "" → changed F O h0 S val h → Forall (ready F O h0) l →
  ∃ h' val', loop v l h = (Ret (), h') ∧ changed F O h0 (list_to_set l ∪ S) val' h' ∧
    (∀ c, val' c = if decide (c ∈ l) then v else val c).
Proof.
  intros Hv. revert S val h. induction l as [|c l IH]; intros S val h Hch Hl.
  { exists h, val. split; [done|]. split; [|intros; rewrite decide_False; [done|apply not_elem_of_nil]].
    simpl. by rewrite (left_id_L ∅ (∪)). }
  inversion_clear Hl as [|? ? Hc Hl']. simpl. rewrite bool_decide_eq_false_2 by done. simpl.
  destruct (saveAndSet_changed rfault_none wfault_none sfault_none dfault_none F O latencyFile_inj
    latencyFileOrig_inj latencyFile_Orig h0 S val h c (cpuPowerSaveDir sysCPUSaveDir c) v Hch Hc)
    as (h1 & val1 & Hrun & Hch1 & Hv1 & Hv1').
  erewrite io_bind_ret by exact Hrun.
  destruct (IH _ _ _ Hch1 Hl') as (h2 & val2 & Hrun2 & Hch2 & Hv2).
  exists h2, val2. split; [done|]. split.
  - by replace ({[c]} ∪ list_to_set l ∪ S : gset Z) with (list_to_set l ∪ ({[c]} ∪ S) : gset Z) by set_solver.
  - intros z. rewrite Hv2. destruct (decide (z = c)) as [->|Hne].
    + rewrite Hv1, (decide_True (P := c ∈ c :: l)) by (by left). by destruct (decide _).
    + rewrite Hv1' by done. destruct (decide (z ∈ l)).
      * by rewrite decide_True by (by right).
      * by rewrite decide_False by (by intros [?|?]%elem_of_cons).
Qed.

Lemma restore_loop_changed h0 l S val h :
  changed F O h0 S val h → NoDup l → (∀ c, c ∈ l → c ∈ S) → Forall (ready F O h0) l →
  ∃ h', loop "" l h = (Ret (), h') ∧ changed F O h0 (S ∖ list_to_set l) val h'.
Proof.
  revert S h. induction l as [|c l IH]; intros S h Hch Hnd Hin Hl.
  { exists h. split; [done|]. by replace (S ∖ list_to_set [] : gset Z) with S by set_solver. }
  inversion_clear Hl as [|? ? Hc Hl']. apply NoDup_cons in Hnd as [Hcl Hnd]. simpl.
  destruct (restoreSaved_changed rfault_none wfault_none sfault_none dfault_none F O latencyFile_inj
    latencyFileOrig_inj latencyFile_Orig h0 S val h c Hch) as (h1 & Hrun & Hch1).
  { apply Hin. by left. }
  { apply Hc. }
  erewrite io_bind_ret by exact Hrun. simpl.
  destruct (IH _ _ Hch1 Hnd) as (h2 & Hrun2 & Hch2); [|done|].
  { intros z Hz. apply elem_of_difference. split; [apply Hin; by right|].
    intros ->%elem_of_singleton. done. }
  exists h2. split; [done|].
  by replace (S ∖ ({[c]} ∪ list_to_set l) : gset Z) with (S ∖ {[c]} ∖ list_to_set l : gset Z) by set_solver.
Qed.

End loops.

(** A restore that failed half-way is not completed by the next one: the first CPU
    without a saved value ends it.  CPU 1 cannot be written the first time; the
    retry succeeds and CPU 1 keeps the container's value. *)
Lemma restore_retry_incomplete :
  let file0 := "/sys/devices/system/cpu/cpu0/power/pm_qos_resume_latency_us" in
  let file1 := "/sys/devices/system/cpu/cpu1/power/pm_qos_resume_latency_us" in
  let no_run _ := Fail (ErrorsNew "not found") in
  let busy := Build_HostFaults (λ _, None)
    (λ p, if bool_decide (p = file1) then Some (ErrorsNew "device or resource busy") else None)
    (λ _, None) (λ _, None) no_run in
  let sp := mkSpec None (Some (mkSpecLinux (Some (mkLinuxResources
    (Some (mkLinuxCPU None None None "0-1" "")) None ∅ [])) [] "")) in
  let h0 := mkHost {[file0 := "100"; file1 := "100"]} [] in
  let h1 := snd (@setCPUPMQOSResumeLatency (noFaults no_run) sp "n/a" h0) in
  ∃ h2 h3,
    @setCPUPMQOSResumeLatency busy sp "" h1 = (Fail (ErrorsNew "device or resource busy"), h2) ∧
    @setCPUPMQOSResumeLatency (noFaults no_run) sp "" h2 = (Ret (), h3) ∧
    fs h3 !! file0 = Some "100" ∧ fs h3 !! file1 = Some "n/a".
Proof.
  eexists _, _. split; [vm_compute; reflexivity|]. split; [vm_compute; reflexivity|].
  split; vm_compute; reflexivity.
Qed.

(** The quota of a CPU set is a non-negative [int64]; it is exactly the number of
    CPUs times the period as long as the intermediate product in thousandths of
    a CPU fits 64 bits. *)
Theorem calculateMaximalQuota_exact cpus period :
  in_u 64 period →
  0 ≤ calculateMaximalQuota cpus period < 2 ^ 63 ∧
  (1000 * Z.of_nat (size cpus) * period < 2 ^ 64 →
     calculateMaximalQuota cpus period = Z.of_nat (size cpus) * period).
Proof.
  intros [Hp0 Hp1]. unfold calculateMaximalQuota, milliCPUToCPU.
  set (n := Z.of_nat (size cpus)). assert (0 ≤ n) by lia.
  set (x := u64 (u64 (n * 1000) * period)).
  assert (0 ≤ x < 2 ^ 64) as Hx by (apply wrap_u_range; lia).
  assert (0 ≤ x `div` 1000 < 2 ^ 63) as Hq.
  { split; [apply Z.div_pos; lia|]. apply Z.div_lt_upper_bound; lia. }
  rewrite wrap_s_id by (unfold in_s; lia). split; [done|]. intros Hfit. unfold x.
  destruct (decide (period = 0)) as [->|Hne]; [by rewrite Z.mul_0_r, Z.mul_0_r|].
  rewrite (wrap_u_id 64 (n * 1000)) by (unfold in_u; nia).
  rewrite wrap_u_id by (unfold in_u; nia).
  replace (n * 1000 * period) with (n * period * 1000) by lia. by apply Z.div_mul.
Qed.

Lemma calculateMaximalQuota_exact_witness : calculateMaximalQuota {[2; 3; 4; 9]} 100000 = 400000.
Proof.
  refine (proj2 (calculateMaximalQuota_exact {[2; 3; 4; 9]} 100000 _) _); vm_compute; split; done.
Defined.


(** ** Lemmas: cpusets *)

Lemma String_nospace s : set_Forall valid_cpu s → nospace (String_ s) = true.
Proof.
  intros Hs. unfold String_. destruct (Cpuset.List s) as [|e elems] eqn:HL; [done|].
  assert (Forall (λ c, 0 ≤ c) (e :: elems)) as Hall.
  { apply Forall_forall. intros c Hc. rewrite <- HL, elem_of_List in Hc. apply (Hs c Hc). }
  inversion_clear Hall as [|? ? He Hel]. apply Join_nospace; [done|].
  apply Forall_fmap. eapply Forall_impl; [by apply (ranges_bounds (λ c, 0 ≤ c))|].
  intros [lo hi] [Hlo Hhi]. simpl in *. unfold print_range. case_bool_decide; [by apply Itoa_nospace|].
  simpl. pose proof (Itoa_nospace lo Hlo). pose proof (Itoa_nospace hi Hhi). unfold nospace in *.
  rewrite !str_forallb_app. apply andb_true_iff. split; [done|]. by apply andb_true_iff.
Qed.

Lemma Parse_printed s : set_Forall valid_cpu s → Parse (TrimSpace (String_ s)) = Ret s.
Proof. intros Hs. rewrite TrimSpace_nospace by (by apply String_nospace). by apply Parse_String_. Qed.

Section cpusets.
Context `{HostFaults} `{Libcontainer}.
Hypothesis rfault_none : ∀ p, rfault p = None.
Hypothesis wfault_none : ∀ p, wfault p = None.

Definition xpath (m : Manager) : string := PathJoin [m_Path m ""; cpusetCpusExclusive].
Definition cpath (m : Manager) : string := PathJoin [m_Path m ""; cpusetCpus].

(** libcontainer's [Set] writes [cpuset.cpus]; an empty set means: leave it. *)
Hypothesis mgr_Set_cpus : ∀ m s h, mgr_Set m (noResources <| r_CpusetCpus := s |>) h =
  (Ret (), if bool_decide (s = "") then h else h <| fs ::= <[cpath m := s]> |>).

(** The file [p] holds the CPU set [X]. *)
Definition denotes (h : host) (p : string) (X : CPUSet) : Prop :=
  set_Forall valid_cpu X ∧ ∃ c, fs h !! p = Some c ∧ Parse (TrimSpace c) = Ret X.

Definition target (add : bool) (X E : CPUSet) : CPUSet := if add then Union X E else Difference X E.

Lemma target_valid add X E :
  set_Forall valid_cpu X → set_Forall valid_cpu E → set_Forall valid_cpu (target add X E).
Proof.
  intros HX HE c. unfold target, Union, Difference. destruct add.
  - intros [?|?]%elem_of_union; auto.
  - intros [_ ?]%elem_of_filter. auto.
Qed.

Lemma exclusive_step mgr E add h X :
  denotes h (xpath mgr) X → set_Forall valid_cpu E →
  ∃ h', addOrRemoveCpusetFromManager mgr E add cpusetCpusExclusive h = (Ret (), h') ∧
    denotes h' (xpath mgr) (target add X E) ∧ ∀ p, p ≠ xpath mgr → fs h' !! p = fs h !! p.
Proof.
  intros (HX & c & Hc & Hp) HE. pose proof (target_valid add X E HX HE) as HT.
  unfold addOrRemoveCpusetFromManager, mbind, io_bind, cg_ReadFile, ReadFile, lift.
  fold (xpath mgr). rewrite Hc, rfault_none, Hp. fold (target add X E).
  case_bool_decide as Heq.
  { exists h. split; [done|]. split; [|done]. rewrite Heq. split; [done|eauto]. }
  rewrite bool_decide_eq_true_2 by done. unfold cg_WriteFile, WriteFile. fold (xpath mgr).
  rewrite wfault_none. eexists. split; [reflexivity|]. split.
  - split; [done|]. eexists. split; [apply lookup_insert_eq|]. case_bool_decide as He.
    + pose proof (Parse_printed _ HT) as Hpt. rewrite He in Hpt. exact Hpt.
    + by apply Parse_printed.
  - intros p Hne. simpl. by apply lookup_insert_ne.
Qed.

Lemma cpus_step mgr E add h X :
  denotes h (cpath mgr) X → set_Forall valid_cpu E →
  ∃ h' X', addOrRemoveCpusetFromManager mgr E add cpusetCpus h = (Ret (), h') ∧
    denotes h' (cpath mgr) X' ∧ ∀ p, p ≠ cpath mgr → fs h' !! p = fs h !! p.
Proof.
  intros (HX & c & Hc & Hp) HE. pose proof (target_valid add X E HX HE) as HT.
  unfold addOrRemoveCpusetFromManager, mbind, io_bind, cg_ReadFile, ReadFile, lift.
  fold (cpath mgr). rewrite Hc, rfault_none, Hp. fold (target add X E).
  case_bool_decide as Heq.
  { exists h, X. split; [done|]. split; [|done]. split; [done|eauto]. }
  rewrite bool_decide_eq_false_2 by done. rewrite mgr_Set_cpus. case_bool_decide as He.
  { exists h, X. split; [done|]. split; [|done]. split; [done|eauto]. }
  eexists _, (target add X E). split; [reflexivity|]. split.
  - split; [done|]. eexists. split; [apply lookup_insert_eq|]. by apply Parse_printed.
  - intros p Hne. simpl. by apply lookup_insert_ne.
Qed.

(** A cgroup whose two files can be updated: [X] is its exclusive set. *)
Definition cgroup_ok (h : host) (st : desiredManagerCPUSetState) (X : CPUSet) : Prop :=
  denotes h (xpath (ds_manager st)) X ∧ (∃ C, denotes h (cpath (ds_manager st)) C) ∧
  set_Forall valid_cpu (ds_exclusiveCPUs st) ∧ set_Forall valid_cpu (ds_cpus st).

Lemma denotes_intro h p c X :
  fs h !! p = Some c → Parse (TrimSpace c) = Ret X → set_Forall valid_cpu X → denotes h p X.
Proof. intros Hc Hp Hv. split; [done|]. by exists c. Qed.

Lemma denotes_frame h h' p X : fs h' !! p = fs h !! p → denotes h p X → denotes h' p X.
Proof. intros E (HX & c & Hc & Hp). split; [done|]. exists c. by rewrite E. Qed.

Lemma updateOne_step st add h X :
  xpath (ds_manager st) ≠ cpath (ds_manager st) → cgroup_ok h st X →
  ∃ h', updateOneManager add st h = (Ret (), h') ∧
    cgroup_ok h' st (target add X (ds_exclusiveCPUs st)) ∧
    ∀ p, p ≠ xpath (ds_manager st) → p ≠ cpath (ds_manager st) → fs h' !! p = fs h !! p.
Proof.
  intros Hne (HX & [C HC] & HE & HD). unfold updateOneManager, when. destruct add; simpl.
  - destruct (cpus_step _ _ true _ _ HC HD) as (h1 & C1 & H1 & HC1 & Hf1).
    erewrite io_bind_ret by exact H1.
    destruct (exclusive_step (ds_manager st) (ds_exclusiveCPUs st) true h1 X) as (h2 & H2 & HX2 & Hf2);
      [by eapply denotes_frame; [apply Hf1|]|done|].
    erewrite io_bind_ret by exact H2. exists h2. split; [done|]. split; [|intros; by rewrite Hf2, Hf1].
    split_and!; [done| |done..]. exists C1. by eapply denotes_frame; [apply Hf2|].
  - erewrite io_bind_ret by reflexivity.
    destruct (exclusive_step (ds_manager st) (ds_exclusiveCPUs st) false h X) as (h2 & H2 & HX2 & Hf2);
      [done..|]. erewrite io_bind_ret by exact H2.
    assert (denotes h2 (cpath (ds_manager st)) C) as HC2 by (by eapply denotes_frame; [apply Hf2|]).
    case_bool_decide as Hq.
    + destruct (cpus_step _ _ false _ _ HC2 HD) as (h1 & C1 & H1 & HC1 & Hf1).
      exists h1. split; [done|]. split; [|intros; by rewrite Hf1, Hf2].
      split_and!; [by eapply denotes_frame; [apply Hf1|]|by exists C1|done..].
    + exists h2. split; [done|]. split; [|intros; by rewrite Hf2]. split_and!; [done|by exists C|done..].
Qed.

(** The cgroups have files of their own. *)
Definition apart (l : list desiredManagerCPUSetState) : Prop :=
  NoDup (xpath ∘ ds_manager <$> l) ∧ NoDup (cpath ∘ ds_manager <$> l) ∧
  ∀ st st', st ∈ l → st' ∈ l → xpath (ds_manager st) ≠ cpath (ds_manager st').

Lemma apart_cons st l :
  apart (st :: l) → apart l ∧ xpath (ds_manager st) ≠ cpath (ds_manager st) ∧
  ∀ st', st' ∈ l → xpath (ds_manager st') ≠ xpath (ds_manager st) ∧
    xpath (ds_manager st') ≠ cpath (ds_manager st) ∧ cpath (ds_manager st') ≠ xpath (ds_manager st) ∧
    cpath (ds_manager st') ≠ cpath (ds_manager st).
Proof.
  intros (Hx & Hc & Hd). rewrite fmap_cons in Hx, Hc.
  apply NoDup_cons in Hx as [Hx1 Hx]. apply NoDup_cons in Hc as [Hc1 Hc].
  split_and!.
  - split_and!; [done..|]. intros s1 s2 H1' H2'. apply Hd; by right.
  - apply Hd; by left.
  - intros st' Hst. split_and!.
    + intros E. apply Hx1. simpl. rewrite <- E. apply (list_elem_of_fmap_2 (xpath ∘ ds_manager)), Hst.
    + apply Hd; [by right|by left].
    + intros E. symmetry in E. revert E. apply Hd; [by left|by right].
    + intros E. apply Hc1. simpl. rewrite <- E. apply (list_elem_of_fmap_2 (cpath ∘ ds_manager)), Hst.
Qed.

Lemma cgroup_ok_frame h h' st X :
  fs h' !! xpath (ds_manager st) = fs h !! xpath (ds_manager st) →
  fs h' !! cpath (ds_manager st) = fs h !! cpath (ds_manager st) →
  cgroup_ok h st X → cgroup_ok h' st X.
Proof.
  intros Ex Ec (HX & [C HC] & ? & ?). split_and!; [by eapply denotes_frame| |done..].
  exists C. by eapply denotes_frame.
Qed.

Lemma update_all l add h (X : desiredManagerCPUSetState → CPUSet) :
  apart l → (∀ st, st ∈ l → cgroup_ok h st (X st)) →
  ∃ h', for_each (updateOneManager add) l h = (Ret (), h') ∧
    (∀ st, st ∈ l → cgroup_ok h' st (target add (X st) (ds_exclusiveCPUs st))) ∧
    (∀ p, (∀ st, st ∈ l → p ≠ xpath (ds_manager st) ∧ p ≠ cpath (ds_manager st)) → fs h' !! p = fs h !! p).
Proof.
  revert h. induction l as [|st l IH]; intros h Hap Hok.
  { exists h. split; [done|]. split; [|done]. by intros ? ?%not_elem_of_nil. }
  apply apart_cons in Hap as (Hap & Hne & Hdiff). simpl.
  destruct (updateOne_step st add h (X st) Hne) as (h1 & Hr1 & Ho1 & Hf1); [apply Hok; by left|].
  erewrite io_bind_ret by exact Hr1.
  destruct (IH h1 Hap) as (h2 & Hr2 & Ho2 & Hf2).
  { intros st' Hst. destruct (Hdiff st' Hst) as (? & ? & ? & ?).
    eapply cgroup_ok_frame; [by apply Hf1|by apply Hf1|]. apply Hok. by right. }
  exists h2. split; [done|]. split.
  - intros st' [->|Hst]%elem_of_cons; [|by apply Ho2]. eapply cgroup_ok_frame; [| |exact Ho1].
    + apply Hf2. intros st' Hst. destruct (Hdiff st' Hst) as (? & ? & ? & ?). split; congruence.
    + apply Hf2. intros st' Hst. destruct (Hdiff st' Hst) as (? & ? & ? & ?). split; congruence.
  - intros p Hp. rewrite Hf2 by (intros; apply Hp; by right). by apply Hf1; apply Hp; left.
Qed.

(** Disabling load balancing claims the container's CPUs in [cpuset.cpus.exclusive]
    of every cgroup from the top down to the container, and enabling it again
    gives every cgroup back the exclusive set it had, when the CPUs were not
    exclusive before. *)
Theorem exclusive_cpus_roundtrip (states : list desiredManagerCPUSetState) h
    (X : desiredManagerCPUSetState → CPUSet) :
  apart states → (∀ st, st ∈ states → cgroup_ok h st (X st)) →
  (∀ st, st ∈ states → X st ## ds_exclusiveCPUs st) →
  ∃ h1 h2,
    addOrRemoveCpusetFromManagers states true h = (Ret (), h1) ∧
    (∀ st, st ∈ states → denotes h1 (xpath (ds_manager st)) (X st ∪ ds_exclusiveCPUs st)) ∧
    addOrRemoveCpusetFromManagers states false h1 = (Ret (), h2) ∧
    (∀ st, st ∈ states → denotes h2 (xpath (ds_manager st)) (X st)).
Proof.
  intros Hap Hok Hdis. unfold addOrRemoveCpusetFromManagers, statesAfter.
  destruct (update_all states true h X Hap Hok) as (h1 & Hr1 & Ho1 & _).
  destruct (update_all (reverse states) false h1 (λ st, X st ∪ ds_exclusiveCPUs st))
    as (h2 & Hr2 & Ho2 & _).
  { destruct Hap as (Hx & Hc & Hd). split_and!.
    - by rewrite fmap_reverse, reverse_Permutation.
    - by rewrite fmap_reverse, reverse_Permutation.
    - intros st st'. rewrite !elem_of_reverse. apply Hd. }
  { intros st Hst. rewrite elem_of_reverse in Hst. exact (Ho1 st Hst). }
  exists h1, h2. split_and!; [done| |done|].
  - intros st Hst. apply (Ho1 st Hst).
  - intros st Hst. destruct (Ho2 st) as [HX _]; [by apply elem_of_reverse|].
    replace (X st) with (target false (X st ∪ ds_exclusiveCPUs st) (ds_exclusiveCPUs st)); [done|].
    unfold target, Difference. specialize (Hdis st Hst). apply set_eq. intros c.
    rewrite elem_of_filter, elem_of_union. split; [tauto|]. intros Hc. split; [by intros ?; apply (Hdis c)|by left].
Qed.
End cpusets.

(** When enabling load balancing fails, the revert adds the CPUs in the order the
    removal left in the slice: from the container up, not from the top down. *)
Lemma revert_adds_bottom_up states : statesAfter (statesAfter states false) true = reverse states.
Proof. reflexivity. Qed.

(** ** Witness *)

Module Example2.
Definition faults : HostFaults := noFaults no_commands.
Definition libctr : Libcontainer := Build_Libcontainer
  (λ cg, Ret (mkManager (λ _, cg_Name cg)))
  (λ m r h, (Ret (), if bool_decide (r_CpusetCpus r = "") then h
                     else h <| fs ::= <[cpath m := r_CpusetCpus r]> |>))
  (λ _ _ h, (Ret (), h)) (λ _ h, (Ret (), h)).
Definition pod : Manager := mkManager (λ _, "/sys/fs/cgroup/pod").
Definition ctr : Manager := mkManager (λ _, "/sys/fs/cgroup/pod/ctr").
Definition states : list desiredManagerCPUSetState :=
  [mkDesired pod {[2; 3]} {[0; 1; 2; 3]}; mkDesired ctr {[2; 3]} {[2; 3]}].
Definition h : host := mkHost {[xpath pod := "1"; cpath pod := "0-3"; xpath ctr := ""; cpath ctr := "2-3"]} [].
Definition X (st : desiredManagerCPUSetState) : CPUSet :=
  if bool_decide (m_Path (ds_manager st) "" = "/sys/fs/cgroup/pod") then {[1]} else ∅.
End Example2.

#[local] Instance valid_cpu_dec c : Decision (valid_cpu c).
Proof. unfold valid_cpu. apply _. Defined.
Ltac decide_closed := apply (bool_decide_unpack _); vm_compute; exact I.

Lemma exclusive_cpus_roundtrip_witness :
  ∃ h1 h2,
    @addOrRemoveCpusetFromManagers Example2.faults Example2.libctr Example2.states true Example2.h = (Ret (), h1) ∧
    (∀ st, st ∈ Example2.states → denotes h1 (xpath (ds_manager st)) (Example2.X st ∪ ds_exclusiveCPUs st)) ∧
    @addOrRemoveCpusetFromManagers Example2.faults Example2.libctr Example2.states false h1 = (Ret (), h2) ∧
    (∀ st, st ∈ Example2.states → denotes h2 (xpath (ds_manager st)) (Example2.X st)).
Proof.
  apply (@exclusive_cpus_roundtrip Example2.faults Example2.libctr (λ _, eq_refl) (λ _, eq_refl)
    (λ _ _ _, eq_refl) Example2.states Example2.h Example2.X).
  - split_and!; [decide_closed|decide_closed|].
    intros st st' Hs Hs'. unfold Example2.states in *.
    rewrite !elem_of_cons in Hs, Hs'. destruct Hs as [->|[->|Hs%not_elem_of_nil]]; [..|done];
      destruct Hs' as [->|[->|Hs'%not_elem_of_nil]]; done.
  - intros st Hs. unfold Example2.states in Hs. rewrite !elem_of_cons in Hs.
    destruct Hs as [->|[->|Hs%not_elem_of_nil]]; [..|done].
    + split; [|split; [|split; decide_closed]].
      * apply (denotes_intro _ _ "1"); [by vm_compute..|decide_closed].
      * exists {[0; 1; 2; 3]}. apply (denotes_intro _ _ "0-3"); [by vm_compute..|decide_closed].
    + split; [|split; [|split; decide_closed]].
      * apply (denotes_intro _ _ ""); [by vm_compute..|decide_closed].
      * exists {[2; 3]}. apply (denotes_intro _ _ "2-3"); [by vm_compute..|decide_closed].
  - intros st Hs. unfold Example2.states in Hs. rewrite !elem_of_cons in Hs.
    destruct Hs as [->|[->|Hs%not_elem_of_nil]]; [..|done]; decide_closed.
Defined.
