(* ===== verification/RuntimeOCI.v ===== *)
(** * RuntimeOCI: the conmon-based runtime (internal/oci/runtime_oci.go)

    The commands [runtimeOCI] builds for the OCI runtime and for conmon, the
    classification of their errors, the refresh of a container's status, the
    parsing of an exec session's log, and checkpoint and restore.

    The host is a parameter: [runtime] runs the OCI runtime, [stat]/[read]
    look at files, [clock] is [time.Now].  The world of a call is the host and
    the container it works on. *)

From S2P Require Import Prelude GoStrings Container.
From Stdlib Require Import Ascii.
Local Open Scope Z_scope.

(** ** Commands *)

Definition rootFlag : string := "--root".

Definition defaultRuntimeArgs (root : string) (systemd : bool) : list string :=
  [rootFlag; root] ++ (if systemd then ["--systemd-cgroup"] else []).

(** [cmd.Run()] either succeeds with its standard output, or fails with an error
    and the standard error. *)
Inductive cmdResult := CmdOk (stdout : string) | CmdErr (stderr stdout : string) (err : goerr).

(** The error of a failed command: a container that is gone is [ErrNotFound]
    whichever runtime reported it. *)
Definition classify (stdErrStr : string) (err : goerr) : goerr :=
  if Contains stdErrStr "no such process" then ErrNotFound
  else if Contains stdErrStr "container not running" then ErrNotFound
  else if Contains stdErrStr "invalid process" then ErrNotFound
  else err.

Definition runtimeCmd_result (res : cmdResult) : outcome string :=
  match res with
  | CmdOk out => Ret out
  | CmdErr stderr stdout err =>
      Fail (Errorf ("runtime command failed: " +:+ stderr +:+ " " +:+ stdout) (classify stderr err))
  end.

Definition signalContainer_args (id : string) (sig : Z) (all : bool) : list string :=
  ["kill"] ++ (if all then ["-a"] else []) ++ [id; Itoa sig].

(** [prepareEnv]: [lookup] is [os.LookupEnv]. *)
Definition prepareEnv (lookup : string → option string) (monitorEnv : list string)
    (addOCISyncPipe : bool) : list string :=
  monitorEnv ++ ["CRI_O_EXTERNAL=1"] ++
  match lookup "XDG_RUNTIME_DIR" with Some v => ["XDG_RUNTIME_DIR=" +:+ v] | None => [] end ++
  match lookup "PATH" with Some v => ["PATH=" +:+ v] | None => [] end ++
  if addOCISyncPipe then ["_OCI_SYNCPIPE=3"; "_OCI_STARTPIPE=4"] else [].

(** The configuration conmon's command line depends on. *)
Record conmonConfig := mkConmonConfig {
  ContainerExitsDir : string;
  ContainerAttachSocketDir : string;
  LogLevel : string;
  LogSizeMax : Z;
  NoSyncLog : bool;
  LogToJournald : bool;
  NoPivot : bool;
  SystemdCgroup : bool;
  RuntimePath : string;
  RuntimeRoot : string;
}.

(** The arguments of conmon in [CreateContainer]; restoring dereferences the
    process and Linux sections of the spec. *)
Definition conmonArgs (cfg : conmonConfig) (id : string) (c : Container) (restore : bool) :
    outcome (list string) :=
  let args :=
    ["-b"; bundlePath c; "-c"; id; "--exit-dir"; ContainerExitsDir cfg; "-l"; logPath c;
     "--log-level"; LogLevel cfg; "-n"; name c; "-P"; conmonPidFilePath c;
     "-p"; PathJoin [bundlePath c; "pidfile"]; "--persist-dir"; dir c;
     "-r"; RuntimePathForPlatform (RuntimePath cfg) c;
     "--runtime-arg"; rootFlag +:+ "=" +:+ RuntimeRoot cfg;
     "--socket-dir-path"; ContainerAttachSocketDir cfg; "--syslog"; "-u"; id] ++
    (if SystemdCgroup cfg then ["-s"] else []) ++
    (if 0 <=? LogSizeMax cfg then ["--log-size-max"; Itoa (LogSizeMax cfg)] else []) ++
    (if NoSyncLog cfg then ["--no-sync-log"] else []) ++
    (if LogToJournald cfg then ["--log-path"; "journald:"] else []) ++
    (if NoPivot cfg then ["--no-pivot"] else []) ++
    (if terminal c then ["-t"]
     else if stdin c then (if stdinOnce c then [] else ["--leave-stdin-open"]) ++ ["-i"]
     else []) in
  if restore then
    match spec_Process (GetSpec c) with
    | None => Panic "nil pointer dereference"
    | Some p =>
        let args := args ++ ["--restore"; CheckpointPath c] ++
          (if bool_decide (sp_SelinuxLabel p = "") then []
           else ["--runtime-opt"; "--lsm-profile=selinux:" +:+ sp_SelinuxLabel p]) in
        match spec_Linux (GetSpec c) with
        | None => Panic "nil pointer dereference"
        | Some l =>
            Ret (args ++
              (if bool_decide (sl_MountLabel l = "") then []
               else ["--runtime-opt"; "--lsm-mount-context=" +:+ sl_MountLabel l]))
        end
    end
  else Ret args.

(** What conmon reports back through the sync pipe: [None] is the timeout. *)
Record syncInfo := mkSyncInfo { si_Pid : Z; si_Message : string }.

Definition receivePid (restore : bool) (answer : option (outcome syncInfo)) : outcome Z :=
  match answer with
  | None => Fail (ErrorsNew "create container timeout")
  | Some (Fail e) =>
      Fail (Errorf "error reading container (probably exited) json message: " e)
  | Some (Panic w) => Panic w
  | Some (Ret si) =>
      if bool_decide (si_Pid si = -1) then
        if bool_decide (si_Message si = "") then Fail (ErrorsNew "container create failed")
        else if restore then Fail (ErrorsNew ("container restore failed: " +:+ si_Message si))
        else Fail (ErrorsNew ("container create failed: " +:+ si_Message si))
      else Ret (si_Pid si)
  end.

(** ** The log of an exec session *)

(** [bytes.SplitAfter(l, "\n")] *)
Fixpoint SplitAfter (s : string) (sep : ascii) : list string :=
  match s with
  | EmptyString => [EmptyString]
  | String c s =>
      if bool_decide (c = sep) then String c EmptyString :: SplitAfter s sep
      else match SplitAfter s sep with
           | [] => [String c EmptyString]
           | w :: ws => String c w :: ws
           end
  end.

Definition newline : ascii := "010".

(** The pipe and the payload of one line "DATE pipe LogTag REST"; [None] for a
    malformed line. *)
Definition parseLine (line : string) : option (string * string) :=
  '(_, r) ← Cut line " ";
  '(pipe, r) ← Cut r " ";
  '(linetype, content) ← Cut r " ";
  Some (pipe, if bool_decide (linetype = "P") then TrimSuffix content (String newline "") else content).

Definition parseLog_line (acc : string * string) (line : string) : string * string :=
  let '(stdout, stderr) := acc in
  if bool_decide (line = "") then acc
  else match parseLine line with
       | None => acc
       | Some (pipe, content) =>
           if bool_decide (pipe = "stdout") then (stdout +:+ content, stderr)
           else if bool_decide (pipe = "stderr") then (stdout, stderr +:+ content)
           else acc
       end.

Definition parseLog (l : string) : string * string :=
  foldl parseLog_line ("", "") (SplitAfter l newline).

(** ** The status of a container *)

Section host.
Context {E : Type}.
(** The world of a call: the container, and the host. *)
Record world := mkWorld { ctr : Container; host : E }.
#[local] Instance world_eta : Eta world := λ w, mkWorld (ctr w) (host w).

Variable runtime : list string → E → cmdResult * E.
(** [os.Stat]: the modification time; [os.ReadFile]; [time.Now]. *)
Variable stat : string → E → outcome Z * E.
Variable read : string → E → outcome string * E.
Variable clock : E → Z * E.
(** The JSON decoder of the runtime's state, which overwrites the fields present
    in its input and keeps the others. *)
Variable decode : string → ContainerState → outcome ContainerState.
Variable id : string.

Abbreviation M := (io world).

Definition runtimeCmd (args : list string) : M string := λ w,
  let '(res, h) := runtime args (host w) in
  (runtimeCmd_result res, w <| host := h |>).
Definition os_Stat (path : string) : M Z := λ w,
  let '(res, h) := stat path (host w) in (res, w <| host := h |>).
Definition os_ReadFile (path : string) : M string := λ w,
  let '(res, h) := read path (host w) in (res, w <| host := h |>).
Definition time_Now : M Z := λ w,
  let '(t, h) := clock (host w) in (Ret t, w <| host := h |>).

(** Assignments to fields of [c.state]. *)
Definition set_state (f : ContainerState → ContainerState) : M () :=
  modify (λ w, w <| ctr ::= λ c, c <| state ::= f |> |>).
Definition get_state : M ContainerState := gets (λ w, state (ctr w)).

Definition updateContainerStatusFromExitFile : M () :=
  path ← gets (λ w, exitFilePath (ctr w));
  mtime ← wrap_err "failed to find container exit file: " (os_Stat path);
  set_state (λ s, s <| Finished := mtime |>) ;;
  statusCodeStr ← wrap_err "failed to read exit file: " (os_ReadFile path);
  statusCode ← wrap_err "status code conversion failed: " (lift (ParseInt 32 statusCodeStr));
  set_state (λ s, s <| ExitCode := Some (i32 statusCode) |>).

(** The closure [stateCmd]: [None] is [(nil, true, nil)]. *)
Definition stateCmd : M (option ContainerState) :=
  r ← try (runtimeCmd ["state"; id]);
  match r with
  | inr _ =>
      set_state (λ s, s <| Status := ContainerStateStopped |>) ;;
      e ← try updateContainerStatusFromExitFile;
      match e with
      | inr _ =>
          t ← time_Now;
          set_state (λ s, s <| Finished := t |> <| ExitCode := Some 255 |>)
      | inl _ => mret ()
      end ;;
      mret None
  | inl out =>
      s ← get_state;
      Some <$> wrap_err "failed to decode container status: " (lift (decode out s))
  end.

(** [kwait.ExponentialBackoff] with [Steps] attempts at [os.Stat]: whether the
    exit file appeared in time. *)
Fixpoint waitForExitFile (steps : nat) (path : string) : M bool :=
  match steps with
  | O => mret false
  | S steps =>
      r ← try (os_Stat path);
      match r with
      | inl _ => mret true
      | inr _ => waitForExitFile steps path
      end
  end.
Definition exitFileSteps : nat := 6.

Definition signalContainer (sig : Z) (all : bool) : M () :=
  _ ← runtimeCmd (signalContainer_args id sig all); mret ().

Definition UpdateContainerStatus : M () :=
  c ← gets ctr;
  if spoofed c then mret ()
  else if bool_decide (is_Some (ExitCode (state c))) && negb (bool_decide (Finished (state c) = 0))
  then mret ()
  else
    st ← stateCmd;
    match st with
    | None => mret ()
    | Some s =>
        if negb (bool_decide (Status s = ContainerStateStopped))
        then set_state (λ _, s)
        else
          path ← gets (λ w, exitFilePath (ctr w));
          found ← waitForExitFile exitFileSteps path;
          st2 ← stateCmd;
          match st2 with
          | None => fail (ErrorsNew "state command returned nil")
          | Some s2 =>
              set_state (λ _, s2) ;;
              (if found : bool then updateContainerStatusFromExitFile else mret ()) ;;
              oom ← try (os_Stat (PathJoin [bundlePath c; "oom"]));
              match oom with
              | inl _ => set_state (λ s, s <| OOMKilled := true |>)
              | inr _ => mret ()
              end ;;
              node ← (c ← gets ctr; lift (nodeLevelPIDNamespace c));
              if node : bool then signalContainer SIGKILL true else mret ()
          end
    end.

Definition StartContainer : M () :=
  c ← gets ctr;
  if spoofed c then mret ()
  else
    _ ← runtimeCmd ["start"; id];
    t ← time_Now;
    set_state (λ s, s <| Started := t |>).

Definition DeleteContainer : M () :=
  c ← gets ctr;
  if spoofed c then mret ()
  else
    r ← try (runtimeCmd ["delete"; "--force"; id]);
    match r with
    | inr e => if errors_is e ErrNotFound then mret () else fail e
    | inl _ => mret ()
    end.

(** [c.state.SetInitPid(pid)], reading the stat file from the host. *)
Definition setInitPid (p : Z) : M () := λ w,
  let '(s, r) := SetInitPid (λ f, (read f (host w)).1) p (state (ctr w)) in
  (r, w <| ctr ::= λ c, c <| state := s |> |>).

(** [spawn args] starts conmon and moves it to its cgroup (killing it on an
    error), [wait] is [cmd.Wait()], [answer] what the sync pipe delivers.  The
    deferred clean-ups run in reverse order: the container is deleted, then the
    log file removed. *)
Definition CreateContainer (cfg : conmonConfig) (spawn : list string → M ()) (wait : M ())
    (answer : M (option (outcome syncInfo))) (remove : string → M ()) (restore : bool) : M () :=
  c ← gets ctr;
  if spoofed c then mret ()
  else
    args ← lift (conmonArgs cfg id c restore);
    spawn args ;;
    defer_on_err (ignore (remove (logPath c)))
      (wait ;;
       defer_on_err (ignore DeleteContainer)
         (a ← answer;
          p ← lift (receivePid restore a);
          setInitPid p)).

Definition PauseContainer : M () :=
  c ← gets ctr;
  if spoofed c then mret () else _ ← runtimeCmd ["pause"; id]; mret ().
Definition UnpauseContainer : M () :=
  c ← gets ctr;
  if spoofed c then mret () else _ ← runtimeCmd ["resume"; id]; mret ().

(** [name] is [unix.SignalName]. *)
Definition SignalContainer (signame : Z → string) (sig : Z) : M () :=
  c ← gets ctr;
  if spoofed c then mret ()
  else if bool_decide (signame sig = "") then fail (ErrorsNew "unable to find signal")
  else signalContainer sig false.

(** [createLog] is [crutils.CRCreateFileWithLabel]; [supported] the check for
    CRIU and for the runtime. *)
Definition checkpointArgs (c : Container) (leaveRunning : bool) : list string :=
  ["checkpoint"; "--file-locks"; "--image-path"; CheckpointPath c; "--work-path"; dir c] ++
  (if leaveRunning then ["--leave-running"] else []) ++ [id].

Definition CheckpointContainer (supported : outcome ()) (createLog : string → M ())
    (leaveRunning : bool) : M () :=
  lift supported ;;
  c ← gets ctr;
  createLog (dir c) ;;
  wrap_err "running checkpoint failed: " (runtimeCmd (checkpointArgs c leaveRunning)) ;;
  if leaveRunning then mret ()
  else set_state (λ s, s <| Status := ContainerStateStopped |> <| ExitCode := Some 0 |>).

(** [err != nil && !os.IsNotExist(err)] is an error, a missing file is not. *)
Definition ErrNotExist := ErrorsNew "file does not exist".
Definition removeFile (remove : string → M ()) (path : string) : M () :=
  r ← try (remove path);
  match r with
  | inr e => if errors_is e ErrNotExist then mret ()
             else fail (Errorf "error removing container file: " e)
  | inl _ => mret ()
  end.

(** [remove] is [os.Remove]; [create] is [r.CreateContainer(ctx, c, cgroupParent, true)]. *)
Definition RestoreContainer (supported : outcome ()) (remove : string → M ())
    (createLog : string → M ()) (create : M ()) : M () :=
  lift supported ;;
  c ← gets ctr;
  inv ← try (os_Stat (PathJoin [CheckpointPath c; "inventory.img"]));
  match inv with
  | inr e =>
      if errors_is e ErrNotExist then
        fail (Errorf "a complete checkpoint for this container cannot be found, cannot restore: " e)
      else mret ()
  | inl _ => mret ()
  end ;;
  removeFile remove (PathJoin [bundlePath c; "attach"]) ;;
  removeFile remove (PathJoin [bundlePath c; "ctl"]) ;;
  removeFile remove (PathJoin [bundlePath c; "winsz"]) ;;
  set_state (λ s, s <| InitPid := 0 |> <| InitStartTime := "" |>) ;;
  createLog (bundlePath c) ;;
  create ;;
  set_state (λ s, s <| Status := ContainerStateRunning |>) ;;
  contents ← os_ReadFile (conmonPidFilePath c);
  conmonPID ← lift (Atoi contents);
  set_state (λ s, s <| Pid := conmonPID |> <| ExitCode := None |>) ;;
  t ← time_Now;
  set_state (λ s, s <| Started := t |>).
End host.

(** ** Lemmas: the log *)

Lemma SplitAfter_line s t sep :
  contains_char sep s = false →
  SplitAfter (s +:+ String sep t) sep = (s +:+ String sep "") :: SplitAfter t sep.
Proof.
  induction s as [|c s IH]; simpl.
  - intros _. by rewrite bool_decide_eq_true_2.
  - case_bool_decide; simpl; [done|]. intros Hs. rewrite (IH Hs). done.
Qed.

(** One entry of the log, as conmon writes it. *)
Record entry := mkEntry { e_date : string; e_pipe : string; e_tag : string; e_text : string }.

Definition render (e : entry) : string :=
  e_date e +:+ " " +:+ e_pipe e +:+ " " +:+ e_tag e +:+ " " +:+ e_text e +:+ String newline "".

Definition entry_ok (e : entry) : bool :=
  negb (contains_char " " (e_date e) || contains_char " " (e_pipe e) ||
        contains_char " " (e_tag e) || contains_char newline (e_date e) ||
        contains_char newline (e_pipe e) || contains_char newline (e_tag e) ||
        contains_char newline (e_text e)).

(** What the process wrote: a partial line has no newline of its own. *)
Definition payload (e : entry) : string :=
  e_text e +:+ (if bool_decide (e_tag e = "P") then "" else String newline "").

(** What the entries of one pipe hold, in order. *)
Definition stream (pipe : string) (es : list entry) : string :=
  foldr (λ e s, if bool_decide (e_pipe e = pipe) then payload e +:+ s else s) "" es.

Definition render_all (es : list entry) : string := foldr (λ e s, render e +:+ s) "" es.

Lemma parseLine_render e :
  entry_ok e = true → parseLine (render e) = Some (e_pipe e, payload e).
Proof.
  unfold entry_ok. intros H%negb_true_iff. rewrite !orb_false_iff in H.
  destruct H as ((((((Hd & Hp) & Ht) & _) & _) & _) & _). unfold parseLine, render.
  rewrite !append_cons, !append_nil_l. rewrite Cut_app by done. simpl.
  rewrite Cut_app by done. simpl. rewrite Cut_app by done. simpl. unfold payload.
  do 2 f_equal. case_bool_decide; [|done]. by rewrite TrimSuffix_app, append_nil_r.
Qed.

Lemma render_nonempty e : render e ≠ "".
Proof.
  intros E. assert (String.length (render e) = 0%nat) as H by (by rewrite E).
  unfold render in H. rewrite !length_append in H. simpl in H. lia.
Qed.

Lemma render_line e t :
  entry_ok e = true → SplitAfter (render e +:+ t) newline = render e :: SplitAfter t newline.
Proof.
  unfold entry_ok. intros H%negb_true_iff. rewrite !orb_false_iff in H.
  destruct H as ((((((_ & _) & _) & Hd) & Hp) & Ht) & Hx). unfold render.
  set (body := e_date e +:+ " " +:+ e_pipe e +:+ " " +:+ e_tag e +:+ " " +:+ e_text e).
  assert (e_date e +:+ " " +:+ e_pipe e +:+ " " +:+ e_tag e +:+ " " +:+ e_text e +:+
    String newline "" = body +:+ String newline "") as ->.
  { unfold body. by rewrite !append_assoc. }
  rewrite append_assoc, append_cons, append_nil_l. apply SplitAfter_line.
  unfold body. rewrite !contains_char_app. simpl. by rewrite Hd, Hp, Ht, Hx.
Qed.

Lemma parseLog_fold es acc :
  Forall (λ e, entry_ok e = true) es →
  foldl parseLog_line acc (SplitAfter (render_all es) newline) =
    (acc.1 +:+ stream "stdout" es, acc.2 +:+ stream "stderr" es).
Proof.
  intros Hall. revert acc. induction Hall as [|e es He Hall IH]; intros [out err]; simpl.
  - by rewrite !append_nil_r.
  - rewrite render_line by done. simpl. rewrite IH. unfold parseLog_line.
    rewrite bool_decide_eq_false_2 by apply render_nonempty.
    rewrite parseLine_render by done.
    destruct (decide (e_pipe e = "stdout")) as [Ho|Ho].
    { rewrite Ho. simpl. by rewrite append_assoc. }
    rewrite (bool_decide_eq_false_2 (e_pipe e = "stdout")) by done.
    destruct (decide (e_pipe e = "stderr")) as [He'|He'].
    { rewrite He'. simpl. by rewrite append_assoc. }
    by rewrite (bool_decide_eq_false_2 (e_pipe e = "stderr")).
Qed.

(** C32: parsing the log conmon wrote gives back, for each of the two pipes and in
    order, exactly the bytes the process wrote: full lines with their newline,
    partial lines (tag P) without one; entries of other pipes are dropped. *)
Theorem parseLog_roundtrip es :
  Forall (λ e, entry_ok e = true) es →
  parseLog (render_all es) = (stream "stdout" es, stream "stderr" es).
Proof. intros H. unfold parseLog. by rewrite parseLog_fold. Qed.

Definition w_entries : list entry :=
  [mkEntry "2024" "stdout" "P" "ab"; mkEntry "2024" "stderr" "F" "x y";
   mkEntry "2025" "stdout" "F" "c"].

Lemma parseLog_roundtrip_witness :
  parseLog (render_all w_entries) = ("abc" +:+ String newline "", "x y" +:+ String newline "").
Proof. rewrite (parseLog_roundtrip w_entries); [reflexivity|repeat constructor]. Defined.

(** ** Lemmas: the status *)

Section host_lemmas.
Context {E : Type}.
Variable runtime : list string → E → cmdResult * E.
Variable stat : string → E → outcome Z * E.
Variable read : string → E → outcome string * E.
Variable clock : E → Z * E.
Variable decode : string → ContainerState → outcome ContainerState.
Variable id : string.
Implicit Types w : world (E := E).

Abbreviation exitfile := (updateContainerStatusFromExitFile stat read).

(** What the exit file tells: the time is the file's, the code an [int32]. *)
Lemma exit_file_cases w r w' :
  exitfile w = (r, w') →
  Status (state (ctr w')) = Status (state (ctr w)) ∧ spoofed (ctr w') = spoofed (ctr w) ∧
  (r = Ret () → ∃ code, ExitCode (state (ctr w')) = Some code ∧ in_s 32 code).
Proof.
  unfold updateContainerStatusFromExitFile, mbind, io_bind, gets, wrap_err, os_Stat, os_ReadFile,
    set_state, modify, lift.
  intros H. repeat (case_match; simplify_eq/=); try done.
  split_and!; [done..|]. intros _. eexists. split; [done|]. apply wrap_s_range. lia.
Qed.

(** A container whose exit was recorded is never asked about again: the call
    returns at once, without a command, and leaves the world as it is. *)
Lemma update_skips_recorded w code :
  ExitCode (state (ctr w)) = Some code → Finished (state (ctr w)) ≠ 0 →
  UpdateContainerStatus runtime stat read clock decode id w = (Ret (), w).
Proof.
  intros Hc Hf. unfold UpdateContainerStatus, mbind, io_bind, gets.
  destruct (spoofed (ctr w)); [done|]. rewrite Hc.
  rewrite bool_decide_eq_true_2 by eauto. by rewrite bool_decide_eq_false_2.
Qed.

(** The host never panics. *)
Hypothesis stat_ok : ∀ path e s, (stat path e).1 ≠ Panic s.
Hypothesis read_ok : ∀ path e s, (read path e).1 ≠ Panic s.

Lemma exit_file_no_panic w s w' : exitfile w ≠ (Panic s, w').
Proof.
  unfold updateContainerStatusFromExitFile, mbind, io_bind, gets, wrap_err, os_Stat, os_ReadFile,
    set_state, modify, lift. intros Hx.
  pose proof (stat_ok (exitFilePath (ctr w)) (host w)) as Hp1.
  destruct (stat _ (host w)) as [[] h3]; simplify_eq/=; [|by eapply Hp1].
  pose proof (read_ok (exitFilePath (ctr w)) h3) as Hp2.
  destruct (read _ h3) as [[] h4]; simplify_eq/=; [|by eapply Hp2].
  unfold ParseInt in Hx. repeat (case_match; simplify_eq/=).
Qed.

Lemma stateCmd_failure w stderr stdout err h :
  runtime ["state"; id] (host w) = (CmdErr stderr stdout err, h) →
  ∃ w' code, stateCmd runtime stat read clock decode id w = (Ret None, w') ∧
    Status (state (ctr w')) = ContainerStateStopped ∧
    ExitCode (state (ctr w')) = Some code ∧ in_s 32 code.
Proof.
  intros Hrun. unfold stateCmd.
  erewrite io_bind_ret by (unfold try, runtimeCmd; rewrite Hrun; reflexivity). cbv iota beta.
  erewrite io_bind_ret by reflexivity.
  match goal with |- context [set ctr ?f ?x] => set (w1 := set ctr f x) end.
  destruct (exitfile w1) as [r w2] eqn:Hx.
  pose proof (exit_file_cases _ _ _ Hx) as (Hst & _ & Hcode).
  destruct r as [[]|e|s].
  - destruct Hcode as (code & Hcode & Hr); [done|]. exists w2, code.
    erewrite io_bind_ret by (unfold try; rewrite Hx; reflexivity). split_and!; done.
  - erewrite io_bind_ret by (unfold try; rewrite Hx; reflexivity). cbv iota beta.
    unfold mbind, io_bind, time_Now. destruct (clock (host w2)) as [t h2].
    eexists _, 255. split_and!; [reflexivity|done|done|split; lia].
  - by apply exit_file_no_panic in Hx.
Qed.

(** A failing runtime is not an error of the update: whatever the reason, the
    container becomes stopped, with the exit code of its exit file or 255, so
    that the kubelet can restart it. *)
Theorem update_runtime_failure w stderr stdout err h :
  spoofed (ctr w) = false →
  (ExitCode (state (ctr w)) = None ∨ Finished (state (ctr w)) = 0) →
  runtime ["state"; id] (host w) = (CmdErr stderr stdout err, h) →
  ∃ w' code, UpdateContainerStatus runtime stat read clock decode id w = (Ret (), w') ∧
    Status (state (ctr w')) = ContainerStateStopped ∧
    ExitCode (state (ctr w')) = Some code ∧ in_s 32 code.
Proof.
  intros Hsp Hrec Hrun. destruct (stateCmd_failure _ _ _ _ _ Hrun) as (w' & code & Hs & H).
  exists w', code. split; [|done].
  unfold UpdateContainerStatus. erewrite io_bind_ret by reflexivity. rewrite Hsp.
  replace (bool_decide (is_Some (ExitCode (state (ctr w)))) &&
    negb (bool_decide (Finished (state (ctr w)) = 0))) with false.
  2:{ destruct Hrec as [-> | ->]; [by rewrite bool_decide_eq_false_2 by apply is_Some_None|].
      by rewrite andb_false_r. }
  by erewrite io_bind_ret by exact Hs.
Qed.
End host_lemmas.

(** ** Witnesses *)

(** A host whose runtime always fails and whose exit file says 137. *)
Definition w_runtime (args : list string) (e : ()) : cmdResult * () :=
  (CmdErr "container does not exist" "" (ErrorsNew "exit status 1"), e).
Definition w_stat (path : string) (e : ()) : outcome Z * () :=
  (if bool_decide (path = "/c/exit") then Ret 77 else Fail ErrNotExist, e).
Definition w_readf (path : string) (e : ()) : outcome string * () :=
  (if bool_decide (path = "/c/exit") then Ret "137" else Fail ErrNotExist, e).
Definition w_clock (e : ()) : Z * () := (1000, e).
Definition w_decode (out : string) (s : ContainerState) : outcome ContainerState :=
  Fail (ErrorsNew "EOF").
Definition w_world : world (E := ()) := mkWorld w_container ().

Lemma update_runtime_failure_witness :
  ∃ w' code, UpdateContainerStatus w_runtime w_stat w_readf w_clock w_decode "id" w_world =
    (Ret (), w') ∧ Status (state (ctr w')) = "stopped" ∧
    ExitCode (state (ctr w')) = Some code ∧ in_s 32 code.
Proof.
  apply (update_runtime_failure w_runtime w_stat w_readf w_clock w_decode "id")
    with (stderr := "container does not exist") (stdout := "") (err := ErrorsNew "exit status 1")
         (h := ()); try reflexivity.
  - intros path e s. unfold w_stat. by case_bool_decide.
  - intros path e s. unfold w_readf. by case_bool_decide.
  - by left.
Defined.

Definition w_done : world (E := ()) :=
  mkWorld (w_container <| state ::= λ s, s <| ExitCode := Some 0 |> <| Finished := 9 |> |>) ().
