(* ===== verification/Sandbox.v ===== *)
(** * Sandbox: the pod sandbox object (internal/lib/sandbox)

    The struct with its containers, its infra container, the stopped flags and
    the files that keep them over a restart, its managed namespaces, and the
    builder.

    A container is a pointer [C]; what the sandbox asks of it ([Dir], [Spoofed],
    the status, [Pid], [Name]) are functions of the pointer.  The containers are
    kept in any store with the [Storer] interface of MemoryStore. *)

From S2P Require Import Prelude GoStrings MemoryStore Container.
Local Open Scope Z_scope.

Definition sbStoppedFilename : string := "stopped".
Definition sbNetworkStoppedFilename : string := "network-stopped".

Inductive PodSandboxState := SANDBOX_READY | SANDBOX_NOTREADY.
#[export] Instance PodSandboxState_eq_dec : EqDecision PodSandboxState.
Proof. solve_decision. Defined.

(** [nsmgr.NSType] and a pinned namespace: its type and its path. *)
Inductive NSType := NETNS | IPCNS | UTSNS | USERNS | PIDNS.
#[export] Instance NSType_eq_dec : EqDecision NSType.
Proof. solve_decision. Defined.
Record Namespace := mkNamespace { n_Type : NSType; n_Path : string }.

(** The type under /proc/<pid>/ns, and [nsmgr.NamespacePathFromProc]. *)
Definition procName (t : NSType) : string :=
  match t with NETNS => "net" | IPCNS => "ipc" | UTSNS => "uts" | USERNS => "user" | PIDNS => "pid" end.
Definition NamespacePathFromProc (t : NSType) (p : Z) : string :=
  "/proc/" +:+ Itoa p +:+ "/ns/" +:+ procName t.

Record PodSandboxMetadata := mkPodMetadata {
  pm_Name : string; pm_Uid : string; pm_Namespace : string; pm_Attempt : Z }.

(** The CRI message [types.PodSandbox]. *)
Record PodSandbox := mkPodSandbox {
  ps_Id : string;
  ps_Metadata : option PodSandboxMetadata;
  ps_State : PodSandboxState;
  ps_CreatedAt : Z;
  ps_Labels : gmap string string;
  ps_Annotations : gmap string string }.
#[export] Instance PodSandbox_eta : Eta PodSandbox := λ p,
  mkPodSandbox (ps_Id p) (ps_Metadata p) (ps_State p) (ps_CreatedAt p) (ps_Labels p)
    (ps_Annotations p).

Record Sandbox {C St : Type} := mkSandbox {
  criSandbox : option PodSandbox;
  sb_namespace : string;
  sb_name : string;
  kubeName : string;
  logDir : string;
  containers : St;
  createdAt : Z;
  processLabel : string;
  mountLabel : string;
  netns : option Namespace;
  ipcns : option Namespace;
  utsns : option Namespace;
  userns : option Namespace;
  shmPath : string;
  cgroupParent : string;
  sb_runtimeHandler : string;
  resolvPath : string;
  hostnamePath : string;
  hostname : string;
  ips : list string;
  sb_seccompProfilePath : string;
  infraContainer : option C;
  sb_created : bool;
  stopped : bool;
  networkStopped : bool;
  privileged : bool;
  hostNetwork : bool;
  usernsMode : string;
  containerEnvPath : string;
}.
Arguments Sandbox : clear implicits.
#[export] Instance Sandbox_eta {C St} : Eta (Sandbox C St) := λ s,
  mkSandbox C St (criSandbox s) (sb_namespace s) (sb_name s) (kubeName s) (logDir s) (containers s)
    (createdAt s) (processLabel s) (mountLabel s) (netns s) (ipcns s) (utsns s) (userns s)
    (shmPath s) (cgroupParent s) (sb_runtimeHandler s) (resolvPath s) (hostnamePath s)
    (hostname s) (ips s) (sb_seccompProfilePath s) (infraContainer s) (sb_created s) (stopped s)
    (networkStopped s) (privileged s) (hostNetwork s) (usernsMode s) (containerEnvPath s).

Set Default Proof Using "Type".

Section sandbox.
Context {C St : Type} `{Storer C St}.
(** What the sandbox reads of a container. *)
Variable c_Dir : C → string.
Variable c_Spoofed : C → bool.
Variable c_Status : C → string.
Variable c_Pid : C → outcome Z.
Variable c_Name : C → string.

Abbreviation Sb := (Sandbox C St).

(** [new(Sandbox)]; the store is set by the builder. *)
Definition newSandbox : Sb :=
  mkSandbox C St None "" "" "" "" st_new 0 "" "" None None None None "" "" "" "" "" "" [] "" None
    false false false false false "" "".

(** ** Containers *)

Definition AddContainer (c : C) (s : Sb) : Sb := s <| containers ::= st_add (c_Name c) c |>.
Definition GetContainer (nm : string) (s : Sb) : option C := st_get nm (containers s).
Definition RemoveContainer (c : C) (s : Sb) : Sb := s <| containers ::= st_delete (c_Name c) |>.

Definition SetInfraContainer (infraCtr : option C) (s : Sb) : outcome Sb :=
  match infraContainer s with
  | Some _ => Fail (ErrorsNew "sandbox already has an infra container")
  | None =>
      match infraCtr with
      | None => Fail (ErrorsNew "must provide non-nil infra container")
      | Some _ => Ret (s <| infraContainer := infraCtr |>)
      end
  end.
Definition RemoveInfraContainer (s : Sb) : Sb := s <| infraContainer := None |>.

(** ** State *)

Definition Ready (s : Sb) : bool :=
  match infraContainer s with
  | None => false
  | Some infra =>
      if c_Spoofed infra then sb_created s && negb (stopped s)
      else bool_decide (c_Status infra = ContainerStateRunning)
  end.

Definition State (s : Sb) : PodSandboxState := if Ready s then SANDBOX_READY else SANDBOX_NOTREADY.

(** The message shows the current state. *)
Definition CRISandbox (s : Sb) : outcome (Sb * PodSandbox) :=
  match criSandbox s with
  | None => Panic "nil pointer dereference"
  | Some m =>
      let m' := if bool_decide (State s = ps_State m) then m else m <| ps_State := State s |> in
      Ret (s <| criSandbox := Some m' |>, m')
  end.

Definition SetCreated (s : Sb) : Sb := s <| sb_created := true |>.

(** ** The stopped files

    The world is the sandbox and the files of the host: [files] is the set of
    existing paths, [create] says whether [os.Create] succeeds. *)

Record sbworld := mkSbWorld { sbox : Sb; files : gset string }.
#[local] Instance sbworld_eta : Eta sbworld := λ w, mkSbWorld (sbox w) (files w).
Variable create : string → option goerr.

Definition os_Create (path : string) : io sbworld () := λ w,
  match create path with
  | Some e => (Fail e, w)
  | None => (Ret (), w <| files ::= ({[ path ]} ∪.) |>)
  end.

(** A nil infra container is dereferenced. *)
Definition infraFile (filename : string) (s : Sb) : outcome string :=
  match infraContainer s with
  | None => Panic "nil pointer dereference"
  | Some infra => Ret (PathJoin [c_Dir infra; filename])
  end.

Definition createFileInInfraDir (filename : string) : io sbworld () :=
  s ← gets sbox;
  if negb (sb_created s) then mret ()
  else
    path ← lift (infraFile filename s);
    exists_ ← gets (λ w, bool_decide (from_option c_Dir "" (infraContainer s) ∈ files w));
    if exists_ : bool then os_Create path else mret ().

Definition SetStopped (createFile : bool) : io sbworld () :=
  s ← gets sbox;
  if stopped s then mret ()
  else
    modify (λ w, w <| sbox ::= λ s, s <| stopped := true |> |>) ;;
    when createFile (ignore (createFileInInfraDir sbStoppedFilename)).

Definition SetNetworkStopped (createFile : bool) : io sbworld () :=
  s ← gets sbox;
  if networkStopped s then mret ()
  else
    modify (λ w, w <| sbox ::= λ s, s <| networkStopped := true |> |>) ;;
    when createFile
      (wrap_err "failed to create state file in container directory. Restores may fail: "
         (createFileInInfraDir sbNetworkStoppedFilename)).

Definition fileExistsInInfraDir (filename : string) : io sbworld bool :=
  s ← gets sbox;
  path ← lift (infraFile filename s);
  gets (λ w, bool_decide (path ∈ files w)).

Definition RestoreStopped : io sbworld () :=
  b ← fileExistsInInfraDir sbStoppedFilename;
  when b (modify (λ w, w <| sbox ::= λ s, s <| stopped := true |> |>)) ;;
  b ← fileExistsInInfraDir sbNetworkStoppedFilename;
  when b (modify (λ w, w <| sbox ::= λ s, s <| networkStopped := true |> |>)).

Definition SetContainerEnvFile : io sbworld () :=
  s ← gets sbox;
  if negb (bool_decide (containerEnvPath s = "")) then mret ()
  else
    path ← lift (infraFile ".containerenv" s);
    ignore (os_Create path) ;;
    modify (λ w, w <| sbox ::= λ s, s <| containerEnvPath := path |> |>).

(** ** Namespaces *)

Definition AddManagedNamespace (s : Sb) (ns : option Namespace) : outcome Sb :=
  match ns with
  | None => Ret s
  | Some n =>
      match n_Type n with
      | IPCNS => Ret (s <| ipcns := ns |>)
      | UTSNS => Ret (s <| utsns := ns |>)
      | NETNS => Ret (s <| netns := ns |>)
      | USERNS => Ret (s <| userns := ns |>)
      | PIDNS => Panic "unknown namespace type"
      end
  end.
Fixpoint AddManagedNamespaces (nss : list (option Namespace)) (s : Sb) : outcome Sb :=
  match nss with
  | [] => Ret s
  | ns :: nss => s ← AddManagedNamespace s ns; AddManagedNamespaces nss s
  end.

(** An error of [Pid] leaves its zero result. *)
Definition infraPid (infra : option C) : Z :=
  match infra with
  | None => -1
  | Some c => if c_Spoofed c then -1 else match c_Pid c with Ret p => p | _ => 0 end
  end.

Definition nsPathGivenInfraPid (ns : option Namespace) (t : NSType) (p : Z) : string :=
  match ns with
  | None => if 0 <? p then NamespacePathFromProc t p else ""
  | Some n => n_Path n
  end.
Definition nsPath (ns : option Namespace) (t : NSType) (s : Sb) : string :=
  nsPathGivenInfraPid ns t (infraPid (infraContainer s)).

Definition NetNsPath (s : Sb) : string := nsPath (netns s) NETNS s.
Definition IpcNsPath (s : Sb) : string := nsPath (ipcns s) IPCNS s.
Definition UtsNsPath (s : Sb) : string := nsPath (utsns s) UTSNS s.
Definition UserNsPath (s : Sb) : string := nsPath (userns s) USERNS s.
Definition PidNsPath (s : Sb) : string := nsPath None PIDNS s.

Definition NamespacePaths (s : Sb) : list (string * NSType) :=
  let p := infraPid (infraContainer s) in
  let one ns t := let path := nsPathGivenInfraPid ns t p in
    if bool_decide (path = "") then [] else [(path, t)] in
  one (ipcns s) IPCNS ++ one (netns s) NETNS ++ one (utsns s) UTSNS ++ one (userns s) USERNS.

(** [remove] is [Namespace.Remove]; every namespace is tried, the errors are
    collected. *)
Definition runFunctionOnNamespaces (toRun : Namespace → option goerr) (s : Sb) :
    list Namespace * option goerr :=
  let all := omap id [utsns s; ipcns s; netns s; userns s] in
  (all, if decide (omap toRun all = []) then None
        else Some (ErrorsNew "removing namespaces encountered the following errors")).
Definition RemoveManagedNamespaces (remove : Namespace → option goerr) (s : Sb) : option goerr :=
  (runFunctionOnNamespaces remove s).2.

(** [get] is [nsmgr.GetNamespace], which returns a nil namespace with its error. *)
Definition nsJoin (get : string → NSType → outcome Namespace) (path : string) (t : NSType)
    (current : option Namespace) : option Namespace * option goerr :=
  match current with
  | Some _ => (current, Some (ErrorsNew "sandbox already has a namespace, cannot join another"))
  | None =>
      match get path t with
      | Ret n => (Some n, None)
      | Fail e => (None, Some e)
      | Panic w => (None, Some (ErrorsNew w))
      end
  end.

(** An error counts only while the sandbox is not stopped. *)
Definition joinResult (s : Sb) (e : option goerr) : option goerr := if stopped s then None else e.

Definition NetNsJoin get (path : string) (s : Sb) : Sb * option goerr :=
  let '(ns, e) := nsJoin get path NETNS (netns s) in
  (s <| netns := ns |>, joinResult s e).
Definition UserNsJoin get (path : string) (s : Sb) : Sb * option goerr :=
  let '(ns, e) := nsJoin get path USERNS (userns s) in
  (s <| userns := ns |>, joinResult s e).
Definition IpcNsJoin get (path : string) (s : Sb) : Sb * option goerr :=
  if stopped s then (s, None)
  else let '(ns, e) := nsJoin get path IPCNS (ipcns s) in
       (s <| ipcns := ns |>, joinResult s e).
Definition UtsNsJoin get (path : string) (s : Sb) : Sb * option goerr :=
  if stopped s then (s, None)
  else let '(ns, e) := nsJoin get path UTSNS (utsns s) in
       (s <| utsns := ns |>, joinResult s e).

(** ** The builder *)

(** The configuration as far as the builder reads it. *)
Record PodSandboxConfig := mkPodSandboxConfig {
  cfg_Metadata : option PodSandboxMetadata; cfg_Linux : bool }.

Record sandboxBuilder := mkBuilder { b_config : option PodSandboxConfig; sandboxRef : option Sb }.
#[local] Instance builder_eta : Eta sandboxBuilder := λ b, mkBuilder (b_config b) (sandboxRef b).

Definition NewBuilder : sandboxBuilder := mkBuilder None (Some newSandbox).

Definition GetSandbox (b : sandboxBuilder) : outcome (Sb * sandboxBuilder) :=
  match sandboxRef b with
  | None => Panic "nil pointer dereference"
  | Some s =>
      match criSandbox s with
      | None => Fail (ErrorsNew "cri-o sandbox not initialized")
      | Some _ => Ret (s, mkBuilder None None)
      end
  end.

Definition SetConfig (config : option PodSandboxConfig) (b : sandboxBuilder) :
    outcome sandboxBuilder :=
  match b_config b, config with
  | Some _, _ => Fail (ErrorsNew "config already set")
  | None, None => Fail (ErrorsNew "config is nil")
  | None, Some c =>
      match cfg_Metadata c with
      | None => Fail (ErrorsNew "metadata is nil")
      | Some md =>
          if bool_decide (pm_Name md = "") then Fail (ErrorsNew "metadata.Name should not be empty")
          else Ret (b <| b_config := Some (mkPodSandboxConfig (cfg_Metadata c) true) |>)
      end
  end.

Definition SetID (id : string) (s : Sb) : Sb :=
  s <| criSandbox ::= λ m,
    Some (match m with
          | Some m => m <| ps_Id := id |>
          | None => mkPodSandbox id None SANDBOX_READY 0 ∅ ∅
          end) |>.

(** [id] is the generated ID. *)
Definition GenerateNameAndID (id : string) (b : sandboxBuilder) : outcome sandboxBuilder :=
  match b_config b with
  | None => Fail (ErrorsNew "config is nil")
  | Some c =>
      match cfg_Metadata c, sandboxRef b with
      | Some md, Some s =>
          if bool_decide (pm_Namespace md = "") then
            Fail (ErrorsNew "cannot generate pod name without namespace")
          else if bool_decide (pm_Name md = "") then
            Fail (ErrorsNew "cannot generate pod name without name in metadata")
          else if bool_decide (pm_Uid md = "") then
            Fail (ErrorsNew "cannot generate pod name without uid in metadata")
          else
            let nm := Join ["k8s"; pm_Name md; pm_Namespace md; pm_Uid md; Itoa (pm_Attempt md)] "_" in
            Ret (b <| sandboxRef := Some ((SetID id s) <| sb_name := nm |>) |>)
      | _, _ => Panic "nil pointer dereference"
      end
  end.

Definition SetCRISandbox (id : string) (labels annotations : gmap string string)
    (md : option PodSandboxMetadata) (s : Sb) : outcome Sb :=
  if bool_decide (createdAt s = 0) then Fail (ErrorsNew "createdAt time is Zero")
  else
    Ret (s <| criSandbox ::= λ m,
      Some (match m with
            | Some m => m <| ps_CreatedAt := createdAt s |> <| ps_Annotations := annotations |>
                          <| ps_Labels := labels |> <| ps_Metadata := md |>
            | None => mkPodSandbox id md SANDBOX_READY (createdAt s) labels annotations
            end) |>).

(** ** Lemmas *)

(** C29: a stop that was recorded survives a restart. When the sandbox was created,
    its infra directory exists and the file can be written, a sandbox loaded
    afterwards with the same infra container is stopped again; and a second
    [SetStopped] changes nothing. *)
Theorem stopped_survives_restart s s' fs infra :
  sb_created s = true → stopped s = false → infraContainer s = Some infra →
  c_Dir infra ∈ fs → create (PathJoin [c_Dir infra; sbStoppedFilename]) = None →
  infraContainer s' = Some infra →
  ∃ fs', SetStopped true (mkSbWorld s fs) = (Ret (), mkSbWorld (s <| stopped := true |>) fs') ∧
    SetStopped true (mkSbWorld (s <| stopped := true |>) fs') =
      (Ret (), mkSbWorld (s <| stopped := true |>) fs') ∧
    ∃ w, RestoreStopped (mkSbWorld s' fs') = (Ret (), w) ∧ stopped (sbox w) = true ∧ files w = fs'.
Proof.
  intros Hc Hs Hi Hd Hcr Hi'. exists ({[PathJoin [c_Dir infra; sbStoppedFilename]]} ∪ fs).
  split_and!.
  - unfold SetStopped, mbind, io_bind, gets. simpl. rewrite Hs. unfold modify, ignore, when.
    unfold createFileInInfraDir, mbind, io_bind, gets, lift. simpl. rewrite Hc. simpl.
    unfold infraFile. simpl. rewrite Hi. simpl. rewrite bool_decide_eq_true_2 by done.
    unfold os_Create. by rewrite Hcr.
  - unfold SetStopped, mbind, io_bind, gets. done.
  - unfold RestoreStopped, fileExistsInInfraDir, mbind, io_bind, gets, lift. simpl.
    unfold infraFile. rewrite Hi'. simpl.
    rewrite bool_decide_eq_true_2 by (by apply elem_of_union_l, elem_of_singleton_2). simpl.
    rewrite Hi'. simpl. by case_bool_decide; eexists; (split; [reflexivity|]).
Qed.

(** A finding: when the file cannot be written, the first [SetNetworkStopped]
    fails but has set the flag, so that the retry reports success without the
    file. *)
Theorem SetNetworkStopped_retry s fs infra e :
  sb_created s = true → networkStopped s = false → infraContainer s = Some infra →
  c_Dir infra ∈ fs → create (PathJoin [c_Dir infra; sbNetworkStoppedFilename]) = Some e →
  ∃ err w, SetNetworkStopped true (mkSbWorld s fs) = (Fail err, w) ∧ files w = fs ∧
    SetNetworkStopped true w = (Ret (), w).
Proof.
  intros Hc Hs Hi Hd Hcr.
  exists (Errorf "failed to create state file in container directory. Restores may fail: " e),
    (mkSbWorld (s <| networkStopped := true |>) fs).
  split_and!; [|done|done].
  unfold SetNetworkStopped, mbind, io_bind, gets. simpl. rewrite Hs. unfold modify, when, wrap_err.
  unfold createFileInInfraDir, mbind, io_bind, gets, lift. simpl. rewrite Hc. simpl.
  unfold infraFile. simpl. rewrite Hi. simpl. rewrite bool_decide_eq_true_2 by done.
  unfold os_Create. by rewrite Hcr.
Qed.

(** The infra container is set once, and readiness needs it. *)
Lemma Ready_needs_infra s : Ready s = true → is_Some (infraContainer s).
Proof. unfold Ready. destruct (infraContainer s); [eauto|done]. Qed.

(** Joining never replaces a namespace the sandbox has. *)
Lemma nsJoin_keeps get path t n :
  ∃ e, nsJoin get path t (Some n) = (Some n, Some e).
Proof. simpl. eauto. Qed.
End sandbox.

(** ** Witness *)

Definition w_sb : Sandbox () (gmap string ()) :=
  (newSandbox (H := memoryStore_storer map_to_list)) <| sb_created := true |>
    <| infraContainer := Some () |>.

Lemma stopped_survives_restart_witness :
  ∃ fs' w, RestoreStopped (λ _, "/infra") (mkSbWorld w_sb fs') = (Ret (), w) ∧
    stopped (sbox w) = true.
Proof.
  destruct (stopped_survives_restart (λ _, "/infra") (λ _, None) w_sb w_sb {["/infra"]} ())
    as (fs' & _ & _ & w & Hw & Hs & _); try reflexivity.
  exists fs', w. split; [exact Hw|exact Hs].
Defined.
