(* ===== verification/ContainerServer.v ===== *)
(** * ContainerServer: the state of all pods and containers
    (internal/lib/container_server.go, container_server_linux.go, container.go)

    The server keeps pointers to containers and sandboxes in three stores, the
    name registrars, the ID indexes, and a count of sandboxes per SELinux level.
    Containers and sandboxes are objects on a heap: [ctrs] and [sbs] map
    pointers to them, so that the same container reached through the server and
    through its sandbox is the same object.  The stores are any implementation
    of the interface [Storer]. *)

From S2P Require Import Prelude GoStrings Registrar MemoryStore Container Sandbox.
From Stdlib Require Import Ascii.
Local Open Scope Z_scope.

(** ** The ID index

    vendor/github.com/containers/storage/pkg/truncindex: a set of IDs found by
    any unambiguous prefix. *)

Definition TruncIndex := gset string.

Definition ErrEmptyPrefix := ErrorsNew "prefix can't be empty".
Definition ErrIllegalChar := ErrorsNew "illegal character: ' '".
Definition ErrNotExist := ErrorsNew "ID does not exist".
Definition ErrAmbiguousPrefix := ErrorsNew "multiple IDs found with provided prefix".

Definition index_add (id : string) (idx : TruncIndex) : outcome TruncIndex :=
  if contains_char " " id then Fail ErrIllegalChar
  else if bool_decide (id = "") then Fail ErrEmptyPrefix
  else if bool_decide (id ∈ idx) then Fail (ErrorsNew "id already exists")
  else Ret ({[ id ]} ∪ idx).

Definition index_delete (id : string) (idx : TruncIndex) : outcome TruncIndex :=
  if negb (bool_decide (id ∈ idx)) || bool_decide (id = "") then Fail (ErrorsNew "no such id")
  else Ret (idx ∖ {[ id ]}).

Definition index_get (s : string) (idx : TruncIndex) : outcome string :=
  if bool_decide (s = "") then Fail ErrEmptyPrefix
  else match filter (λ i, HasPrefix i s = true) (elements idx) with
       | [] => Fail ErrNotExist
       | [i] => Ret i
       | _ => Fail ErrAmbiguousPrefix
       end.

(** ** State *)

Definition ptr := positive.

(** A container as the server sees it through its accessors. *)
Record Ctr := mkCtr {
  c_id : string;
  c_name : string;
  c_sandbox : string;
  c_created : bool;
  c_CreatedAt : Z;
  c_spec : Spec;
}.
#[export] Instance Ctr_eta : Eta Ctr := λ c,
  mkCtr (c_id c) (c_name c) (c_sandbox c) (c_created c) (c_CreatedAt c) (c_spec c).

(** The calls the server makes to the SELinux library. *)
Inductive label_call := ReserveLabel (label : string) | ReleaseLabel (label : string).

Record ContainerServer {St : Type} := mkServer {
  ctrs : gmap ptr Ctr;
  sbs : gmap ptr (Sandbox ptr St);
  s_containers : St;
  infraContainers : St;
  sandboxes : St;
  processLevels : gmap string Z;
  ctrNameIndex : Registrar;
  podNameIndex : Registrar;
  ctrIDIndex : TruncIndex;
  podIDIndex : TruncIndex;
  labelCalls : list label_call;
}.
Arguments ContainerServer : clear implicits.
#[export] Instance ContainerServer_eta {St} : Eta (ContainerServer St) := λ s,
  mkServer St (ctrs s) (sbs s) (s_containers s) (infraContainers s) (sandboxes s)
    (processLevels s) (ctrNameIndex s) (podNameIndex s) (ctrIDIndex s) (podIDIndex s)
    (labelCalls s).

Section server.
Context {St : Type} `{StorerLaws ptr St}.
(** [selinux.NewContext(label)["level"]] *)
Variable level : string → outcome string.

Abbreviation CS := (ContainerServer St).

Definition New : CS :=
  mkServer St ∅ ∅ st_new st_new st_new ∅ NewRegistrar NewRegistrar ∅ ∅ [].

(** The name a sandbox files a container under. *)
Definition ctrName (s : CS) (p : ptr) : string := default "" (c_name <$> ctrs s !! p).

(** ** Containers *)

Definition GetContainer (id : string) (s : CS) : option ptr := st_get id (s_containers s).
Definition GetInfraContainer (id : string) (s : CS) : option ptr := st_get id (infraContainers s).
Definition HasContainer (id : string) (s : CS) : bool := bool_decide (is_Some (GetContainer id s)).
Definition GetSandbox (id : string) (s : CS) : option ptr := st_get id (sandboxes s).
Definition HasSandbox (id : string) (s : CS) : bool := bool_decide (is_Some (GetSandbox id s)).
Definition GetSandboxContainer (id : string) (s : CS) : option ptr :=
  sp ← GetSandbox id s; sb ← sbs s !! sp; infraContainer sb.

(** A container whose sandbox is unknown is silently not added. *)
Definition AddContainer (p : ptr) (s : CS) : CS :=
  match ctrs s !! p with
  | None => s
  | Some c =>
      match st_get (c_sandbox c) (sandboxes s) with
      | None => s
      | Some sp =>
          s <| sbs ::= alter (Sandbox.AddContainer (ctrName s) p) sp |>
            <| s_containers ::= st_add (c_id c) p |>
      end
  end.

Definition AddInfraContainer (p : ptr) (s : CS) : CS :=
  match ctrs s !! p with
  | None => s
  | Some c => s <| infraContainers ::= st_add (c_id c) p |>
  end.

(** The statistics of the container and its PID namespace are dropped too. *)
Definition RemoveContainer (p : ptr) (s : CS) : CS :=
  match ctrs s !! p with
  | None => s
  | Some c =>
      match st_get (c_sandbox c) (sandboxes s) with
      | None => s
      | Some sp =>
          s <| sbs ::= alter (Sandbox.RemoveContainer (ctrName s) p) sp |>
            <| s_containers ::= st_delete (c_id c) |>
      end
  end.

Definition RemoveInfraContainer (p : ptr) (s : CS) : CS :=
  match ctrs s !! p with
  | None => s
  | Some c => s <| infraContainers ::= st_delete (c_id c) |>
  end.

Definition createdAtOf (s : CS) (p : ptr) : Z := default 0 (c_CreatedAt <$> ctrs s !! p).

Definition listContainers (s : CS) : list ptr := st_list (createdAtOf s) (s_containers s).

(** A container is kept when one of the filters accepts it. *)
Definition ListContainers (filters : list (ptr → bool)) (s : CS) : list ptr :=
  let cs := listContainers s in
  match filters with
  | [] => cs
  | _ => filter (λ p, existsb (λ f, f p) filters = true) cs
  end.

(** ** Sandboxes *)

Definition labelOf (s : CS) (sp : ptr) : string := default "" (processLabel <$> sbs s !! sp).

Definition addSandboxPlatform (sp : ptr) : io CS () := λ s,
  match level (labelOf s sp) with
  | Ret l => (Ret (), s <| processLevels ::= λ m, <[l := default 0 (m !! l) + 1]> m |>)
  | Fail e => (Fail e, s)
  | Panic w => (Panic w, s)
  end.

Definition removeSandboxPlatform (sp : ptr) : io CS () := λ s,
  let label := labelOf s sp in
  match level label with
  | Ret l =>
      match processLevels s !! l with
      | None => (Ret (), s)
      | Some pl =>
          if bool_decide (pl - 1 = 0)
          then (Ret (), s <| processLevels ::= delete l |> <| labelCalls ::= (.++ [ReleaseLabel label]) |>)
          else (Ret (), s <| processLevels ::= <[l := pl - 1]> |>)
      end
  | Fail e => (Fail e, s)
  | Panic w => (Panic w, s)
  end.

Definition sandboxID (s : CS) (sp : ptr) : string :=
  default "" (sb ← sbs s !! sp; m ← criSandbox sb; Some (ps_Id m)).

Definition AddSandbox (sp : ptr) : io CS () :=
  modify (λ s, s <| sandboxes ::= st_add (sandboxID s sp) sp |>) ;;
  addSandboxPlatform sp.

Definition RemoveSandbox (id : string) : io CS () :=
  sb ← gets (GetSandbox id);
  match sb with
  | None => mret ()
  | Some sp =>
      removeSandboxPlatform sp ;;
      modify (λ s, s <| sandboxes ::= st_delete id |>)
  end.

Definition ListSandboxes (s : CS) : list ptr :=
  st_list (λ p, default 0 (createdAt <$> sbs s !! p)) (sandboxes s).

(** ** Names *)

Definition ReserveContainerName (id nm : string) : io CS string := λ s,
  let '(r, e) := Reserve nm id (ctrNameIndex s) in
  match e with
  | Some e => (Fail (Errorf "error reserving ctr name: " e), s)
  | None => (Ret nm, s <| ctrNameIndex := r |>)
  end.
Definition ReleaseContainerName (nm : string) : io CS () :=
  modify (λ s, s <| ctrNameIndex ::= Release nm |>).
Definition ContainerIDForName (nm : string) (s : CS) : outcome string := Registrar.Get nm (ctrNameIndex s).
Definition ReservePodName (id nm : string) : io CS string := λ s,
  let '(r, e) := Reserve nm id (podNameIndex s) in
  match e with
  | Some e => (Fail (Errorf "error reserving pod name: " e), s)
  | None => (Ret nm, s <| podNameIndex := r |>)
  end.
Definition ReleasePodName (nm : string) : io CS () :=
  modify (λ s, s <| podNameIndex ::= Release nm |>).
Definition PodIDForName (nm : string) (s : CS) : outcome string := Registrar.Get nm (podNameIndex s).

(** ** Lookup *)

Definition GetContainerFromShortID (cid : string) (s : CS) : outcome ptr :=
  if bool_decide (cid = "") then Fail (ErrorsNew "container ID should not be empty")
  else match index_get cid (ctrIDIndex s) with
       | Panic w => Panic w
       | Fail e => Fail (Errorf "container with ID starting with it not found: " e)
       | Ret containerID =>
           match GetContainer containerID s with
           | None => Fail (ErrorsNew "specified container not found")
           | Some p =>
               if default false (c_created <$> ctrs s !! p) then Ret p
               else Fail (ErrorsNew "specified container is not yet created")
           end
       end.

Definition LookupContainer (idOrName : string) (s : CS) : outcome ptr :=
  if bool_decide (idOrName = "") then Fail (ErrorsNew "container ID or name should not be empty")
  else match Registrar.Get idOrName (ctrNameIndex s) with
       | Ret id => GetContainerFromShortID id s
       | Fail e => if errors_is e ErrNameNotReserved then GetContainerFromShortID idOrName s
                   else Fail e
       | Panic w => Panic w
       end.

Definition getSandboxFromRequest (pid_ : string) (s : CS) : outcome ptr :=
  if bool_decide (pid_ = "") then Fail (ErrorsNew "pod ID should not be empty")
  else match index_get pid_ (podIDIndex s) with
       | Panic w => Panic w
       | Fail e => Fail (Errorf "pod with ID starting with it not found: " e)
       | Ret podID =>
           match GetSandbox podID s with
           | None => Fail (ErrorsNew "specified pod not found")
           | Some sp => Ret sp
           end
       end.

Definition LookupSandbox (idOrName : string) (s : CS) : outcome ptr :=
  if bool_decide (idOrName = "") then Fail (ErrorsNew "container ID or name should not be empty")
  else match Registrar.Get idOrName (podNameIndex s) with
       | Ret id => getSandboxFromRequest id s
       | Fail e => if errors_is e ErrNameNotReserved then getSandboxFromRequest idOrName s
                   else Fail e
       | Panic w => Panic w
       end.

(** ** Resources *)

(** The merge of an update into the spec: absent values keep what was there.
    [resources.CPU] and [resources.Memory] are dereferenced. *)
Definition mergeCPU (old : option LinuxCPU) (new : LinuxCPU) : LinuxCPU :=
  let c := default (mkLinuxCPU None None None "" "") old in
  mkLinuxCPU (match cpu_Shares new with None => cpu_Shares c | v => v end)
    (match cpu_Quota new with None => cpu_Quota c | v => v end)
    (match cpu_Period new with None => cpu_Period c | v => v end)
    (if bool_decide (cpu_Cpus new = "") then cpu_Cpus c else cpu_Cpus new)
    (if bool_decide (cpu_Mems new = "") then cpu_Mems c else cpu_Mems new).
Definition mergeMemory (old : option LinuxMemory) (new : LinuxMemory) : LinuxMemory :=
  let c := default (mkLinuxMemory None None) old in
  mkLinuxMemory (match mem_Limit new with None => mem_Limit c | v => v end)
    (match mem_Swap new with None => mem_Swap c | v => v end).

Definition mergeSpec (sp : Spec) (cpu : LinuxCPU) (mem : LinuxMemory) : Spec :=
  let l := default (mkSpecLinux None [] "") (spec_Linux sp) in
  let r := default (mkLinuxResources None None ∅ []) (sl_Resources l) in
  let r := r <| lr_CPU := Some (mergeCPU (lr_CPU r) cpu) |>
             <| lr_Memory := Some (mergeMemory (lr_Memory r) mem) |> in
  sp <| spec_Linux := Some (l <| sl_Resources := Some r |>) |>.

Definition UpdateContainerLinuxResources (p : ptr) (res : LinuxResources) (s : CS) : outcome CS :=
  match ctrs s !! p with
  | None => Panic "nil pointer dereference"
  | Some c =>
      match lr_CPU res, lr_Memory res with
      | Some cpu, Some mem =>
          Ret (s <| ctrs ::= <[p := c <| c_spec ::= λ sp, mergeSpec sp cpu mem |>]> |>
                 <| s_containers ::= st_add (c_id c) p |>)
      | _, _ => Panic "nil pointer dereference"
      end
  end.

(** [configNsPath]: the path of the first namespace of the type. *)
Fixpoint configNsPath (nss : list LinuxNamespace) (nsType : string) : outcome string :=
  match nss with
  | [] => Fail (ErrorsNew "missing networking namespace")
  | n :: nss =>
      if negb (bool_decide (ns_Type n = nsType)) then configNsPath nss nsType
      else if bool_decide (ns_Path n = "") then Fail (ErrorsNew "empty networking namespace")
      else Ret (ns_Path n)
  end.

(** [supported] and [clean]: whether the two files exist. *)
Definition ShutdownWasUnclean (cleanShutdownFile : string) (supported clean : bool) : bool :=
  if bool_decide (cleanShutdownFile = "") then false
  else if negb supported then false
  else if clean then false
  else true.

(** ** Loading from disk

    The storage service, the JSON decoders and the per-container state file are
    parameters; a loaded spec is its annotations and its sections. *)

Variable FromContainerDirectory : string → string → outcome string.
Variable unmarshalSpec : string → outcome (gmap string string * Spec).
Variable unmarshalMap : string → outcome (gmap string string).
Variable unmarshalPodMetadata : string → outcome PodSandboxMetadata.
(** A decoder whose result only fills fields the model does not have. *)
Variable unmarshal : string → outcome ().
Variable parseTime : string → outcome Z.
Variable ContainerRunDirectory ContainerDirectory : string → outcome string.
Variable parseBundle : string → outcome ().
(** [FromDisk] and [ContainerStateToDisk] of the container with that ID. *)
Variable fromDisk stateToDisk : string → outcome ().
(** [RestoreStopped] and the four joins of the sandbox with that ID. *)
Variable joinNamespaces : string → outcome ().

Definition isTrue (annotation : string) : bool := bool_decide (annotation = "true").

Definition ErrIsNonCrioContainer := ErrorsNew "non CRI-O container".
Definition ContainerManagerCRIO : string := "cri-o".

Definition ann_Labels : string := "io.kubernetes.cri-o.Labels".
Definition ann_Annotations : string := "io.kubernetes.cri-o.Annotations".
Definition ann_Metadata : string := "io.kubernetes.cri-o.Metadata".
Definition ann_Name : string := "io.kubernetes.cri-o.Name".
Definition ann_Created : string := "io.kubernetes.cri-o.Created".
Definition ann_SandboxID : string := "io.kubernetes.cri-o.SandboxID".
Definition ann_ContainerID : string := "io.kubernetes.cri-o.ContainerID".
Definition ann_ContainerName : string := "io.kubernetes.cri-o.ContainerName".
Definition ann_ContainerManager : string := "io.container.manager".
Definition ann_PortMappings : string := "io.kubernetes.cri-o.PortMappings".
Definition ann_NamespaceOptions : string := "io.kubernetes.cri-o.NamespaceOptions".
Definition ann_PodLinuxOverhead : string := "io.kubernetes.cri-o.PodLinuxOverhead".
Definition ann_PodLinuxResources : string := "io.kubernetes.cri-o.PodLinuxResources".
Definition ann_Volumes : string := "io.kubernetes.cri-o.Volumes".
Definition ann_SomeNameOfTheImage : string := "io.kubernetes.cri-o.ImageName".
Definition ann_ImageRef : string := "io.kubernetes.cri-o.ImageRef".
Definition ann_RuntimeHandler : string := "io.kubernetes.cri-o.RuntimeHandler".
Definition ann_PrivilegedRuntime : string := "io.kubernetes.cri-o.PrivilegedRuntime".
Definition ann_HostNetwork : string := "io.kubernetes.cri-o.HostNetwork".
Definition ann_CgroupParent : string := "io.kubernetes.cri-o.CgroupParent".
Definition ann_ShmPath : string := "io.kubernetes.cri-o.ShmPath".
Definition ann_ResolvPath : string := "io.kubernetes.cri-o.ResolvPath".
Definition ann_HostName : string := "io.kubernetes.cri-o.HostName".
Definition ann_HostnamePath : string := "io.kubernetes.cri-o.HostnamePath".
Definition ann_UsernsMode : string := "io.kubernetes.cri-o.userns-mode".
Definition ann_LogPath : string := "io.kubernetes.cri-o.LogPath".
Definition ann_SeccompProfilePath : string := "io.kubernetes.cri-o.SeccompProfilePath".

(** [m.Annotations[k]] *)
Definition ann (anns : gmap string string) (k : string) : string := default "" (anns !! k).

(** [if v, found := m.Annotations[k]; found { json.Unmarshal }] *)
Definition unmarshalIfFound (anns : gmap string string) (k : string) : outcome () :=
  match anns !! k with Some v => unmarshal v | None => Ret () end.

Definition restoreVolumes (anns : gmap string string) : outcome () :=
  if bool_decide (ann anns ann_Volumes = "") then Ret () else unmarshal (ann anns ann_Volumes).

Definition deref {A} (o : option A) : outcome A :=
  match o with Some a => Ret a | None => Panic "nil pointer dereference" end.

(** Allocation of a container or sandbox object. *)
Definition allocCtr (c : Ctr) : io CS ptr := λ s,
  let p := fresh (dom (ctrs s)) in (Ret p, s <| ctrs ::= <[p := c]> |>).
Definition allocSb (sb : Sandbox ptr St) : io CS ptr := λ s,
  let p := fresh (dom (sbs s)) in (Ret p, s <| sbs ::= <[p := sb]> |>).

Definition addCtrID (id : string) : io CS () := λ s,
  match index_add id (ctrIDIndex s) with
  | Ret i => (Ret (), s <| ctrIDIndex := i |>)
  | Fail e => (Fail e, s)
  | Panic w => (Panic w, s)
  end.
Definition deleteCtrID (id : string) : io CS () := λ s,
  match index_delete id (ctrIDIndex s) with
  | Ret i => (Ret (), s <| ctrIDIndex := i |>)
  | Fail e => (Fail e, s)
  | Panic w => (Panic w, s)
  end.
Definition addPodID (id : string) : io CS () := λ s,
  match index_add id (podIDIndex s) with
  | Ret i => (Ret (), s <| podIDIndex := i |>)
  | Fail e => (Fail e, s)
  | Panic w => (Panic w, s)
  end.

Definition LoadContainer (id : string) : io CS () :=
  config ← lift (FromContainerDirectory id "config.json");
  '(anns, sp) ← lift (unmarshalSpec config);
  if match anns !! ann_ContainerManager with
     | Some m => negb (bool_decide (m = ContainerManagerCRIO))
     | None => false
     end
  then fail ErrIsNonCrioContainer
  else
    _ ← lift (unmarshalMap (ann anns ann_Labels));
    nm ← ReserveContainerName id (ann anns ann_Name);
    defer_on_err (ReleaseContainerName nm)
      (lift (unmarshal (ann anns ann_Metadata)) ;;
       sb ← gets (GetSandbox (ann anns ann_SandboxID));
       match sb with
       | None => fail (ErrorsNew "could not get sandbox, skipping")
       | Some sbp =>
           _ ← lift (ContainerRunDirectory id);
           _ ← lift (ContainerDirectory id);
           lift (match anns !! ann_SomeNameOfTheImage with
                 | Some v => if bool_decide (v = "") then Ret () else parseBundle v
                 | None => Ret ()
                 end) ;;
           lift (match anns !! ann_ImageRef with Some v => parseBundle v | None => Ret () end) ;;
           _ ← lift (unmarshalMap (ann anns ann_Annotations));
           created_ ← lift (parseTime (ann anns ann_Created));
           sid ← gets (λ s, sandboxID s sbp);
           lift (restoreVolumes anns) ;;
           lift (fromDisk id) ;;
           lift (stateToDisk id) ;;
           p ← allocCtr (mkCtr id nm sid true created_ sp);
           modify (AddContainer p) ;;
           addCtrID id
       end).

(** The sandbox object [LoadSandbox] builds from the annotations. *)
Definition loadedSandbox (id nm : string) (anns : gmap string string) (pl ml : string)
    (created_ : Z) : Sandbox ptr St :=
  SetID id (newSandbox <| sb_name := nm |> <| processLabel := pl |> <| mountLabel := ml |>
    <| createdAt := created_ |> <| logDir := Dir (ann anns ann_LogPath) |>
    <| shmPath := ann anns ann_ShmPath |> <| cgroupParent := ann anns ann_CgroupParent |>
    <| privileged := isTrue (ann anns ann_PrivilegedRuntime) |>
    <| sb_runtimeHandler := ann anns ann_RuntimeHandler |>
    <| resolvPath := ann anns ann_ResolvPath |> <| hostname := ann anns ann_HostName |>
    <| hostNetwork := isTrue (ann anns ann_HostNetwork) |>
    <| usernsMode := ann anns ann_UsernsMode |> <| hostnamePath := ann anns ann_HostnamePath |>
    <| sb_seccompProfilePath := ann anns ann_SeccompProfilePath |>).

Definition setInfra (sp cp : ptr) : io CS () := λ s,
  match sbs s !! sp with
  | None => (Panic "nil pointer dereference", s)
  | Some sb =>
      match SetInfraContainer (Some cp) sb with
      | Ret sb => (Ret (), s <| sbs ::= <[sp := sb]> |>)
      | Fail e => (Fail e, s)
      | Panic w => (Panic w, s)
      end
  end.

(** The part of [LoadSandbox] after the container's name was reserved. *)
Definition LoadSandbox_infra (id cID cname : string) (anns : gmap string string) (spec_ : Spec)
    (created_ : Z) (sp : ptr) : io CS () :=
  cp ← allocCtr (mkCtr cID cname id false created_ spec_);
  lift (restoreVolumes anns) ;;
  setInfra sp cp ;;
  modify (AddInfraContainer cp) ;;
  lift (joinNamespaces id) ;;
  lift (fromDisk cID) ;;
  lift (stateToDisk cID) ;;
  modify (λ s, s <| sbs ::= alter Sandbox.SetCreated sp |>) ;;
  modify (λ s, s <| labelCalls ::= (.++ [ReserveLabel (labelOf s sp)]) |>) ;;
  addCtrID cID ;;
  defer_on_err (ignore (deleteCtrID cID)) (addPodID id).

(** The removal of the joined namespaces after a failure only touches the host and
    its error is logged; it is not part of the state. *)
Definition LoadSandbox (id : string) : io CS ptr :=
  config ← lift (FromContainerDirectory id "config.json");
  '(anns, spec_) ← lift (unmarshalSpec config);
  labels ← lift (unmarshalMap (ann anns ann_Labels));
  nm ← ReservePodName id (ann anns ann_Name);
  defer_on_err (ReleasePodName nm)
    (md ← lift (unmarshalPodMetadata (ann anns ann_Metadata));
     process ← lift (deref (spec_Process spec_));
     linux ← lift (deref (spec_Linux spec_));
     kubeAnns ← lift (unmarshalMap (ann anns ann_Annotations));
     lift (unmarshal (ann anns ann_PortMappings)) ;;
     lift (unmarshal (ann anns ann_NamespaceOptions)) ;;
     created_ ← lift (parseTime (ann anns ann_Created));
     sb ← lift (SetCRISandbox id labels kubeAnns (Some md)
            (loadedSandbox id nm anns (sp_SelinuxLabel process) (sl_MountLabel linux) created_));
     lift (unmarshalIfFound anns ann_PodLinuxOverhead) ;;
     lift (unmarshalIfFound anns ann_PodLinuxResources) ;;
     sp ← allocSb sb;
     AddSandbox sp ;;
     defer_on_err (ignore (RemoveSandbox id))
       (_ ← lift (ContainerRunDirectory id);
        _ ← lift (ContainerDirectory id);
        cname ← ReserveContainerName (ann anns ann_ContainerID) (ann anns ann_ContainerName);
        defer_on_err (ReleaseContainerName cname)
          (LoadSandbox_infra id (ann anns ann_ContainerID) cname anns spec_ created_ sp)) ;;
     mret sp).
End server.

(** ** Lemmas: names *)

Lemma names_Release nm r : wf r → names (Release nm r) = delete nm (names r).
Proof. intros Hr. exact (names_apply (OpRelease nm) r Hr). Qed.

Lemma Reserve_cases nm key r :
  wf r →
  match Reserve nm key r with
  | (r', None) => wf r' ∧ (names r !! nm = Some key ∧ r' = r ∨
                           names r !! nm = None ∧ names r' = <[nm := key]> (names r))
  | (r', Some e) => r' = r
  end.
Proof.
  intros Hr. pose proof (wf_reserve nm key r Hr) as Hw. unfold Reserve in *.
  destruct (names r !! nm) as [k|] eqn:E; [case_decide; subst; auto|]. simpl in *. auto.
Qed.

(** ** Loading a container *)

Section load.
Context {St : Type} `{StorerLaws ptr St}.
Variable FromContainerDirectory : string → string → outcome string.
Variable unmarshalSpec : string → outcome (gmap string string * Spec).
Variable unmarshalMap : string → outcome (gmap string string).
Variable unmarshal : string → outcome ().
Variable parseTime : string → outcome Z.
Variable ContainerRunDirectory ContainerDirectory : string → outcome string.
Variable parseBundle fromDisk stateToDisk : string → outcome ().

Abbreviation CS := (ContainerServer St).
Abbreviation load := (LoadContainer FromContainerDirectory unmarshalSpec unmarshalMap unmarshal
  parseTime ContainerRunDirectory ContainerDirectory parseBundle fromDisk stateToDisk).

(** The part of the server loading a container may touch. *)
Definition untouched (s w : CS) : Prop :=
  s_containers w = s_containers s ∧ infraContainers w = infraContainers s ∧
  sandboxes w = sandboxes s ∧ ctrIDIndex w = ctrIDIndex s ∧ podIDIndex w = podIDIndex s ∧
  podNameIndex w = podNameIndex s ∧ processLevels w = processLevels s.

(** After the name was reserved. *)
Definition reserved (s : CS) (nm id : string) (w : CS) : Prop :=
  untouched s w ∧ wf (ctrNameIndex w) ∧ names (ctrNameIndex s) !! nm = None ∧
  names (ctrNameIndex w) = <[nm := id]> (names (ctrNameIndex s)).

Definition restored (s w : CS) : Prop :=
  untouched s w ∧ names (ctrNameIndex w) = names (ctrNameIndex s).

Lemma reserve_triple s id nm :
  wf (ctrNameIndex s) → (∀ n, names (ctrNameIndex s) !! n ≠ Some id) →
  triple (λ w, w = s) (ReserveContainerName id nm) (λ nm' w, nm' = nm ∧ reserved s nm id w)
    (λ _, restored s).
Proof.
  intros Hwf Hid w ->. unfold ReserveContainerName.
  pose proof (Reserve_cases nm id _ Hwf) as Hr.
  destruct (Reserve nm id (ctrNameIndex s)) as [r [e|]]; [done|].
  destruct Hr as [Hw [[Hn _]|[Hn Hr]]]; [by destruct (Hid nm)|]. done.
Qed.

Lemma release_triple s id nm :
  triple (reserved s nm id) (ReleaseContainerName nm) (λ _, restored s) (λ _, restored s).
Proof.
  intros w (Hu & Hwf & Hn & Hr). simpl. split; [done|]. simpl.
  rewrite names_Release, Hr by done. by rewrite delete_insert_id.
Qed.

Lemma reserved_steps {A B} s nm id (o : outcome A) (k : A → io CS B) Q :
  (∀ a, triple (reserved s nm id) (k a) Q (λ _, reserved s nm id)) →
  triple (reserved s nm id) (a ← lift o; k a) Q (λ _, reserved s nm id).
Proof.
  intros Hk. eapply triple_bind; [apply triple_lift; [intros a w _ Hw; exact Hw|done]|].
  exact Hk.
Qed.

(** A container that cannot be loaded leaves no trace: the name it was about to
    take is free again and the stores and indexes are as before, provided the ID
    was not in use. *)
Theorem LoadContainer_failure id s e s' i :
  wf (ctrNameIndex s) → (∀ n, names (ctrNameIndex s) !! n ≠ Some id) →
  index_add id (ctrIDIndex s) = Ret i →
  load id s = (Fail e, s') → restored s s'.
Proof.
  intros Hwf Hid Hidx Hl.
  assert (triple (λ w, w = s) (load id) (λ _ _, True) (λ _, restored s)) as Ht.
  2:{ specialize (Ht s eq_refl). by rewrite Hl in Ht. }
  unfold LoadContainer.
  eapply triple_bind; [apply triple_lift; [intros ? ? _ Hw; exact Hw|by intros ? ? ->]|intros config].
  eapply triple_bind; [apply triple_lift; [intros ? ? _ Hw; exact Hw|by intros ? ? ->]|intros [anns sp]].
  case_match; [apply triple_fail; by intros ? ->|].
  eapply triple_bind; [apply triple_lift; [intros ? ? _ Hw; exact Hw|by intros ? ? ->]|intros ?].
  eapply triple_bind; [by apply reserve_triple|]. intros nm w [-> Hw]. revert w Hw.
  eapply (triple_defer _ _ _ _ _ (λ _, reserved s (ann anns ann_Name) id));
    [|intros e0; apply release_triple].
  apply reserved_steps. intros _.
  eapply (triple_bind _ _ (λ _, reserved s (ann anns ann_Name) id)); [by apply triple_gets|]. intros [sbp|];
    [|by apply triple_fail].
  do 6 (apply reserved_steps; intros ?).
  eapply (triple_bind _ _ (λ _, reserved s (ann anns ann_Name) id)); [by apply triple_gets|]. intros sid.
  do 3 (apply reserved_steps; intros ?).
  eapply (triple_bind _ _ (λ _ w, ctrIDIndex w = ctrIDIndex s)).
  { intros w ((_ & _ & _ & Hc & _) & _). exact Hc. }
  intros p. eapply (triple_bind _ _ (λ _ w, ctrIDIndex w = ctrIDIndex s)).
  { intros w Hc. simpl. unfold AddContainer. by repeat case_match. }
  intros _ w Hc. unfold addCtrID. by rewrite Hc, Hidx.
Qed.
End load.

(** ** Loading a sandbox *)

Section load_sandbox.
Context {St : Type} `{StorerLaws ptr St}.
Variable level : string → outcome string.
Variable FromContainerDirectory : string → string → outcome string.
Variable unmarshalSpec : string → outcome (gmap string string * Spec).
Variable unmarshalMap : string → outcome (gmap string string).
Variable unmarshalPodMetadata : string → outcome PodSandboxMetadata.
Variable unmarshal : string → outcome ().
Variable parseTime : string → outcome Z.
Variable ContainerRunDirectory ContainerDirectory : string → outcome string.
Variable fromDisk stateToDisk joinNamespaces : string → outcome ().

Abbreviation CS := (ContainerServer St).
Abbreviation load := (LoadSandbox level FromContainerDirectory unmarshalSpec unmarshalMap
  unmarshalPodMetadata unmarshal parseTime ContainerRunDirectory ContainerDirectory fromDisk
  stateToDisk joinNamespaces).

(** What the server knows about names, sandboxes and IDs. *)
Record view := mkView {
  v_pods : gmap string string; v_ctrs : gmap string string; v_sbs : gmap string ptr;
  v_levels : gmap string Z; v_ctrIDs : TruncIndex; v_podIDs : TruncIndex }.
#[local] Instance view_eta : Eta view := λ v,
  mkView (v_pods v) (v_ctrs v) (v_sbs v) (v_levels v) (v_ctrIDs v) (v_podIDs v).

Definition view_of (w : CS) : view :=
  mkView (names (podNameIndex w)) (names (ctrNameIndex w)) (st_model (sandboxes w))
    (processLevels w) (ctrIDIndex w) (podIDIndex w).

Definition at_view (v : view) (w : CS) : Prop :=
  wf (podNameIndex w) ∧ wf (ctrNameIndex w) ∧ view_of w = v.

(** The same, with the sandbox object [sp] still carrying its label. *)
Definition at_view_sb (v : view) (sp : ptr) (label : string) (w : CS) : Prop :=
  at_view v w ∧ labelOf w sp = label.

Lemma lift_steps {A B} (I : CS → Prop) (o : outcome A) (k : A → io CS B) Q :
  (∀ a, o = Ret a → triple I (k a) Q (λ _, I)) → triple I (a ← lift o; k a) Q (λ _, I).
Proof.
  intros Hk. eapply (triple_bind _ _ (λ a w, o = Ret a ∧ I w)).
  - apply triple_lift; [done|done].
  - intros a w [Ha Hw]. by apply (Hk a Ha).
Qed.

Lemma at_view_intro w pn cn sb lv ci pi :
  wf (podNameIndex w) → wf (ctrNameIndex w) → names (podNameIndex w) = pn →
  names (ctrNameIndex w) = cn → st_model (sandboxes w) = sb → processLevels w = lv →
  ctrIDIndex w = ci → podIDIndex w = pi → at_view (mkView pn cn sb lv ci pi) w.
Proof. intros ? ? <- <- <- <- <- <-. done. Qed.

Lemma at_view_elim w pn cn sb lv ci pi :
  at_view (mkView pn cn sb lv ci pi) w →
  (wf (podNameIndex w) ∧ wf (ctrNameIndex w)) ∧ names (podNameIndex w) = pn ∧
  names (ctrNameIndex w) = cn ∧ st_model (sandboxes w) = sb ∧ processLevels w = lv ∧
  ctrIDIndex w = ci ∧ podIDIndex w = pi.
Proof. intros (? & ? & Hv). unfold view_of in Hv. by simplify_eq. Qed.

(** Adding a sandbox with a good label and removing it again. *)
Definition with_sandbox (id : string) (sp : ptr) (l : string) (v : view) : view :=
  v <| v_sbs ::= <[id := sp]> |> <| v_levels ::= λ m, <[l := default 0 (m !! l) + 1]> m |>.

(** Split a state predicate into the fields of the view. *)
Ltac view_split :=
  intros; unfold with_sandbox in *;
  repeat match goal with
  | v : view |- _ => destruct v; simpl in *
  | H : at_view_sb _ _ _ _ |- _ => destruct H as [H ?]
  | H : at_view _ _ |- _ => apply at_view_elim in H as ([? ?] & ? & ? & ? & ? & ? & ?)
  end.
Ltac view_done := try apply at_view_intro; simpl; auto with crio; try congruence.

Lemma reservePod_triple v id nm :
  (∀ n, v_pods v !! n ≠ Some id) →
  triple (at_view v) (ReservePodName id nm)
    (λ nm' w, nm' = nm ∧ v_pods v !! nm = None ∧ at_view (v <| v_pods ::= <[nm := id]> |>) w)
    (λ _, at_view v).
Proof.
  intros Hid w Hw. view_split. unfold ReservePodName.
  pose proof (Reserve_cases nm id (podNameIndex w) ltac:(done)) as Hr.
  destruct (Reserve nm id (podNameIndex w)) as [r [e|]]; [view_done|].
  destruct Hr as [Hwr [[Hn _]|[Hn Hr]]]; [subst; by destruct (Hid nm)|].
  subst. split_and!; try done. view_done.
Qed.

Lemma releasePod_triple v id nm :
  v_pods v !! nm = None →
  triple (at_view (v <| v_pods ::= <[nm := id]> |>)) (ReleasePodName nm)
    (λ _, at_view v) (λ _, at_view v).
Proof.
  intros Hn w Hw. view_split. view_done.
  rewrite names_Release by done. subst. 
  match goal with H : names (podNameIndex w) = _ |- _ => rewrite H end.
  by rewrite delete_insert_id.
Qed.

Lemma reserveCtr_triple v id nm sp label :
  (∀ n, v_ctrs v !! n ≠ Some id) →
  triple (at_view_sb v sp label) (ReserveContainerName id nm)
    (λ nm' w, nm' = nm ∧ v_ctrs v !! nm = None ∧
       at_view_sb (v <| v_ctrs ::= <[nm := id]> |>) sp label w)
    (λ _, at_view_sb v sp label).
Proof.
  intros Hid w Hw. view_split. unfold ReserveContainerName.
  pose proof (Reserve_cases nm id (ctrNameIndex w) ltac:(done)) as Hr.
  destruct (Reserve nm id (ctrNameIndex w)) as [r [e|]]; [split; [view_done|done]|].
  destruct Hr as [Hwr [[Hn _]|[Hn Hr]]]; [subst; by destruct (Hid nm)|].
  subst. split_and!; try done. split; [|done]. view_done.
Qed.

Lemma releaseCtr_triple v id nm sp label :
  v_ctrs v !! nm = None →
  triple (at_view_sb (v <| v_ctrs ::= <[nm := id]> |>) sp label) (ReleaseContainerName nm)
    (λ _, at_view_sb v sp label) (λ _, at_view_sb v sp label).
Proof.
  intros Hn w Hw. view_split. split; [|done]. view_done.
  rewrite names_Release by done. subst.
  match goal with H : names (ctrNameIndex w) = _ |- _ => rewrite H end.
  by rewrite delete_insert_id.
Qed.

Lemma addSandbox_triple v id sp label l :
  level label = Ret l →
  triple (λ w, at_view_sb v sp label w ∧ sandboxID w sp = id) (AddSandbox level sp)
    (λ _, at_view_sb (with_sandbox id sp l v) sp label) (λ _, at_view v).
Proof.
  intros Hl w [Hw Hid]. view_split. unfold AddSandbox, mbind, io_bind. simpl.
  unfold addSandboxPlatform. simpl. change (labelOf _ sp) with (labelOf w sp).
  subst label. rewrite Hl. simpl. split; [|done]. view_done. rewrite model_add. congruence.
Qed.

Lemma removeSandbox_triple v id sp label l :
  level label = Ret l → v_sbs v !! id = None → (∀ n, v_levels v !! l = Some n → 0 < n) →
  triple (at_view_sb (with_sandbox id sp l v) sp label) (RemoveSandbox level id)
    (λ _, at_view v) (λ _, at_view v).
Proof.
  intros Hl Hnew Hpos w Hw. view_split. unfold RemoveSandbox, mbind, io_bind, gets.
  unfold GetSandbox. rewrite st_get_model.
  match goal with H : st_model _ = _ |- _ => rewrite H end. rewrite lookup_insert_eq.
  unfold removeSandboxPlatform. subst label. rewrite Hl.
  match goal with H : processLevels w = _ |- _ => rewrite H; rename H into Hlv end.
  rewrite lookup_insert_eq.
  destruct (v_levels0 !! l) as [n|] eqn:Hn; simpl.
  - specialize (Hpos n eq_refl). rewrite bool_decide_eq_false_2 by lia. simpl. view_done.
    + rewrite model_delete. match goal with H : st_model _ = _ |- _ => rewrite H end.
      by rewrite delete_insert_id.
    + rewrite Hlv, insert_insert_eq. replace (n + 1 - 1) with n by lia. by apply insert_id.
  - rewrite ?bool_decide_eq_true_2 by lia. simpl. view_done.
    + rewrite model_delete. match goal with H : st_model _ = _ |- _ => rewrite H end.
      by rewrite delete_insert_id.
    + rewrite Hlv. by rewrite delete_insert_id.
Qed.

Lemma infra_triple v id cID cname anns spec_ created_ sp label :
  cID ∉ v_ctrIDs v →
  triple (at_view_sb v sp label)
    (LoadSandbox_infra unmarshal fromDisk stateToDisk joinNamespaces id cID cname anns spec_ created_ sp)
    (λ _ _, True) (λ _, at_view_sb v sp label).
Proof.
  intros Hnew. unfold LoadSandbox_infra.
  eapply (triple_bind _ _ (λ _, at_view_sb v sp label)).
  { intros w Hw. done. }
  intros cp. apply lift_steps. intros _ _.
  eapply (triple_bind _ _ (λ _, at_view_sb v sp label)).
  { intros w Hw. unfold setInfra. destruct (sbs w !! sp) as [sb|] eqn:Hsb; [|done].
    destruct (infraContainer sb) eqn:Hi; unfold SetInfraContainer; rewrite Hi; [done|].
    destruct Hw as [Hw Hlab]. split; [exact Hw|]. rewrite <- Hlab. unfold labelOf. simpl.
    by rewrite lookup_insert_eq, Hsb. }
  intros _. eapply (triple_bind _ _ (λ _, at_view_sb v sp label)).
  { apply triple_modify. intros w Hw. unfold AddInfraContainer. by case_match. }
  intros _. do 3 (apply lift_steps; intros _ _).
  eapply (triple_bind _ _ (λ _, at_view_sb v sp label)).
  { apply triple_modify. intros w [Hw Hlab]. split; [exact Hw|]. rewrite <- Hlab. unfold labelOf.
    simpl. rewrite lookup_alter_eq. by destruct (sbs w !! sp). }
  intros _. eapply (triple_bind _ _ (λ _, at_view_sb v sp label)); [by apply triple_modify|].
  intros _.
  eapply (triple_bind _ _ (λ _ w, cID ≠ "" ∧ at_view_sb (v <| v_ctrIDs ::= ({[cID]} ∪.) |>) sp label w)).
  { intros w Hw. view_split. unfold addCtrID, index_add.
    repeat case_match; simplify_eq; try (split; [view_done|done]).
    by eapply bool_decide_eq_false. }
  intros _. eapply (triple_defer _ _ _ _ _
    (λ _ w, cID ≠ "" ∧ at_view_sb (v <| v_ctrIDs ::= ({[cID]} ∪.) |>) sp label w)).
  { intros w Hw. unfold addPodID. by destruct (index_add id (podIDIndex w)). }
  intros e. apply triple_ignore. intros w [Hne Hw]. view_split. unfold deleteCtrID, index_delete.
  match goal with H : ctrIDIndex w = _ |- _ => rewrite H end.
  rewrite bool_decide_eq_true_2 by set_solver. simpl.
  rewrite bool_decide_eq_false_2 by done. split; [|done]. view_done. set_solver.
Qed.

Lemma SetCRISandbox_keeps id labels anns md (s sb : Sandbox ptr St) m :
  SetCRISandbox id labels anns md s = Ret sb → criSandbox s = Some m →
  processLabel sb = processLabel s ∧ (m' ← criSandbox sb; Some (ps_Id m')) = Some (ps_Id m).
Proof.
  unfold SetCRISandbox. intros Hs Hm. case_bool_decide; [done|]. injection Hs as <-. simpl.
  by rewrite Hm.
Qed.

Lemma loadedSandbox_keeps id nm anns pl ml created_ :
  processLabel (loadedSandbox (St := St) id nm anns pl ml created_) = pl ∧
  criSandbox (loadedSandbox (St := St) id nm anns pl ml created_) =
    Some (mkPodSandbox id None SANDBOX_READY 0 ∅ ∅).
Proof. done. Qed.

End load_sandbox.

(** ** The invariants of a running server *)

Section invariants.
Context {St : Type} `{StorerLaws ptr St}.
Variable level : string → outcome string.

Abbreviation CS := (ContainerServer St).

Definition lvl (s : CS) (sp : ptr) : option string :=
  match level (labelOf s sp) with Ret l => Some l | _ => None end.

(** The sandboxes of the server that run at level [l]. *)
Definition at_level (s : CS) (l : string) : gmap string ptr :=
  filter (λ kv, lvl s kv.2 = Some l) (st_model (sandboxes s)).

(** [processLevels] counts them, with no entry for a level nobody uses. *)
Definition levels_ok (s : CS) : Prop :=
  ∀ l, processLevels s !! l =
    (if bool_decide (at_level s l = ∅) then None else Some (Z.of_nat (size (at_level s l)))).

(** A container is in the server's store exactly when it is in the store of its
    sandbox, under its name, and its sandbox is one of the server's. *)
Record consistent (s : CS) : Prop := {
  ok_ctr id p : st_model (s_containers s) !! id = Some p →
    ∃ c sp sb, ctrs s !! p = Some c ∧ c_id c = id ∧
      st_model (sandboxes s) !! c_sandbox c = Some sp ∧ sbs s !! sp = Some sb ∧
      st_model (containers sb) !! c_name c = Some p;
  ok_sb sid sp sb nm p : st_model (sandboxes s) !! sid = Some sp → sbs s !! sp = Some sb →
    st_model (containers sb) !! nm = Some p →
    ∃ c, ctrs s !! p = Some c ∧ c_name c = nm ∧ c_sandbox c = sid ∧
      st_model (s_containers s) !! c_id c = Some p;
  ok_id sid sp : st_model (sandboxes s) !! sid = Some sp →
    is_Some (sbs s !! sp) ∧ sandboxID s sp = sid;
  ok_loose sp sb : sbs s !! sp = Some sb → (∀ sid, st_model (sandboxes s) !! sid ≠ Some sp) →
    st_model (containers sb) = ∅;
}.

(** The operations of the server on its objects.  An ID is added once (the ID
    indexes and the name registrars see to it), and a sandbox is removed after
    its containers. *)
Inductive server_step (s : CS) : CS → Prop :=
| step_new_container c : server_step s (snd (allocCtr c s))
| step_new_sandbox sb : st_model (containers sb) = ∅ → server_step s (snd (allocSb sb s))
| step_AddSandbox sp : is_Some (sbs s !! sp) → GetSandbox (sandboxID s sp) s = None →
    server_step s (snd (AddSandbox level sp s))
| step_RemoveSandbox id :
    (∀ sp sb, GetSandbox id s = Some sp → sbs s !! sp = Some sb → st_model (containers sb) = ∅) →
    server_step s (snd (RemoveSandbox level id s))
| step_AddContainer p c : ctrs s !! p = Some c → GetContainer (c_id c) s = None →
    (∀ sp sb, GetSandbox (c_sandbox c) s = Some sp → sbs s !! sp = Some sb →
       Sandbox.GetContainer (c_name c) sb = None) →
    server_step s (AddContainer p s)
| step_RemoveContainer p c : ctrs s !! p = Some c → GetContainer (c_id c) s = Some p →
    server_step s (RemoveContainer p s)
| step_AddInfraContainer p : server_step s (AddInfraContainer p s)
| step_RemoveInfraContainer p : server_step s (RemoveInfraContainer p s)
| step_names r : server_step s (s <| ctrNameIndex := r |>)
| step_pod_names r : server_step s (s <| podNameIndex := r |>)
| step_ids r : server_step s (s <| ctrIDIndex := r |>)
| step_pod_ids r : server_step s (s <| podIDIndex := r |>).

Lemma levels_ext (s s' : CS) :
  processLevels s' = processLevels s → sandboxes s' = sandboxes s →
  (∀ sid sp, st_model (sandboxes s) !! sid = Some sp → labelOf s' sp = labelOf s sp) →
  levels_ok s → levels_ok s'.
Proof.
  intros Hp Hs Hl Hok l. assert (at_level s' l = at_level s l) as ->; [|by rewrite Hp].
  unfold at_level. rewrite Hs. apply map_filter_ext. intros k sp Hk. simpl. unfold lvl.
  by rewrite (Hl k sp Hk).
Qed.

(** The effect of the two platform functions on the count, and on nothing else. *)
Lemma addSandbox_levels s sp :
  GetSandbox (sandboxID s sp) s = None → levels_ok s → levels_ok (snd (AddSandbox level sp s)).
Proof.
  unfold GetSandbox. rewrite st_get_model. intros Hn Hok l.
  set (s' := snd (AddSandbox level sp s)).
  assert (st_model (sandboxes s') = <[sandboxID s sp := sp]> (st_model (sandboxes s))) as Hm.
  { unfold s', AddSandbox, mbind, io_bind, modify, addSandboxPlatform. simpl.
    destruct (level _); simpl; apply model_add. }
  assert (∀ p, lvl s' p = lvl s p) as Hl.
  { intros p. unfold s', AddSandbox, mbind, io_bind, modify, addSandboxPlatform. simpl.
    destruct (level (labelOf _ sp)); done. }
  assert (processLevels s' = match lvl s sp with
    | Some k => <[k := default 0 (processLevels s !! k) + 1]> (processLevels s)
    | None => processLevels s end) as Hp.
  { unfold s', AddSandbox, mbind, io_bind, modify, addSandboxPlatform, lvl. simpl.
    destruct (level (labelOf _ sp)); reflexivity. }
  assert (at_level s' l = if decide (lvl s sp = Some l)
    then <[sandboxID s sp := sp]> (at_level s l) else at_level s l) as ->.
  { unfold at_level. rewrite Hm. 
    trans (filter (λ kv, lvl s kv.2 = Some l) (<[sandboxID s sp := sp]> (st_model (sandboxes s)))).
    { apply map_filter_ext. intros ? ? _. simpl. by rewrite Hl. }
    case_decide as Hd; [by rewrite map_filter_insert_True|].
    rewrite map_filter_insert_False by done. by rewrite delete_id. }
  assert (at_level s l !! sandboxID s sp = None) as Hf.
  { apply map_lookup_filter_None. by left. }
  clear Hm. rewrite Hp. clear s' Hl Hp. specialize (Hok l). destruct (decide (lvl s sp = Some l)) as [->|Hd].
  - rewrite lookup_insert_eq, Hok, (bool_decide_eq_false_2 (<[_:=_]> _ = ∅)) by apply insert_non_empty.
    rewrite map_size_insert_None by done. case_bool_decide as He; simpl; [|f_equal; lia].
    by rewrite He, map_size_empty.
  - rewrite <- Hok. destruct (lvl s sp); [|done]. rewrite lookup_insert_ne; [done|congruence].
Qed.

Lemma removeSandbox_levels s id :
  levels_ok s → levels_ok (snd (RemoveSandbox level id s)).
Proof.
  intros Hok l. unfold RemoveSandbox, mbind, io_bind, gets, GetSandbox. rewrite st_get_model.
  destruct (st_model (sandboxes s) !! id) as [sp|] eqn:Hid; [|apply Hok].
  unfold removeSandboxPlatform. destruct (level (labelOf s sp)) as [k| |] eqn:Hk; [|apply Hok..].
  assert (∀ j s', labelOf s' = labelOf s → st_model (sandboxes s') = delete id (st_model (sandboxes s)) →
    at_level s' j = delete id (at_level s j)) as Hat.
  { intros j s' Hl Hm. unfold at_level. rewrite Hm, map_filter_delete. f_equal.
    unfold lvl. by rewrite Hl. }
  assert (lvl s sp = Some k) as Hlv by (unfold lvl; by rewrite Hk).
  assert (at_level s k !! id = Some sp) as Hin by (by apply map_lookup_filter_Some_2).
  pose proof (Hok k) as Hkk. rewrite bool_decide_eq_false_2 in Hkk.
  2:{ intros He. by rewrite He in Hin. }
  rewrite Hkk. assert (size (delete id (at_level s k)) = pred (size (at_level s k))) as Hsz.
  { apply map_size_delete_Some. by exists sp. }
  assert (size (at_level s k) ≠ 0%nat) as Hpos.
  { rewrite map_size_empty_iff. intros He. by rewrite He in Hin. }
  assert (l ≠ k → delete id (at_level s l) = at_level s l) as Hne.
  { intros Hd. apply delete_id. apply map_lookup_filter_None. right. intros p Hp ?.
    rewrite Hid in Hp. by simplify_eq/=. }
  case_bool_decide as Hz; simpl.
  all: erewrite (Hat l); [|reflexivity|apply model_delete].
  all: destruct (decide (l = k)) as [->|Hd]; [|rewrite Hne by done].
  - rewrite lookup_delete_eq, bool_decide_eq_true_2; [done|].
    apply map_size_empty_iff. lia.
  - rewrite lookup_delete_ne by done. apply Hok.
  - rewrite lookup_insert_eq, bool_decide_eq_false_2.
    + f_equal. lia.
    + intros He. rewrite He, map_size_empty in Hsz. lia.
  - rewrite lookup_insert_ne by done. apply Hok.
Qed.

(** Consistency only depends on these fields. *)
Lemma consistent_ext (s s' : CS) :
  ctrs s' = ctrs s → sbs s' = sbs s → s_containers s' = s_containers s →
  sandboxes s' = sandboxes s → consistent s → consistent s'.
Proof.
  destruct s, s'; simpl. intros -> -> -> -> [H1 H2 H3 H4]. split; [exact H1|exact H2|exact H3|exact H4].
Qed.

Lemma consistent_allocCtr c s : consistent s → consistent (snd (allocCtr c s)).
Proof.
  intros [H1 H2 H3 H4]. unfold allocCtr; simpl. set (p0 := fresh (dom (ctrs s))).
  assert (ctrs s !! p0 = None) as Hn by apply not_elem_of_dom, is_fresh.
  assert (∀ p c0, ctrs s !! p = Some c0 → <[p0 := c]> (ctrs s) !! p = Some c0) as Hf.
  { intros p c0 Hp. rewrite lookup_insert_ne; [done|congruence]. }
  split; simpl; [| |exact H3|exact H4].
  - intros id p Hp. destruct (H1 id p Hp) as (c0 & sp & sb & Hc & ?). exists c0, sp, sb. eauto.
  - intros ? ? ? ? p Hs Hb Hc. destruct (H2 _ _ _ _ _ Hs Hb Hc) as (c0 & ? & ?). eauto.
Qed.

Lemma consistent_allocSb sb0 s :
  st_model (containers sb0) = ∅ → consistent s → consistent (snd (allocSb sb0 s)).
Proof.
  intros He [H1 H2 H3 H4]. unfold allocSb; simpl. set (p0 := fresh (dom (sbs s))).
  assert (sbs s !! p0 = None) as Hn by apply not_elem_of_dom, is_fresh.
  assert (∀ sp sb, sbs s !! sp = Some sb → <[p0 := sb0]> (sbs s) !! sp = Some sb) as Hf.
  { intros sp sb Hp. rewrite lookup_insert_ne; [done|congruence]. }
  assert (∀ sid sp, st_model (sandboxes s) !! sid = Some sp → sp ≠ p0) as Hne.
  { intros sid sp Hs ->. destruct (H3 _ _ Hs) as [[? ?] _]. congruence. }
  split; simpl.
  - intros id p Hp. destruct (H1 id p Hp) as (c0 & sp & sb & ? & ? & ? & ? & ?). exists c0, sp, sb. split_and!; auto.
  - intros sid sp sb nm p Hs. rewrite lookup_insert_ne by (symmetry; by eapply Hne). by apply H2.
  - intros sid sp Hs. destruct (H3 _ _ Hs) as [[sb Hsb] Hid]. unfold sandboxID in *. simpl.
    rewrite (Hf _ _ Hsb). rewrite Hsb in Hid. by split.
  - intros sp sb. destruct (decide (sp = p0)) as [->|]; [rewrite lookup_insert_eq; by intros [= <-]|].
    rewrite lookup_insert_ne by done. apply H4.
Qed.

Lemma consistent_AddSandbox sp s :
  is_Some (sbs s !! sp) → GetSandbox (sandboxID s sp) s = None →
  consistent s → consistent (snd (AddSandbox level sp s)).
Proof.
  unfold GetSandbox. rewrite st_get_model. intros Hsp Hn [H1 H2 H3 H4].
  assert (∃ s', snd (AddSandbox level sp s) = s' ∧ ctrs s' = ctrs s ∧ sbs s' = sbs s ∧
    s_containers s' = s_containers s ∧ (∀ p, sandboxID s' p = sandboxID s p) ∧
    st_model (sandboxes s') = <[sandboxID s sp := sp]> (st_model (sandboxes s)))
    as (s' & -> & Hc & Hb & Hk & Hi & Hm).
  { eexists. split; [reflexivity|].
    unfold AddSandbox, mbind, io_bind, modify, addSandboxPlatform. simpl.
    destruct (level _); simpl; split_and!; try done; apply model_add. }
  assert (∀ sid p, st_model (sandboxes s) !! sid = Some p → sid ≠ sandboxID s sp) as Hne by congruence.
  split; rewrite ?Hc, ?Hb, ?Hk, ?Hm.
  - intros id p Hp. destruct (H1 id p Hp) as (c & q & sb & ? & ? & Hs & ? & ?). exists c, q, sb.
    split_and!; try done. rewrite lookup_insert_ne; [done|]. symmetry. by eapply Hne.
  - intros sid q sb nm p. destruct (decide (sid = sandboxID s sp)) as [->|].
    + rewrite lookup_insert_eq. intros [= <-] Hsb. rewrite (H4 _ _ Hsb); [done|].
      intros sid Hs. destruct (H3 _ _ Hs) as [_ Hid]. congruence.
    + rewrite lookup_insert_ne by done. apply H2.
  - intros sid q. rewrite Hi. destruct (decide (sid = sandboxID s sp)) as [->|].
    + rewrite lookup_insert_eq. by intros [= <-].
    + rewrite lookup_insert_ne by done. apply H3.
  - intros q sb Hq Hno. apply (H4 q sb Hq). intros sid Hs. apply (Hno sid).
    rewrite lookup_insert_ne; [done|]. symmetry. by eapply Hne.
Qed.

Lemma consistent_RemoveSandbox id s :
  (∀ sp sb, GetSandbox id s = Some sp → sbs s !! sp = Some sb → st_model (containers sb) = ∅) →
  consistent s → consistent (snd (RemoveSandbox level id s)).
Proof.
  unfold GetSandbox. rewrite st_get_model. intros He Hok. pose proof Hok as [H1 H2 H3 H4].
  assert (snd (RemoveSandbox level id s) = s ∨ ∃ s', snd (RemoveSandbox level id s) = s' ∧
    ctrs s' = ctrs s ∧ sbs s' = sbs s ∧ s_containers s' = s_containers s ∧
    (∀ p, sandboxID s' p = sandboxID s p) ∧
    st_model (sandboxes s') = delete id (st_model (sandboxes s)))
    as [->|(s' & -> & Hc & Hb & Hk & Hi & Hm)]; [|exact Hok|].
  { unfold RemoveSandbox, mbind, io_bind, gets. destruct (GetSandbox id s) as [sp|]; [|by left].
    unfold removeSandboxPlatform. destruct (level _); [|by left..]. right. eexists.
    split; [reflexivity|]. repeat case_match; simpl; simplify_eq; simpl;
    split_and!; try done; apply model_delete. }
  split; rewrite ?Hc, ?Hb, ?Hk, ?Hm.
  - intros i p Hp. destruct (H1 i p Hp) as (c & q & sb & ? & ? & Hs & Hsb & Hin). exists c, q, sb.
    split_and!; try done. rewrite lookup_delete_ne; [done|]. intros ->.
    by rewrite (He q sb Hs Hsb) in Hin.
  - intros sid q sb nm p [_ Hs]%lookup_delete_Some. by apply H2.
  - intros sid q [_ Hs]%lookup_delete_Some. rewrite Hi. by apply H3.
  - intros q sb Hq Hno. destruct (decide (st_model (sandboxes s) !! id = Some q)) as [Hs|Hs].
    { by apply (He q). }
    apply (H4 q sb Hq). intros sid Hsid. apply (Hno sid). rewrite lookup_delete_ne; [done|congruence].
Qed.

(** Altering the containers of one sandbox keeps every label and ID. *)
Lemma alter_containers_fields f sp (s : CS) p :
  (∀ sb : Sandbox ptr St, processLabel (f sb) = processLabel sb ∧ criSandbox (f sb) = criSandbox sb) →
  labelOf (s <| sbs ::= alter f sp |>) p = labelOf s p ∧
  sandboxID (s <| sbs ::= alter f sp |>) p = sandboxID s p.
Proof.
  intros Hf. unfold labelOf, sandboxID. simpl. destruct (decide (p = sp)) as [->|].
  - rewrite lookup_alter_eq. destruct (sbs s !! sp) as [sb|]; [|done]. simpl.
    destruct (Hf sb) as [-> ->]. done.
  - by rewrite lookup_alter_ne.
Qed.

Lemma consistent_AddContainer p c s :
  ctrs s !! p = Some c → GetContainer (c_id c) s = None →
  (∀ sp sb, GetSandbox (c_sandbox c) s = Some sp → sbs s !! sp = Some sb →
     Sandbox.GetContainer (c_name c) sb = None) →
  consistent s → consistent (AddContainer p s).
Proof.
  unfold GetContainer, GetSandbox, Sandbox.GetContainer. setoid_rewrite st_get_model.
  intros Hp Hn Hnm Hok. pose proof Hok as [H1 H2 H3 H4]. unfold AddContainer.
  rewrite Hp, st_get_model. destruct (st_model (sandboxes s) !! c_sandbox c) as [sp|] eqn:Hs; [|done].
  destruct (H3 _ _ Hs) as [[sb Hsb] Hid].
  assert (ctrName s p = c_name c) as Hname by (unfold ctrName; by rewrite Hp).
  specialize (Hnm sp sb eq_refl Hsb).
  assert (∀ q, sandboxID (s <| sbs ::= alter (Sandbox.AddContainer (ctrName s) p) sp |>) q = sandboxID s q) as Hsid.
  { intros q. by apply alter_containers_fields. }
  split; simpl; rewrite ?model_add.
  - intros i q [[<- <-]|[Hne Hq]]%lookup_insert_Some.
    + exists c, sp, (Sandbox.AddContainer (ctrName s) p sb). split_and!; try done.
      * by rewrite lookup_alter_eq, Hsb.
      * simpl. by rewrite Hname, model_add, lookup_insert_eq.
    + destruct (H1 i q Hq) as (c' & sp' & sb' & Hc & Hi & Hs' & Hsb' & Hin).
      destruct (decide (sp' = sp)) as [->|Hd].
      * simplify_eq. exists c', sp, (Sandbox.AddContainer (ctrName s) p sb). split_and!; try done.
        { by rewrite lookup_alter_eq, Hsb. }
        simpl. rewrite Hname, model_add, lookup_insert_ne; [done|]. intros Heq.
        by rewrite Heq, Hin in Hnm.
      * exists c', sp', sb'. split_and!; try done. by rewrite lookup_alter_ne.
  - intros sid q sb' nm r Hq Hb Hin. destruct (decide (q = sp)) as [->|Hd].
    + rewrite lookup_alter_eq, Hsb in Hb. simplify_eq/=.
      destruct (H3 _ _ Hq) as [_ Hq']. rewrite Hname, model_add in Hin.
      apply lookup_insert_Some in Hin as [[<- <-]|[Hne Hin]].
      * exists c. split_and!; try done; [congruence|]. by rewrite lookup_insert_eq.
      * destruct (H2 _ _ _ _ _ Hq Hsb Hin) as (c' & Hc' & ? & ? & Hc). exists c'. split_and!; try done.
        rewrite lookup_insert_ne; [done|]. intros Heq. by rewrite <- Heq, Hn in Hc.
    + rewrite lookup_alter_ne in Hb by done.
      destruct (H2 _ _ _ _ _ Hq Hb Hin) as (c' & Hc' & ? & ? & Hc). exists c'. split_and!; try done.
      rewrite lookup_insert_ne; [done|]. intros Heq. by rewrite <- Heq, Hn in Hc.
  - intros sid q Hq. destruct (H3 _ _ Hq) as [Hsome Hq'].
    split; [by apply lookup_alter_is_Some|]. by rewrite <- Hq', <- Hsid.
  - intros q sb' Hb Hno. rewrite lookup_alter_ne in Hb; [by apply (H4 q)|]. intros <-. by apply (Hno (c_sandbox c)).
Qed.

Lemma consistent_RemoveContainer p c s :
  ctrs s !! p = Some c → GetContainer (c_id c) s = Some p →
  consistent s → consistent (RemoveContainer p s).
Proof.
  unfold GetContainer. rewrite st_get_model. intros Hp Hin Hok. pose proof Hok as [H1 H2 H3 H4].
  unfold RemoveContainer. rewrite Hp, st_get_model.
  destruct (H1 _ _ Hin) as (c' & sp & sb & Hc' & _ & Hs & Hsb & Hmem). simplify_eq. rewrite Hs.
  assert (ctrName s p = c_name c) as Hname by (unfold ctrName; by rewrite Hp).
  assert (∀ q, sandboxID (s <| sbs ::= alter (Sandbox.RemoveContainer (ctrName s) p) sp |>) q = sandboxID s q) as Hsid.
  { intros q. by apply alter_containers_fields. }
  split; simpl; rewrite ?model_delete.
  - intros i q [Hne Hq]%lookup_delete_Some.
    destruct (H1 i q Hq) as (c' & sp' & sb' & Hc & Hi & Hs' & Hsb' & Hin').
    destruct (decide (sp' = sp)) as [->|Hd].
    + simplify_eq. exists c', sp, (Sandbox.RemoveContainer (ctrName s) p sb). split_and!; try done.
      { by rewrite lookup_alter_eq, Hsb. }
      simpl. rewrite Hname, model_delete, lookup_delete_ne; [done|]. intros Heq. congruence.
    + exists c', sp', sb'. split_and!; try done. by rewrite lookup_alter_ne.
  - intros sid q sb' nm r Hq Hb Hr. destruct (decide (q = sp)) as [->|Hd].
    + rewrite lookup_alter_eq, Hsb in Hb. simplify_eq/=.
      rewrite Hname, model_delete in Hr. apply lookup_delete_Some in Hr as [Hne Hr].
      destruct (H2 _ _ _ _ _ Hq Hsb Hr) as (c' & Hc' & ? & ? & Hc). exists c'. split_and!; try done.
      rewrite lookup_delete_ne; [done|]. congruence.
    + rewrite lookup_alter_ne in Hb by done.
      destruct (H2 _ _ _ _ _ Hq Hb Hr) as (c' & Hc' & ? & ? & Hc). exists c'. split_and!; try done.
      rewrite lookup_delete_ne; [done|]. congruence.
  - intros sid q Hq. destruct (H3 _ _ Hq) as [Hsome Hq'].
    split; [by apply lookup_alter_is_Some|]. by rewrite <- Hq', <- Hsid.
  - intros q sb' Hb Hno. rewrite lookup_alter_ne in Hb; [by apply (H4 q)|]. intros <-. by apply (Hno (c_sandbox c)).
Qed.

Lemma step_consistent s s' : server_step s s' → consistent s → consistent s'.
Proof.
  intros Hst Hok. destruct Hst;
    eauto using consistent_allocCtr, consistent_allocSb, consistent_AddSandbox,
      consistent_RemoveSandbox, consistent_AddContainer, consistent_RemoveContainer.
  all: try (unfold AddInfraContainer, RemoveInfraContainer; case_match; [|done]).
  all: by apply (consistent_ext s).
Qed.

Lemma alter_containers_levels f sp (s : CS) g :
  (∀ sb : Sandbox ptr St, processLabel (f sb) = processLabel sb ∧ criSandbox (f sb) = criSandbox sb) →
  levels_ok s → levels_ok (s <| sbs ::= alter f sp |> <| s_containers ::= g |>).
Proof.
  intros Hf. apply levels_ext; [done|done|]. intros _ q _.
  exact (proj1 (alter_containers_fields f sp s q Hf)).
Qed.

Lemma step_levels s s' : server_step s s' → consistent s → levels_ok s → levels_ok s'.
Proof.
  intros Hst Hok Hl. destruct Hst; auto using addSandbox_levels, removeSandbox_levels.
  all: try (by apply (levels_ext s)).
  - apply (levels_ext s); [done|done| |done]. intros sid sp Hs. unfold labelOf. simpl.
    destruct (ok_id _ Hok _ _ Hs) as [[sb' Hsb] _]. rewrite lookup_insert_ne; [done|]. intros <-.
    apply (is_fresh (dom (sbs s))), elem_of_dom. by exists sb'.
  - unfold AddContainer. do 2 (case_match; [|done]). by apply alter_containers_levels.
  - unfold RemoveContainer. do 2 (case_match; [|done]). by apply alter_containers_levels.
  - unfold AddInfraContainer. case_match; [|done]. by apply (levels_ext s).
  - unfold RemoveInfraContainer. case_match; [|done]. by apply (levels_ext s).
Qed.

Lemma New_ok : consistent New ∧ levels_ok New.
Proof.
  split.
  - split; simpl; setoid_rewrite model_new; done.
  - intros l. unfold at_level. simpl. by rewrite model_new, map_filter_empty.
Qed.

Lemma reachable_ok s : rtc server_step New s → consistent s ∧ levels_ok s.
Proof.
  intros Hr. assert (∀ s0, rtc server_step s0 s → consistent s0 ∧ levels_ok s0 →
    consistent s ∧ levels_ok s) as Hind; [|by apply (Hind New); [|apply New_ok]].
  intros s0. induction 1 as [|x y z Hxy _ IH]; [done|]. intros [Hc Hl]. apply IH; [done|].
  eauto using step_consistent, step_levels.
Qed.


End invariants.

(** ** Lookup *)

Lemma index_get_spec s i (idx : TruncIndex) :
  index_get s idx = Ret i ↔
  s ≠ "" ∧ i ∈ idx ∧ HasPrefix i s = true ∧ ∀ j, j ∈ idx → HasPrefix j s = true → j = i.
Proof.
  unfold index_get. case_bool_decide as Hs; [naive_solver|].
  assert (∀ j, j ∈ filter (λ i, HasPrefix i s = true) (elements idx) ↔ j ∈ idx ∧ HasPrefix j s = true) as Hf.
  { intros j. rewrite list_elem_of_filter, elem_of_elements. tauto. }
  assert (NoDup (filter (λ i, HasPrefix i s = true) (elements idx))) as Hnd.
  { apply NoDup_filter, NoDup_elements. }
  destruct (filter _ _) as [|j [|k l]].
  - split; [done|]. intros (_ & Hi & Hp & _). by destruct (not_elem_of_nil i); apply Hf.
  - split.
    + intros [= ->]. destruct (proj1 (Hf i)) as [? ?]; [by left|]. split_and!; try done.
      intros j Hj Hp. apply list_elem_of_singleton. by apply Hf.
    + intros (_ & Hi & Hp & Hu). f_equal. apply Hu; apply Hf; by left.
  - split; [done|]. intros (_ & _ & _ & Hu). exfalso.
    apply NoDup_cons in Hnd as [Hj _]. apply Hj.
    assert (j = i) as -> by (apply Hu; apply Hf; by left).
    assert (k = i) as -> by (apply Hu; apply Hf; by right; left). by left.
Qed.

Section lookup.
Context {St : Type} `{StorerLaws ptr St}.
Abbreviation CS := (ContainerServer St).

(** A lookup finds a container exactly when the name (or, for a string that is not a
    reserved name, the string itself) is a prefix of one and only one known ID,
    and the container with that ID is in the store and was created. *)
Theorem LookupContainer_spec idOrName (s : CS) p :
  LookupContainer idOrName s = Ret p ↔
  idOrName ≠ "" ∧
  ∃ id c, id ∈ ctrIDIndex s ∧
    let key := default idOrName (names (ctrNameIndex s) !! idOrName) in
    key ≠ "" ∧ HasPrefix id key = true ∧
    (∀ id', id' ∈ ctrIDIndex s → HasPrefix id' key = true → id' = id) ∧
    GetContainer id s = Some p ∧ ctrs s !! p = Some c ∧ c_created c = true.
Proof.
  unfold LookupContainer. case_bool_decide as Hi; [naive_solver|].
  assert (∀ key, GetContainerFromShortID key s = Ret p ↔ ∃ id c, id ∈ ctrIDIndex s ∧
    key ≠ "" ∧ HasPrefix id key = true ∧
    (∀ id', id' ∈ ctrIDIndex s → HasPrefix id' key = true → id' = id) ∧
    GetContainer id s = Some p ∧ ctrs s !! p = Some c ∧ c_created c = true) as Hkey.
  { intros key. unfold GetContainerFromShortID. case_bool_decide; [naive_solver|].
    split.
    - destruct (index_get key (ctrIDIndex s)) as [id| |] eqn:Hx; [|done..].
      apply index_get_spec in Hx as (? & ? & ? & ?).
      destruct (GetContainer id s) as [q|] eqn:Hq; [|done].
      destruct (ctrs s !! q) as [c|] eqn:Hc; [|done]. simpl.
      destruct (c_created c) eqn:Hcr; [|done]. intros [= ->]. by exists id, c.
    - intros (id & c & Hx & Hne & Hp & Hu & Hg & Hc & Hcr).
      assert (index_get key (ctrIDIndex s) = Ret id) as -> by (by apply index_get_spec).
      rewrite Hg, Hc. simpl. by rewrite Hcr. }
  unfold Registrar.Get. destruct (names (ctrNameIndex s) !! idOrName) as [k|]; simpl.
  - rewrite Hkey. naive_solver.
  - rewrite Hkey. naive_solver.
Qed.
End lookup.

(** ** Witnesses

    A server over the memory store, with a disk that holds one container and one
    sandbox. *)

#[local] Instance ms_storer : Storer ptr (memoryStore (T := ptr)) := memoryStore_storer map_to_list.
#[local] Instance ms_laws : StorerLaws ptr (memoryStore (T := ptr)) :=
  memoryStore_laws map_to_list (λ c, reflexivity (map_to_list c)).

Module Example1.
Definition anns : gmap string string :=
  {[ann_Name := "k8s_POD"; ann_ContainerID := "c0ffee"; ann_ContainerName := "k8s_infra"]}.
Definition spec_ : Spec :=
  mkSpec (Some (mkSpecProcess 0 0 [] None "system_u:object_r:container_t:s0:c1,c2" []))
    (Some (mkSpecLinux None [] "")).
Definition level (l : string) : outcome string := Ret "s0:c1,c2".
Definition read (id file : string) : outcome string := Ret "{}".
Definition unmarshalSpec (s : string) : outcome (gmap string string * Spec) := Ret (anns, spec_).
Definition unmarshalMap (s : string) : outcome (gmap string string) := Ret ∅.
Definition unmarshalPod (s : string) : outcome PodSandboxMetadata :=
  Ret (mkPodMetadata "n" "u" "ns" 0).
Definition ok (s : string) : outcome () := Ret ().
Definition dir (s : string) : outcome string := Ret "/run".
Definition time (s : string) : outcome Z := Ret 5.
Definition bad (s : string) : outcome () := Fail (ErrorsNew "invalid state").

Abbreviation s0 := (New (St := memoryStore (T := ptr))).

(** One sandbox with one container in it. *)
Definition sb1 : Sandbox ptr (memoryStore (T := ptr)) := loadedSandbox "pod1" "p" ∅ "label" "" 1.
Definition c1 : Ctr := mkCtr "c1" "web" "pod1" true 2 spec_.
Definition s1 := snd (allocSb sb1 s0).
Definition s2 := snd (AddSandbox level 1%positive s1).
Definition s3 := snd (allocCtr c1 s2).
Definition s4 := AddContainer 1%positive s3.

Lemma reach : rtc (server_step level) s0 s4.
Proof.
  apply rtc_l with s1. { by apply (step_new_sandbox level s0 sb1). }
  apply rtc_l with s2. { apply (step_AddSandbox level s1); [by eexists|by vm_compute]. }
  apply rtc_l with s3. { by apply (step_new_container level s2). }
  apply rtc_l with s4. { apply (step_AddContainer level s3 1%positive c1); [by vm_compute..|].
    intros sp sb Hs Hb. vm_compute in Hs. injection Hs as <-. vm_compute in Hb.
    injection Hb as <-. by vm_compute. }
  apply rtc_refl.
Defined.
End Example1.

Lemma LoadContainer_failure_witness :
  ∃ e s', LoadContainer Example1.read Example1.unmarshalSpec Example1.unmarshalMap Example1.ok
    Example1.time Example1.dir Example1.dir Example1.ok Example1.ok Example1.bad "id" Example1.s0
    = (Fail e, s') ∧ restored Example1.s0 s'.
Proof.
  eexists _, _. split; [vm_compute; reflexivity|].
  eapply (LoadContainer_failure Example1.read Example1.unmarshalSpec Example1.unmarshalMap
    Example1.ok Example1.time Example1.dir Example1.dir Example1.ok Example1.ok Example1.bad "id").
  - apply wf_new.
  - intros n. done.
  - vm_compute. reflexivity.
  - vm_compute. reflexivity.
Defined.




(** ** Traces a failed load leaves behind *)

(** A failure after the infra container was stored: it stays in the store of
    infra containers, for a sandbox the server does not have. *)
Lemma LoadSandbox_leaves_infra :
  ∃ e s', LoadSandbox Example1.level Example1.read Example1.unmarshalSpec Example1.unmarshalMap
    Example1.unmarshalPod Example1.ok Example1.time Example1.dir Example1.dir Example1.ok
    Example1.bad Example1.ok "id" Example1.s0 = (Fail e, s') ∧
  HasSandbox "id" s' = false ∧ GetInfraContainer "c0ffee" s' = Some 1%positive.
Proof. eexists _, _. split; [vm_compute; reflexivity|]. split; vm_compute; reflexivity. Qed.

(** A label selinux does not accept: the sandbox stays in the store after its name
    was released, and cannot be removed. *)
Lemma LoadSandbox_bad_label :
  let bad_level _ := Fail (ErrorsNew "invalid SELinux label") in
  ∃ e s', LoadSandbox bad_level Example1.read Example1.unmarshalSpec Example1.unmarshalMap
    Example1.unmarshalPod Example1.ok Example1.time Example1.dir Example1.dir Example1.ok
    Example1.ok Example1.ok "id" Example1.s0 = (Fail e, s') ∧
  HasSandbox "id" s' = true ∧ PodIDForName "k8s_POD" s' = Fail ErrNameNotReserved ∧
  HasSandbox "id" (snd (RemoveSandbox bad_level "id" s')) = true.
Proof.
  simpl. eexists _, _. split; [vm_compute; reflexivity|]. split; [vm_compute; reflexivity|].
  split; vm_compute; reflexivity.
Qed.
