(* ===== verification/PodSpec.v ===== *)
(** * PodSpec: what a pod sandbox is made of (server/sandbox_run.go,
    server/naming.go, the helpers of server/sandbox_run_linux.go and
    server/sandbox_network.go, validateLabels and FilterDisallowedAnnotations of
    server/utils.go, GetLabelOptions of utils/utils.go)

    The pure part of running a pod: the labels, annotations, hostname, port mappings
    and sysctls of the request as the sandbox gets them, the network it asks for, and
    the annotations of its OCI spec, from which a later start of the server loads the
    sandbox again. *)

From S2P Require Import Prelude GoStrings Registrar MemoryStore ConfigData ConfigRuntime RuntimeDispatch Container.
From S2P Require Import Sandbox ContainerServer.
Local Open Scope Z_scope.

(** ** The request *)

Inductive NamespaceMode := POD | CONTAINER | NODE | TARGET.
#[export] Instance NamespaceMode_eq_dec : EqDecision NamespaceMode.
Proof. solve_decision. Defined.

Record NamespaceOption := mkNamespaceOption { no_Network : NamespaceMode; no_Pid : NamespaceMode; no_Ipc : NamespaceMode }.
Record SELinuxOption := mkSELinuxOption { se_User : string; se_Role : string; se_Type : string; se_Level : string }.
Record LinuxSandboxSecurityContext := mkSecurityContext {
  sc_NamespaceOptions : option NamespaceOption; sc_Privileged : bool; sc_SelinuxOptions : option SELinuxOption }.

(** [types.PortMapping]; the protocol is its string. *)
Record PortMapping := mkPortMapping {
  pt_HostPort : Z; pt_ContainerPort : Z; pt_Protocol : string; pt_HostIP : string }.

(** [types.PodSandboxConfig] with its [Linux] section; a nil map is empty. *)
Record PodConfig := mkPodConfig {
  pc_Metadata : option PodSandboxMetadata;
  pc_Hostname : string;
  pc_LogDirectory : string;
  pc_PortMappings : list PortMapping;
  pc_Labels : gmap string string;
  pc_Annotations : gmap string string;
  pc_CgroupParent : string;
  pc_SecurityContext : option LinuxSandboxSecurityContext;
  pc_Sysctls : gmap string string }.
#[export] Instance PodConfig_eta : Eta PodConfig := λ c,
  mkPodConfig (pc_Metadata c) (pc_Hostname c) (pc_LogDirectory c) (pc_PortMappings c) (pc_Labels c)
    (pc_Annotations c) (pc_CgroupParent c) (pc_SecurityContext c) (pc_Sysctls c).

Record RunPodSandboxRequest := mkRunRequest { rq_Config : option PodConfig; rq_RuntimeHandler : string }.

(** ** Names and labels *)

Definition InfraContainerName : string := "POD".
Definition KubernetesPodNameLabel : string := "io.kubernetes.pod.name".
Definition KubernetesPodNamespaceLabel : string := "io.kubernetes.pod.namespace".
Definition KubernetesPodUIDLabel : string := "io.kubernetes.pod.uid".
Definition KubernetesContainerNameLabel : string := "io.kubernetes.container.name".
Definition maxLabelSize : nat := 4096.

Definition makeSandboxContainerName (md : PodSandboxMetadata) : string :=
  Join ["k8s"; InfraContainerName; pm_Name md; pm_Namespace md; pm_Uid md; Itoa (pm_Attempt md)] "_".

Definition addIfAbsent (k v : string) (m : gmap string string) : gmap string string :=
  match m !! k with Some _ => m | None => <[k := v]> m end.

Definition populateSandboxLabels (labels : gmap string string) (kubeName kubePodUID namespace : string) :
    gmap string string :=
  addIfAbsent KubernetesPodUIDLabel kubePodUID
    (addIfAbsent KubernetesPodNamespaceLabel namespace (addIfAbsent KubernetesPodNameLabel kubeName labels)).

Definition validateLabels (labels : gmap string string) : option goerr :=
  match filter (λ kv, (maxLabelSize < String.length kv.1 + String.length kv.2)%nat) (map_to_list labels) with
  | [] => None
  | (k, _) :: _ => Some (ErrorsNew ("label key and value greater than maximum size (4096 bytes), key: "
                                   +:+ (if (10 <? String.length k)%nat then str_take 10 k else k)))
  end.

Definition GetLabelOptions (o : option SELinuxOption) : list string :=
  match o with
  | None => []
  | Some o =>
      (if bool_decide (se_User o = "") then [] else ["user:" +:+ se_User o]) ++
      (if bool_decide (se_Role o = "") then [] else ["role:" +:+ se_Role o]) ++
      (if bool_decide (se_Type o = "") then [] else ["type:" +:+ se_Type o]) ++
      (if bool_decide (se_Level o = "") then [] else ["level:" +:+ se_Level o])
  end.

(** ** Annotations *)

(** The annotations [toFilter] loses what neither the handler nor the workload of
    [toFind] allows. *)
Definition FilterDisallowedAnnotations (ws : gmap string WorkloadConfig) (toFind toFilter : gmap string string)
    (runtimeHandler : string) (r : Runtime) : outcome (gmap string string) :=
  allowed ← (r_AllowedAnnotations runtimeHandler r).1;
  Workloads_FilterDisallowedAnnotations (allowed ++ Workloads_AllowedAnnotations ws toFind) toFilter.

(** The defaults of the handler, overridden by those of the pod. *)
Definition podAnnotations (defaults requested : gmap string string) : gmap string string := requested ∪ defaults.

(** ** Security and host settings *)

(** [None] for [req.Config.Linux.SecurityContext == nil]. *)
Definition privilegedSandbox (sc : option LinuxSandboxSecurityContext) : bool :=
  match sc with
  | None => false
  | Some sc =>
      if sc_Privileged sc then true
      else match sc_NamespaceOptions sc with
           | None => false
           | Some o => bool_decide (no_Network o = NODE) || bool_decide (no_Pid o = NODE) || bool_decide (no_Ipc o = NODE)
           end
  end.

(** [runtimeHandler] of the server. *)
Definition checkHandler (handler : string) (r : Runtime) : outcome string :=
  if bool_decide (handler = "") then Ret handler
  else _ ← (ValidateRuntimeHandler handler r).1; Ret handler.

Definition convertPortMappings (l : list PortMapping) : list PortMapping :=
  filter (λ v, 0 < pt_HostPort v) l.

(** [osHostname] is [os.Hostname]; a slice of a too short ID panics. *)
Definition getHostname (osHostname : outcome string) (id hostname : string) (hostNetwork : bool) : outcome string :=
  if bool_decide (hostname = "") then
    if hostNetwork then osHostname
    else if (String.length id <? 12)%nat then Panic "slice bounds out of range" else Ret (str_take 12 id)
  else Ret hostname.

(** The sandbox is a virtual machine of its own. *)
Definition podIsKernelSeparated (runtimeType runtimeHandler defaultRuntime : string) : bool :=
  bool_decide (runtimeType = RuntimeTypeVM) || Contains (ToLower runtimeHandler) "kata"
  || (bool_decide (runtimeHandler = "") && Contains (ToLower defaultRuntime) "kata").

(** The sysctls of the pod: the defaults, then the requested ones, each only when it
    is allowed; errors are logged.  [order] is the order in which [Validate] visits
    its map. *)
Definition sysctlAllowed (order : list (string * ConfigData.Namespace)) (hostNetwork hostIPC : bool) (s : Sysctl) : bool :=
  match Sysctl_Validate order s hostNetwork hostIPC with None => true | Some _ => false end.

Definition addSysctl (order : list (string * ConfigData.Namespace)) (hostNetwork hostIPC : bool)
    (m : gmap string string) (s : Sysctl) : gmap string string :=
  if sysctlAllowed order hostNetwork hostIPC s then <[sysctl_key s := sysctl_value s]> m else m.

Definition configureGeneratorForSysctls (order : list (string * ConfigData.Namespace)) (defaults : list string)
    (hostNetwork hostIPC : bool) (sysctls : gmap string string) : gmap string string :=
  let m := foldl (addSysctl order hostNetwork hostIPC) ∅ (match Sysctls defaults with Ret l => l | _ => [] end) in
  filter (λ kv, sysctlAllowed order hostNetwork hostIPC (mkSysctl kv.1 kv.2) = true) sysctls ∪ m.

(** ** The network *)

Definition MaxBurst : Z := (2 ^ 32 - 1) * 8 - 1.

Record BandwidthConfig := mkBandwidth { IngressRate : Z; IngressBurst : Z; EgressRate : Z; EgressBurst : Z }.

(** [ocicni.PodNetwork] *)
Record PodNetwork := mkPodNetwork {
  pn_Name : string; pn_Namespace : string; pn_UID : string; pn_ID : string; pn_NetNS : string;
  pn_Bandwidth : option BandwidthConfig; pn_CgroupPath : string; pn_Annotations : gmap string string }.

(** A quantity that does not parse is an error, one that is no [int64] counts as
    zero. *)
Definition bandwidth (ParseQuantity : string → outcome (option Z)) (anns : gmap string string) (key : string) :
    outcome Z :=
  match anns !! key with
  | None => Ret 0
  | Some v => q ← ParseQuantity v; Ret (default 0 q)
  end.

Definition bandwidthConfig (ingress egress : Z) : option BandwidthConfig :=
  if (0 <? ingress) || (0 <? egress) then
    Some (mkBandwidth (if 0 <? ingress then ingress else 0) (if 0 <? ingress then MaxBurst else 0)
                      (if 0 <? egress then egress else 0) (if 0 <? egress then MaxBurst else 0))
  else None.

Section network.
Context {C St : Type}.
Variable ParseQuantity : string → outcome (option Z).
(** [sb.NetNsPath()] *)
Variable NetNS : Sandbox C St → string.

Definition newPodNetwork (sb : Sandbox C St) : outcome PodNetwork :=
  match criSandbox sb with
  | None => Panic "nil pointer dereference"
  | Some m =>
      egress ← bandwidth ParseQuantity (ps_Annotations m) "kubernetes.io/egress-bandwidth";
      ingress ← bandwidth ParseQuantity (ps_Annotations m) "kubernetes.io/ingress-bandwidth";
      match ps_Metadata m with
      | None => Panic "nil pointer dereference"
      | Some md =>
          Ret (mkPodNetwork (kubeName sb) (sb_namespace sb) (pm_Uid md) (ps_Id m) (NetNS sb)
                 (bandwidthConfig ingress egress) (cgroupParent sb) (ps_Annotations m))
      end
  end.
End network.

(** The addresses of the pod that get its port mappings: the first of each family. *)
Fixpoint mappedIPs (isIPv6 : string → bool) (foundIPv4 foundIPv6 : bool) (addrs : list string) : list string :=
  match addrs with
  | [] => []
  | ip :: addrs =>
      if isIPv6 ip then
        if foundIPv6 then mappedIPs isIPv6 foundIPv4 foundIPv6 addrs
        else ip :: mappedIPs isIPv6 foundIPv4 true addrs
      else if foundIPv4 then mappedIPs isIPv6 foundIPv4 foundIPv6 addrs
      else ip :: mappedIPs isIPv6 true foundIPv6 addrs
  end.

(** ** The annotations of the spec *)

(** The values [runPodSandbox] collects; the JSON values the server only stores are
    strings. *)
Record PodInfo := mkPodInfo {
  pi_id : string; pi_name : string; pi_containerName : string;
  pi_metadata : PodSandboxMetadata;
  pi_labels : gmap string string; pi_annotations : gmap string string;
  pi_logDir : string; pi_shmPath : string; pi_privileged : bool; pi_runtimeHandler : string;
  pi_resolvPath : string; pi_hostname : string; pi_hostnamePath : string; pi_hostNetwork : bool;
  pi_created : Z; pi_cgroupParent : string; pi_seccompRef : string; pi_usernsMode : string;
  pi_processLabel : string; pi_mountLabel : string;
  pi_pauseImage : string; pi_stopSignal : string; pi_mountPoint : string; pi_spoofed : bool;
  pi_nsOptsJSON : string; pi_portMappingsJSON : string; pi_overheadJSON : string; pi_resourcesJSON : string;
  pi_cniResult : option string }.

Definition ann_SandboxName : string := "io.kubernetes.cri-o.SandboxName".
Definition ann_Namespace : string := "io.kubernetes.cri-o.Namespace".
Definition ann_ContainerType : string := "io.kubernetes.cri-o.ContainerType".
Definition ann_UserRequestedImage : string := "io.kubernetes.cri-o.Image".
Definition ann_KubeName : string := "io.kubernetes.cri-o.KubeName".
Definition ann_stopSignal : string := "org.opencontainers.image.stopSignal".
Definition ann_CNIResult : string := "io.kubernetes.cri-o.CNIResult".
Definition ann_MountPoint : string := "io.kubernetes.cri-o.MountPoint".
Definition ann_Spoofed : string := "io.kubernetes.cri-o.Spoofed".

Definition FormatBool (b : bool) : string := if b then "true" else "false".

Definition pi_logPath (i : PodInfo) : string := PathJoin [pi_logDir i; pi_id i +:+ ".log"].

Section annotations.
(** [json.Marshal] of a map and of the metadata, and the time format. *)
Variable marshalMap : gmap string string → string.
Variable marshalMetadata : PodSandboxMetadata → string.
Variable formatTime : Z → string.

(** The annotations in the order they are added, up to the sandbox's object. *)
Definition internalAnnotations (i : PodInfo) : list (string * string) :=
  [(ann_Metadata, marshalMetadata (pi_metadata i));
   (ann_Labels, marshalMap (pi_labels i));
   (ann_Annotations, marshalMap (pi_annotations i));
   (ann_LogPath, pi_logPath i);
   (ann_Name, pi_name i);
   (ann_SandboxName, pi_name i);
   (ann_Namespace, pm_Namespace (pi_metadata i));
   (ann_ContainerType, "sandbox");
   (ann_SandboxID, pi_id i);
   (ann_UserRequestedImage, pi_pauseImage i);
   (ann_SomeNameOfTheImage, pi_pauseImage i);
   (ann_ContainerName, pi_containerName i);
   (ann_ContainerID, pi_id i);
   (ann_ShmPath, pi_shmPath i);
   (ann_PrivilegedRuntime, FormatBool (pi_privileged i));
   (ann_RuntimeHandler, pi_runtimeHandler i);
   (ann_ResolvPath, pi_resolvPath i);
   (ann_HostName, pi_hostname i);
   (ann_NamespaceOptions, pi_nsOptsJSON i);
   (ann_KubeName, pm_Name (pi_metadata i));
   (ann_HostNetwork, FormatBool (pi_hostNetwork i));
   (ann_ContainerManager, ContainerManagerCRIO)] ++
  (if bool_decide (pi_stopSignal i = "") then [] else [(ann_stopSignal, pi_stopSignal i)]) ++
  [(ann_Created, formatTime (pi_created i));
   (ann_PortMappings, pi_portMappingsJSON i);
   (ann_CgroupParent, pi_cgroupParent i);
   (ann_PodLinuxOverhead, pi_overheadJSON i);
   (ann_PodLinuxResources, pi_resourcesJSON i)].

(** Those added after the pod's own annotations and labels. *)
Definition lateAnnotations (i : PodInfo) : list (string * string) :=
  match pi_cniResult i with Some r => [(ann_CNIResult, r)] | None => [] end ++
  [(ann_MountPoint, pi_mountPoint i); (ann_HostnamePath, pi_hostnamePath i);
   (ann_SeccompProfilePath, pi_seccompRef i)] ++
  (if pi_spoofed i then [(ann_Spoofed, "true")] else []).

Definition addAnnotations (l : list (string * string)) (m : gmap string string) : gmap string string :=
  foldl (λ m kv, <[kv.1 := kv.2]> m) m l.

(** The annotations of the config.json that is saved. *)
Definition specAnnotations (i : PodInfo) : gmap string string :=
  addAnnotations (lateAnnotations i)
    (pi_labels i ∪ (pi_annotations i ∪ addAnnotations (internalAnnotations i) ∅)).
End annotations.

(** The sandbox object [runPodSandbox] gives to the server. *)
Section object.
Context {C St : Type} `{Storer C St}.
Definition podSandbox (i : PodInfo) : Sandbox C St :=
  (newSandbox <| sb_namespace := pm_Namespace (pi_metadata i) |> <| kubeName := pm_Name (pi_metadata i) |>
     <| sb_name := pi_name i |> <| hostNetwork := pi_hostNetwork i |> <| sb_runtimeHandler := pi_runtimeHandler i |>
     <| usernsMode := pi_usernsMode i |> <| privileged := pi_privileged i |>
     <| processLabel := pi_processLabel i |> <| mountLabel := pi_mountLabel i |> <| logDir := pi_logDir i |>
     <| shmPath := pi_shmPath i |> <| hostname := pi_hostname i |> <| createdAt := pi_created i |>
     <| cgroupParent := pi_cgroupParent i |> <| resolvPath := pi_resolvPath i |>
     <| hostnamePath := pi_hostnamePath i |> <| sb_seccompProfilePath := pi_seccompRef i |>
     <| criSandbox := Some (mkPodSandbox (pi_id i) (Some (pi_metadata i)) SANDBOX_READY (pi_created i)
                              (pi_labels i) (pi_annotations i)) |>).
End object.

(** ** Lemmas *)

(** The labels of the request stay, and the pod's name, namespace and UID are there. *)
Lemma populateSandboxLabels_spec labels n u ns k :
  populateSandboxLabels labels n u ns !! k =
    match labels !! k with
    | Some v => Some v
    | None => if bool_decide (k = KubernetesPodNameLabel) then Some n
              else if bool_decide (k = KubernetesPodNamespaceLabel) then Some ns
              else if bool_decide (k = KubernetesPodUIDLabel) then Some u else None
    end.
Proof.
  unfold populateSandboxLabels. assert (∀ a b m, addIfAbsent a b m !! k =
    match m !! k with Some v => Some v | None => if bool_decide (k = a) then Some b else None end) as Ha.
  { intros a b m. unfold addIfAbsent. destruct (m !! a) as [v|] eqn:Hm.
    - destruct (m !! k) eqn:Hk; [done|]. by rewrite bool_decide_false by congruence.
    - rewrite lookup_insert. case_decide; [subst; by rewrite Hm, bool_decide_true|].
      rewrite bool_decide_false by auto. by destruct (m !! k). }
  rewrite !Ha. destruct (labels !! k); [done|]. repeat case_bool_decide; try done; subst; done.
Qed.

Definition namespaced (hostNetwork hostIPC : bool) (k : string) : Prop :=
  ∃ ns, sysctl_ns k = Some ns ∧ nsForbidden ns hostNetwork hostIPC = false.

Section sysctls.
Variables (order : list (string * ConfigData.Namespace)) (hostNetwork hostIPC : bool).
Hypothesis Ho : order ≡ₚ prefixNamespaces.

Lemma sysctlAllowed_spec k v :
  sysctlAllowed order hostNetwork hostIPC (mkSysctl k v) = true ↔ namespaced hostNetwork hostIPC k.
Proof.
  destruct (Sysctl_Validate_spec (mkSysctl k v) hostNetwork hostIPC order order Ho Ho) as [_ Hs]. cbn in Hs.
  unfold namespaced, sysctlAllowed. rewrite <- Hs. by destruct (Sysctl_Validate _ _ _ _).
Qed.

Lemma defaults_safe l m k v :
  (∀ k v, m !! k = Some v → namespaced hostNetwork hostIPC k) →
  foldl (addSysctl order hostNetwork hostIPC) m l !! k = Some v → namespaced hostNetwork hostIPC k.
Proof.
  revert m. induction l as [|[a b] l IH]; intros m Hm; [apply Hm|]. cbn. apply IH. intros x y. unfold addSysctl.
  destruct (sysctlAllowed _ _ _ _) eqn:Hv; [|apply Hm]. cbn. rewrite lookup_insert.
  case_decide; [subst; intros _; by apply (sysctlAllowed_spec _ b)|apply Hm].
Qed.

Lemma defaults_there l m k v :
  is_Some (m !! k) ∨ mkSysctl k v ∈ l ∧ namespaced hostNetwork hostIPC k →
  is_Some (foldl (addSysctl order hostNetwork hostIPC) m l !! k).
Proof.
  revert m. induction l as [|[a b] l IH]; intros m Hm; [destruct Hm as [|[? _]]; [done|set_solver]|].
  cbn. apply IH. unfold addSysctl. destruct (sysctlAllowed _ _ _ _) eqn:Hv; cbn.
  - rewrite lookup_insert. case_decide; [by left; eexists|].
    destruct Hm as [|[[? | ?]%elem_of_cons ?]]; [by left|congruence|by right].
  - destruct Hm as [|[[Heq|?]%elem_of_cons Hn]]; [by left| |by right]. injection Heq as -> ->.
    apply (sysctlAllowed_spec _ b) in Hn. congruence.
Qed.

(** The sysctls a pod gets are safe and the request wins: every one lives in a
    namespace the pod does not share with the host, a requested one that is allowed
    has its requested value, and a default one that is allowed is there unless the
    request overrides it. *)
Theorem configureGeneratorForSysctls_safe defaults sysctls k v :
  let m := configureGeneratorForSysctls order defaults hostNetwork hostIPC sysctls in
  (m !! k = Some v → namespaced hostNetwork hostIPC k) ∧
  (sysctls !! k = Some v → namespaced hostNetwork hostIPC k → m !! k = Some v) ∧
  (∀ l, Sysctls defaults = Ret l → namespaced hostNetwork hostIPC k → mkSysctl k v ∈ l → is_Some (m !! k)).
Proof.
  intros m. set (d := foldl (addSysctl order hostNetwork hostIPC) ∅ (match Sysctls defaults with Ret l => l | _ => [] end)).
  assert (∀ x, m !! x = match sysctls !! x with
    | Some y => if sysctlAllowed order hostNetwork hostIPC (mkSysctl x y) then Some y else d !! x
    | None => d !! x end) as Hm.
  { intros x. unfold m, configureGeneratorForSysctls. rewrite lookup_union, map_lookup_filter. fold d.
    destruct (sysctls !! x) as [y|]; cbn; [|by destruct (d !! x)].
    destruct (sysctlAllowed _ _ _ _); cbn; [rewrite option_guard_True by done|rewrite option_guard_False by done];
      cbn; by destruct (d !! x). }
  assert (∀ k v, d !! k = Some v → namespaced hostNetwork hostIPC k) as Hd by (intros x y; by apply defaults_safe).
  rewrite Hm. split_and!.
  - destruct (sysctls !! k) as [y|]; [|apply Hd]. destruct (sysctlAllowed _ _ _ _) eqn:Hv; [|apply Hd].
    intros _. by apply (sysctlAllowed_spec k y).
  - intros -> Hn. by rewrite (proj2 (sysctlAllowed_spec k v) Hn).
  - intros l Hl Hn Hin. destruct (sysctls !! k) as [y|];
      [destruct (sysctlAllowed _ _ _ _); [by eexists|]|];
      unfold d; rewrite Hl; apply (defaults_there _ _ k v); by right.
Qed.
End sysctls.

Lemma configureGeneratorForSysctls_safe_witness :
  let m := configureGeneratorForSysctls prefixNamespaces ["net.ipv4.ip_forward=1"; "kernel.sem=3"] true false
             {["kernel.sem" := "5"; "net.core.somaxconn" := "9"]} in
  m !! "kernel.sem" = Some "5" ∧ m !! "net.core.somaxconn" = None.
Proof.
  split; [|vm_compute; reflexivity].
  apply (configureGeneratorForSysctls_safe prefixNamespaces true false ltac:(reflexivity)
    ["net.ipv4.ip_forward=1"; "kernel.sem=3"] {["kernel.sem" := "5"; "net.core.somaxconn" := "9"]} "kernel.sem" "5").
  - reflexivity.
  - exists IpcNamespace. split; reflexivity.
Defined.

(** *** The annotations that are read again *)

Lemma addAnnotations_notin l m k : k ∉ l.*1 → addAnnotations l m !! k = m !! k.
Proof.
  revert m. induction l as [|[a b] l IH]; intros m Hk; [done|]. apply not_elem_of_cons in Hk as [Hn Hk].
  change (addAnnotations l (<[a := b]> m) !! k = m !! k). rewrite IH by done. by rewrite lookup_insert_ne by auto.
Qed.

Lemma addAnnotations_in l m k v : NoDup l.*1 → (k, v) ∈ l → addAnnotations l m !! k = Some v.
Proof.
  revert m. induction l as [|[a b] l IH]; intros m Hnd Hin; [set_solver|].
  apply NoDup_cons in Hnd as [Hn Hnd]. change (addAnnotations l (<[a := b]> m) !! k = Some v).
  apply elem_of_cons in Hin as [[= <- <-]|Hin]; [|by apply IH].
  rewrite addAnnotations_notin by done. apply lookup_insert_eq.
Qed.

(** The keys of the annotations added before the pod's own. *)
Definition earlyKeys : list string :=
  [ann_Metadata; ann_Labels; ann_Annotations; ann_LogPath; ann_Name; ann_SandboxName; ann_Namespace;
   ann_ContainerType; ann_SandboxID; ann_UserRequestedImage; ann_SomeNameOfTheImage; ann_ContainerName;
   ann_ContainerID; ann_ShmPath; ann_PrivilegedRuntime; ann_RuntimeHandler; ann_ResolvPath; ann_HostName;
   ann_NamespaceOptions; ann_KubeName; ann_HostNetwork; ann_ContainerManager; ann_stopSignal; ann_Created;
   ann_PortMappings; ann_CgroupParent; ann_PodLinuxOverhead; ann_PodLinuxResources].
Definition lateKeys : list string :=
  [ann_CNIResult; ann_MountPoint; ann_HostnamePath; ann_SeccompProfilePath; ann_Spoofed].

(** The pod's annotations and labels use none of the server's keys. *)
Definition foreign (i : PodInfo) : Prop :=
  ∀ k, k ∈ earlyKeys → pi_annotations i !! k = None ∧ pi_labels i !! k = None.

Section restart.
Context {St : Type} `{StorerLaws ptr St}.
Variable marshalMap : gmap string string → string.
Variable marshalMetadata : PodSandboxMetadata → string.
Variable formatTime : Z → string.
Abbreviation specAnnotations := (specAnnotations marshalMap marshalMetadata formatTime).
Abbreviation internalAnnotations := (internalAnnotations marshalMap marshalMetadata formatTime).

Lemma keys_subset (l keys : list string) k : bool_decide (Forall (λ k, k ∈ keys) l) = true → k ∈ l → k ∈ keys.
Proof. intros Hb%bool_decide_eq_true Hk. rewrite Forall_forall in Hb. by apply Hb. Qed.

Lemma internal_keys i : NoDup (internalAnnotations i).*1 ∧
  ∀ k, k ∈ (internalAnnotations i).*1 → k ∈ earlyKeys.
Proof.
  unfold PodSpec.internalAnnotations. case_bool_decide; cbn;
    (split; [refine (bool_decide_unpack _ _); vm_compute; exact I|]);
    intros k; apply keys_subset; vm_compute; reflexivity.
Qed.

Lemma late_keys i : NoDup (lateAnnotations i).*1 ∧ ∀ k, k ∈ (lateAnnotations i).*1 → k ∈ lateKeys.
Proof.
  unfold lateAnnotations. destruct (pi_cniResult i), (pi_spoofed i); cbn;
    (split; [refine (bool_decide_unpack _ _); vm_compute; exact I|]);
    intros k; apply keys_subset; vm_compute; reflexivity.
Qed.

Lemma early_not_late k : k ∈ earlyKeys → k ∉ lateKeys.
Proof.
  refine (λ Hk, proj1 (Forall_forall (λ k, k ∉ lateKeys) _) _ k Hk). refine (bool_decide_unpack _ _). vm_compute. exact I.
Qed.

(** An annotation of the server that the pod does not override is what was written. *)
Lemma specAnnotations_early i k v :
  foreign i → (k, v) ∈ internalAnnotations i → specAnnotations i !! k = Some v.
Proof.
  intros Hf Hin. destruct (internal_keys i) as [Hnd Hk]. destruct (late_keys i) as [_ Hl].
  assert (k ∈ earlyKeys) as Hke by (apply Hk; by apply (list_elem_of_fmap_2 fst _ (k, v))).
  unfold PodSpec.specAnnotations. rewrite addAnnotations_notin by (intros Hb; by apply (early_not_late k), Hl).
  destruct (Hf k Hke) as [Ha Hb]. rewrite !lookup_union, Ha, Hb.
  rewrite (addAnnotations_in _ _ k v Hnd Hin). done.
Qed.

Lemma specAnnotations_late i k v : (k, v) ∈ lateAnnotations i → specAnnotations i !! k = Some v.
Proof. intros Hin. apply addAnnotations_in; [apply late_keys|done]. Qed.

(** The user namespace mode is one of the pod's annotations. *)
Lemma specAnnotations_userns i :
  pi_labels i !! ann_UsernsMode = None → specAnnotations i !! ann_UsernsMode = pi_annotations i !! ann_UsernsMode.
Proof.
  intros Hl. unfold PodSpec.specAnnotations. destruct (late_keys i) as [_ Hk], (internal_keys i) as [_ Hi].
  rewrite addAnnotations_notin by (intros Hin%Hk; vm_compute in Hin; set_solver).
  rewrite !lookup_union, Hl, (addAnnotations_notin (internalAnnotations i)) by (intros Hin%Hi; vm_compute in Hin; set_solver).
  rewrite lookup_empty. by destruct (pi_annotations i !! _).
Qed.

Ltac solve_in := first [apply list_elem_of_here | apply list_elem_of_further; solve_in].

Ltac in_anns := unfold PodSpec.internalAnnotations, lateAnnotations; rewrite !elem_of_app;
  first [left; solve_in | right; left; solve_in | right; right; solve_in].

(** What a start of the server reads: the decoders undo the encoders, the spec has
    the process and mount labels [pl] and [ml]. *)
Variable level : string → outcome string.
Variable FromContainerDirectory : string → string → outcome string.
Variable unmarshalSpec : string → outcome (gmap string string * Spec).
Variable unmarshalMap : string → outcome (gmap string string).
Variable unmarshalPodMetadata : string → outcome PodSandboxMetadata.
Variable unmarshal : string → outcome ().
Variable parseTime : string → outcome Z.
Variable ContainerRunDirectory ContainerDirectory : string → outcome string.
Variable fromDisk stateToDisk joinNamespaces : string → outcome ().
Hypothesis unmarshalMap_marshal : ∀ m, unmarshalMap (marshalMap m) = Ret m.
Hypothesis unmarshalMetadata_marshal : ∀ md, unmarshalPodMetadata (marshalMetadata md) = Ret md.
Hypothesis parseTime_format : ∀ t, parseTime (formatTime t) = Ret t.

Abbreviation load := (LoadSandbox (St := St) level FromContainerDirectory unmarshalSpec unmarshalMap
  unmarshalPodMetadata unmarshal parseTime ContainerRunDirectory ContainerDirectory fromDisk
  stateToDisk joinNamespaces).

(** The saved spec of the pod. *)
Record saved (i : PodInfo) (pl ml : string) : Prop := {
  saved_spec : ∃ config spec_ process linux, FromContainerDirectory (pi_id i) "config.json" = Ret config ∧
    unmarshalSpec config = Ret (specAnnotations i, spec_) ∧ spec_Process spec_ = Some process ∧
    spec_Linux spec_ = Some linux ∧ sp_SelinuxLabel process = pl ∧ sl_MountLabel linux = ml;
  saved_logDir : ∃ l, l ≠ [] ∧ Forall (λ w, proper w = true) l ∧ pi_logDir i = "/" +:+ Join l "/";
  saved_id : proper (pi_id i +:+ ".log") = true;
  saved_foreign : foreign i;
  saved_userns : pi_labels i !! ann_UsernsMode = None ∧
                 pi_usernsMode i = default "" (pi_annotations i !! ann_UsernsMode) }.

(** The object a later start builds is the one that was saved, but for the namespace
    and the name of the pod, which it does not restore. *)
Lemma loaded_object i pl ml :
  saved i pl ml → pi_created i ≠ 0 →
  SetCRISandbox (pi_id i) (pi_labels i) (pi_annotations i) (Some (pi_metadata i))
    (loadedSandbox (St := St) (pi_id i) (pi_name i) (specAnnotations i) pl ml (pi_created i)) =
  Ret ((podSandbox i) <| sb_namespace := "" |> <| kubeName := "" |> <| processLabel := pl |> <| mountLabel := ml |>).
Proof.
  intros [_ (l & Hl & Hall & Hdir) Hid Hf [Hu Hum]] Hc.
  assert (∀ k v, (k, v) ∈ internalAnnotations i → ann (specAnnotations i) k = v) as He.
  { intros k v Hin. unfold ann. by rewrite (specAnnotations_early i k v Hf Hin). }
  assert (∀ k v, (k, v) ∈ lateAnnotations i → ann (specAnnotations i) k = v) as Hlate.
  { intros k v Hin. unfold ann. by rewrite (specAnnotations_late i k v Hin). }
  assert (∀ b, isTrue (FormatBool b) = b) as Hb by by intros [].
  unfold SetCRISandbox, loadedSandbox, SetID. cbn -[ann isTrue Dir PodSpec.specAnnotations]. rewrite bool_decide_false by done.
  unfold podSandbox. cbn -[ann isTrue Dir PodSpec.specAnnotations].
  rewrite (He ann_LogPath (pi_logPath i)), (He ann_ShmPath (pi_shmPath i)), (He ann_CgroupParent (pi_cgroupParent i)),
    (He ann_PrivilegedRuntime (FormatBool (pi_privileged i))), (He ann_RuntimeHandler (pi_runtimeHandler i)),
    (He ann_ResolvPath (pi_resolvPath i)), (He ann_HostName (pi_hostname i)),
    (He ann_HostNetwork (FormatBool (pi_hostNetwork i))), (Hlate ann_HostnamePath (pi_hostnamePath i)),
    (Hlate ann_SeccompProfilePath (pi_seccompRef i)), !Hb
    by in_anns.
  assert (Dir (pi_logPath i) = pi_logDir i) as ->.
  { unfold pi_logPath. rewrite Hdir. by apply Dir_PathJoin. }
  assert (ann (specAnnotations i) ann_UsernsMode = pi_usernsMode i) as ->.
  { unfold ann. by rewrite specAnnotations_userns, Hum. }
  done.
Qed.

(** The sandbox [sp] is [sb] in the server. *)
Definition at_sb (sp : ptr) (sb : Sandbox ptr St) (s : ContainerServer St) : Prop := sbs s !! sp = Some sb.

Lemma at_sb_lift {A B} sp sb (o : outcome A) (k : A → io (ContainerServer St) B) Q :
  (∀ a, triple (at_sb sp sb) (k a) Q (λ _ _, True)) → triple (at_sb sp sb) (lift o ≫= k) Q (λ _ _, True).
Proof. intros Hk. eapply triple_bind; [apply triple_lift; [intros a w _ Hw; exact Hw|done]|exact Hk]. Qed.

Lemma infra_at_sb id cID cname anns spec_ created_ sp sb :
  triple (at_sb sp sb)
    (LoadSandbox_infra unmarshal fromDisk stateToDisk joinNamespaces id cID cname anns spec_ created_ sp)
    (λ _ s, ∃ cp, at_sb sp (sb <| infraContainer := Some cp |> <| sb_created := true |>) s) (λ _ _, True).
Proof.
  unfold LoadSandbox_infra. eapply (triple_bind _ _ (λ _, at_sb sp sb)); [by intros s Hs|]. intros cp.
  apply at_sb_lift. intros _.
  set (sb1 := sb <| infraContainer := Some cp |>). eapply (triple_bind _ _ (λ _, at_sb sp sb1)).
  { intros s Hs. unfold setInfra. rewrite Hs. unfold SetInfraContainer. destruct (infraContainer sb); [done|].
    exact (lookup_insert_eq (sbs s) sp sb1). }
  intros []. eapply (triple_bind _ _ (λ _, at_sb sp sb1)).
  { intros s Hs. unfold modify, AddInfraContainer. by destruct (ctrs s !! cp). }
  intros []. do 3 (apply at_sb_lift; intros _). set (sb2 := sb1 <| sb_created := true |>).
  eapply (triple_bind _ _ (λ _, at_sb sp sb2)).
  { intros s Hs. unfold modify, at_sb. cbn. by rewrite lookup_alter_eq, Hs. }
  intros []. eapply (triple_bind _ _ (λ _, at_sb sp sb2)); [by intros s Hs|]. intros [].
  eapply (triple_bind _ _ (λ _, at_sb sp sb2)).
  { intros s Hs. unfold addCtrID. by destruct (index_add _ _). }
  intros []. intros s Hs. unfold defer_on_err, addPodID. destruct (index_add id (podIDIndex s)); [by exists cp| |done].
  by destruct (ignore _ _) as [[] ?].
Qed.

Lemma alloc_at_sb sb s sp s' : allocSb sb s = (Ret sp, s') → at_sb sp sb s'.
Proof. intros [= <- <-]. exact (lookup_insert_eq (sbs s) _ sb). Qed.

Lemma load_at_sb id anns spec_ created_ sp sb :
  triple (at_sb sp sb) (AddSandbox level sp ;;
     defer_on_err (ignore (RemoveSandbox level id))
       (_ ← lift (ContainerRunDirectory id); _ ← lift (ContainerDirectory id);
        cname ← ReserveContainerName (ann anns ann_ContainerID) (ann anns ann_ContainerName);
        defer_on_err (ReleaseContainerName cname)
          (LoadSandbox_infra unmarshal fromDisk stateToDisk joinNamespaces id (ann anns ann_ContainerID) cname
             anns spec_ created_ sp)) ;; mret sp)
    (λ q s, q = sp ∧ ∃ cp, at_sb sp (sb <| infraContainer := Some cp |> <| sb_created := true |>) s) (λ _ _, True).
Proof.
  eapply (triple_bind _ _ (λ _, at_sb sp sb)).
  { intros s Hs. unfold AddSandbox, addSandboxPlatform, modify, mbind, io_bind. by destruct (level _). }
  intros []. eapply triple_bind.
  - eapply (triple_defer _ _ _ _ _ (λ _ _, True)); [|by intros e s _; destruct (ignore _ _) as [[] ?]].
    do 2 (apply at_sb_lift; intros _). eapply (triple_bind _ _ (λ _, at_sb sp sb)).
    { intros s Hs. unfold ReserveContainerName. by destruct (Reserve _ _ _) as [? []]. }
    intros cname. eapply (triple_defer _ _ _ _ _ (λ _ _, True)); [|done]. apply infra_at_sb.
  - intros []. apply triple_ret. intros s Hs. by split.
Qed.

End restart.

(** ** Witness *)

#[local] Existing Instance ContainerServer.ms_storer.
#[local] Existing Instance ContainerServer.ms_laws.

Module ExamplePod.
(** An encoding of any countable type as a decimal number, and its inverse. *)
Definition enc {A} `{Countable A} (a : A) : string := pretty (N.pos (encode a)).
Definition dec {A} `{Countable A} (s : string) : outcome A :=
  match z ← digits_value 0 s; decode (Z.to_pos z) with Some a => Ret a | None => Fail (ErrorsNew "bad encoding") end.

Lemma dec_enc {A} `{Countable A} (a : A) : dec (enc a) = Ret a.
Proof. unfold dec, enc. rewrite digits_value_pretty. cbn. by rewrite decode_encode. Qed.

Definition encMd (md : PodSandboxMetadata) : string := enc (pm_Name md, pm_Uid md, pm_Namespace md, pm_Attempt md).
Definition decMd (s : string) : outcome PodSandboxMetadata :=
  '(a, b, c, d) ← dec s; Ret (mkPodMetadata a b c d).
Lemma decMd_encMd md : decMd (encMd md) = Ret md.
Proof. unfold decMd, encMd. rewrite dec_enc. by destruct md. Qed.

Definition info : PodInfo :=
  mkPodInfo "pod1" "k8s_p_ns_u_0" "k8s_POD_p_ns_u_0" (mkPodMetadata "p" "u" "ns" 0) ∅ {["team" := "a"]}
    "/var/log/pods" "/run/shm" true "crun" "/etc/resolv.conf" "host" "/run/hostname" false 7 "kubepods.slice"
    "runtime/default" "" "l" "m" "pause" "" "/root" false "{}" "[]" "null" "null" None.

Definition anns : gmap string string := specAnnotations enc encMd enc info.
Definition spec_ : Spec :=
  mkSpec (Some (mkSpecProcess 0 0 [] None "l" [])) (Some (mkSpecLinux None [] "m")).
Definition load : io (ContainerServer (memoryStore (T := ptr))) ptr :=
  LoadSandbox (λ _, Ret "s0") (λ _ _, Ret "config") (λ _, Ret (anns, spec_)) dec decMd (λ _, Ret ()) dec
    (λ _, Ret "/run") (λ _, Ret "/dir") (λ _, Ret ()) (λ _, Ret ()) (λ _, Ret ()) "pod1".
End ExamplePod.

Section restart_witness.
Import ExamplePod.
End restart_witness.

(** A gap: the pod's annotations and labels are added after the server's own, so an
    annotation of the pod under one of the server's keys is what a restart reads. *)
Lemma specAnnotations_overridden marshalMap marshalMetadata formatTime i k v :
  k ∉ lateKeys → pi_labels i !! k = None → pi_annotations i !! k = Some v →
  specAnnotations marshalMap marshalMetadata formatTime i !! k = Some v.
Proof.
  intros Hk Hl Ha. unfold specAnnotations. destruct (late_keys i) as [_ Hlk].
  rewrite addAnnotations_notin by (intros Hin%Hlk; done).
  rewrite !lookup_union, Hl, Ha. by destruct (addAnnotations _ _ !! k).
Qed.
