(* ===== verification/CtrSpec.v ===== *)
(** * CtrSpec: what the container factory puts into the OCI spec
    (internal/factory/container/container.go, device_linux.go, namespaces.go, and the
    functions of the vendored runtime-tools generator they use)

    The spec of a new container has its process and Linux sections, as
    [generate.New] makes them.  A function that fails leaves a spec nobody uses, so
    each function maps a spec to an [outcome].  The list of capabilities of the
    kernel, device nodes, files of the host and CDI are parameters. *)

From S2P Require Import Prelude GoStrings Container CgMgr Sandbox ConfigData PodSpec.
From Stdlib Require Import Ascii.
Local Open Scope Z_scope.

(** ** Data *)

Record Capabilities := mkCapabilities {
  Bounding : list string; Effective : list string; Inheritable : list string;
  Permitted : list string; Ambient : list string }.
#[export] Instance Capabilities_eta : Eta Capabilities := λ c,
  mkCapabilities (Bounding c) (Effective c) (Inheritable c) (Permitted c) (Ambient c).

(** [specs.LinuxDevice] and [specs.LinuxDeviceCgroup]; a nil number matches any. *)
Record LinuxDevice := mkLinuxDevice {
  ld_Path : string; ld_Type : ascii; ld_Major : Z; ld_Minor : Z; ld_FileMode : option Z; ld_UID : Z; ld_GID : Z }.
Record DeviceRule := mkDeviceRule {
  dr_Allow : bool; dr_Type : option ascii; dr_Major : option Z; dr_Minor : option Z; dr_Access : string }.

(** [specs.Mount], with its ID mappings. *)
Record IDMapping := mkIDMapping { id_Container : Z; id_Host : Z; id_Size : Z }.
Record Mount := mkMount {
  mt_Destination : string; mt_Type : string; mt_Source : string; mt_Options : list string;
  mt_UIDMappings : list IDMapping; mt_GIDMappings : list IDMapping }.
#[export] Instance Mount_eta : Eta Mount := λ m,
  mkMount (mt_Destination m) (mt_Type m) (mt_Source m) (mt_Options m) (mt_UIDMappings m) (mt_GIDMappings m).
#[export] Instance IDMapping_eq_dec : EqDecision IDMapping.
Proof. solve_decision. Defined.
#[export] Instance Mount_eq_dec : EqDecision Mount.
Proof. solve_decision. Defined.

(** The parts of [specs.Spec] the functions fill, and the generator's cache of the
    positions of the environment's variables. *)
Record OCISpec := mkOCISpec {
  g_Args : list string; g_Caps : Capabilities; g_NoNewPrivileges : bool; g_OOMScoreAdj : Z;
  g_SelinuxLabel : string; g_ApparmorProfile : string; g_Seccomp : bool;
  g_Namespaces : list LinuxNamespace; g_Devices : list LinuxDevice; g_DeviceRules : list DeviceRule;
  g_CPU : LinuxCPU; g_Memory : LinuxMemory; g_Hugepages : list LinuxHugepageLimit; g_Unified : gmap string string;
  g_MaskedPaths : list string; g_ReadonlyPaths : list string;
  g_Mounts : list Mount; g_RootfsPropagation : string;
  g_Env : list string; g_envMap : gmap string nat; g_Cwd : string;
  g_UID : Z; g_GID : Z; g_AdditionalGids : list Z }.
#[export] Instance OCISpec_eta : Eta OCISpec := λ g,
  mkOCISpec (g_Args g) (g_Caps g) (g_NoNewPrivileges g) (g_OOMScoreAdj g) (g_SelinuxLabel g) (g_ApparmorProfile g)
    (g_Seccomp g) (g_Namespaces g) (g_Devices g) (g_DeviceRules g) (g_CPU g) (g_Memory g) (g_Hugepages g)
    (g_Unified g) (g_MaskedPaths g) (g_ReadonlyPaths g) (g_Mounts g) (g_RootfsPropagation g)
    (g_Env g) (g_envMap g) (g_Cwd g) (g_UID g) (g_GID g) (g_AdditionalGids g).

(** [types.Capability], [types.LinuxContainerResources] *)
Record CapabilityRequest := mkCapRequest { AddCapabilities : list string; DropCapabilities : list string }.
Record ResourceRequest := mkResourceRequest {
  CpuPeriod : Z; CpuQuota : Z; CpuShares : Z; MemoryLimitInBytes : Z; OomScoreAdj : Z;
  CpusetCpus : string; CpusetMems : string; HugepageLimits : list LinuxHugepageLimit;
  MemorySwapLimitInBytes : Z; Unified : gmap string string }.

Inductive SupplementalGroupsPolicy := GroupsMerge | GroupsStrict | GroupsOther.
Record LinuxContainerSecurityContext := mkCtrSecurityContext {
  cs_Capabilities : option CapabilityRequest; cs_Privileged : bool; cs_NamespaceOptions : NamespaceOption;
  cs_SelinuxOptions : option SELinuxOption; cs_RunAsUser : option Z; cs_RunAsGroup : option Z;
  cs_ReadonlyRootfs : bool; cs_NoNewPrivs : bool; cs_MaskedPaths : list string; cs_ReadonlyPaths : list string;
  cs_RunAsUsername : string; cs_SupplementalGroups : list Z; cs_SupplementalGroupsPolicy : SupplementalGroupsPolicy }.

(** A requested device, and a requested CDI device by its name. *)
Record DeviceRequest := mkDeviceRequest { rd_ContainerPath : string; rd_HostPath : string; rd_Permissions : string }.

(** [types.ContainerConfig]: [Some None] for a Linux section without security context;
    a nil command or map differs from an empty one. *)
Record CtrConfig := mkCtrConfig {
  k_Name : string; k_Image : option string; k_Command : option (list string); k_Args : list string;
  k_Labels : option (gmap string string); k_Annotations : option (gmap string string); k_LogPath : string;
  k_Tty : bool; k_Stdin : bool; k_StdinOnce : bool; k_Devices : list DeviceRequest; k_CDIDevices : list string;
  k_Linux : option (option LinuxContainerSecurityContext) }.

(** The parts of the sandbox's configuration the factory reads; [Some None] for a
    Linux section without security context, else whether it is privileged. *)
Record SboxConfig := mkSboxConfig {
  x_LogDirectory : string; x_Labels : gmap string string; x_Linux : option (option bool) }.

(** ** Mounts of the generator *)

(** The generator's [AddMount] and [RemoveMount], which removes the first mount of the
    destination, and [SetLinuxRootPropagation]. *)
Definition AddMount (m : Mount) (g : OCISpec) : OCISpec := g <| g_Mounts ::= (.++ [m]) |>.
Fixpoint removeMount (dest : string) (l : list Mount) : list Mount :=
  match l with
  | [] => []
  | m :: l => if bool_decide (mt_Destination m = dest) then l else m :: removeMount dest l
  end.
Definition RemoveMount (dest : string) (g : OCISpec) : OCISpec := g <| g_Mounts ::= removeMount dest |>.

Definition rootPropagations : list string :=
  [""; "private"; "rprivate"; "slave"; "rslave"; "shared"; "rshared"; "unbindable"; "runbindable"].
Definition SetLinuxRootPropagation (rp : string) (g : OCISpec) : outcome OCISpec :=
  if bool_decide (rp ∈ rootPropagations) then Ret (g <| g_RootfsPropagation := rp |>)
  else Fail (ErrorsNew ("rootfs-propagation " +:+ rp +:+ " must be empty or one of (r)private|(r)slave|(r)shared|(r)unbindable")).

Definition SpecAddMount (m : Mount) (g : OCISpec) : OCISpec := AddMount m (RemoveMount (mt_Destination m) g).

(** [return fmt.Errorf("msg: %w", err)] on an error. *)
Definition wrapping {A} (msg : string) (o : outcome A) : outcome A :=
  match o with Fail e => Fail (Errorf msg e) | o => o end.

(** ** Process *)

Definition SpecSetProcessArgs (image : option (list string * list string)) (cfg : CtrConfig) (g : OCISpec) : outcome OCISpec :=
  let kubeCommands := default [] (k_Command cfg) in
  let kubeArgs := k_Args cfg in
  let '(kubeCommands, kubeArgs) :=
    match image with
    | Some (cmd, entrypoint) =>
        if bool_decide (kubeCommands = []) then
          (match k_Command cfg with None => entrypoint | Some c => c end,
           if bool_decide (kubeArgs = []) then cmd else kubeArgs)
        else (kubeCommands, kubeArgs)
    | None => (kubeCommands, kubeArgs)
    end in
  match kubeCommands, kubeArgs with
  | entrypoint :: args, _ => Ret (g <| g_Args := entrypoint :: args ++ kubeArgs |>)
  | [], entrypoint :: args => Ret (g <| g_Args := entrypoint :: args |>)
  | [], [] => Fail (ErrorsNew "no command specified")
  end.

Definition WillRunSystemd (g : OCISpec) : outcome bool :=
  match g_Args g with
  | [] => Panic "index out of range"
  | entrypoint :: _ => Ret (Contains entrypoint "/sbin/init" || bool_decide (Base entrypoint = "systemd"))
  end.

(** ** Settings of the factory *)

(** The new value of [c.privileged]. *)
Definition SetPrivileged (cfg : option CtrConfig) (sbox : option SboxConfig) (privileged : bool) : outcome bool :=
  match c ← cfg; l ← k_Linux c; l, s ← sbox; l ← x_Linux s; l with
  | Some sc, Some sboxPrivileged =>
      if cs_Privileged sc then
        if sboxPrivileged : bool then Ret true else Fail (ErrorsNew "no privileged container allowed in sandbox")
      else Ret privileged
  | _, _ => Ret privileged
  end.

(** [sane] is [utils.EnsureSaneLogPath]. *)
Definition LogPath (sane : string → option goerr) (id sboxLogDir : string) (cfg : CtrConfig) (sbox : SboxConfig) : outcome string :=
  let sboxLogDir := if bool_decide (x_LogDirectory sbox = "") then sboxLogDir else x_LogDirectory sbox in
  if bool_decide (sboxLogDir = "") then Fail (ErrorsNew "container has a sandbox with an empty log path")
  else
    let logPath := PathJoin [sboxLogDir; if bool_decide (k_LogPath cfg = "") then id +:+ ".log" else k_LogPath cfg] in
    match sane logPath with Some e => Fail e | None => Ret logPath end.

Definition DisableFips (sbox : SboxConfig) : bool := bool_decide (x_Labels sbox !! "FIPS_DISABLE" = Some "true").

Definition UserRequestedImage (cfg : CtrConfig) : outcome string :=
  match k_Image cfg with
  | None => Fail (ErrorsNew "CreateContainerRequest.ContainerConfig.Image is nil")
  | Some image =>
      if bool_decide (image = "") then Fail (ErrorsNew "CreateContainerRequest.ContainerConfig.Image.Image is empty")
      else Ret image
  end.

Definition ReadOnly (serverIsReadOnly : bool) (cfg : CtrConfig) : outcome bool :=
  match k_Linux cfg with
  | None => Ret serverIsReadOnly
  | Some None => Panic "nil pointer dereference"
  | Some (Some sc) => Ret (if cs_ReadonlyRootfs sc then true else serverIsReadOnly)
  end.

(** The labels by their kind, the part up to the colon; [dup] is
    [selinux.DupSecOpt].  The result is the values in the order the map is visited. *)
Definition labelKind (r : string) : string := default "" (head (Split r ":")).
Definition SelinuxLabel (dup : string → outcome (list string)) (sboxLabel : string) (cfg : CtrConfig) :
    outcome (gmap string string) :=
  match k_Linux cfg with
  | Some (Some sc) =>
      labelOptions ← dup sboxLabel;
      Ret (foldl (λ m r, <[labelKind r := r]> m) ∅ (labelOptions ++ GetLabelOptions (cs_SelinuxOptions sc)))
  | _ => Panic "nil pointer dereference"
  end.

(** [decode] is the base64 decoder. *)
Fixpoint addUnified (decode : string → option string) (l : list string) (m : gmap string string) : outcome (gmap string string) :=
  match l with
  | [] => Ret m
  | r :: l =>
      match Cut r "=" with
      | None => Fail (ErrorsNew "invalid annotation io.kubernetes.cri-o.UnifiedCgroup")
      | Some (k, v) => addUnified decode l (<[k := default v (decode v)]> m)
      end
  end.

Definition AddUnifiedResourcesFromAnnotations (decode : string → option string) (cfg : CtrConfig)
    (annotationsMap : gmap string string) (g : OCISpec) : outcome OCISpec :=
  match k_Labels cfg with
  | None => Ret g
  | Some labels =>
      let containerName := default "" (labels !! KubernetesContainerNameLabel) in
      let annotation := default "" (annotationsMap !! ("io.kubernetes.cri-o.UnifiedCgroup." +:+ containerName)) in
      if bool_decide (containerName = "") || bool_decide (annotation = "") then Ret g
      else m ← addUnified decode (Split annotation ";") (g_Unified g); Ret (g <| g_Unified := m |>)
  end.

(** ** Capabilities *)

(** Comparison is case insensitive. *)
Definition inStringSlice (ss : list string) (str : string) : bool := existsb (λ s, EqualFold s str) ss.

Definition toCAPPrefixed (cap : string) : string :=
  if HasPrefix (ToLower cap) "cap_" then cap else "CAP_" +:+ ToUpper cap.

Definition isALL (cap : string) : bool := EqualFold cap "ALL".

Section capabilities.
(** [capability.List()], by name and number, and [LastCap()]. *)
Variable capabilityList : list (string * Z).
Variable LastCap : Z.

Definition capName (c : string * Z) : string := "CAP_" +:+ ToUpper c.1.

Definition getOCICapabilitiesList : list string :=
  capName <$> filter (λ c, c.2 ≤ LastCap) capabilityList.

(** [CapValid(c, false)] *)
Definition CapValid (c : string) : option goerr :=
  if negb (HasPrefix c "CAP_") then Some (ErrorsNew ("capability " +:+ c +:+ " must start with CAP_"))
  else if bool_decide (c ∈ capName <$> capabilityList) then None
  else Some (ErrorsNew ("invalid capability: " +:+ c)).

(** Adding to one set, and removing the (only) entry of one. *)
Definition addCapability (c : string) (l : list string) : outcome (list string) :=
  let cp := ToUpper c in
  match CapValid cp with
  | Some e => Fail e
  | None => Ret (if existsb (λ cap, bool_decide (ToUpper cap = cp)) l then l else l ++ [cp])
  end.

Fixpoint removeUpper (cp : string) (l : list string) : list string :=
  match l with
  | [] => []
  | cap :: l => if bool_decide (ToUpper cap = cp) then l else cap :: removeUpper cp l
  end.
Definition dropCapability (c : string) (l : list string) : outcome (list string) :=
  let cp := ToUpper c in
  match CapValid cp with Some e => Fail e | None => Ret (removeUpper cp l) end.

(** An operation on the bounding, effective and permitted sets, and on the inheritable
    set when that is configured. *)
Definition onSets (f : list string → outcome (list string)) (inheritable : bool) (s : Capabilities) : outcome Capabilities :=
  b ← f (Bounding s);
  e ← f (Effective s);
  p ← f (Permitted s);
  i ← (if inheritable then f (Inheritable s) else Ret (Inheritable s));
  Ret (mkCapabilities b e i p (Ambient s)).

Fixpoint eachCapability {S} (f : string → S → outcome S) (l : list string) (s : S) : outcome S :=
  match l with [] => Ret s | c :: l => s ← f c s; eachCapability f l s end.

Definition addRequested (inheritable : bool) (cap : string) (s : Capabilities) : outcome Capabilities :=
  if isALL cap then Ret s
  else
    let capPrefixed := toCAPPrefixed cap in
    if negb (inStringSlice getOCICapabilitiesList capPrefixed) then
      Fail (ErrorsNew ("unknown capability " +:+ capPrefixed +:+ " to add"))
    else onSets (addCapability capPrefixed) inheritable s.

(** The check of the name is the same for every set, so that only the first can fail. *)
Definition dropRequested (inheritable : bool) (cap : string) (s : Capabilities) : outcome Capabilities :=
  if isALL cap then Ret s
  else wrapping ("failed to drop cap " +:+ toCAPPrefixed cap +:+ " ") (onSets (dropCapability (toCAPPrefixed cap)) inheritable s).

Definition noCapabilities : Capabilities := mkCapabilities [] [] [] [] [].

Definition SpecSetupCapabilities (caps : option CapabilityRequest) (defaultCaps : list string)
    (addInheritableCapabilities : bool) (g : OCISpec) : outcome OCISpec :=
  let caps := default (mkCapRequest [] []) caps in
  let addAll := inStringSlice (AddCapabilities caps) "ALL" in
  let dropAll := inStringSlice (DropCapabilities caps) "ALL" in
  let add := if addAll || dropAll then AddCapabilities caps else AddCapabilities caps ++ defaultCaps in
  s ← (if addAll then eachCapability (λ c, onSets (addCapability c) addInheritableCapabilities)
                        getOCICapabilitiesList noCapabilities
       else Ret noCapabilities);
  s ← (if dropAll then eachCapability (λ c, onSets (dropCapability c) addInheritableCapabilities)
                         getOCICapabilitiesList s
       else Ret s);
  s ← eachCapability (addRequested addInheritableCapabilities) add s;
  s ← eachCapability (dropRequested addInheritableCapabilities) (DropCapabilities caps) s;
  Ret (g <| g_Caps := s |>).

(** [SetupPrivileged(true)] *)
Definition SetupPrivileged (g : OCISpec) : OCISpec :=
  let all := capName <$> capabilityList in
  g <| g_Caps := mkCapabilities all all all all all |> <| g_SelinuxLabel := "" |> <| g_ApparmorProfile := "" |>
    <| g_Seccomp := false |>.

Definition SpecSetPrivileges (privileged : bool) (sc : LinuxContainerSecurityContext) (defaultCaps : list string)
    (addInheritableCapabilities : bool) (g : OCISpec) : outcome OCISpec :=
  g ← (if privileged then Ret (SetupPrivileged g)
       else SpecSetupCapabilities (cs_Capabilities sc) defaultCaps addInheritableCapabilities g);
  let g := g <| g_NoNewPrivileges := cs_NoNewPrivs sc |> in
  Ret (if privileged then g
       else g <| g_MaskedPaths ::= (.++ cs_MaskedPaths sc) |> <| g_ReadonlyPaths ::= (.++ cs_ReadonlyPaths sc) |>).

End capabilities.

(** ** Resources *)

(** A page size that is there already gets the new limit. *)
Fixpoint addHugepageLimit (h : LinuxHugepageLimit) (l : list LinuxHugepageLimit) : list LinuxHugepageLimit :=
  match l with
  | [] => [h]
  | h' :: l => if bool_decide (hp_Pagesize h' = hp_Pagesize h) then h :: l else h' :: addHugepageLimit h l
  end.

Definition SpecSetLinuxContainerResources (hasSwap hasHugetlb isV2 : bool) (resources : ResourceRequest)
    (containerMinMemory : Z) (g : OCISpec) : outcome OCISpec :=
  let g := g <| g_CPU ::= λ c, c <| cpu_Period := Some (wrap_u 64 (CpuPeriod resources)) |>
                                 <| cpu_Quota := Some (CpuQuota resources) |>
                                 <| cpu_Shares := Some (wrap_u 64 (CpuShares resources)) |> |> in
  let memoryLimit := MemoryLimitInBytes resources in
  let swap := MemorySwapLimitInBytes resources in
  g ← (if memoryLimit =? 0 then Ret g
       else match VerifyMemoryIsEnough memoryLimit containerMinMemory with
            | Some e => Fail e
            | None =>
                let g := g <| g_Memory ::= λ m, m <| mem_Limit := Some memoryLimit |> |> in
                if negb (swap =? 0) && ((0 <? swap) && (swap <? memoryLimit)) then
                  Fail (ErrorsNew "container create failed because memory swap limit cannot be lower than memory limit")
                else
                  let memoryLimit := if swap =? 0 then memoryLimit else swap in
                  Ret (if hasSwap then g <| g_Memory ::= λ m, m <| mem_Swap := Some memoryLimit |> |> else g)
            end);
  let g := g <| g_OOMScoreAdj := OomScoreAdj resources |>
             <| g_CPU ::= λ c, c <| cpu_Cpus := CpusetCpus resources |> <| cpu_Mems := CpusetMems resources |> |> in
  let g := if hasHugetlb : bool
           then g <| g_Hugepages ::= λ l, foldl (λ l h, addHugepageLimit h l) l (HugepageLimits resources) |> else g in
  Ret (if isV2 : bool then g <| g_Unified ::= (Unified resources ∪.) |> else g).

(** ** Namespaces *)

Definition specNamespaces : list string := ["network"; "pid"; "mount"; "ipc"; "uts"; "user"; "cgroup"].

Fixpoint replaceNamespace (ns path : string) (l : list LinuxNamespace) : list LinuxNamespace :=
  match l with
  | [] => [mkLinuxNamespace ns path]
  | n :: l => if bool_decide (ns_Type n = ns) then mkLinuxNamespace ns path :: l else n :: replaceNamespace ns path l
  end.
Definition AddOrReplaceLinuxNamespace (ns path : string) (g : OCISpec) : outcome OCISpec :=
  if bool_decide (ns ∈ specNamespaces) then Ret (g <| g_Namespaces ::= replaceNamespace ns path |>)
  else Fail (ErrorsNew ("unrecognized namespace " +:+ ns)).

Fixpoint removeNamespace (ns : string) (l : list LinuxNamespace) : list LinuxNamespace :=
  match l with
  | [] => []
  | n :: l => if bool_decide (ns_Type n = ns) then l else n :: removeNamespace ns l
  end.
Definition RemoveLinuxNamespace (ns : string) (g : OCISpec) : outcome OCISpec :=
  if bool_decide (ns ∈ specNamespaces) then Ret (g <| g_Namespaces ::= removeNamespace ns |>)
  else Fail (ErrorsNew ("unrecognized namespace " +:+ ns)).

(** [typeToSpec]; a type without entry gives the empty string. *)
Definition typeToSpec (t : NSType) : string :=
  match t with IPCNS => "ipc" | NETNS => "network" | UTSNS => "uts" | USERNS => "user" | PIDNS => "" end.

Fixpoint ConfigureGeneratorGivenNamespacePaths (l : list (string * NSType)) (g : OCISpec) : outcome OCISpec :=
  match l with
  | [] => Ret g
  | (path, t) :: l =>
      if bool_decide (path = "") then ConfigureGeneratorGivenNamespacePaths l g
      else if bool_decide (typeToSpec t = "") then Fail (ErrorsNew "invalid namespace type")
      else g ← AddOrReplaceLinuxNamespace (typeToSpec t) path g; ConfigureGeneratorGivenNamespacePaths l g
  end.

(** The sandbox by its namespace paths, its PID namespace path and whether its own PID
    option is POD; the target container by the PID namespace of its process: [None]
    for a nil container. *)
Definition SpecAddNamespaces (paths : list (string * NSType)) (pidNsPath : string) (sboxPidIsPod : bool)
    (target : option (outcome string)) (sc : LinuxContainerSecurityContext) (g : OCISpec) : outcome OCISpec :=
  g ← wrapping "failed to configure namespaces in container create: " (ConfigureGeneratorGivenNamespacePaths paths g);
  g ← (if bool_decide (no_Network (cs_NamespaceOptions sc) = NODE) then RemoveLinuxNamespace "network" g else Ret g);
  match no_Pid (cs_NamespaceOptions sc) with
  | NODE => RemoveLinuxNamespace "pid" g
  | POD =>
      if bool_decide (pidNsPath = "") then
        Fail (ErrorsNew (if sboxPidIsPod : bool
          then "PID namespace requested, but sandbox infra container unexpectedly invalid"
          else "pod level PID namespace requested for the container, but pod sandbox was not similarly configured, and does not have an infra container"))
      else wrapping "updating container PID namespace to pod: " (AddOrReplaceLinuxNamespace "pid" pidNsPath g)
  | TARGET =>
      match target with
      | None => Fail (ErrorsNew "target PID namespace specified with invalid target ID")
      | Some o => path ← o; wrapping "updating container PID namespace to target: " (AddOrReplaceLinuxNamespace "pid" path g)
      end
  | CONTAINER => Ret g
  end.

(** ** Devices *)

(** A device of the path that is there already is replaced. *)
Fixpoint addDevice (d : LinuxDevice) (l : list LinuxDevice) : list LinuxDevice :=
  match l with
  | [] => [d]
  | d' :: l => if bool_decide (ld_Path d' = ld_Path d) then d :: l else d' :: addDevice d l
  end.

(** The file mode is set for configured devices only. *)
Definition nodeDevice (path : string) (n : DevNode) (mode : option Z) (uid gid : Z) : LinuxDevice :=
  mkLinuxDevice path (dev_type n) (dev_major n) (dev_minor n) mode uid gid.
Definition nodeRule (n : DevNode) (access : string) : DeviceRule :=
  mkDeviceRule true (Some (dev_type n)) (Some (dev_major n)) (Some (dev_minor n)) access.

(** The device and its rule. *)
Definition putDevice (d : LinuxDevice) (r : DeviceRule) (g : OCISpec) : OCISpec :=
  g <| g_Devices ::= addDevice d |> <| g_DeviceRules ::= (.++ [r]) |>.

Definition addConfigured (g : OCISpec) (d : Device) : OCISpec :=
  putDevice (nodeDevice (dev_path d) (dev_node d) (Some (dev_fileMode (dev_node d))) (dev_uid (dev_node d)) (dev_gid (dev_node d)))
    (nodeRule (dev_node d) (dev_access d)) g.

Definition allowAll : DeviceRule := mkDeviceRule true None None None "rwm".

(** The devices of the host, with their paths. *)
Definition specAddHostDevicesIfPrivileged (hostDevices : outcome (list (string * DevNode)))
    (privileged privilegedWithoutHostDevices : bool) (g : OCISpec) : outcome OCISpec :=
  if negb privileged || privilegedWithoutHostDevices then Ret g
  else
    ds ← hostDevices;
    let g := foldl (λ g '(path, n),
      if (dev_major n =? 0) && (dev_minor n =? 0) then g
      else g <| g_Devices ::= addDevice (nodeDevice path n None (dev_uid n) (dev_gid n)) |>) g ds in
    Ret (g <| g_DeviceRules := [allowAll] |>).

(** [uint32] of the requested ID. *)
Definition getDeviceUserGroupID (runAsVal : option Z) (hostVal : Z) (enableOwnership : bool) : Z :=
  match runAsVal with
  | Some v => if (0 <? wrap_u 32 v) && enableOwnership then wrap_u 32 v else hostVal
  | None => hostVal
  end.

Definition errNotADevice := ErrorsNew "not a device node".

Section devices.
(** [os.Stat] of a path of the host: [Ret ()] when it exists; [SecureJoin("/", path)];
    [DeviceFromPath]; whether a path is a directory, and the files below it as [Walk]
    visits them; [strings.Replace(dpath, path, to, 1)]. *)
Variable statPath : string → outcome ().
Variable secureJoin : string → outcome string.
Variable DeviceFromPath : string → string → outcome DevNode.
Variable IsDirectory : string → option goerr.
Variable walk : string → list string.
Variable replaceOnce : string → string → string → string.
Variable IsNotExist : goerr → bool.

(** A device of a directory of devices; what is none is skipped. *)
Definition addChild (path : string) (device : DeviceRequest) (g : OCISpec) (dpath : string) : OCISpec :=
  match DeviceFromPath dpath (rd_Permissions device) with
  | Ret n => putDevice (nodeDevice (replaceOnce dpath path (rd_ContainerPath device)) n None (dev_uid n) (dev_gid n))
               (nodeRule n (rd_Permissions device)) g
  | _ => g
  end.

Definition addRequestedDevice (privileged enableOwnership : bool) (sc : LinuxContainerSecurityContext)
    (device : DeviceRequest) (g : OCISpec) : outcome OCISpec :=
  (if privileged && negb (bool_decide (rd_ContainerPath device = rd_HostPath device)) then
     match statPath (rd_ContainerPath device) with
     | Ret _ => Fail (ErrorsNew "privileged container was configured with a device container path that already exists on the host")
     | Fail e => if IsNotExist e then Ret () else Fail (Errorf "error checking if container path exists on host: " e)
     | Panic s => Panic s
     end
   else Ret ()) ;;
  path ← secureJoin (rd_HostPath device);
  match DeviceFromPath path (rd_Permissions device) with
  | Ret n =>
      Ret (putDevice (nodeDevice (rd_ContainerPath device) n None
                        (getDeviceUserGroupID (cs_RunAsUser sc) (dev_uid n) enableOwnership)
                        (getDeviceUserGroupID (cs_RunAsGroup sc) (dev_gid n) enableOwnership))
             (nodeRule n (rd_Permissions device)) g)
  | Fail e =>
      if errors_is e errNotADevice && bool_decide (IsDirectory path = None)
      then Ret (foldl (addChild path device) g (walk path))
      else Ret g
  | Panic s => Panic s
  end.

Fixpoint specAddContainerConfigDevices (privileged enableOwnership : bool) (sc : LinuxContainerSecurityContext)
    (devices : list DeviceRequest) (g : OCISpec) : outcome OCISpec :=
  match devices with
  | [] => Ret g
  | d :: devices =>
      g ← addRequestedDevice privileged enableOwnership sc d g;
      specAddContainerConfigDevices privileged enableOwnership sc devices g
  end.

(** [cdi.ParseAnnotations] of the container's annotations, [cdi.InjectDevices]. *)
Variable parseCDI : gmap string string → outcome (list string).
Variable injectCDI : list string → OCISpec → outcome OCISpec.

Definition specInjectCDIDevices (cfg : CtrConfig) (g : OCISpec) : outcome OCISpec :=
  match parseCDI (default ∅ (k_Annotations cfg)) with
  | Fail e => Fail (Errorf "failed to parse CDI device annotations: " e)
  | Panic s => Panic s
  | Ret annotated =>
      let requested := k_CDIDevices cfg ++ filter (λ n, n ∉ k_CDIDevices cfg) annotated in
      if bool_decide (requested = []) then Ret g
      else match injectCDI requested g with
           | Fail e => Fail (Errorf "CDI device injection failed: " e)
           | r => r
           end
  end.

Definition SpecAddDevices (configured annotated : list Device) (hostDevices : outcome (list (string * DevNode)))
    (privileged privilegedWithoutHostDevices enableOwnership : bool) (sc : LinuxContainerSecurityContext)
    (cfg : CtrConfig) (g : OCISpec) : outcome OCISpec :=
  let g := g <| g_Devices := [] |> in
  let g := foldl addConfigured (foldl addConfigured g configured) annotated in
  g ← specAddHostDevicesIfPrivileged hostDevices privileged privilegedWithoutHostDevices g;
  g ← specAddContainerConfigDevices privileged enableOwnership sc (k_Devices cfg) g;
  specInjectCDIDevices cfg g.
End devices.

(** ** Lemmas *)

Lemma outcome_bind_ret {A B} (o : outcome A) (k : A → outcome B) b :
  (o ≫= k) = Ret b → ∃ a, o = Ret a ∧ k a = Ret b.
Proof. destruct o as [a| |]; cbn; [|done..]. by exists a. Qed.
Ltac go_bind H a Ha := apply outcome_bind_ret in H as (a & Ha & H).

Lemma wrapping_ret {A} msg (o : outcome A) a : wrapping msg o = Ret a → o = Ret a.
Proof. by destruct o. Qed.

(** *** Capabilities *)

Lemma ToUpper_idemp s : ToUpper (ToUpper s) = ToUpper s.
Proof.
  unfold ToUpper. induction s as [|c s IH]; [done|]. cbn. rewrite IH. f_equal.
  by destruct c as [[] [] [] [] [] [] [] []].
Qed.

Lemma ToUpper_app s t : ToUpper (s +:+ t) = ToUpper s +:+ ToUpper t.
Proof.
  unfold ToUpper. induction s as [|c s IH]; [done|]. rewrite append_cons. cbn [str_map]. by rewrite append_cons, IH.
Qed.

Section setup.
Variable capabilityList : list (string * Z).
Variable LastCap : Z.
Abbreviation addCapability := (addCapability capabilityList).
Abbreviation dropCapability := (dropCapability capabilityList).
Abbreviation getOCICapabilitiesList := (getOCICapabilitiesList capabilityList LastCap).

(** A set as the functions build it: without duplicates, in capitals. *)
Definition capset (l : list string) : Prop := NoDup l ∧ Forall (λ c, ToUpper c = c) l.

Lemma capset_nil : capset [].
Proof. by split; constructor. Qed.

Lemma addCapability_elem c l l' :
  capset l → addCapability c l = Ret l' → capset l' ∧ ∀ x, x ∈ l' ↔ x ∈ l ∨ x = ToUpper c.
Proof.
  intros [Hnd Hup]. unfold CtrSpec.addCapability. destruct (CapValid _ _); [done|]. intros [= <-].
  assert (existsb (λ cap, bool_decide (ToUpper cap = ToUpper c)) l = true ↔ ToUpper c ∈ l) as Hex.
  { rewrite existsb_exists. rewrite Forall_forall in Hup. split.
    - intros (y & Hy%list_elem_of_In & Heq%bool_decide_eq_true). rewrite <- Heq. by rewrite (Hup y).
    - intros Hin. exists (ToUpper c). split; [by apply list_elem_of_In|]. apply bool_decide_eq_true. by rewrite (Hup (ToUpper c)). }
  destruct (existsb _ l).
  - split; [done|]. intros x. assert (ToUpper c ∈ l) by by apply Hex. set_solver.
  - assert (ToUpper c ∉ l) as Hn by (intros Hin; apply Hex in Hin; done). split.
    + split; [by apply NoDup_app_singleton|]. apply Forall_app. split; [done|]. repeat constructor. apply ToUpper_idemp.
    + intros x. rewrite elem_of_app, list_elem_of_singleton. done.
Qed.

Lemma dropCapability_elem c l l' :
  capset l → dropCapability c l = Ret l' → capset l' ∧ ∀ x, x ∈ l' ↔ x ∈ l ∧ x ≠ ToUpper c.
Proof.
  intros [Hnd Hup]. unfold CtrSpec.dropCapability. destruct (CapValid _ _); [done|]. intros [= <-].
  induction l as [|y l IH]; cbn; [split; [apply capset_nil|set_solver]|].
  apply NoDup_cons in Hnd as [Hy Hnd]. apply Forall_cons in Hup as [Hu Hup].
  case_bool_decide as Heq; rewrite Hu in Heq.
  - split; [done|]. intros x. rewrite elem_of_cons. set_solver.
  - destruct (IH Hnd Hup) as [[Hnd' Hup'] Hx]. split.
    + split; constructor; [|done|done|done]. rewrite Hx. tauto.
    + intros x. rewrite !elem_of_cons, Hx. set_solver.
Qed.

(** The sets that [onSets] keeps alike. *)
Definition alike (inheritable : bool) (b : list string) : Capabilities :=
  mkCapabilities b b (if inheritable then b else []) b [].

Lemma onSets_alike f inh b : onSets f inh (alike inh b) = (b' ← f b; Ret (alike inh b')).
Proof. unfold onSets, alike. cbn. destruct (f b) as [b'| |] eqn:Hf; cbn; [|done..]. by destruct inh; cbn; rewrite ?Hf. Qed.

Lemma each_alike (F : string → Capabilities → outcome Capabilities) (f : string → list string → outcome (list string)) inh l b :
  (∀ c b, F c (alike inh b) = (b' ← f c b; Ret (alike inh b'))) →
  eachCapability F l (alike inh b) = (b' ← eachCapability f l b; Ret (alike inh b')).
Proof.
  intros HF. revert b. induction l as [|c l IH]; intros b; cbn; [done|]. rewrite HF. by destruct (f c b); cbn; [apply IH|..].
Qed.

(** A loop that adds or drops the entries [name c] of those [c] it does not [skip]. *)
Lemma each_elem (f : string → list string → outcome (list string)) (skip : string → bool) (name : string → string)
    (R : Prop → Prop → Prop) l b b' :
  (∀ c b b', capset b → f c b = Ret b' → capset b' ∧ ∀ x, x ∈ b' ↔ R (x ∈ b) (skip c = false ∧ x = name c)) →
  (∀ P Q Q', R (R P Q) Q' ↔ R P (Q ∨ Q')) → (∀ P, R P False ↔ P) → (∀ P P' Q Q', (P ↔ P') → (Q ↔ Q') → R P Q ↔ R P' Q') →
  capset b → eachCapability f l b = Ret b' →
  capset b' ∧ ∀ x, x ∈ b' ↔ R (x ∈ b) (∃ c, c ∈ l ∧ skip c = false ∧ x = name c).
Proof.
  intros Hf HR H0 HP. revert b. induction l as [|c l IH]; intros b Hb; cbn.
  - intros [= <-]. split; [done|]. intros x. rewrite <- (H0 (x ∈ b)) at 1. apply HP; [done|set_solver].
  - destruct (f c b) as [b1| |] eqn:H1; cbn; [|done..]. intros H2. destruct (Hf c b b1 Hb H1) as [Hb1 Hx1].
    destruct (IH b1 Hb1 H2) as [Hb' Hx]. split; [done|]. intros x. rewrite Hx. etrans.
    { apply HP; [apply Hx1|reflexivity]. } rewrite HR. apply HP; [done|]. split.
    + intros [[??]|(d & ? & ? & ?)]; [exists c|exists d]; set_solver.
    + intros (d & [->|?]%elem_of_cons & ? & ?); [by left|right; by exists d].
Qed.

Lemma getOCI_upper c : c ∈ getOCICapabilitiesList → ToUpper c = c.
Proof.
  intros ([n i] & -> & _)%list_elem_of_fmap. unfold capName. rewrite ToUpper_app, ToUpper_idemp. done.
Qed.

(** The capability a request names. *)
Definition named (cap : string) : string := ToUpper (toCAPPrefixed cap).
Definition requests (x : string) (l : list string) : Prop := ∃ c, c ∈ l ∧ isALL c = false ∧ x = named c.

Definition add1 (cap : string) (b : list string) : outcome (list string) :=
  if isALL cap then Ret b
  else if negb (inStringSlice getOCICapabilitiesList (toCAPPrefixed cap)) then
    Fail (ErrorsNew ("unknown capability " +:+ toCAPPrefixed cap +:+ " to add"))
  else addCapability (toCAPPrefixed cap) b.
Definition drop1 (cap : string) (b : list string) : outcome (list string) :=
  if isALL cap then Ret b else wrapping ("failed to drop cap " +:+ toCAPPrefixed cap +:+ " ") (dropCapability (toCAPPrefixed cap) b).

Lemma add_loop (f : string → list string → outcome (list string)) skip name l b b' :
  (∀ c b b', capset b → f c b = Ret b' → capset b' ∧ ∀ x, x ∈ b' ↔ x ∈ b ∨ (skip c = false ∧ x = name c)) →
  capset b → eachCapability f l b = Ret b' →
  capset b' ∧ ∀ x, x ∈ b' ↔ x ∈ b ∨ ∃ c, c ∈ l ∧ skip c = false ∧ x = name c.
Proof. intros Hf. apply (each_elem f skip name or); [done|tauto|tauto|intros; tauto]. Qed.

Lemma drop_loop (f : string → list string → outcome (list string)) skip name l b b' :
  (∀ c b b', capset b → f c b = Ret b' → capset b' ∧ ∀ x, x ∈ b' ↔ x ∈ b ∧ ¬ (skip c = false ∧ x = name c)) →
  capset b → eachCapability f l b = Ret b' →
  capset b' ∧ ∀ x, x ∈ b' ↔ x ∈ b ∧ ¬ ∃ c, c ∈ l ∧ skip c = false ∧ x = name c.
Proof. intros Hf. apply (each_elem f skip name (λ P Q, P ∧ ¬ Q)); [done|tauto|tauto|intros; tauto]. Qed.

Lemma add1_elem c b b' :
  capset b → add1 c b = Ret b' → capset b' ∧ ∀ x, x ∈ b' ↔ x ∈ b ∨ (isALL c = false ∧ x = named c).
Proof.
  intros Hb. unfold add1. destruct (isALL c); [intros [= <-]; split; [done|]; naive_solver|].
  destruct (negb _); [done|]. intros (Hb' & Hx)%addCapability_elem; [|done]. split; [done|]. intros x. rewrite Hx.
  unfold named. tauto.
Qed.

Lemma drop1_elem c b b' :
  capset b → drop1 c b = Ret b' → capset b' ∧ ∀ x, x ∈ b' ↔ x ∈ b ∧ ¬ (isALL c = false ∧ x = named c).
Proof.
  intros Hb. unfold drop1. destruct (isALL c); [intros [= <-]; split; [done|]; naive_solver|].
  destruct (dropCapability _ b) eqn:Hd; cbn; [|done..]. intros [= ->].
  apply dropCapability_elem in Hd as (Hb' & Hx); [|done]. split; [done|]. intros x. rewrite Hx. unfold named. tauto.
Qed.

(** The four loops on one set. *)
Lemma setup_one (addAll dropAll : bool) add drop b1 b2 b3 b4 :
  (if addAll then eachCapability (λ c, addCapability c) getOCICapabilitiesList [] else Ret []) = Ret b1 →
  (if dropAll then eachCapability (λ c, dropCapability c) getOCICapabilitiesList b1 else Ret b1) = Ret b2 →
  eachCapability add1 add b2 = Ret b3 → eachCapability drop1 drop b3 = Ret b4 →
  capset b4 ∧ ∀ x, x ∈ b4 ↔
    (addAll = true ∧ dropAll = false ∧ x ∈ getOCICapabilitiesList ∨ requests x add) ∧ ¬ requests x drop.
Proof.
  intros H1 H2 H3 H4.
  assert (capset b1 ∧ ∀ x, x ∈ b1 ↔ addAll = true ∧ x ∈ getOCICapabilitiesList) as [Hb1 Hx1].
  { destruct addAll; [|injection H1 as <-; split; [apply capset_nil|set_solver]].
    apply (add_loop _ (λ _, false) ToUpper) in H1 as [? Hx]; [|intros c b b' Hb Hc%addCapability_elem; [set_solver|done]|apply capset_nil].
    split; [done|]. intros x. rewrite Hx. split.
    - intros [?|(c & Hc & _ & ->)]; [set_solver|]. by rewrite (getOCI_upper _ Hc).
    - intros [_ Hc]. right. exists x. by rewrite (getOCI_upper _ Hc). }
  assert (capset b2 ∧ ∀ x, x ∈ b2 ↔ addAll = true ∧ dropAll = false ∧ x ∈ getOCICapabilitiesList) as [Hb2 Hx2].
  { destruct dropAll; [|injection H2 as <-; split; [done|]; intros x; rewrite Hx1; tauto].
    apply (drop_loop _ (λ _, false) ToUpper) in H2 as [? Hx]; [|intros c b b' Hb Hc%dropCapability_elem; [set_solver|done]|done].
    split; [done|]. intros x. rewrite Hx, Hx1. split; [|naive_solver]. intros [[_ Hc] Hn]. destruct Hn.
    exists x. by rewrite (getOCI_upper _ Hc). }
  apply (add_loop _ isALL named) in H3 as [Hb3 Hx3]; [|intros; by eapply add1_elem|done].
  apply (drop_loop _ isALL named) in H4 as [Hb4 Hx4]; [|intros; by eapply drop1_elem|done].
  split; [done|]. intros x. unfold requests. by rewrite Hx4, Hx3, Hx2.
Qed.

(** The four loops keep the sets alike. *)
Lemma setup_alike (addAll dropAll inh : bool) add drop (k : Capabilities → outcome OCISpec) :
  (s ← (if addAll then eachCapability (λ c, onSets (addCapability c) inh) getOCICapabilitiesList (alike inh [])
        else Ret (alike inh []));
   s ← (if dropAll then eachCapability (λ c, onSets (dropCapability c) inh) getOCICapabilitiesList s else Ret s);
   s ← eachCapability (addRequested capabilityList LastCap inh) add s;
   s ← eachCapability (dropRequested capabilityList inh) drop s; k s) =
  (b1 ← (if addAll then eachCapability (λ c, addCapability c) getOCICapabilitiesList [] else Ret []);
   b2 ← (if dropAll then eachCapability (λ c, dropCapability c) getOCICapabilitiesList b1 else Ret b1);
   b3 ← eachCapability add1 add b2; b4 ← eachCapability drop1 drop b3; k (alike inh b4)).
Proof.
  assert (∀ (b : bool) F f l s, (∀ c b, F c (alike inh b) = (b' ← f c b; Ret (alike inh b'))) →
    (if b then eachCapability F l (alike inh s) else Ret (alike inh s)) =
    (b' ← (if b then eachCapability f l s else Ret s); Ret (alike inh b'))) as Hif.
  { intros b F f l s HF. destruct b; [by apply each_alike|done]. }
  rewrite (Hif addAll _ (λ c, addCapability c)) by (intros; apply onSets_alike).
  destruct (if addAll then _ else _) as [b1| |]; cbn; [|done..].
  rewrite (Hif dropAll _ (λ c, dropCapability c)) by (intros; apply onSets_alike).
  destruct (if dropAll then _ else _) as [b2| |]; cbn; [|done..].
  rewrite (each_alike _ add1).
  2: { intros c b. unfold addRequested, add1. destruct (isALL c); [done|]. destruct (negb _); [done|]. apply onSets_alike. }
  destruct (eachCapability add1 add b2) as [b3| |]; cbn; [|done..].
  rewrite (each_alike _ drop1).
  2: { intros c b. unfold dropRequested, drop1. destruct (isALL c); [done|]. rewrite onSets_alike. by destruct (dropCapability _ b). }
  by destruct (eachCapability drop1 drop b3).
Qed.

(** A loop succeeds when each step does. *)
Lemma each_total {S} (f : string → S → outcome S) (ok : string → Prop) l s :
  (∀ c s, ok c ↔ ∃ s', f c s = Ret s') → (∀ c, c ∈ l → ok c) ↔ ∃ s', eachCapability f l s = Ret s'.
Proof.
  intros Hf. revert s. induction l as [|c l IH]; intros s; cbn; [split; [by exists s|set_solver]|]. split.
  - intros Hok. destruct (proj1 (Hf c s) (Hok c (list_elem_of_here _ _))) as [s1 ->]. cbn. apply IH. set_solver.
  - intros [s' Hs]. go_bind Hs s1 H1. intros d [->|Hd]%elem_of_cons; [apply (Hf c s); by exists s1|].
    by apply (proj2 (IH s1) (ex_intro _ s' Hs)).
Qed.

Lemma CapValid_spec c : CapValid capabilityList c = None ↔ c ∈ capName <$> capabilityList.
Proof.
  unfold CapValid. split.
  - destruct (negb _); [done|]. by case_bool_decide.
  - intros Hc. pose proof Hc as ([n i] & -> & _)%list_elem_of_fmap. unfold capName at 1. rewrite HasPrefix_app. cbn [negb].
    by rewrite bool_decide_true.
Qed.

Lemma addCapability_ok c b : ToUpper c ∈ capName <$> capabilityList ↔ ∃ b', addCapability c b = Ret b'.
Proof. rewrite <- CapValid_spec. unfold CtrSpec.addCapability. destruct (CapValid _ _); naive_solver. Qed.
Lemma dropCapability_ok c b : ToUpper c ∈ capName <$> capabilityList ↔ ∃ b', dropCapability c b = Ret b'.
Proof. rewrite <- CapValid_spec. unfold CtrSpec.dropCapability. destruct (CapValid _ _); naive_solver. Qed.

Lemma getOCI_valid c : c ∈ getOCICapabilitiesList → ToUpper c ∈ capName <$> capabilityList.
Proof.
  intros Hc. rewrite (getOCI_upper c Hc). apply list_elem_of_fmap in Hc as (x & -> & Hx).
  apply list_elem_of_filter in Hx as [_ Hx]. apply list_elem_of_fmap. by exists x.
Qed.

Lemma ToUpper_ToLower s : ToUpper (ToLower s) = ToUpper s.
Proof.
  unfold ToUpper, ToLower. induction s as [|c s IH]; [done|]. cbn. rewrite IH. f_equal.
  by destruct c as [[] [] [] [] [] [] [] []].
Qed.

Lemma inStringSlice_upper l c :
  Forall (λ c, ToUpper c = c) l → inStringSlice l c = true ↔ ToUpper c ∈ l.
Proof.
  intros Hl. unfold inStringSlice, EqualFold. rewrite existsb_exists. rewrite Forall_forall in Hl. split.
  - intros (y & Hy%list_elem_of_In & Heq%bool_decide_eq_true). apply (f_equal ToUpper) in Heq.
    rewrite !ToUpper_ToLower, (Hl y Hy) in Heq. by subst y.
  - intros Hin. exists (ToUpper c). split; [by apply list_elem_of_In|]. apply bool_decide_eq_true.
    clear. unfold ToLower, ToUpper. induction c as [|a s IH]; [done|]. cbn. rewrite IH. f_equal.
    by destruct a as [[] [] [] [] [] [] [] []].
Qed.

(** A name that can be added, and one that can be dropped. *)
Definition known (c : string) : Prop := isALL c = true ∨ named c ∈ getOCICapabilitiesList.
Definition valid (c : string) : Prop := isALL c = true ∨ named c ∈ capName <$> capabilityList.

Lemma add1_ok c b : known c ↔ ∃ b', add1 c b = Ret b'.
Proof.
  unfold known, add1. destruct (isALL c); [naive_solver|].
  assert (inStringSlice getOCICapabilitiesList (toCAPPrefixed c) = true ↔ named c ∈ getOCICapabilitiesList) as Hin.
  { apply inStringSlice_upper. rewrite Forall_forall. intros x. apply getOCI_upper. }
  destruct (inStringSlice _ _); cbn [negb].
  - assert (named c ∈ getOCICapabilitiesList) as Hn by by apply Hin.
    pose proof (getOCI_valid _ Hn) as Hv. unfold named in Hv. rewrite ToUpper_idemp in Hv.
    apply (addCapability_ok _ b) in Hv. tauto.
  - split; [intros [?|?%Hin]; done|naive_solver].
Qed.

Lemma drop1_ok c b : valid c ↔ ∃ b', drop1 c b = Ret b'.
Proof.
  unfold valid, drop1, named. destruct (isALL c); [naive_solver|]. rewrite (dropCapability_ok _ b).
  destruct (dropCapability _ b); cbn; naive_solver.
Qed.

(** Adding and dropping all of them succeeds. *)
Lemma setup_all (addAll dropAll : bool) :
  ∃ b1 b2, (if addAll then eachCapability (λ c, addCapability c) getOCICapabilitiesList [] else Ret []) = Ret b1 ∧
    (if dropAll then eachCapability (λ c, dropCapability c) getOCICapabilitiesList b1 else Ret b1) = Ret b2.
Proof.
  assert (∃ b1, (if addAll then eachCapability (λ c, addCapability c) getOCICapabilitiesList [] else Ret []) = Ret b1)
    as [b1 H1].
  { destruct addAll; [|by eexists]. apply (each_total _ (λ c, ToUpper c ∈ capName <$> capabilityList)).
    - intros; apply addCapability_ok.
    - apply getOCI_valid. }
  exists b1. destruct dropAll; [|by eexists].
  destruct (proj1 (each_total (λ c, dropCapability c) (λ c, ToUpper c ∈ capName <$> capabilityList)
    getOCICapabilitiesList b1 (λ c s, dropCapability_ok c s)) getOCI_valid) as [b2 H2].
  by exists b2.
Qed.

Lemma each_no_panic {S} (f : string → S → outcome S) l s why :
  (∀ c s why, f c s ≠ Panic why) → eachCapability f l s ≠ Panic why.
Proof.
  intros Hf. revert s. induction l as [|c l IH]; intros s; cbn; [done|].
  destruct (f c s) eqn:Hc; cbn; [apply IH|done|by apply Hf in Hc].
Qed.
Lemma add1_no_panic l b why : eachCapability add1 l b ≠ Panic why.
Proof.
  apply each_no_panic. intros c s w. unfold add1, CtrSpec.addCapability.
  destruct (isALL c); [done|]. destruct (negb _); [done|]. by destruct (CapValid _ _).
Qed.
Lemma drop1_no_panic l b why : eachCapability drop1 l b ≠ Panic why.
Proof.
  apply each_no_panic. intros c s w. unfold drop1, CtrSpec.dropCapability.
  destruct (isALL c); [done|]. by destruct (CapValid _ _).
Qed.

(** C5: the capabilities of an unprivileged container are exactly those allowed.  The
    spec is made when every capability to add, the defaults included when ALL is
    neither added nor dropped, is one of the kernel and every one to drop has a valid
    name, whatever their case and prefix; then the bounding, effective and permitted
    sets hold the requested capabilities (all of the kernel for ALL, unless ALL is
    dropped too) without the dropped ones and without duplicates, there are no ambient
    ones, and no inheritable ones unless configured.  Else the request fails. *)
Theorem SpecSetupCapabilities_exact caps defaultCaps inh g :
  let add := default [] (AddCapabilities <$> caps) in let drop := default [] (DropCapabilities <$> caps) in
  let addAll := inStringSlice add "ALL" in let dropAll := inStringSlice drop "ALL" in
  let wanted := if addAll || dropAll then add else add ++ defaultCaps in
  match SpecSetupCapabilities capabilityList LastCap caps defaultCaps inh g with
  | Ret g' =>
      (∀ c, c ∈ wanted → known c) ∧ (∀ c, c ∈ drop → valid c) ∧
      let b := Bounding (g_Caps g') in
      g' = g <| g_Caps := mkCapabilities b b (if inh then b else []) b [] |> ∧ NoDup b ∧
      ∀ x, x ∈ b ↔ (addAll = true ∧ dropAll = false ∧ x ∈ getOCICapabilitiesList ∨ requests x wanted) ∧ ¬ requests x drop
  | Fail _ => ¬ ((∀ c, c ∈ wanted → known c) ∧ (∀ c, c ∈ drop → valid c))
  | Panic _ => False
  end.
Proof.
  unfold SpecSetupCapabilities. set (r := default (mkCapRequest [] []) caps).
  assert (default [] (AddCapabilities <$> caps) = AddCapabilities r ∧ default [] (DropCapabilities <$> caps) = DropCapabilities r)
    as [-> ->] by by destruct caps.
  cbn zeta. clearbody r. clear caps. set (addAll := inStringSlice _ _). set (dropAll := inStringSlice _ _).
  set (add := if addAll || dropAll then _ else _). assert (noCapabilities = alike inh []) as -> by by destruct inh.
  rewrite setup_alike. destruct (setup_all addAll dropAll) as (b1 & b2 & H1 & H2). rewrite H1. cbn. rewrite H2. cbn.
  pose proof (each_total add1 known add b2 add1_ok) as Hadd.
  destruct (eachCapability add1 add b2) as [b3|e|s] eqn:H3; cbn; [|intros [Hk _]; apply Hadd in Hk as [? ?]; done|].
  2: { by apply add1_no_panic in H3. }
  pose proof (each_total drop1 valid (DropCapabilities r) b3 drop1_ok) as Hdrop.
  destruct (eachCapability drop1 _ b3) as [b4|e|s] eqn:H4; cbn; [|intros [_ Hk]; apply Hdrop in Hk as [? ?]; done|].
  2: { by apply drop1_no_panic in H4. }
  destruct (setup_one addAll dropAll add (DropCapabilities r) b1 b2 b3 b4) as [[Hnd _] Hx]; try done.
  split_and!; [apply Hadd; by exists b3|apply Hdrop; by exists b4|done|done|exact Hx].
Qed.
End setup.

(** *** Resources *)

(** C37: the memory limits of a container are consistent: a limit is at least the
    minimum of the runtime, and a positive swap limit at least the memory limit; the
    swap limit is set only on nodes with swap, to the memory limit when it is not
    given; the request fails exactly otherwise, and the unsigned CPU values are in
    range. *)
Theorem SpecSetLinuxContainerResources_bounds hasSwap hasHugetlb isV2 r minMemory g :
  let limit := MemoryLimitInBytes r in let swap := MemorySwapLimitInBytes r in
  match SpecSetLinuxContainerResources hasSwap hasHugetlb isV2 r minMemory g with
  | Ret g' =>
      (limit = 0 ∧ g_Memory g' = g_Memory g ∨
       limit ≠ 0 ∧ minMemory ≤ limit ∧ (swap ≤ 0 ∨ limit ≤ swap) ∧ mem_Limit (g_Memory g') = Some limit ∧
       mem_Swap (g_Memory g') = if hasSwap : bool then Some (if swap =? 0 then limit else swap) else mem_Swap (g_Memory g)) ∧
      (∃ period, cpu_Period (g_CPU g') = Some period ∧ in_u 64 period ∧ (0 ≤ CpuPeriod r < 2 ^ 64 → period = CpuPeriod r)) ∧
      (∃ shares, cpu_Shares (g_CPU g') = Some shares ∧ in_u 64 shares ∧ (0 ≤ CpuShares r < 2 ^ 64 → shares = CpuShares r))
  | Fail _ => limit ≠ 0 ∧ (limit < minMemory ∨ 0 < swap < limit)
  | Panic _ => False
  end.
Proof.
  cbn zeta. unfold SpecSetLinuxContainerResources.
  assert (∀ z, in_u 64 (wrap_u 64 z) ∧ (0 ≤ z < 2 ^ 64 → wrap_u 64 z = z)) as Hw.
  { intros z. split; [by apply wrap_u_range|]. intros Hz. by apply wrap_u_id. }
  set (g1 := g <| g_CPU ::= _ |>).
  destruct (MemoryLimitInBytes r =? 0) eqn:H0; cbn [mbind outcome_bind].
  { apply Z.eqb_eq in H0. split; [left; split; [done|by destruct hasHugetlb, isV2]|].
    split; eexists; (split; [by destruct hasHugetlb, isV2|apply Hw]). }
  apply Z.eqb_neq in H0. unfold VerifyMemoryIsEnough.
  assert (negb (MemoryLimitInBytes r =? 0) = true) as -> by (apply negb_true_iff, Z.eqb_neq; done). cbn [andb].
  destruct (MemoryLimitInBytes r <? minMemory) eqn:H1; cbn [mbind outcome_bind]; [split; [done|left; lia]|].
  destruct (MemorySwapLimitInBytes r =? 0) eqn:H2; cbn [negb andb mbind outcome_bind];
    [|destruct ((0 <? MemorySwapLimitInBytes r) && (MemorySwapLimitInBytes r <? MemoryLimitInBytes r)) eqn:H3;
      cbn [mbind outcome_bind]; [split; [done|lia]|]].
  all: split; [right; split_and!; [done|lia|lia|by destruct hasSwap, hasHugetlb, isV2|by destruct hasSwap, hasHugetlb, isV2]|].
  all: split; eexists; (split; [by destruct hasSwap, hasHugetlb, isV2|apply Hw]).
Qed.

(** *** Namespaces *)

(** Each namespace is listed once; its path, or that the host's is used. *)
Definition once (l : list LinuxNamespace) : Prop := NoDup (ns_Type <$> l).

Definition pathOf (ns : string) (l : list LinuxNamespace) (path : string) : Prop := mkLinuxNamespace ns path ∈ l.
Definition absent (ns : string) (l : list LinuxNamespace) : Prop := ns ∉ ns_Type <$> l.

Lemma replaceNamespace_types ns path l x :
  x ∈ ns_Type <$> replaceNamespace ns path l ↔ x = ns ∨ x ∈ ns_Type <$> l.
Proof.
  induction l as [|n l IH]; cbn; [set_solver|]. case_bool_decide as Hn; cbn; rewrite !elem_of_cons; [|rewrite IH]; set_solver.
Qed.

Lemma replaceNamespace_spec ns path l :
  once l → once (replaceNamespace ns path l) ∧ pathOf ns (replaceNamespace ns path l) path ∧
  ∀ m, ns_Type m ≠ ns → m ∈ replaceNamespace ns path l ↔ m ∈ l.
Proof.
  unfold once, pathOf. induction l as [|n l IH]; cbn; intros Hnd.
  { split_and!; [by apply NoDup_singleton|set_solver|]. intros m Hm. rewrite elem_of_cons. set_solver. }
  apply NoDup_cons in Hnd as [Hn Hnd]. case_bool_decide as Heq; cbn.
  - subst ns. split_and!; [by apply NoDup_cons|set_solver|]. intros m Hm. rewrite !elem_of_cons. set_solver.
  - destruct (IH Hnd) as (H1 & H2 & H3). split_and!.
    + apply NoDup_cons. split; [|done]. rewrite replaceNamespace_types. naive_solver.
    + by apply list_elem_of_further.
    + intros m Hm. rewrite !elem_of_cons, H3; done.
Qed.

Lemma removeNamespace_spec ns l :
  once l → once (removeNamespace ns l) ∧ absent ns (removeNamespace ns l) ∧
  ∀ m, ns_Type m ≠ ns → m ∈ removeNamespace ns l ↔ m ∈ l.
Proof.
  unfold once, absent. induction l as [|n l IH]; cbn; intros Hnd; [split_and!; [done|set_solver|done]|].
  apply NoDup_cons in Hnd as [Hn Hnd]. case_bool_decide as Heq.
  - subst ns. split_and!; [done|done|]. intros m Hm. rewrite elem_of_cons. set_solver.
  - destruct (IH Hnd) as (H1 & H2 & H3). split_and!; cbn.
    + apply NoDup_cons. split; [|done]. rewrite list_elem_of_fmap in Hn |- *. intros (m & Hm & Hin). apply Hn. exists m.
      split; [done|]. apply H3; [congruence|done].
    + set_solver.
    + intros m Hm. rewrite !elem_of_cons, H3; done.
Qed.

Lemma AddOrReplace_ok ns path g g' :
  AddOrReplaceLinuxNamespace ns path g = Ret g' → g_Namespaces g' = replaceNamespace ns path (g_Namespaces g).
Proof. unfold AddOrReplaceLinuxNamespace. case_bool_decide; [|done]. by intros [= <-]. Qed.
Lemma RemoveLinux_ok ns g g' :
  RemoveLinuxNamespace ns g = Ret g' → g_Namespaces g' = removeNamespace ns (g_Namespaces g).
Proof. unfold RemoveLinuxNamespace. case_bool_decide; [|done]. by intros [= <-]. Qed.

(** The managed namespaces of the sandbox: each is listed once, and none is a PID
    namespace. *)
Lemma Configure_spec l g g' :
  once (g_Namespaces g) → ConfigureGeneratorGivenNamespacePaths l g = Ret g' →
  once (g_Namespaces g') ∧ (∀ m, ns_Type m = "pid" → m ∈ g_Namespaces g' ↔ m ∈ g_Namespaces g) ∧
  (NoDup l.*2 → ∀ path t, (path, t) ∈ l → path ≠ "" → pathOf (typeToSpec t) (g_Namespaces g') path) ∧
  (∀ m, (∀ path t, (path, t) ∈ l → typeToSpec t ≠ ns_Type m) → m ∈ g_Namespaces g' ↔ m ∈ g_Namespaces g).
Proof.
  revert g. induction l as [|[path t] l IH]; intros g Hg; cbn.
  { intros [= <-]. split_and!; [done|done|set_solver|done]. }
  case_bool_decide as Hp.
  { intros (H1 & H2 & H3 & H4)%IH; [|done]. split_and!; [done|done| |].
    - intros [_ Hnd]%NoDup_cons q u Hin Hq. apply H3; [done| |done]. apply elem_of_cons in Hin as [[= -> ->]|?]; done.
    - intros m Hm. apply H4. intros q u Hin. apply (Hm q u). by apply list_elem_of_further. }
  case_bool_decide as Ht; [done|]. intros Hr. go_bind Hr g1 Ha. apply AddOrReplace_ok in Ha.
  destruct (replaceNamespace_spec (typeToSpec t) path _ Hg) as (R1 & R2 & R3). rewrite <- Ha in R1, R2, R3.
  destruct (IH g1 R1 Hr) as (H1 & H2 & H3 & H4). split_and!; [done| | |].
  - intros m Hm. rewrite H2, R3; [done| |done]. rewrite Hm. by destruct t.
  - intros [Hn Hnd]%NoDup_cons q u Hin Hq. apply elem_of_cons in Hin as [[= -> ->]|?]; [|by apply H3].
    apply H4; [|done]. cbn. intros q u Hin Heq. apply Hn. apply list_elem_of_fmap. exists (q, u). split; [|done].
    cbn. by destruct t, u.
  - intros m Hm. rewrite H4, R3; [done| |]; [|intros q u Hin; apply (Hm q u); by apply list_elem_of_further].
    intros Heq. apply (Hm path t); [apply list_elem_of_here|done].
Qed.

(** C36: a container gets the namespaces it asks for: every managed namespace of its
    pod by its path; the network of the host exactly when it asks for it; and for the
    PID namespace the host's, the pod's, the one of the target container, or the one
    the spec had; each namespace is listed once. *)
Theorem SpecAddNamespaces_isolation paths pidNsPath sboxPod target sc g g' :
  once (g_Namespaces g) → NoDup paths.*2 →
  SpecAddNamespaces paths pidNsPath sboxPod target sc g = Ret g' →
  let l := g_Namespaces g' in
  once l ∧
  (∀ path t, (path, t) ∈ paths → path ≠ "" → t ≠ NETNS → pathOf (typeToSpec t) l path) ∧
  (if bool_decide (no_Network (cs_NamespaceOptions sc) = NODE) then absent "network" l
   else ∀ path, (path, NETNS) ∈ paths → path ≠ "" → pathOf "network" l path) ∧
  match no_Pid (cs_NamespaceOptions sc) with
  | NODE => absent "pid" l
  | POD => pathOf "pid" l pidNsPath ∧ pidNsPath ≠ ""
  | TARGET => ∃ path, target = Some (Ret path) ∧ pathOf "pid" l path
  | CONTAINER => ∀ m, ns_Type m = "pid" → m ∈ l ↔ m ∈ g_Namespaces g
  end.
Proof.
  intros Hg Hnd Hr. unfold SpecAddNamespaces in Hr. go_bind Hr g1 H1. apply wrapping_ret in H1.
  destruct (Configure_spec paths g g1 Hg H1) as (C1 & C2 & C3 & _). specialize (C3 Hnd). go_bind Hr g2 H2.
  assert (once (g_Namespaces g2) ∧ (∀ m, ns_Type m ≠ "network" → m ∈ g_Namespaces g2 ↔ m ∈ g_Namespaces g1) ∧
    if bool_decide (no_Network (cs_NamespaceOptions sc) = NODE) then absent "network" (g_Namespaces g2)
    else g_Namespaces g2 = g_Namespaces g1) as (D1 & D2 & D3).
  { destruct (decide (no_Network (cs_NamespaceOptions sc) = NODE)) as [Hn|Hn].
    2: { rewrite bool_decide_false in H2 |- * by done. by injection H2 as <-. }
    rewrite bool_decide_true in H2 |- * by done. apply RemoveLinux_ok in H2 as ->.
    by destruct (removeNamespace_spec "network" _ C1) as (? & ? & ?). }
  assert (once (g_Namespaces g') ∧ (∀ m, ns_Type m ≠ "pid" → m ∈ g_Namespaces g' ↔ m ∈ g_Namespaces g2) ∧
    match no_Pid (cs_NamespaceOptions sc) with
    | NODE => absent "pid" (g_Namespaces g')
    | POD => pathOf "pid" (g_Namespaces g') pidNsPath ∧ pidNsPath ≠ ""
    | TARGET => ∃ path, target = Some (Ret path) ∧ pathOf "pid" (g_Namespaces g') path
    | CONTAINER => g' = g2
    end) as (E1 & E2 & E3).
  { destruct (no_Pid (cs_NamespaceOptions sc)).
    - destruct (decide (pidNsPath = "")) as [Hp|Hp]; [by rewrite bool_decide_true in Hr|].
      rewrite bool_decide_false in Hr by done. apply wrapping_ret, AddOrReplace_ok in Hr as ->.
      destruct (replaceNamespace_spec "pid" pidNsPath _ D1) as (? & ? & ?). by split_and!.
    - injection Hr as ->. by split_and!.
    - apply RemoveLinux_ok in Hr as ->. by destruct (removeNamespace_spec "pid" _ D1) as (? & ? & ?).
    - destruct target as [o|]; [|done]. go_bind Hr path Hp. apply wrapping_ret, AddOrReplace_ok in Hr as ->. subst o.
      destruct (replaceNamespace_spec "pid" path _ D1) as (? & ? & ?). split_and!; [done|done|by exists path]. }
  split_and!; [done| | |].
  - intros path t Hin Hp Ht. apply E2; [by destruct t|]. apply D2; [by destruct t|]. by apply C3.
  - case_bool_decide.
    + intros (m & Hm & Hin)%list_elem_of_fmap. apply E2 in Hin; [|by rewrite <- Hm]. apply D3. apply list_elem_of_fmap. by exists m.
    + intros path Hin Hp. apply E2; [done|]. rewrite D3. by apply (C3 path NETNS).
  - destruct (no_Pid (cs_NamespaceOptions sc)); [done| |done|done]. subst g2. intros m Hm. rewrite D2, C2; [done|done|].
    by rewrite Hm.
Qed.

(** *** Devices *)

Definition matches {A} (o : option A) (a : A) : Prop := match o with Some b => b = a | None => True end.
Definition allows (r : DeviceRule) (d : LinuxDevice) : Prop :=
  dr_Allow r = true ∧ matches (dr_Type r) (ld_Type d) ∧ matches (dr_Major r) (ld_Major d) ∧ matches (dr_Minor r) (ld_Minor d).

(** Every device is allowed by a rule. *)
Definition covered (g : OCISpec) : Prop := ∀ d, d ∈ g_Devices g → ∃ r, r ∈ g_DeviceRules g ∧ allows r d.
(** The rules are those of before and rules for single devices. *)
Definition narrow (g g' : OCISpec) : Prop :=
  ∃ rs, g_DeviceRules g' = g_DeviceRules g ++ rs ∧ Forall (λ r, is_Some (dr_Major r) ∧ is_Some (dr_Minor r)) rs.

#[export] Instance narrow_preorder : PreOrder narrow.
Proof.
  split; [intros g; exists []; by rewrite app_nil_r|].
  intros g1 g2 g3 (rs & H1 & F1) (rs' & H2 & F2). exists (rs ++ rs'). rewrite H2, H1, app_assoc.
  split; [done|by apply Forall_app].
Qed.

Lemma addDevice_elem d d' l : d' ∈ addDevice d l → d' = d ∨ d' ∈ l.
Proof.
  induction l as [|e l IH]; cbn; [set_solver|]. case_bool_decide; rewrite !elem_of_cons; [tauto|]. intros [->|Hd]; [auto|].
  destruct (IH Hd); auto.
Qed.

Lemma putDevice_ok path n mode uid gid access g :
  let g' := putDevice (nodeDevice path n mode uid gid) (nodeRule n access) g in (covered g → covered g') ∧ narrow g g'.
Proof.
  split.
  - intros Hg d Hd. apply addDevice_elem in Hd as [->|Hd].
    + exists (nodeRule n access). split; [cbn; set_solver|done].
    + destruct (Hg d Hd) as (r & ? & ?). exists r. split; [cbn; set_solver|done].
  - exists [nodeRule n access]. split; [done|]. repeat constructor; by eexists.
Qed.

Lemma fold_ok {A} (f : OCISpec → A → OCISpec) l g :
  (∀ g a, (covered g → covered (f g a)) ∧ narrow g (f g a)) → (covered g → covered (foldl f g l)) ∧ narrow g (foldl f g l).
Proof.
  intros Hf. revert g. induction l as [|a l IH]; intros g; cbn; [done|]. destruct (IH (f g a)) as [H1 H2], (Hf g a) as [H3 H4].
  split; [tauto|by etrans].
Qed.

Section devices_ok.
Variable statPath : string → outcome ().
Variable secureJoin : string → outcome string.
Variable DeviceFromPath : string → string → outcome DevNode.
Variable IsDirectory : string → option goerr.
Variable walk : string → list string.
Variable replaceOnce : string → string → string → string.
Variable IsNotExist : goerr → bool.
Variable parseCDI : gmap string string → outcome (list string).
Variable injectCDI : list string → OCISpec → outcome OCISpec.

Lemma addRequestedDevice_ok privileged own sc d g g' :
  addRequestedDevice statPath secureJoin DeviceFromPath IsDirectory walk replaceOnce IsNotExist privileged own sc d g = Ret g' →
  (covered g → covered g') ∧ narrow g g'.
Proof.
  unfold addRequestedDevice. intros Hr. go_bind Hr u Hu. go_bind Hr path Hp. clear u Hu Hp.
  destruct (DeviceFromPath path (rd_Permissions d)) as [n|e|]; [|destruct (_ && _)|done]; injection Hr as <-.
  - apply putDevice_ok.
  - apply fold_ok. intros g1 dpath. unfold addChild. destruct (DeviceFromPath dpath _); [apply putDevice_ok|done..].
  - done.
Qed.

Lemma containerDevices_ok privileged own sc ds g g' :
  specAddContainerConfigDevices statPath secureJoin DeviceFromPath IsDirectory walk replaceOnce IsNotExist privileged own sc ds g = Ret g' →
  (covered g → covered g') ∧ narrow g g'.
Proof.
  revert g. induction ds as [|d ds IH]; intros g; cbn; [by intros [= <-]|]. intros Hr. go_bind Hr g1 H1.
  apply addRequestedDevice_ok in H1 as [H1 H2]. apply IH in Hr as [H3 H4]. split; [tauto|by etrans].
Qed.

(** Every device node of a container is one its device cgroup allows, and a
    container that is not privileged gets, beyond the rules it had, only rules for
    single devices, never one for all of them; CDI devices apart. *)
Theorem SpecAddDevices_allowed configured annotated hostDevices privileged without own sc cfg g g' :
  k_CDIDevices cfg = [] → parseCDI (default ∅ (k_Annotations cfg)) = Ret [] →
  SpecAddDevices statPath secureJoin DeviceFromPath IsDirectory walk replaceOnce IsNotExist parseCDI injectCDI
    configured annotated hostDevices privileged without own sc cfg g = Ret g' →
  covered g' ∧ (privileged = false → narrow g g').
Proof.
  intros Hcdi Hparse. unfold SpecAddDevices. set (g0 := g <| g_Devices := [] |>).
  assert (covered g0) as Hc0 by (intros d; cbn; set_solver).
  assert (∀ g d, (covered g → covered (addConfigured g d)) ∧ narrow g (addConfigured g d)) as Hadd
    by (intros; apply putDevice_ok).
  destruct (fold_ok addConfigured configured g0 Hadd) as [Hc1 Hn1].
  destruct (fold_ok addConfigured annotated (foldl addConfigured g0 configured) Hadd) as [Hc2 Hn2].
  set (g2 := foldl addConfigured (foldl addConfigured g0 configured) annotated) in *.
  intros Hr. go_bind Hr g3 H3. go_bind Hr g4 H4.
  unfold specInjectCDIDevices in Hr. rewrite Hparse, Hcdi in Hr. cbn in Hr. injection Hr as <-.
  apply containerDevices_ok in H4 as [Hc4 Hn4].
  assert (covered g3 ∧ (privileged = false → g3 = g2)) as [Hc3 Hn3].
  { unfold specAddHostDevicesIfPrivileged in H3. destruct (negb privileged || without) eqn:Hb.
    { injection H3 as <-. split; [auto|done]. }
    go_bind H3 ds Hds. injection H3 as <-. split; [|intros ->; done].
    intros d _. exists allowAll. split; [cbn; set_solver|done]. }
  split; [auto|]. intros Hp. etrans; [|exact Hn4]. rewrite (Hn3 Hp). etrans; [|exact Hn2]. exact Hn1.
Qed.
End devices_ok.

(** *** Process *)

(** The command line: the pod's command and arguments win; without a command the
    image's entrypoint runs with the pod's arguments, or with the image's ones. *)
Lemma SpecSetProcessArgs_spec cmd entrypoint cfg g :
  k_Command cfg ≠ Some [] →
  let args := match k_Command cfg with
              | Some c => c ++ k_Args cfg
              | None => entrypoint ++ (if bool_decide (k_Args cfg = []) then cmd else k_Args cfg)
              end in
  SpecSetProcessArgs (Some (cmd, entrypoint)) cfg g =
    if bool_decide (args = []) then Fail (ErrorsNew "no command specified") else Ret (g <| g_Args := args |>).
Proof.
  intros Hc. unfold SpecSetProcessArgs. destruct (k_Command cfg) as [[|c cs]|]; cbn; [done..|].
  destruct entrypoint as [|e es]; cbn; [|done].
  case_bool_decide; [by destruct cmd|by destruct (k_Args cfg)].
Qed.

(** ** Examples *)

Module Example.
Local Open Scope string_scope.
Definition none : Capabilities := mkCapabilities [] [] [] [] [].
Definition spec : OCISpec :=
  mkOCISpec [] none false 0 "" "" false
    [mkLinuxNamespace "pid" ""; mkLinuxNamespace "network" ""; mkLinuxNamespace "mount" ""] [] []
    (mkLinuxCPU None None None "" "") (mkLinuxMemory None None) [] ∅ [] [] [] "" [] ∅ "/" 0 0 [].
Definition security (net pid : NamespaceMode) : LinuxContainerSecurityContext :=
  mkCtrSecurityContext None false (mkNamespaceOption net pid POD) None None None false false [] [] "" [] GroupsMerge.
Definition config : CtrConfig :=
  mkCtrConfig "web" (Some "nginx") None [] None None "" false false false
    [mkDeviceRequest "/dev/fuse" "/dev/fuse" "rwm"] [] (Some (Some (security POD CONTAINER))).
Definition fuse : DevNode := mkDevNode "c"%char 10 229 438 0 0.
Definition kernel : list (string * Z) := [("chown", 0); ("kill", 5); ("sys_admin", 21)].
End Example.

Lemma SpecAddNamespaces_isolation_witness :
  ∃ g', SpecAddNamespaces [("/run/netns/a", NETNS); ("/run/ipcns/a", IPCNS)] "/proc/7/ns/pid" true None
    (Example.security POD POD) Example.spec = Ret g' ∧ pathOf "pid" (g_Namespaces g') "/proc/7/ns/pid".
Proof.
  eexists. split; [reflexivity|].
  eapply (SpecAddNamespaces_isolation [("/run/netns/a", NETNS); ("/run/ipcns/a", IPCNS)] "/proc/7/ns/pid" true None
    (Example.security POD POD) Example.spec).
  - refine (bool_decide_unpack _ _). vm_compute. exact I.
  - refine (bool_decide_unpack _ _). vm_compute. exact I.
  - reflexivity.
Defined.

Lemma SpecAddDevices_allowed_witness :
  ∃ g', SpecAddDevices (λ _, Ret ()) Ret (λ _ _, Ret Example.fuse) (λ _, None) (λ _, []) (λ d _ _, d) (λ _, true)
    (λ _, Ret []) (λ _ g, Ret g) [] [] (Ret []) false false false (Example.security POD CONTAINER) Example.config Example.spec = Ret g' ∧
    ld_Path <$> g_Devices g' = ["/dev/fuse"] ∧ covered g'.
Proof.
  eexists. split; [reflexivity|]. split; [reflexivity|].
  eapply (SpecAddDevices_allowed (λ _, Ret ()) Ret (λ _ _, Ret Example.fuse) (λ _, None) (λ _, []) (λ d _ _, d) (λ _, true)
    (λ _, Ret []) (λ _ g, Ret g) [] [] (Ret []) false false false (Example.security POD CONTAINER) Example.config Example.spec);
    reflexivity.
Defined.

(** A request for a capability in another case, and one the kernel does not have. *)
Example SpecSetupCapabilities_kill :
  SpecSetupCapabilities Example.kernel 21 (Some (mkCapRequest ["cap_Kill"] ["all"])) ["CHOWN"] false Example.spec =
    Ret (Example.spec <| g_Caps := mkCapabilities ["CAP_KILL"] ["CAP_KILL"] [] ["CAP_KILL"] [] |>) ∧
  ∃ e, SpecSetupCapabilities Example.kernel 5 (Some (mkCapRequest ["SYS_ADMIN"] [])) [] false Example.spec = Fail e.
Proof. split; [vm_compute; reflexivity|eexists; vm_compute; reflexivity]. Qed.
