(* ===== verification/CtrEnv.v ===== *)
(** * CtrEnv: environment and user of a container
    (mergeEnvs of server/utils.go, setupContainerUser of server/container_create.go,
    GeneratePasswd and GenerateGroup of utils/utils.go, and the generator's functions
    for the environment)

    The generator keeps beside the environment a cache of the position of each
    variable. *)

From S2P Require Import Prelude GoStrings ConfigData PodSpec CtrSpec.
From Stdlib Require Import Ascii.
Local Open Scope Z_scope.

(** ** Environment *)

(** [strings.SplitN(env, "=", 2)[0]] *)
Definition envKey (env : string) : string := match Cut env "=" with Some (k, _) => k | None => env end.

(** The generator's [addEnv]; an index of the cache past the end panics in Go, which
    [cached] below excludes. *)
Definition addEnv (env key : string) (g : OCISpec) : OCISpec :=
  match g_envMap g !! key with
  | Some idx => g <| g_Env ::= <[idx := env]> |>
  | None => g <| g_Env ::= (.++ [env]) |> <| g_envMap ::= <[key := length (g_Env g)]> |>
  end.
Definition AddProcessEnv (name value : string) (g : OCISpec) : OCISpec :=
  if bool_decide (name = "") then g else addEnv (name +:+ "=" +:+ value) name g.
Definition AddMultipleProcessEnv (envs : list string) (g : OCISpec) : OCISpec :=
  foldl (λ g env, addEnv env (envKey env) g) g envs.

(** The variables of the image that the pod does not set, added one by one. *)
Fixpoint mergeImageEnvs (imageEnvs envs : list string) : list string :=
  match imageEnvs with
  | [] => envs
  | imageEnv :: imageEnvs =>
      mergeImageEnvs imageEnvs
        match Cut imageEnv "=" with
        | None => envs
        | Some (imageEnvKey, _) =>
            if bool_decide (imageEnvKey = "") then envs
            else if existsb (λ kubeEnv, negb (bool_decide (envKey kubeEnv = "")) && bool_decide (imageEnvKey = envKey kubeEnv)) envs
                 then envs else envs ++ [imageEnv]
        end
  end.

(** [None] for a nil image configuration, and for a nil list of variables. *)
Definition mergeEnvs (imageEnv : option (list string)) (kubeEnvs : option (list (string * string))) : list string :=
  match kubeEnvs, imageEnv with
  | None, Some env => env
  | _, _ =>
      let envs := (λ kv, kv.1 +:+ "=" +:+ kv.2) <$> filter (λ kv, kv.1 ≠ "") (default [] kubeEnvs) in
      match imageEnv with Some env => mergeImageEnvs env envs | None => envs end
  end.

(** The caller sets them; [parts[1]] of an entry without equals sign panics. *)
Fixpoint setEnvs (envs : list string) (g : OCISpec) : outcome OCISpec :=
  match envs with
  | [] => Ret g
  | e :: envs =>
      match Cut e "=" with
      | None => Panic "index out of range"
      | Some (k, v) => setEnvs envs (AddProcessEnv k v g)
      end
  end.

(** The environment of the process: the defaults of the server, then the merged ones. *)
Definition specSetEnv (defaultEnv : list string) (imageEnv : option (list string))
    (kubeEnvs : option (list (string * string))) (g : OCISpec) : outcome OCISpec :=
  setEnvs (mergeEnvs imageEnv kubeEnvs) (AddMultipleProcessEnv defaultEnv g).

(** *** Lemmas *)

(** The cache knows the position of every variable. *)
Definition cached (g : OCISpec) : Prop :=
  ∀ k i, g_envMap g !! k = Some i ↔ ∃ e, g_Env g !! i = Some e ∧ envKey e = k.

Lemma cached_unique g : cached g → NoDup (envKey <$> g_Env g).
Proof.
  intros Hc. apply NoDup_alt. intros i j k. rewrite !list_lookup_fmap.
  destruct (g_Env g !! i) as [e|] eqn:Hi; [|done]. destruct (g_Env g !! j) as [e'|] eqn:Hj; [|done].
  intros [= <-] [= He]. assert (g_envMap g !! envKey e = Some i) as H1 by (apply Hc; eauto).
  assert (g_envMap g !! envKey e = Some j) as H2 by (apply Hc; eauto). congruence.
Qed.

Lemma addEnv_spec env g :
  cached g → let g' := addEnv env (envKey env) g in
  cached g' ∧ ∀ e, e ∈ g_Env g' ↔ e = env ∨ e ∈ g_Env g ∧ envKey e ≠ envKey env.
Proof.
  unfold cached. intros Hc. unfold addEnv. destruct (g_envMap g !! envKey env) as [idx|] eqn:Hm; cbn.
  - destruct (proj1 (Hc _ _) Hm) as (e0 & He0 & Hk0). pose proof (lookup_lt_Some _ _ _ He0) as Hlt. split.
    + intros k i. cbn. rewrite Hc. destruct (decide (i = idx)) as [->|Hne].
      * rewrite list_lookup_insert_eq by done. split; [intros (e & He & <-)|intros (e & [= <-] & <-)]; naive_solver congruence.
      * by rewrite list_lookup_insert_ne by done.
    + intros e. rewrite !list_elem_of_lookup. split.
      * intros [j Hj]. destruct (decide (j = idx)) as [->|Hne].
        { rewrite list_lookup_insert_eq in Hj by done. left. congruence. }
        rewrite list_lookup_insert_ne in Hj by done. right. split; [eauto|]. intros Hk.
        assert (g_envMap g !! envKey env = Some j) by (apply Hc; eauto). congruence.
      * intros [->|[[j Hj] Hk]]; [exists idx; by rewrite list_lookup_insert_eq|]. exists j.
        rewrite list_lookup_insert_ne; [done|]. intros <-. congruence.
  - assert (∀ e, e ∈ g_Env g → envKey e ≠ envKey env) as Hno.
    { intros e [j Hj]%list_elem_of_lookup Hk. assert (g_envMap g !! envKey env = Some j) by (apply Hc; eauto). congruence. }
    split; [|intros e; rewrite elem_of_app, list_elem_of_singleton; naive_solver].
    intros k i. cbn. destruct (decide (k = envKey env)) as [->|Hne].
    + rewrite lookup_insert_eq. split.
      * intros [= <-]. exists env. split; [|done]. rewrite lookup_app_r by lia. by rewrite Nat.sub_diag.
      * intros (e & He & Hk). destruct (decide (i < length (g_Env g))%nat).
        { rewrite lookup_app_l in He by done. exfalso. apply (Hno e); [by eapply list_elem_of_lookup_2|done]. }
        rewrite lookup_app_r in He by lia. apply list_lookup_singleton_Some in He as [? _]. f_equal. lia.
    + rewrite lookup_insert_ne by done. rewrite Hc. split.
      * intros (e & He & Hk). exists e. split; [|done]. rewrite lookup_app_l; [done|]. by eapply lookup_lt_Some.
      * intros (e & He & Hk). exists e. split; [|done]. apply lookup_app_Some in He as [He|[_ He]]; [done|].
        apply list_lookup_singleton_Some in He as [_ <-]. done.
Qed.

(** The last, or the first, entry for a variable. *)
Definition lastEnv (k : string) (l : list string) : option string := last (filter (λ e, envKey e = k) l).
Definition firstEnv (k : string) (l : list string) : option string := head (filter (λ e, envKey e = k) l).

Lemma lastEnv_snoc k l e : lastEnv k (l ++ [e]) = if decide (envKey e = k) then Some e else lastEnv k l.
Proof.
  unfold lastEnv. rewrite filter_app, filter_cons. case_decide; cbn; [apply last_snoc|by rewrite app_nil_r].
Qed.
Lemma lastEnv_key k l e : lastEnv k l = Some e → envKey e = k.
Proof. intros Hl%last_Some_elem_of. by apply list_elem_of_filter in Hl as [? _]. Qed.

(** Adding entries one after the other: the last one for a variable stays. *)
Lemma addEnvs_spec l g :
  cached g → let g' := foldl (λ g e, addEnv e (envKey e) g) g l in
  cached g' ∧ ∀ e, e ∈ g_Env g' ↔ lastEnv (envKey e) l = Some e ∨ lastEnv (envKey e) l = None ∧ e ∈ g_Env g.
Proof.
  intros Hg. induction l as [|x l IH] using rev_ind; cbn.
  { split; [done|]. intros e. unfold lastEnv. cbn. naive_solver. }
  rewrite foldl_snoc. destruct IH as [Hc He]. destruct (addEnv_spec x _ Hc) as [Hc' He'].
  split; [done|]. intros e. rewrite He', He, lastEnv_snoc. case_decide as Hk.
  - split; [|naive_solver]. intros [->|[_ Hn]]; [by left|congruence].
  - split; [intros [->|?]; naive_solver|]. intros. right. split; [done|congruence].
Qed.

Definition assigns (e : string) : Prop := ∃ kv, Cut e "=" = Some kv.
#[global] Instance assigns_dec e : Decision (assigns e).
Proof. unfold assigns. destruct (Cut e "=") as [kv|]; [left; by exists kv|right; by intros [? ?]]. Defined.

(** Entries without a name are skipped. *)
Lemma setEnvs_spec l g :
  Forall assigns l → setEnvs l g = Ret (foldl (λ g e, addEnv e (envKey e) g) g (filter (λ e, envKey e ≠ "") l)).
Proof.
  revert g. induction l as [|e l IH]; intros g; cbn [setEnvs]; [done|]. intros [[[k v] Hk] Hl]%Forall_cons.
  rewrite Hk, IH by done. assert (envKey e = k) as Hkey by (unfold envKey; by rewrite Hk).
  rewrite filter_cons, Hkey. unfold AddProcessEnv. case_bool_decide as Hn; case_decide as Hd; try done.
  cbn [foldl]. rewrite Hkey. by apply Cut_some in Hk as [-> _].
Qed.

Lemma lastEnv_None k l : lastEnv k l = None ↔ ∀ e, e ∈ l → envKey e ≠ k.
Proof.
  unfold lastEnv. rewrite last_None. split.
  - intros Hf e He Hk. assert (e ∈ filter (λ e, envKey e = k) l) as Hin by by apply list_elem_of_filter.
    rewrite Hf in Hin. by apply not_elem_of_nil in Hin.
  - intros Hn. destruct (filter _ l) as [|e r] eqn:Hf; [done|]. exfalso.
    assert (e ∈ filter (λ e, envKey e = k) l) as [Hk Hin]%list_elem_of_filter by (rewrite Hf; by left).
    by apply (Hn e).
Qed.

Lemma firstEnv_cons k e l : firstEnv k (e :: l) = if decide (envKey e = k) then Some e else firstEnv k l.
Proof. unfold firstEnv. rewrite filter_cons. by case_decide. Qed.

(** A variable of the pod stays, another one is the first of the image. *)
Lemma mergeImageEnvs_spec imgs envs k :
  k ≠ "" → lastEnv k (mergeImageEnvs imgs envs) =
    match lastEnv k envs with Some e => Some e | None => firstEnv k (filter assigns imgs) end.
Proof.
  intros Hk. revert envs. induction imgs as [|e imgs IH]; intros envs; cbn [mergeImageEnvs].
  { by destruct (lastEnv k envs). }
  rewrite IH, filter_cons. destruct (Cut e "=") as [[k' v]|] eqn:Hc.
  2: { rewrite decide_False; [done|]. unfold assigns. rewrite Hc. by intros [? ?]. }
  rewrite decide_True by (exists (k', v); done). rewrite firstEnv_cons.
  assert (envKey e = k') as -> by (unfold envKey; by rewrite Hc).
  case_bool_decide as Hn; [by rewrite decide_False by congruence|].
  destruct (existsb _ envs) eqn:Hex.
  - apply existsb_exists in Hex as (x & Hx%list_elem_of_In & [_ Hkx]%andb_prop). apply bool_decide_eq_true in Hkx.
    destruct (lastEnv k envs) eqn:Hl; [done|]. rewrite decide_False; [done|]. intros ->.
    by apply (proj1 (lastEnv_None _ _) Hl x).
  - rewrite lastEnv_snoc. assert (envKey e = k') as -> by (unfold envKey; by rewrite Hc). case_decide as Hkk; [|done].
    subst k'. destruct (lastEnv k envs) as [x|] eqn:Hl; [|done]. exfalso.
    assert (x ∈ envs) as Hx by (apply last_Some_elem_of in Hl; by apply list_elem_of_filter in Hl as [_ ?]).
    assert (existsb (λ e, negb (bool_decide (envKey e = "")) && bool_decide (k = envKey e)) envs = true) as Ht; [|congruence].
    apply existsb_exists. exists x. split; [by apply list_elem_of_In|]. apply lastEnv_key in Hl. rewrite Hl.
    by rewrite bool_decide_false, bool_decide_true.
Qed.

Lemma mergeImageEnvs_assigns imgs envs : Forall assigns envs → Forall assigns (mergeImageEnvs imgs envs).
Proof.
  revert envs. induction imgs as [|e imgs IH]; intros envs Hf; cbn [mergeImageEnvs]; [done|]. apply IH.
  destruct (Cut e "=") as [[k v]|] eqn:Hc; [|done]. destruct (bool_decide _); [done|]. destruct (existsb _ _); [done|].
  apply Forall_app. split; [done|]. repeat constructor. by exists (k, v).
Qed.

(** The last variable of that name in the pod's list. *)
Definition podEnv (k : string) (kvs : list (string * string)) : option string :=
  (λ kv, kv.1 +:+ "=" +:+ kv.2) <$> last (filter (λ kv, kv.1 = k) kvs).

Lemma kubeEnvs_spec kvs :
  Forall (λ kv, contains_char "=" kv.1 = false) kvs →
  let envs := (λ kv, kv.1 +:+ "=" +:+ kv.2) <$> filter (λ kv, kv.1 ≠ "") kvs in
  Forall assigns envs ∧ ∀ k, k ≠ "" → lastEnv k envs = podEnv k kvs.
Proof.
  intros Hf. cbn zeta. induction kvs as [|[k' v] kvs IH] using rev_ind; [split; [constructor|done]|].
  apply Forall_app in Hf as [Hf [Hk' _]%Forall_cons]. destruct (IH Hf) as [Ha Hl]. cbn [fst] in Hk'.
  rewrite filter_app, filter_cons, filter_nil, fmap_app. cbn [fst].
  assert (Cut (k' +:+ "=" +:+ v) "=" = Some (k', v)) as Hc by by apply Cut_app.
  assert (envKey (k' +:+ "=" +:+ v) = k') as Hk by (unfold envKey; by rewrite Hc). split.
  - apply Forall_app. split; [done|]. case_decide; repeat constructor. by exists (k', v).
  - intros k Hne. unfold podEnv. rewrite filter_app, filter_cons, filter_nil. cbn [fst].
    destruct (decide (k' = k)) as [->|Hkk].
    + rewrite decide_True by done. cbn [fmap list_fmap]. rewrite lastEnv_snoc. cbn [fst snd]. rewrite Hk, decide_True by done.
      by rewrite last_snoc.
    + rewrite app_nil_r. case_decide; cbn [fmap list_fmap].
      * rewrite lastEnv_snoc. cbn [fst snd]. rewrite Hk, decide_False by done. by apply Hl.
      * rewrite app_nil_r. by apply Hl.
Qed.

(** The value a variable ends up with. *)
Definition winner (defaultEnv imageEnv : list string) (kvs : list (string * string)) (k : string) : option string :=
  match podEnv k kvs with
  | Some e => Some e
  | None => match firstEnv k (filter assigns imageEnv) with Some e => Some e | None => lastEnv k defaultEnv end
  end.

(** The environment of a container: every variable is set once, to the value of
    the pod, else of the image, else of the server's defaults, else to what the spec
    had; entries of the image that are no assignments are dropped. *)
Theorem specSetEnv_precedence defaultEnv imageEnv kvs g :
  cached g → Forall (λ kv, contains_char "=" kv.1 = false) kvs →
  ∃ g', specSetEnv defaultEnv (Some imageEnv) (Some kvs) g = Ret g' ∧ NoDup (envKey <$> g_Env g') ∧
    ∀ e, envKey e ≠ "" → e ∈ g_Env g' ↔
      winner defaultEnv imageEnv kvs (envKey e) = Some e ∨ winner defaultEnv imageEnv kvs (envKey e) = None ∧ e ∈ g_Env g.
Proof.
  intros Hg Hk. destruct (kubeEnvs_spec kvs Hk) as [Ha Hl]. unfold specSetEnv, mergeEnvs. cbn [default from_option id].
  set (envs := _ <$> filter _ kvs) in *. rewrite setEnvs_spec by by apply mergeImageEnvs_assigns.
  unfold AddMultipleProcessEnv. rewrite <- foldl_app. eexists. split; [reflexivity|].
  destruct (addEnvs_spec (defaultEnv ++ filter (λ e, envKey e ≠ "") (mergeImageEnvs imageEnv envs)) g Hg) as [Hc He].
  split; [by apply cached_unique|]. intros e Hne. rewrite He.
  assert (lastEnv (envKey e) (defaultEnv ++ filter (λ e, envKey e ≠ "") (mergeImageEnvs imageEnv envs)) =
    winner defaultEnv imageEnv kvs (envKey e)) as ->; [|done].
  unfold winner. rewrite <- (Hl (envKey e) Hne).
  transitivity (match lastEnv (envKey e) (mergeImageEnvs imageEnv envs) with Some x => Some x | None => lastEnv (envKey e) defaultEnv end).
  - unfold lastEnv. rewrite filter_app, last_app. rewrite (list_filter_filter_l (λ e0, envKey e0 = envKey e) (λ e0, envKey e0 ≠ "")); [done|]. by intros x ->.
  - rewrite mergeImageEnvs_spec by done. by destruct (lastEnv (envKey e) envs).
Qed.

(** A gap: for a pod without variables the image's entries are taken as they are, so
    that one that is no assignment makes the request panic. *)
Lemma specSetEnv_panics defaultEnv imageEnv g :
  ¬ Forall assigns imageEnv → specSetEnv defaultEnv (Some imageEnv) None g = Panic "index out of range".
Proof.
  unfold specSetEnv. cbn [mergeEnvs]. generalize (AddMultipleProcessEnv defaultEnv g). clear g.
  induction imageEnv as [|e l IH]; intros g Hn; [by destruct Hn|]. cbn [setEnvs].
  destruct (Cut e "=") as [[k v]|] eqn:Hc; [|done]. apply IH. intros Hl. apply Hn. constructor; [by exists (k, v)|done].
Qed.

(** ** User and groups *)

(** What of [unix.Stat_t] is read. *)
Record FileStat := mkFileStat { st_Mode : Z; st_Size : Z; st_Uid : Z; st_Gid : Z }.

(** The writes to files. *)
Inductive FileOp := WriteFile (path content : string) (perm : Z) | Chown (path : string) (uid gid : Z).

(** [user.User] and [user.Group]: the name and the ID. *)
Record NamedID := mkNamedID { ni_Name : string; ni_Id : Z }.
Definition ErrNoPasswdEntries := ErrorsNew "no matching entries in passwd file".
Definition ErrNoGroupEntries := ErrorsNew "no matching entries in group file".

Definition checkFilePermissions (stat : FileStat) (id statID : Z) : bool :=
  if negb (Z.land (st_Mode stat) 18 =? 0) then true
  else if (id =? statID) && negb (Z.land (st_Mode stat) 128 =? 0) then true
  else false.

Definition passwdEntry (username : string) (uid gid : Z) (homedir : string) : string :=
  username +:+ ":x:" +:+ Itoa uid +:+ ":" +:+ Itoa gid +:+ ":" +:+ username +:+ " user:" +:+ homedir +:+ ":/sbin/nologin".
Definition groupEntry (gid : Z) : string := Itoa gid +:+ ":x:" +:+ Itoa gid +:+ ":".
Definition newline : ascii := ascii_of_nat 10.
Definition line (s : string) : string := s +:+ String newline "".

Section user.
(** The file system of the container: [SecureJoin(rootfs, file)], [unix.Stat] ([None]
    when there is no file), [os.ReadFile] (the same), the entries of /etc/passwd and
    /etc/group as the library parses them, [os.IsNotExist], [user.GetExecUser] of a name
    with the two files. *)
Variable secureJoin : string → outcome string.
Variable stat : string → outcome (option FileStat).
Variable readFile : string → outcome (option string).
Variable parsePasswd parseGroup : string → outcome (list NamedID).
Variable IsNotExist : goerr → bool.
Variable GetExecUser : string → outcome (Z * Z * list Z).
Variable perform : FileOp → outcome ().

Definition do_file (op : FileOp) : io (list FileOp) () := modify (.++ [op]) ;; lift (perform op).

(** The first entry of that number, or of that name. *)
Definition findEntry (file : string) (parse : string → outcome (list NamedID)) (none : goerr) (idOrName : string) :
    outcome NamedID :=
  dest ← secureJoin file;
  entries ← (match parse dest with
             | Fail e => if IsNotExist e then Ret [] else Fail e
             | r => r
             end);
  match List.find (λ u, match Atoi idOrName with
                        | Ret id => ni_Id u =? id
                        | _ => bool_decide (ni_Name u = idOrName)
                        end) entries with
  | Some u => Ret u
  | None => Fail none
  end.
Definition GetUser (userIDorName : string) : outcome NamedID :=
  findEntry "/etc/passwd" parsePasswd ErrNoPasswdEntries userIDorName.
Definition GetGroup (groupIDorName : string) : outcome NamedID :=
  findEntry "/etc/group" parseGroup ErrNoGroupEntries groupIDorName.

Definition secureFilePath (file : string) : outcome (string * FileStat) :=
  match secureJoin file with
  | Ret path =>
      match stat path with
      | Ret (Some st) => Ret (path, st)
      | Ret None => Ret ("", mkFileStat 0 0 0 0)
      | Fail e => Fail (Errorf ("unable to stat file " +:+ path +:+ ": ") e)
      | Panic s => Panic s
      end
  | Fail e => Fail (Errorf ("unable to follow symlinks to " +:+ file +:+ " file: ") e)
  | Panic s => Panic s
  end.

(** [mode & os.ModePerm] *)
Definition createAndSecureFile (path content : string) (mode uid gid : Z) : io (list FileOp) string :=
  wrap_err "failed to create file: " (do_file (WriteFile path content (Z.land mode 511))) ;;
  wrap_err "failed to chown file: " (do_file (Chown path uid gid)) ;;
  mret path.

Definition readFileContent (path : string) : outcome (option string) :=
  match readFile path with Fail e => Fail (Errorf "read file: " e) | r => r end.

Definition GeneratePasswd (username : string) (uid gid : Z) (homedir rundir : string) : io (list FileOp) string :=
  match GetUser (Itoa uid) with
  | Ret _ => mret ""
  | Panic s => panic s
  | Fail _ =>
      '(passwdFilePath, st) ← lift (secureFilePath "/etc/passwd");
      if st_Size st =? 0 then mret ""
      else if checkFilePermissions st uid (st_Uid st) then mret ""
      else
        origContent ← lift (readFileContent passwdFilePath);
        match origContent with
        | None => mret ""
        | Some orig =>
            let username := if bool_decide (username = "") then "default" else username in
            let homedir := if bool_decide (homedir = "") then "/tmp" else homedir in
            createAndSecureFile (PathJoin [rundir; "passwd"]) (orig +:+ line (passwdEntry username uid gid homedir))
              (st_Mode st) (st_Uid st) (st_Gid st)
        end
  end.

Definition GenerateGroup (gid : Z) (rundir : string) : io (list FileOp) string :=
  match GetGroup (Itoa gid) with
  | Ret _ => mret ""
  | Panic s => panic s
  | Fail _ =>
      '(groupFilePath, st) ← lift (secureFilePath "/etc/group");
      if checkFilePermissions st gid (st_Gid st) then mret ""
      else
        origContent ← lift (readFileContent groupFilePath);
        match origContent with
        | None => mret ""
        | Some orig =>
            createAndSecureFile (PathJoin [rundir; "group"]) (orig +:+ line (groupEntry gid)) (st_Mode st) (st_Uid st) (st_Gid st)
        end
  end.

Definition GetUserInfo (userName : string) : outcome (Z * Z * list Z) :=
  match GetExecUser userName with
  | Ret (uid, gid, sgids) => Ret (wrap_u 32 uid, wrap_u 32 gid, wrap_u 32 <$> sgids)
  | Fail e => Fail (Errorf "get exec user: " e)
  | Panic s => Panic s
  end.
End user.

Definition generateUserString (username imageUser : string) (uid : option Z) : string :=
  let userstr := match uid with Some v => Itoa v | None => "" end in
  let userstr := if bool_decide (username = "") then userstr else username in
  if bool_decide (userstr = "") then imageUser else userstr.

Definition AddProcessAdditionalGid (gid : Z) (g : OCISpec) : OCISpec :=
  if bool_decide (gid ∈ g_AdditionalGids g) then g else g <| g_AdditionalGids ::= (.++ [gid]) |>.

(** The mounts that replace /etc/passwd, and those that replace /etc/group. *)
Definition genPasswd (mounts : list Mount) : bool :=
  negb (existsb (λ m, bool_decide (mt_Destination m ∈ ["/etc"; "/etc/"; "/etc/passwd"])) mounts).
Definition genGroup (mounts : list Mount) : bool :=
  negb (existsb (λ m, bool_decide (mt_Destination m ∈ ["/etc"; "/etc/"; "/etc/group"])) mounts).

(** The first HOME of the environment.  The check for a newline looks for a backslash
    and an n: the pattern is a raw string. *)
Definition homeOf (env : list string) (cwd : string) : outcome string :=
  homedir ← (match List.find (λ e, HasPrefix e "HOME=") env with
             | Some e =>
                 let homedir := TrimPrefix e "HOME=" in
                 if Contains homedir "\n" then Fail (ErrorsNew "invalid HOME environment; newline not allowed")
                 else Ret homedir
             | None => Ret ""
             end);
  Ret (if bool_decide (homedir = "") then cwd else homedir).

Definition bindFile (src dest : string) : Mount :=
  mkMount dest "bind" src ["rw"; "bind"; "nodev"; "nosuid"; "noexec"] [] [].

Section setup_user.
Variable secureJoin : string → outcome string.
Variable stat : string → outcome (option FileStat).
Variable readFile : string → outcome (option string).
Variable parsePasswd parseGroup : string → outcome (list NamedID).
Variable IsNotExist : goerr → bool.
Variable GetExecUser : string → outcome (Z * Z * list Z).
Variable perform : FileOp → outcome ().
(** [securityLabel(path, mountLabel, false, false)] *)
Variable securityLabel : string → outcome ().

Definition policyGroups (sc : LinuxContainerSecurityContext) (addGroups : list Z) : outcome (list Z) :=
  match cs_SupplementalGroupsPolicy sc with
  | GroupsMerge => Ret (addGroups ++ (wrap_u 32 <$> cs_SupplementalGroups sc))
  | GroupsStrict => Ret (wrap_u 32 <$> cs_SupplementalGroups sc)
  | GroupsOther => Fail (ErrorsNew "not implemented in this CRI-O release: SupplementalGroupsPolicy")
  end.

(** The generated file is mounted when there is one. *)
Definition mountGenerated (dest path : string) (g : OCISpec) : outcome OCISpec :=
  if bool_decide (path = "") then Ret g
  else securityLabel path ;; Ret (AddMount (bindFile path dest) g).

Definition setupContainerUser (imageUser ctrRunDir : string) (sc : option LinuxContainerSecurityContext) (g : OCISpec) :
    io (list FileOp) OCISpec :=
  match sc with
  | None => mret g
  | Some sc =>
      if bool_decide (is_Some (cs_RunAsGroup sc)) && bool_decide (cs_RunAsUser sc = None) &&
         bool_decide (cs_RunAsUsername sc = "")
      then fail (ErrorsNew "user group is specified without user or username")
      else
        homedir ← lift (homeOf (g_Env g) (g_Cwd g));
        let containerUser := generateUserString (cs_RunAsUsername sc) imageUser (cs_RunAsUser sc) in
        '(uid, gid, addGroups) ← lift (GetUserInfo GetExecUser containerUser);
        let mounts := g_Mounts g in
        passwdPath ← (if genPasswd mounts
                      then GeneratePasswd secureJoin stat readFile parsePasswd IsNotExist perform
                             containerUser uid gid homedir ctrRunDir
                      else mret "");
        g ← lift (mountGenerated "/etc/passwd" passwdPath g);
        let newGid := match cs_RunAsGroup sc with Some v => wrap_u 32 v | None => gid end in
        groupPath ← (if genGroup mounts
                     then GenerateGroup secureJoin stat readFile parseGroup IsNotExist perform newGid ctrRunDir
                     else mret "");
        g ← lift (mountGenerated "/etc/group" groupPath g);
        let g := AddProcessAdditionalGid newGid (g <| g_UID := uid |> <| g_GID := newGid |>) in
        groups ← lift (policyGroups sc addGroups);
        mret (foldl (flip AddProcessAdditionalGid) g groups)
  end.
End setup_user.

(** *** Groups *)

Lemma Itoa_nonempty z : Itoa z ≠ "".
Proof.
  unfold Itoa. intros Hz. pose proof (inj pretty z) as Hinj. destruct z as [|p|p]; [done| |done]. cbn in Hz.
  assert (pretty (N.pos p) = "") as Hp by exact Hz. pose proof (digits_value_pretty (N.pos p)) as Hd. by rewrite Hp in Hd.
Qed.

Lemma AddProcessAdditionalGid_spec gid g :
  let g' := AddProcessAdditionalGid gid g in
  (∀ x, x ∈ g_AdditionalGids g' ↔ x = gid ∨ x ∈ g_AdditionalGids g) ∧
  (NoDup (g_AdditionalGids g) → NoDup (g_AdditionalGids g')) ∧ g_UID g' = g_UID g ∧ g_GID g' = g_GID g.
Proof.
  unfold AddProcessAdditionalGid. case_bool_decide; cbn; [set_solver|].
  split_and!; [set_solver| |done|done]. intros. by apply NoDup_app_singleton.
Qed.

Lemma addGids_spec l g :
  let g' := foldl (flip AddProcessAdditionalGid) g l in
  (∀ x, x ∈ g_AdditionalGids g' ↔ x ∈ l ∨ x ∈ g_AdditionalGids g) ∧
  (NoDup (g_AdditionalGids g) → NoDup (g_AdditionalGids g')) ∧ g_UID g' = g_UID g ∧ g_GID g' = g_GID g.
Proof.
  revert g. induction l as [|a l IH]; intros g; cbn; [set_solver|].
  destruct (IH (flip AddProcessAdditionalGid g a)) as (H1 & H2 & H3 & H4).
  destruct (AddProcessAdditionalGid_spec a g) as (R1 & R2 & R3 & R4). cbn in *.
  split_and!; [|tauto|congruence|congruence]. intros x. rewrite H1, R1. set_solver.
Qed.

Lemma mret_inv {W A} (a b : A) (w w' : W) : (mret a : io W A) w = (Ret b, w') → b = a ∧ w' = w.
Proof. by intros [= -> ->]. Qed.

Section user_ok.
Variable secureJoin : string → outcome string.
Variable stat : string → outcome (option FileStat).
Variable readFile : string → outcome (option string).
Variable parsePasswd parseGroup : string → outcome (list NamedID).
Variable IsNotExist : goerr → bool.
Variable GetExecUser : string → outcome (Z * Z * list Z).
Variable perform : FileOp → outcome ().
Variable securityLabel : string → outcome ().

Lemma mountGenerated_user dest path g g' :
  mountGenerated securityLabel dest path g = Ret g' →
  g_UID g' = g_UID g ∧ g_GID g' = g_GID g ∧ g_AdditionalGids g' = g_AdditionalGids g.
Proof.
  unfold mountGenerated. case_bool_decide; [by intros [= <-]|]. destruct (securityLabel path); [|done..].
  by intros [= <-].
Qed.

(** The user and the groups a container runs with.  The user is the name of the
    request, else its number, else that of the image; its group is the one of the
    request, else the user's.  The additional groups are those of the spec, the group
    itself, the requested ones and, only when the policy is to merge, those of the
    user in the image; a request with another policy never succeeds. *)
Theorem setupContainerUser_groups imageUser runDir sc g g' ops ops' :
  setupContainerUser secureJoin stat readFile parsePasswd parseGroup IsNotExist GetExecUser perform securityLabel
    imageUser runDir (Some sc) g ops = (Ret g', ops') →
  let name := if bool_decide (cs_RunAsUsername sc = "") then
                match cs_RunAsUser sc with Some v => Itoa v | None => imageUser end
              else cs_RunAsUsername sc in
  ∃ uid gid groups, GetExecUser name = Ret (uid, gid, groups) ∧ cs_SupplementalGroupsPolicy sc ≠ GroupsOther ∧
    g_UID g' = wrap_u 32 uid ∧ g_GID g' = wrap_u 32 (default gid (cs_RunAsGroup sc)) ∧
    (NoDup (g_AdditionalGids g) → NoDup (g_AdditionalGids g')) ∧
    ∀ x, x ∈ g_AdditionalGids g' ↔ x ∈ g_AdditionalGids g ∨ x = g_GID g' ∨
      x ∈ wrap_u 32 <$> cs_SupplementalGroups sc ∨
      cs_SupplementalGroupsPolicy sc = GroupsMerge ∧ x ∈ wrap_u 32 <$> groups.
Proof.
  unfold setupContainerUser. destruct (_ && _); [done|].
  intros (homedir & ? & [_ ->]%lift_ret & Hr)%io_bind_inv. apply io_bind_inv in Hr as ([[uid gid] grps] & ? & [Hu ->]%lift_ret & Hr).
  apply io_bind_inv in Hr as (pw & ops1 & _ & Hr). apply io_bind_inv in Hr as (g1 & ? & [H1 ->]%lift_ret & Hr).
  apply io_bind_inv in Hr as (gr & ops2 & _ & Hr). apply io_bind_inv in Hr as (g2 & ? & [H2 ->]%lift_ret & Hr).
  apply io_bind_inv in Hr as (l & ? & [Hp ->]%lift_ret & Hr). apply mountGenerated_user in H1 as (_ & _ & H1), H2 as (_ & _ & H2).
  set (newGid := match cs_RunAsGroup sc with Some v => _ | None => _ end) in *.
  assert (generateUserString (cs_RunAsUsername sc) imageUser (cs_RunAsUser sc) =
    if bool_decide (cs_RunAsUsername sc = "") then match cs_RunAsUser sc with Some v => Itoa v | None => imageUser end
    else cs_RunAsUsername sc) as Hname.
  { unfold generateUserString. destruct (decide (cs_RunAsUsername sc = "")) as [He|He]; [rewrite (bool_decide_true _ He)|by rewrite !(bool_decide_false _ He)].
    destruct (cs_RunAsUser sc) as [v|]; [|by rewrite bool_decide_true]. rewrite bool_decide_false; [done|]. apply Itoa_nonempty. }
  rewrite Hname in Hu. unfold GetUserInfo in Hu. destruct (GetExecUser _) as [[[u v] gs]| |]; [|done..].
  injection Hu as <- <- <-. exists u, v, gs. split; [done|]. split; [intros Hpol; unfold policyGroups in Hp; by rewrite Hpol in Hp|].
  set (g3 := g2 <| g_UID := _ |> <| g_GID := _ |>) in *.
  assert (g_UID g3 = wrap_u 32 u ∧ g_GID g3 = newGid ∧ g_AdditionalGids g3 = g_AdditionalGids g) as (C1 & C2 & C3)
    by (split_and!; [done|done|by rewrite <- H1, <- H2]).
  clearbody g3. destruct (addGids_spec l (AddProcessAdditionalGid newGid g3)) as (A1 & A2 & A3 & A4).
  destruct (AddProcessAdditionalGid_spec newGid g3) as (B1 & B2 & B3 & B4).
  apply mret_inv in Hr as [-> _]. rewrite A3, A4, B3, B4, C1, C2. rewrite C3 in B1, B2.
  split_and!; [done|unfold newGid; by destruct (cs_RunAsGroup sc)|tauto|].
  intros x. rewrite A1, B1. unfold policyGroups in Hp. destruct (cs_SupplementalGroupsPolicy sc); [..|done];
    injection Hp as <-; rewrite ?elem_of_app; naive_solver.
Qed.
End user_ok.

(** *** The generated files *)

Lemma Split_app_sep a b sep : Split (a +:+ String sep b) sep = Split a sep ++ Split b sep.
Proof.
  induction a as [|c a IH].
  - cbn [Split]. rewrite append_nil_l. cbn [Split]. by rewrite bool_decide_true.
  - rewrite append_cons. cbn [Split]. case_bool_decide; [by rewrite IH|]. rewrite IH.
    pose proof (Split_ne_nil a sep). by destruct (Split a sep).
Qed.

(** A file whose last line is ended gets one more line; its fields are read back by
    splitting it at the colons. *)
Lemma passwd_lines orig username uid gid homedir :
  0 ≤ uid → 0 ≤ gid →
  Forall (λ s, contains_char newline s = false ∧ contains_char ":" s = false) [username; homedir] →
  Split (line orig +:+ line (passwdEntry username uid gid homedir)) newline =
    Split orig newline ++ [passwdEntry username uid gid homedir; ""] ∧
  Split (passwdEntry username uid gid homedir) ":" =
    [username; "x"; Itoa uid; Itoa gid; username +:+ " user"; homedir; "/sbin/nologin"].
Proof.
  intros Hu Hg ([Hn1 Hc1] & [Hn2 Hc2]%Forall_singleton)%Forall_cons.
  set (e := passwdEntry username uid gid homedir).
  assert (e = Join [username; "x"; Itoa uid; Itoa gid; username +:+ " user"; homedir; "/sbin/nologin"] ":") as He.
  { unfold e, passwdEntry. cbn [Join]. by rewrite !append_assoc. }
  assert (∀ c z, digit_value c = None → 0 ≤ z → contains_char c (Itoa z) = false) as Hd by (intros; by apply Itoa_not_char).
  assert (∀ c, contains_char c username = false → contains_char c " user" = false →
    contains_char c (username +:+ " user") = false) as Happ by (intros c ? ?; by rewrite contains_char_app, orb_false_iff).
  split.
  - unfold line at 1. rewrite append_assoc. rewrite append_cons, append_nil_l, Split_app_sep. f_equal.
    unfold line. rewrite Split_app_sep. rewrite Split_word; [done|]. unfold e, passwdEntry.
    rewrite !contains_char_app, Hn1, Hn2, !Hd by done. done.
  - rewrite He. apply Split_Join; [done|]. repeat constructor; try done; [by apply Hd..|by apply Happ].
Qed.

(** A gap: the check for a newline in HOME looks for a backslash and an n, so a real
    newline passes and adds a line of its own to the generated passwd file: here one
    for another user with the number 0. *)
Example home_newline :
  let home := line "/:/bin/sh" +:+ "toor:x:0:0::/root" in
  homeOf ["HOME=" +:+ home] "/" = Ret home ∧
  Split (line (passwdEntry "app" 1000 1000 home)) newline =
    ["app:x:1000:1000:app user:/:/bin/sh"; "toor:x:0:0::/root:/sbin/nologin"; ""].
Proof. by_compute. Qed.

(** A gap: the entry is appended to a file without newline at its end, so that it
    becomes part of its last line. *)
Example passwd_no_newline :
  Split ("root:x:0:0:root:/root:/bin/sh" +:+ line (passwdEntry "app" 1000 1000 "/app")) newline =
    ["root:x:0:0:root:/root:/bin/shapp:x:1000:1000:app user:/app:/sbin/nologin"; ""].
Proof. by_compute. Qed.

(** *** Witnesses *)

Lemma specSetEnv_precedence_witness :
  ∃ g', specSetEnv ["A=default"] (Some ["A=image"; "B=image"]) (Some [("B", "pod")]) Example.spec = Ret g' ∧
    "A=image" ∈ g_Env g' ∧ "B=pod" ∈ g_Env g'.
Proof.
  destruct (specSetEnv_precedence ["A=default"] ["A=image"; "B=image"] [("B", "pod")] Example.spec) as (g' & Hg & _ & He).
  - intros k i. split; [discriminate|]. intros (e & He & _). discriminate.
  - repeat constructor.
  - exists g'. split; [exact Hg|]. split; apply He; [discriminate|left; reflexivity|discriminate|left; reflexivity].
Defined.

Lemma setupContainerUser_groups_witness :
  let sc := mkCtrSecurityContext None false (mkNamespaceOption POD CONTAINER POD) None None None false false [] [] "" [7] GroupsStrict in
  ∃ g' ops, setupContainerUser Ret (λ _, Ret None) (λ _, Ret None) (λ _, Ret []) (λ _, Ret []) (λ _, true)
    (λ _, Ret (1000, 1000, [27])) (λ _, Ret ()) (λ _, Ret ()) "app" "/run" (Some sc) Example.spec [] = (Ret g', ops) ∧
    g_UID g' = 1000 ∧ ¬ 27 ∈ g_AdditionalGids g'.
Proof.
  intros sc. eexists _, _. split; [reflexivity|].
  destruct (setupContainerUser_groups Ret (λ _, Ret None) (λ _, Ret None) (λ _, Ret []) (λ _, Ret []) (λ _, true)
    (λ _, Ret (1000, 1000, [27])) (λ _, Ret ()) (λ _, Ret ()) "app" "/run" sc Example.spec _ [] _ eq_refl)
    as (uid & gid & groups & [= <- <- <-] & _ & Hu & Hg & _ & Hx).
  split; [exact Hu|]. intros Hin. apply Hx in Hin as [Hin|[Hin|[Hin|[Hin _]]]].
  - exact (not_elem_of_nil _ Hin).
  - rewrite Hg in Hin. discriminate.
  - apply list_elem_of_singleton in Hin. discriminate.
  - discriminate.
Defined.
