(* ===== verification/CtrMounts.v ===== *)
(** * CtrMounts: the mounts of a container
    (server/container_create.go, server/container_create_linux.go, server/utils.go)

    The mounts a container asks for become bind mounts of its OCI spec.  The code runs
    over a state of the spec and a log of the calls that change the host; what the host
    and the storage answer are parameters.  [sort.Sort] is not stable: it is a parameter
    [sortBy] of which only the documented behaviour is assumed. *)

From S2P Require Import Prelude GoStrings ConfigData PodSpec CtrSpec CtrEnv.
From Stdlib Require Import Ascii.
Local Open Scope Z_scope.

(** ** Data *)

(** [types.MountPropagation]; [Other] for a number that is none of the three. *)
Inductive MountPropagation := PRIVATE | HOST_TO_CONTAINER | BIDIRECTIONAL | Other.
#[export] Instance MountPropagation_eq_dec : EqDecision MountPropagation.
Proof. solve_decision. Defined.

(** [types.Mount]; the image by its name. *)
Record CRIMount := mkCRIMount {
  cm_ContainerPath : string; cm_HostPath : string; cm_Readonly : bool; cm_RecursiveReadOnly : bool;
  cm_SelinuxRelabel : bool; cm_Propagation : MountPropagation;
  cm_UidMappings : list IDMapping; cm_GidMappings : list IDMapping; cm_Image : option string }.
#[export] Instance CRIMount_eta : Eta CRIMount := λ m,
  mkCRIMount (cm_ContainerPath m) (cm_HostPath m) (cm_Readonly m) (cm_RecursiveReadOnly m) (cm_SelinuxRelabel m)
    (cm_Propagation m) (cm_UidMappings m) (cm_GidMappings m) (cm_Image m).

(** [oci.ContainerVolume] *)
Record ContainerVolume := mkContainerVolume {
  cv_ContainerPath : string; cv_HostPath : string; cv_Readonly : bool; cv_RecursiveReadOnly : bool;
  cv_Propagation : MountPropagation; cv_SelinuxRelabel : bool; cv_Image : option string }.

(** What of [mount.Info] is read. *)
Record MountInfo := mkMountInfo { mi_Mountpoint : string; mi_Optional : string }.

(** The calls that change the host. *)
Inductive HostCall :=
| MkdirAll (path : string)
| SecurityLabel (path label : string) (shared maybeRelabel : bool)
| MountImage (id : string).

Record MW := mkMW { w_spec : OCISpec; w_calls : list HostCall }.
#[export] Instance MW_eta : Eta MW := λ w, mkMW (w_spec w) (w_calls w).

(** ** The order of mounts *)

(** [strings.Count(s, sep)] for one byte. *)
Fixpoint count_char (c : ascii) (s : string) : nat :=
  match s with
  | EmptyString => O
  | String d s => ((if bool_decide (d = c) then 1 else 0) + count_char c s)%nat
  end.

(** [parts] of [orderedMounts] and of [criOrderedMounts], by the destination. *)
Definition parts (dest : string) : nat := count_char "/" (Clean dest).

Section sort.
Variable sortBy : ∀ {A}, (A → nat) → list A → list A.
Definition sortMounts (l : list Mount) : list Mount := sortBy (λ m, parts (mt_Destination m)) l.
Definition sortCRIMounts (l : list CRIMount) : list CRIMount := sortBy (λ m, parts (cm_ContainerPath m)) l.
End sort.

(** [sort.Sort] as documented: the same elements, in ascending order. *)
Definition sorting (sortBy : ∀ {A}, (A → nat) → list A → list A) : Prop :=
  ∀ A (f : A → nat) l, sortBy f l ≡ₚ l ∧ StronglySorted (λ a b, (f a ≤ f b)%nat) (sortBy f l).

(** ** Helpers *)

(** The longest mount point that is a prefix of the source, the first of them. *)
Fixpoint longestPrefix (source : string) (l : list MountInfo) (res : option MountInfo) : option MountInfo :=
  match l with
  | [] => res
  | mi :: l =>
      longestPrefix source l
        (if HasPrefix source (mi_Mountpoint mi) then
           match res with
           | None => Some mi
           | Some r => if (String.length (mi_Mountpoint r) <? String.length (mi_Mountpoint mi))%nat then Some mi else res
           end
         else res)
  end.

Definition getSourceMount (source : string) (mountinfos : list MountInfo) : outcome (string * string) :=
  match longestPrefix source mountinfos None with
  | None => Fail (ErrorsNew ("could not find source mount of " +:+ source))
  | Some res => Ret (mi_Mountpoint res, mi_Optional res)
  end.

Definition ensureShared (path : string) (mountInfos : list MountInfo) : outcome () :=
  '(sourceMount, optionalOpts) ← getSourceMount path mountInfos;
  if existsb (λ opt, HasPrefix opt "shared:") (Split optionalOpts " ") then Ret ()
  else Fail (ErrorsNew ("path " +:+ path +:+ " is mounted on " +:+ sourceMount +:+ " but it is not a shared mount")).

Definition ensureSharedOrSlave (path : string) (mountInfos : list MountInfo) : outcome () :=
  '(sourceMount, optionalOpts) ← getSourceMount path mountInfos;
  if existsb (λ opt, HasPrefix opt "shared:" || HasPrefix opt "master:") (Split optionalOpts " ") then Ret ()
  else Fail (ErrorsNew ("path " +:+ path +:+ " is mounted on " +:+ sourceMount +:+ " but it is not a shared or slave mount")).

Definition withSlash (p : string) : string := if HasSuffix p "/" then p else p +:+ "/".
Definition isSubDirectoryOf (base target : string) : bool := HasPrefix (withSlash base) (withSlash target).

Definition isInCRIMounts (dst : string) (mounts : list CRIMount) : bool :=
  existsb (λ m, bool_decide (cm_ContainerPath m = dst)) mounts.
Definition mountExists (specMounts : list Mount) (dest : string) : bool :=
  existsb (λ m, bool_decide (mt_Destination m = dest)) specMounts.

Definition isBindMount (mountOptions : list string) : bool :=
  existsb (λ o, bool_decide (o = "bind") || bool_decide (o = "rbind")) mountOptions.

Definition cgroupSysFsPath : string := "/sys/fs/cgroup".
Definition cgroupSysFsSystemdPath : string := "/sys/fs/cgroup/systemd".

Definition hasCgroupMount (mounts : list Mount) : bool :=
  existsb (λ m, (bool_decide (mt_Destination m = cgroupSysFsPath) || bool_decide (mt_Destination m = "/sys/fs") ||
                 bool_decide (mt_Destination m = "/sys")) && isBindMount (mt_Options m)) mounts.

(** ** Privileged containers *)

(** The options without "ro" and with "rw" at the end; an "rw" that is there leaves
    all of them as they are. *)
Fixpoint withoutReadOnly (l : list string) : option (list string) :=
  match l with
  | [] => Some []
  | o :: l =>
      if bool_decide (o = "rw") then None
      else opt ← withoutReadOnly l; Some (if bool_decide (o = "ro") then opt else o :: opt)
  end.
Definition clearReadOnly (m : Mount) : Mount :=
  match withoutReadOnly (mt_Options m) with
  | None => m
  | Some opt => m <| mt_Options := opt ++ ["rw"] |>
  end.
Definition setOCIBindMountsPrivileged (g : OCISpec) : OCISpec :=
  g <| g_Mounts ::= fmap clearReadOnly |> <| g_ReadonlyPaths := [] |> <| g_MaskedPaths := [] |>.

(** ** Bind mounts *)

(** Those of the default mounts that the requested ones do not override. *)
Definition overridden (mountSet : list string) (m : Mount) : bool :=
  let dst := Clean (mt_Destination m) in
  bool_decide (dst ∈ mountSet) ||
  (bool_decide ("/dev" ∈ mountSet) && HasPrefix dst "/dev/") ||
  (bool_decide ("/sys" ∈ mountSet) && HasPrefix dst "/sys/").
Definition keptMounts (mountSet : list string) (defaults : list Mount) : list Mount :=
  filter (λ m, overridden mountSet m = false) defaults.

(** The option for the propagation, with its effect on the root's propagation. *)
Definition propagationOption (mountInfos : list MountInfo) (src : string) (p : MountPropagation) (g : OCISpec) :
    outcome (string * OCISpec) :=
  match p with
  | PRIVATE => Ret ("rprivate", g)
  | BIDIRECTIONAL =>
      ensureShared src mountInfos ;;
      g ← SetLinuxRootPropagation "rshared" g;
      Ret ("rshared", g)
  | HOST_TO_CONTAINER =>
      ensureSharedOrSlave src mountInfos ;;
      g ← (if bool_decide (g_RootfsPropagation g = "rshared") || bool_decide (g_RootfsPropagation g = "rslave") then Ret g
           else SetLinuxRootPropagation "rslave" g);
      Ret ("rslave", g)
  | Other => Ret ("rprivate", g)
  end.

(** The option for the access. *)
Definition accessOption (rroSupport : bool) (m : CRIMount) : outcome string :=
  if cm_RecursiveReadOnly m && cm_Readonly m then
    if negb rroSupport then
      Fail (ErrorsNew ("recursive read-only mount support is not available for hostPath " +:+ cm_HostPath m))
    else if negb (bool_decide (cm_Propagation m = PRIVATE)) then
      Fail (ErrorsNew ("recursive read-only mount requires private propagation for hostPath " +:+ cm_HostPath m))
    else Ret "rro"
  else if cm_RecursiveReadOnly m then
    Fail (ErrorsNew ("recursive read-only mount conflicts with read-write mount for hostPath " +:+ cm_HostPath m))
  else if cm_Readonly m then Ret "ro"
  else Ret "rw".

Section bind.
Variable sortBy : ∀ {A}, (A → nat) → list A → list A.
(** [os.Lstat]: whether the path is a symbolic link; [SecureJoin]; [os.IsNotExist];
    what a call that changes the host returns; the names of images in the storage and
    where one is mounted; [os.Open] of a directory and whether it has an entry. *)
Variable Lstat : string → outcome bool.
Variable SecureJoin : string → string → outcome string.
Variable IsNotExist : goerr → bool.
Variable perform : HostCall → outcome ().
Variable storageImageStatus : string → outcome (option string).
Variable mountImageAt : string → outcome string.
Variable openDir : string → outcome ().
Variable readDir : string → outcome bool.

Definition call (c : HostCall) : io MW () :=
  modify (λ w, w <| w_calls ::= (.++ [c]) |>) ;; lift (perform c).
Definition on_spec (f : OCISpec → OCISpec) : io MW () := modify (λ w, w <| w_spec ::= f |>).
(** A function of the generator that may fail. *)
Definition with_spec {A} (f : OCISpec → outcome (A * OCISpec)) : io MW A :=
  w ← gets w_spec;
  '(a, g) ← lift (f w);
  on_spec (λ _, g) ;;
  mret a.

Definition resolveSymbolicLink (scope path : string) : outcome string :=
  symlink ← Lstat path;
  if negb symlink then Ret path
  else SecureJoin (if bool_decide (scope = "") then "/" else scope) path.

Definition mountImage (imageVolumesPath : string) (m : CRIMount) : io MW ContainerVolume :=
  match cm_Image m with
  | None => fail (ErrorsNew "invalid mount specified")
  | Some image =>
      if bool_decide (image = "") || bool_decide (cm_ContainerPath m = "") then fail (ErrorsNew "invalid mount specified")
      else
        status ← wrap_err "get storage image status: " (lift (storageImageStatus image));
        match status with
        | None => fail (ErrorsNew ("image " +:+ image +:+ " does not exist locally"))
        | Some imageID =>
            modify (λ w, w <| w_calls ::= (.++ [MountImage imageID]) |>) ;;
            mountPoint ← wrap_err "mount storage: " (lift (mountImageAt imageID));
            on_spec (AddMount (mkMount (cm_ContainerPath m) "overlay" "overlay"
              ["lowerdir=" +:+ mountPoint +:+ ":" +:+ imageVolumesPath] (cm_UidMappings m) (cm_GidMappings m))) ;;
            mret (mkContainerVolume (cm_ContainerPath m) mountPoint (cm_Readonly m) (cm_RecursiveReadOnly m)
                    (cm_Propagation m) (cm_SelinuxRelabel m) (Some imageID))
        end
  end.

Definition isImageMount (m : CRIMount) : bool :=
  match cm_Image m with Some image => negb (bool_decide (image = "")) | None => false end.

(** The error of a directory that cannot be read wraps the nil error of [os.Open]. *)
Definition ensureImageVolumesPath (containerExitsDir : string) (mounts : list CRIMount) : io MW string :=
  if negb (existsb isImageMount mounts) then mret ""
  else
    let imageVolumesPath := PathJoin [Dir containerExitsDir; "image-volumes"] in
    wrap_err "create image volumes path: " (call (MkdirAll imageVolumesPath)) ;;
    wrap_err ("open image volumes path " +:+ imageVolumesPath +:+ ": ") (lift (openDir imageVolumesPath)) ;;
    match readDir imageVolumesPath with
    | Fail _ => fail (ErrorsNew ("unable to read dir names of image volumes path " +:+ imageVolumesPath +:+ ": %!w(<nil>)"))
    | Ret true => fail (ErrorsNew ("image volumes path " +:+ imageVolumesPath +:+ " is not empty"))
    | Ret false => mret imageVolumesPath
    | Panic s => panic s
    end.

(** The parameters of the request. *)
Record MountRequest := mkMountRequest {
  q_mountLabel : string; q_bindMountPrefix : string; q_absentMountSourcesToReject : list string;
  q_maybeRelabel : bool; q_skipRelabel : bool; q_cgroup2RW : bool; q_idMapSupport : bool; q_rroSupport : bool;
  q_storageRoot : string; q_restore : bool; q_containerExitsDir : string }.

(** The source: resolved when it is a link, made when it does not exist. *)
Definition mountSource (q : MountRequest) (src : string) : io MW string :=
  match resolveSymbolicLink (q_bindMountPrefix q) src with
  | Ret resolved => mret resolved
  | Fail e =>
      if negb (IsNotExist e) then fail (Errorf ("failed to resolve symlink " +:+ src +:+ ": ") e)
      else if bool_decide (Clean src ∈ q_absentMountSourcesToReject q) then
        fail (ErrorsNew ("cannot mount " +:+ Clean src +:+ ": path does not exist and will cause issues as a directory"))
      else
        (if q_restore q then mret () else wrap_err ("failed to mkdir " +:+ src +:+ ": ") (call (MkdirAll src))) ;;
        mret src
  | Panic s => panic s
  end.

(** A mount of the host that includes the storage is never private. *)
Definition effectiveMount (q : MountRequest) (m : CRIMount) : CRIMount :=
  if isSubDirectoryOf (q_storageRoot q) (cm_HostPath m) && bool_decide (cm_Propagation m = PRIVATE)
  then m <| cm_Propagation := HOST_TO_CONTAINER |> else m.

(** One mount of the host. *)
Definition bindMount (q : MountRequest) (mountInfos : list MountInfo) (m : CRIMount) : io MW (ContainerVolume * Mount) :=
  if bool_decide (cm_HostPath m = "") then fail (ErrorsNew "mount.HostPath is empty")
  else
    let m := effectiveMount q m in
    src ← mountSource q (PathJoin [q_bindMountPrefix q; cm_HostPath m]);
    propagation ← with_spec (propagationOption mountInfos src (cm_Propagation m));
    access ← lift (accessOption (q_rroSupport q) m);
    (if cm_SelinuxRelabel m && negb (q_skipRelabel q)
     then call (SecurityLabel src (q_mountLabel q) false (q_maybeRelabel q)) else mret ()) ;;
    if negb (bool_decide (cm_UidMappings m = []) && bool_decide (cm_GidMappings m = [])) && negb (q_idMapSupport q) then
      fail (ErrorsNew "idmap mounts specified but OCI runtime does not support them. Perhaps the OCI runtime is too old")
    else
      mret (mkContainerVolume (cm_ContainerPath m) src (cm_Readonly m) (cm_RecursiveReadOnly m) (cm_Propagation m)
              (cm_SelinuxRelabel m) (cm_Image m),
            mkMount (cm_ContainerPath m) "" src ["rbind"; propagation; access] (cm_UidMappings m) (cm_GidMappings m)).

(** The loop: the volumes and the mounts of the host, in order. *)
Fixpoint bindMounts (q : MountRequest) (mountInfos : list MountInfo) (imageVolumesPath : string) (l : list CRIMount) :
    io MW (list ContainerVolume * list Mount) :=
  match l with
  | [] => mret ([], [])
  | m :: l =>
      if bool_decide (cm_ContainerPath m = "") then fail (ErrorsNew "mount.ContainerPath is empty")
      else if isImageMount m then
        v ← wrap_err "mount image: " (mountImage imageVolumesPath m);
        '(vs, ms) ← bindMounts q mountInfos imageVolumesPath l;
        mret (v :: vs, ms)
      else
        '(v, o) ← bindMount q mountInfos m;
        '(vs, ms) ← bindMounts q mountInfos imageVolumesPath l;
        mret (v :: vs, o :: ms)
  end.

Definition addOCIBindMounts (q : MountRequest) (getMounts : outcome (list MountInfo)) (mounts : list CRIMount) :
    io MW (list ContainerVolume * list Mount) :=
  let mounts := sortCRIMounts (@sortBy) mounts in
  let mountSet := (λ m, Clean (cm_ContainerPath m)) <$> mounts in
  on_spec (λ g, g <| g_Mounts ::= keptMounts mountSet |>) ;;
  mountInfos ← lift getMounts;
  imageVolumesPath ← wrap_err "ensure image volumes path: " (ensureImageVolumesPath (q_containerExitsDir q) mounts);
  r ← bindMounts q mountInfos imageVolumesPath mounts;
  (if bool_decide ("/sys" ∈ mountSet) then mret ()
   else on_spec (AddMount (mkMount cgroupSysFsPath "cgroup" "cgroup"
          ["nosuid"; "noexec"; "nodev"; "relatime"; if q_cgroup2RW q then "rw" else "ro"] [] []))) ;;
  mret r.
End bind.

(** ** Image volumes and systemd *)

Inductive ImageVolumes := ImageVolumesMkdir | ImageVolumesBind | ImageVolumesIgnore | ImageVolumesUnknown.

Section volumes.
Variable SecureJoin : string → string → outcome string.
(** [MkdirAllAndChownNew], [MkdirAll] and [securityLabel], and the random name of the
    n-th volume. *)
Variable mkdirChown : string → Z → Z → outcome ().
Variable mkdir : string → outcome ().
Variable securityLabel : string → string → outcome ().
Variable newID : nat → string.

(** The volumes of the image in the order the map is visited. *)
Fixpoint addImageVolumes (setting : ImageVolumes) (rootfs runDir mountLabel : string) (uid gid : Z) (n : nat)
    (volumes : list string) : outcome (list Mount) :=
  match volumes with
  | [] => Ret []
  | dest :: volumes =>
      fp ← SecureJoin rootfs dest;
      ms ← (match setting with
            | ImageVolumesMkdir =>
                mkdirChown fp uid gid ;;
                (if bool_decide (mountLabel = "") then Ret () else securityLabel fp mountLabel) ;;
                Ret []
            | ImageVolumesBind =>
                let src := PathJoin [runDir; "mounts"; newID n] in
                mkdir src ;;
                (if bool_decide (mountLabel = "") then Ret () else securityLabel src mountLabel) ;;
                Ret [mkMount dest "bind" src ["private"; "bind"; "rw"] [] []]
            | ImageVolumesIgnore | ImageVolumesUnknown => Ret []
            end);
      rest ← addImageVolumes setting rootfs runDir mountLabel uid gid (S n) volumes;
      Ret (ms ++ rest)
  end.
End volumes.

(** The generator of the caller is shared, and [mounts] are its mounts before. *)
Definition systemdTmpfs (mounts : list Mount) (g : OCISpec) (dest : string) : OCISpec :=
  if mountExists mounts dest then g
  else AddMount (mkMount dest "tmpfs" "tmpfs" ["rw"; "rprivate"; "noexec"; "nosuid"; "nodev"; "tmpcopyup"] [] []) g.

Definition setupSystemd (isV2 : bool) (mounts : list Mount) (g : OCISpec) : OCISpec :=
  let g := foldl (systemdTmpfs mounts) g ["/run"; "/run/lock"; "/tmp"; "/var/log/journal"] in
  AddProcessEnv "container" "crio"
  (if isV2 then
    AddMount (mkMount cgroupSysFsPath "cgroup" "cgroup" ["private"; "rw"] [] []) (RemoveMount cgroupSysFsPath g)
  else
    let g := if hasCgroupMount (g_Mounts g) then g
             else AddMount (mkMount cgroupSysFsSystemdPath "bind" cgroupSysFsSystemdPath
                              ["bind"; "nodev"; "noexec"; "nosuid"] [] []) g in
    g <| g_MaskedPaths ::= (.++ [PathJoin [cgroupSysFsSystemdPath; "release_agent"]]) |>).

(** The last step: every mount of the request, of the image and of the secrets becomes
    a bind mount, in order. *)
Definition bindInSpec (g : OCISpec) (m : Mount) : OCISpec :=
  SpecAddMount (mkMount (mt_Destination m) "bind" (mt_Source m) (mt_Options m ++ ["bind"])
                  (mt_UIDMappings m) (mt_GIDMappings m)) g.
Definition addSortedMounts (sortBy : ∀ {A}, (A → nat) → list A → list A) (ociMounts volumeMounts secretMounts : list Mount)
    (g : OCISpec) : OCISpec :=
  foldl bindInSpec g (sortMounts (@sortBy) (ociMounts ++ volumeMounts ++ secretMounts)).

(** ** Lemmas: order *)

Lemma count_char_app c s t : count_char c (s +:+ t) = (count_char c s + count_char c t)%nat.
Proof. induction s as [|d s IH]; [done|]. rewrite append_cons. cbn. rewrite IH. lia. Qed.
Lemma count_char_none c s : contains_char c s = false → count_char c s = O.
Proof. induction s as [|d s IH]; cbn; [done|]. intros [-> Hs]%orb_false_elim. by rewrite IH. Qed.

(** The depth of a path is the number of its elements, but for the root. *)
Lemma depth_elements l :
  l ≠ [] → Forall (λ w, contains_char "/" w = false) l → count_char "/" ("/" +:+ Join l "/") = length l.
Proof.
  intros Hne Hl. rewrite count_char_app. cbn [count_char]. rewrite bool_decide_true by done.
  induction l as [|w l IH]; [done|]. apply Forall_cons in Hl as [Hw Hl]. destruct l as [|w' l].
  - cbn [Join]. by rewrite count_char_none.
  - rewrite Join_cons by done. rewrite !count_char_app, count_char_none by done. cbn [count_char].
    rewrite bool_decide_true by done. specialize (IH ltac:(done) Hl). cbn [length] in *. lia.
Qed.

Lemma sorted_position {A} (f : A → nat) l i j a b :
  StronglySorted (λ a b, (f a ≤ f b)%nat) l → l !! i = Some a → l !! j = Some b → (f a < f b)%nat → (i < j)%nat.
Proof.
  intros Hs Hi Hj Hlt. destruct (decide (i < j)%nat) as [|Hn]; [done|]. exfalso.
  destruct (decide (i = j)) as [->|Hne]; [rewrite Hi in Hj; injection Hj as ->; lia|].
  revert i j Hi Hj Hn Hne. induction Hs as [|x l Hs IH Hall]; intros i j Hi Hj Hn Hne; [done|].
  destruct j as [|j]; cbn in Hj.
  - injection Hj as ->. destruct i as [|i]; [done|]. cbn in Hi. apply list_elem_of_lookup_2 in Hi.
    rewrite Forall_forall in Hall. specialize (Hall a Hi). cbn in Hall. lia.
  - destruct i as [|i]; [lia|]. apply (IH i j); [done|done|lia|lia].
Qed.

(** A mount comes before the mounts below it: in the order in which the requested
    mounts are handled, one whose destination is a directory other than the root
    precedes every one whose destination is below that directory, so that it does not
    shadow it; whatever order the sort leaves between equals. *)
Theorem sortCRIMounts_parents_first (sortBy : ∀ A, (A → nat) → list A → list A) mounts la lb i j m1 m2 :
  sorting sortBy → la ≠ [] → lb ≠ [] → Forall (λ w, contains_char "/" w = false) (la ++ lb) →
  sortCRIMounts sortBy mounts !! i = Some m1 → Clean (cm_ContainerPath m1) = "/" +:+ Join la "/" →
  sortCRIMounts sortBy mounts !! j = Some m2 → Clean (cm_ContainerPath m2) = "/" +:+ Join (la ++ lb) "/" →
  (i < j)%nat ∧ m1 ∈ mounts ∧ m2 ∈ mounts.
Proof.
  intros Hsort Ha Hb Hw Hi H1 Hj H2. destruct (Hsort _ (λ m, parts (cm_ContainerPath m)) mounts) as [Hperm Hs].
  apply Forall_app in Hw as Hw'. split_and!.
  - eapply sorted_position; [exact Hs|exact Hi|exact Hj|]. unfold parts. rewrite H1, H2, !depth_elements.
    + rewrite length_app. destruct lb; [done|]. cbn. lia.
    + intros [? _]%app_eq_nil. done.
    + done.
    + done.
    + by destruct Hw'.
  - rewrite <- Hperm. by eapply list_elem_of_lookup_2.
  - rewrite <- Hperm. by eapply list_elem_of_lookup_2.
Qed.

(** ** Lemmas: bind mounts *)

Section bind_ok.
Variable sortBy : ∀ A, (A → nat) → list A → list A.
Variable Lstat : string → outcome bool.
Variable SecureJoin : string → string → outcome string.
Variable IsNotExist : goerr → bool.
Variable perform : HostCall → outcome ().
Variable storageImageStatus : string → outcome (option string).
Variable mountImageAt : string → outcome string.
Variable openDir : string → outcome ().
Variable readDir : string → outcome bool.
Abbreviation bindMount := (bindMount Lstat SecureJoin IsNotExist perform).
Abbreviation bindMounts := (bindMounts Lstat SecureJoin IsNotExist perform storageImageStatus mountImageAt).
Abbreviation addOCIBindMounts := (addOCIBindMounts (@sortBy) Lstat SecureJoin IsNotExist perform storageImageStatus
  mountImageAt openDir readDir).

(** The volume that is recorded for a mount. *)
Definition volumeOf (q : MountRequest) (m : CRIMount) (v : ContainerVolume) : Prop :=
  cv_ContainerPath v = cm_ContainerPath m ∧ cv_Readonly v = cm_Readonly m ∧
  cv_RecursiveReadOnly v = cm_RecursiveReadOnly m ∧ cv_SelinuxRelabel v = cm_SelinuxRelabel m ∧
  cv_Propagation v = if isImageMount m then cm_Propagation m else cm_Propagation (effectiveMount q m).

(** The option for the propagation is the one that was asked for, and the kernel has
    the propagation it needs on the source. *)
Definition propagates (infos : list MountInfo) (src : string) (p : MountPropagation) (option : string) : Prop :=
  match p with
  | PRIVATE | Other => option = "rprivate"
  | HOST_TO_CONTAINER => option = "rslave" ∧ ensureSharedOrSlave src infos = Ret ()
  | BIDIRECTIONAL => option = "rshared" ∧ ensureShared src infos = Ret ()
  end.

(** The mount of the spec for a mount of the host. *)
Definition mountOf (q : MountRequest) (infos : list MountInfo) (m : CRIMount) (o : Mount) : Prop :=
  ∃ propagation access, mt_Destination o = cm_ContainerPath m ∧ mt_Options o = ["rbind"; propagation; access] ∧
    propagates infos (mt_Source o) (cm_Propagation (effectiveMount q m)) propagation ∧
    access = (if cm_Readonly m then if cm_RecursiveReadOnly m then "rro" else "ro" else "rw") ∧
    (cm_RecursiveReadOnly m = true → cm_Readonly m = true ∧ q_rroSupport q = true ∧ propagation = "rprivate") ∧
    mt_UIDMappings o = cm_UidMappings m ∧ mt_GIDMappings o = cm_GidMappings m ∧
    (q_idMapSupport q = false → cm_UidMappings m = [] ∧ cm_GidMappings m = []).

Lemma effectiveMount_same q m :
  effectiveMount q m = m <| cm_Propagation := cm_Propagation (effectiveMount q m) |>.
Proof. unfold effectiveMount. destruct (_ && _); by destruct m. Qed.

Lemma propagationOption_ok infos src p g o g' :
  propagationOption infos src p g = Ret (o, g') → propagates infos src p o.
Proof.
  unfold propagationOption. destruct p; cbn [propagates].
  - by intros [= <- <-].
  - intros Hr. go_bind Hr u Hu. destruct u. go_bind Hr g1 H1. by injection Hr as <- <-.
  - intros Hr. go_bind Hr u Hu. destruct u. go_bind Hr g1 H1. by injection Hr as <- <-.
  - by intros [= <- <-].
Qed.

Lemma accessOption_ok rro m a :
  accessOption rro m = Ret a →
  a = (if cm_Readonly m then if cm_RecursiveReadOnly m then "rro" else "ro" else "rw") ∧
  (cm_RecursiveReadOnly m = true → cm_Readonly m = true ∧ rro = true ∧ cm_Propagation m = PRIVATE).
Proof.
  unfold accessOption. destruct (cm_RecursiveReadOnly m), (cm_Readonly m); cbn; try done.
  - destruct rro; cbn; [|done]. destruct (cm_Propagation m); cbn; try done. by intros [= <-].
  - by intros [= <-].
  - by intros [= <-].
Qed.

Lemma with_spec_ret {A} (f : OCISpec → outcome (A * OCISpec)) w a w' :
  with_spec f w = (Ret a, w') → ∃ g, f (w_spec w) = Ret (a, g).
Proof.
  unfold with_spec. intros (g & w1 & [-> ->]%gets_ret & Hr)%io_bind_inv.
  apply io_bind_inv in Hr as ([b g'] & w2 & [Hf ->]%lift_ret & Hr).
  apply io_bind_inv in Hr as ([] & w3 & _ & Hr). apply mret_inv in Hr as [-> _]. by exists g'.
Qed.

Lemma bindMount_ok q infos m v o w w' :
  isImageMount m = false → bindMount q infos m w = (Ret (v, o), w') → volumeOf q m v ∧ mountOf q infos m o.
Proof.
  intros Him. unfold CtrMounts.bindMount. destruct (bool_decide _); [done|].
  set (m' := effectiveMount q m). pose proof (effectiveMount_same q m) as Hm'. fold m' in Hm'.
  assert (cm_ContainerPath m' = cm_ContainerPath m ∧ cm_Readonly m' = cm_Readonly m ∧
    cm_RecursiveReadOnly m' = cm_RecursiveReadOnly m ∧ cm_SelinuxRelabel m' = cm_SelinuxRelabel m ∧
    cm_UidMappings m' = cm_UidMappings m ∧ cm_GidMappings m' = cm_GidMappings m) as (E1 & E2 & E3 & E4 & E5 & E6)
    by (rewrite Hm'; done).
  intros (src & w1 & _ & Hr)%io_bind_inv. apply io_bind_inv in Hr as (p & w2 & [g Hp]%with_spec_ret & Hr).
  apply propagationOption_ok in Hp. apply io_bind_inv in Hr as (a & w3 & [Ha ->]%lift_ret & Hr).
  apply accessOption_ok in Ha as [-> Hrro]. apply io_bind_inv in Hr as ([] & w4 & _ & Hr).
  destruct (negb _ && _) eqn:Hid; [done|]. apply mret_inv in Hr as [[= -> ->] _].
  rewrite E1, E2, E3, E4, E5, E6. split.
  - unfold volumeOf. cbn. by rewrite Him.
  - eexists _, _. cbn. split_and!; [done|done|exact Hp|done| |done|done|].
    + rewrite E2, E3 in Hrro. intros (? & ? & Hpr)%Hrro. fold m' in Hp. rewrite Hpr in Hp. by split_and!.
    + intros Hno. rewrite Hno, E5, E6, andb_true_r in Hid. apply negb_false_iff, andb_prop in Hid as [Hu Hg].
      by apply bool_decide_eq_true in Hu, Hg.
Qed.

Lemma mountImage_ok path m v w w' q :
  isImageMount m = true → mountImage storageImageStatus mountImageAt path m w = (Ret v, w') → volumeOf q m v.
Proof.
  intros Him. unfold mountImage. destruct (cm_Image m) as [image|]; [|done]. destruct (_ || _); [done|].
  intros (st & w1 & _ & Hr)%io_bind_inv. destruct st as [id|]; [|done].
  apply io_bind_inv in Hr as ([] & w2 & _ & Hr). apply io_bind_inv in Hr as (mp & w3 & _ & Hr).
  apply io_bind_inv in Hr as ([] & w4 & _ & Hr). apply mret_inv in Hr as [-> _]. unfold volumeOf. cbn. by rewrite Him.
Qed.

Definition hostMounts (l : list CRIMount) : list CRIMount := filter (λ m, isImageMount m = false) l.

Lemma bindMounts_ok q infos path l vs ms w w' :
  bindMounts q infos path l w = (Ret (vs, ms), w') →
  Forall2 (volumeOf q) l vs ∧ Forall2 (mountOf q infos) (hostMounts l) ms.
Proof.
  revert vs ms w w'. induction l as [|m l IH]; intros vs ms w w'; cbn [CtrMounts.bindMounts].
  { intros [[= -> ->] _]%mret_inv. split; constructor. }
  destruct (bool_decide _); [done|]. unfold hostMounts. rewrite filter_cons. destruct (isImageMount m) eqn:Him.
  - rewrite decide_False by done. intros (v & w1 & Hv%wrap_err_ret & Hr)%io_bind_inv.
    apply (mountImage_ok _ _ _ _ _ q Him) in Hv.
    apply io_bind_inv in Hr as ([vs1 ms1] & w2 & Hl & Hr). apply mret_inv in Hr as [[= -> ->] _].
    destruct (IH _ _ _ _ Hl). split; [by constructor|done].
  - rewrite decide_True by done. intros ([v o] & w1 & Hv & Hr)%io_bind_inv.
    apply (bindMount_ok _ _ _ _ _ _ _ Him) in Hv as [Hv Ho].
    apply io_bind_inv in Hr as ([vs1 ms1] & w2 & Hl & Hr). apply mret_inv in Hr as [[= -> ->] _].
    destruct (IH _ _ _ _ Hl). split; by constructor.
Qed.


(** *** Calls on the host *)

(** The calls a request may make. *)
Definition permitted (q : MountRequest) (mounts : list CRIMount) (c : HostCall) : Prop :=
  match c with
  | MkdirAll _ => q_restore q = false ∨ ∃ m, m ∈ mounts ∧ isImageMount m = true
  | SecurityLabel _ label shared maybe =>
      label = q_mountLabel q ∧ shared = false ∧ maybe = q_maybeRelabel q ∧ q_skipRelabel q = false ∧
      ∃ m, m ∈ mounts ∧ cm_SelinuxRelabel m = true
  | MountImage _ => ∃ m, m ∈ mounts ∧ isImageMount m = true
  end.

Definition logged (q : MountRequest) (mounts : list CRIMount) (w0 w : MW) : Prop :=
  ∃ cs, w_calls w = w_calls w0 ++ cs ∧ Forall (permitted q mounts) cs.

Definition keeps {A} (I : MW → Prop) (m : io MW A) : Prop := triple I m (λ _, I) (λ _, I).

Lemma mkeeps_bind {A B} I (m : io MW A) (k : A → io MW B) : keeps I m → (∀ a, keeps I (k a)) → keeps I (m ≫= k).
Proof. intros Hm Hk. eapply triple_bind; [exact Hm|exact Hk]. Qed.
Lemma mkeeps_lift {A} I (o : outcome A) : keeps I (lift o).
Proof. by apply triple_lift. Qed.
Lemma mkeeps_ret {A} I (a : A) : keeps I (mret a).
Proof. by apply triple_ret. Qed.
Lemma mkeeps_fail {A} I e : keeps (A := A) I (fail e).
Proof. by apply triple_fail. Qed.
Lemma mkeeps_wrap {A} I s (m : io MW A) : keeps I m → keeps I (wrap_err s m).
Proof. apply triple_wrap. Qed.

Section log.
Variables (q : MountRequest) (mounts : list CRIMount) (w0 : MW).
Abbreviation I := (logged q mounts w0).

Lemma keeps_spec f : keeps I (on_spec f).
Proof. apply triple_modify. by intros w (cs & ? & ?); exists cs. Qed.
Lemma keeps_log c : permitted q mounts c → keeps I (modify (λ w, w <| w_calls ::= (.++ [c]) |>)).
Proof.
  intros Hc. apply triple_modify. intros w (cs & Hw & Hcs). exists (cs ++ [c]). cbn. rewrite Hw, app_assoc.
  split; [done|]. apply Forall_app. by repeat constructor.
Qed.
Lemma keeps_call c : permitted q mounts c → keeps I (call perform c).
Proof. intros Hc. apply mkeeps_bind; [by apply keeps_log|intros; apply mkeeps_lift]. Qed.
Lemma keeps_with_spec {A} (f : OCISpec → outcome (A * OCISpec)) : keeps I (with_spec f).
Proof.
  apply mkeeps_bind; [by apply triple_gets|]. intros g. apply mkeeps_bind; [apply mkeeps_lift|]. intros [a g'].
  apply mkeeps_bind; [apply keeps_spec|intros; apply mkeeps_ret].
Qed.

Lemma keeps_image path m : m ∈ mounts → isImageMount m = true → keeps I (mountImage storageImageStatus mountImageAt path m).
Proof.
  intros Hm Him. unfold mountImage. destruct (cm_Image m) as [image|]; [|apply mkeeps_fail]. destruct (_ || _); [apply mkeeps_fail|].
  apply mkeeps_bind; [apply mkeeps_wrap, mkeeps_lift|]. intros [id|]; [|apply mkeeps_fail].
  apply mkeeps_bind; [apply keeps_log; by exists m|intros _]. apply mkeeps_bind; [apply mkeeps_wrap, mkeeps_lift|intros mp].
  apply mkeeps_bind; [apply keeps_spec|intros; apply mkeeps_ret].
Qed.

Lemma keeps_source src : keeps I (mountSource Lstat SecureJoin IsNotExist perform q src).
Proof.
  unfold mountSource. destruct (resolveSymbolicLink _ _ _ _) as [r|e|s]; [apply mkeeps_ret| |apply triple_panic].
  destruct (negb _); [apply mkeeps_fail|]. destruct (bool_decide _); [apply mkeeps_fail|].
  apply mkeeps_bind; [|intros; apply mkeeps_ret]. destruct (q_restore q) eqn:Hr; [apply mkeeps_ret|].
  apply mkeeps_wrap, keeps_call. by left.
Qed.

Lemma keeps_bindMount infos m : m ∈ mounts → keeps I (bindMount q infos m).
Proof.
  intros Hm. unfold CtrMounts.bindMount. destruct (bool_decide _); [apply mkeeps_fail|].
  apply mkeeps_bind; [apply keeps_source|intros src]. apply mkeeps_bind; [apply keeps_with_spec|intros p].
  apply mkeeps_bind; [apply mkeeps_lift|intros a]. apply mkeeps_bind.
  - destruct (cm_SelinuxRelabel _ && _) eqn:Hr; [|apply mkeeps_ret]. apply andb_prop in Hr as [Hr Hs%negb_true_iff].
    apply keeps_call. split_and!; try done. exists m. split; [done|]. by rewrite effectiveMount_same in Hr.
  - intros _. destruct (_ && _); [apply mkeeps_fail|apply mkeeps_ret].
Qed.

Lemma keeps_bindMounts infos path l : l ⊆ mounts → keeps I (bindMounts q infos path l).
Proof.
  induction l as [|m l IH]; intros Hl; cbn [CtrMounts.bindMounts]; [apply mkeeps_ret|].
  assert (m ∈ mounts ∧ l ⊆ mounts) as [Hm Hl'] by (split; [apply Hl; by left|intros x Hx; apply Hl; by right]).
  destruct (bool_decide _); [apply mkeeps_fail|]. destruct (isImageMount m) eqn:Him.
  - apply mkeeps_bind; [by apply mkeeps_wrap, keeps_image|intros v]. apply mkeeps_bind; [by apply IH|].
    intros [vs ms]. apply mkeeps_ret.
  - apply mkeeps_bind; [by apply keeps_bindMount|intros [v o]]. apply mkeeps_bind; [by apply IH|].
    intros [vs ms]. apply mkeeps_ret.
Qed.

Lemma keeps_imagePath dir l : l ⊆ mounts → keeps I (ensureImageVolumesPath perform openDir readDir dir l).
Proof.
  intros Hl. unfold ensureImageVolumesPath. destruct (existsb isImageMount l) eqn:He; cbn [negb]; [|apply mkeeps_ret].
  apply existsb_exists in He as (m & Hm%list_elem_of_In & Him).
  apply mkeeps_bind; [apply mkeeps_wrap, keeps_call; right; exists m; split; [by apply Hl|done]|intros _].
  apply mkeeps_bind; [apply mkeeps_wrap, mkeeps_lift|intros _].
  destruct (readDir _) as [[]|e|s]; [apply mkeeps_fail|apply mkeeps_ret|apply mkeeps_fail|apply triple_panic].
Qed.
End log.

(** What a request may do to the host.  Whether it succeeds or fails, it relabels
    a source only when a mount asks for it and the container is not a super privileged
    one, always with the container's label and not shared; it creates directories only
    for containers that are not restored, or for image volumes; and it mounts images
    only when a mount names one. *)
Theorem addOCIBindMounts_calls q getMounts mounts w :
  sorting sortBy →
  match addOCIBindMounts q getMounts mounts w with
  | (Ret _, w') | (Fail _, w') => logged q mounts w w'
  | (Panic _, _) => True
  end.
Proof.
  intros Hsort.
  assert (keeps (logged q mounts w) (addOCIBindMounts q getMounts mounts)) as Hk.
  { assert (sortCRIMounts (@sortBy) mounts ⊆ mounts) as Hsub.
    { intros m Hm. destruct (Hsort _ (λ m, parts (cm_ContainerPath m)) mounts) as [Hp _]. by rewrite <- Hp. }
    unfold CtrMounts.addOCIBindMounts. apply mkeeps_bind; [apply keeps_spec|intros _].
    apply mkeeps_bind; [apply mkeeps_lift|intros infos]. apply mkeeps_bind; [by apply mkeeps_wrap, keeps_imagePath|intros path].
    apply mkeeps_bind; [by apply keeps_bindMounts|intros r]. apply mkeeps_bind; [|intros; apply mkeeps_ret].
    destruct (bool_decide _); [apply mkeeps_ret|apply keeps_spec]. }
  specialize (Hk w ltac:(exists []; by rewrite app_nil_r)). by destruct (addOCIBindMounts _ _ _ _) as [[]].
Qed.
End bind_ok.

(** ** The mounts of the spec *)

Lemma removeMount_spec dest l :
  NoDup (mt_Destination <$> l) →
  NoDup (mt_Destination <$> removeMount dest l) ∧ ∀ m, m ∈ removeMount dest l ↔ m ∈ l ∧ mt_Destination m ≠ dest.
Proof.
  induction l as [|x l IH]; cbn; [set_solver|]. intros [Hx Hnd]%NoDup_cons. case_bool_decide as Hd.
  - split; [done|]. intros m. rewrite elem_of_cons. split; [|intros [[->|?] ?]; done].
    intros Hm. split; [by right|]. intros Hm'. apply Hx. rewrite Hd, <- Hm'. by apply list_elem_of_fmap_2.
  - destruct (IH Hnd) as [H1 H2]. split.
    + apply NoDup_cons. split; [|done]. intros (m & Hm & [Hin _]%H2)%list_elem_of_fmap. apply Hx. rewrite Hm.
      by apply list_elem_of_fmap_2.
    + intros m. rewrite !elem_of_cons, H2. naive_solver.
Qed.

Lemma SpecAddMount_spec m g :
  NoDup (mt_Destination <$> g_Mounts g) →
  NoDup (mt_Destination <$> g_Mounts (SpecAddMount m g)) ∧
  ∀ x, x ∈ g_Mounts (SpecAddMount m g) ↔ x = m ∨ x ∈ g_Mounts g ∧ mt_Destination x ≠ mt_Destination m.
Proof.
  intros Hnd. destruct (removeMount_spec (mt_Destination m) (g_Mounts g) Hnd) as [H1 H2]. cbn. split.
  - rewrite fmap_app. apply NoDup_app_singleton; [done|]. cbn.
    by intros (x & Hx & [_ Hne]%H2)%list_elem_of_fmap.
  - intros x. rewrite elem_of_app, list_elem_of_singleton, H2. tauto.
Qed.

(** The spec of a container mounts every destination once: a mount of the request,
    of the image or of the secrets replaces what the spec had at its destination, of
    two of them the later one stays, and the others are kept. *)
Theorem addSortedMounts_unique sortBy l1 l2 l3 g :
  sorting sortBy → NoDup (mt_Destination <$> g_Mounts g) →
  let g' := addSortedMounts sortBy l1 l2 l3 g in
  NoDup (mt_Destination <$> g_Mounts g') ∧
  (∀ m, m ∈ l1 ++ l2 ++ l3 → ∃ x, x ∈ g_Mounts g' ∧ mt_Destination x = mt_Destination m ∧ mt_Type x = "bind") ∧
  (∀ x, x ∈ g_Mounts g → mt_Destination x ∉ mt_Destination <$> l1 ++ l2 ++ l3 → x ∈ g_Mounts g').
Proof.
  intros Hsort Hnd. unfold addSortedMounts. destruct (Hsort _ (λ m, parts (mt_Destination m)) (l1 ++ l2 ++ l3)) as [Hp _].
  unfold sortMounts. set (l := sortBy _ _ _) in *. clearbody l.
  assert (NoDup (mt_Destination <$> g_Mounts (foldl bindInSpec g l)) ∧
    (∀ m, m ∈ l → ∃ x, x ∈ g_Mounts (foldl bindInSpec g l) ∧ mt_Destination x = mt_Destination m ∧ mt_Type x = "bind") ∧
    (∀ x, x ∈ g_Mounts g → mt_Destination x ∉ mt_Destination <$> l → x ∈ g_Mounts (foldl bindInSpec g l))) as (A & B & C).
  { clear Hp. induction l as [|m l IH] using rev_ind; [cbn; set_solver|]. rewrite foldl_snoc. destruct IH as (I1 & I2 & I3).
    set (G := foldl bindInSpec g l) in *.
    set (b := mkMount (mt_Destination m) "bind" (mt_Source m) (mt_Options m ++ ["bind"]) (mt_UIDMappings m) (mt_GIDMappings m)).
    change (bindInSpec G m) with (SpecAddMount b G).
    destruct (SpecAddMount_spec b _ I1) as [S1 S2]. split_and!; [done| |].
    - intros x [Hx|Hx%list_elem_of_singleton]%elem_of_app.
      + destruct (I2 x Hx) as (y & Hy & Hd & Ht). destruct (decide (mt_Destination y = mt_Destination m)) as [He|He].
        * exists b. split; [apply S2; by left|]. split; [cbn; congruence|done].
        * exists y. split; [apply S2; by right|done].
      + subst x. exists b. split; [apply S2; by left|done].
    - intros x Hx Hn. rewrite fmap_app, not_elem_of_app in Hn. destruct Hn as [Hn1 Hn2]. apply S2. right.
      split; [by apply I3|]. cbn in Hn2. set_solver. }
  split_and!; [done| |].
  - intros m Hm. apply B. by rewrite Hp.
  - intros x Hx Hn. apply C; [done|]. by rewrite Hp.
Qed.

(** A privileged container has no mount that is only read-only. *)
Lemma clearReadOnly_spec m :
  "rw" ∈ mt_Options (clearReadOnly m) ∧ ("rw" ∉ mt_Options m → "ro" ∉ mt_Options (clearReadOnly m)).
Proof.
  unfold clearReadOnly. assert (match withoutReadOnly (mt_Options m) with
    | None => "rw" ∈ mt_Options m
    | Some opt => ("ro" ∉ opt) ∧ ("rw" ∉ mt_Options m) end) as Hw.
  { induction (mt_Options m) as [|o l IH]; cbn; [set_solver|]. case_bool_decide as Ho; [subst o; by left|].
    destruct (withoutReadOnly l) as [opt|]; cbn; [|by right]. case_bool_decide; set_solver. }
  destruct (withoutReadOnly (mt_Options m)) as [opt|]; cbn; [set_solver|tauto].
Qed.

(** *** Directories *)

Definition below (l : list string) : string := foldr (λ w s, w +:+ "/" +:+ s) "" l.

Lemma Join_below l : l ≠ [] → Join l "/" +:+ "/" = below l.
Proof.
  induction l as [|w [|w' l] IH]; intros Hne; [done|done|]. rewrite Join_cons by done.
  rewrite !append_assoc, IH by done. done.
Qed.

Lemma prefix_below l l' :
  Forall (λ w, contains_char "/" w = false) l → Forall (λ w, contains_char "/" w = false) l' →
  HasPrefix (below l) (below l') = true ↔ l' `prefix_of` l.
Proof.
  intros Hl Hl'. revert l Hl. induction Hl' as [|w' l' Hw' Hl' IH]; intros l Hl.
  { split; [intros; apply prefix_nil|by destruct (below l)]. }
  destruct Hl as [|w l Hw Hl].
  { split; [|by intros ?%prefix_nil_inv]. intros [r Hr]%HasPrefix_spec. cbn in Hr. by destruct w'. }
  change (below (w :: l)) with (w +:+ "/" +:+ below l). change (below (w' :: l')) with (w' +:+ "/" +:+ below l').
  rewrite HasPrefix_spec. split.
  - intros [r Hr]. rewrite !append_assoc, !append_cons, !append_nil_l in Hr. apply (f_equal (λ s, Cut s "/")) in Hr.
    rewrite !Cut_app in Hr by done. injection Hr as -> Hr.
    apply prefix_cons, IH; [done|]. apply HasPrefix_spec. by exists r.
  - intros Hp. rewrite (prefix_cons_inv_1 _ _ _ _ Hp). apply prefix_cons_inv_2, IH in Hp; [|done].
    apply HasPrefix_spec in Hp as [r ->]. exists r. by rewrite !append_assoc.
Qed.

Lemma rooted_no_slash l : l ≠ [] → Forall (λ w, proper w = true) l → HasSuffix ("/" +:+ Join l "/") "/" = false.
Proof.
  intros Hne Hl. destruct (HasSuffix _ _) eqn:Hs; [|done]. exfalso. apply HasSuffix_spec in Hs as [r Hr].
  apply (f_equal (λ s, last (Split s "/"))) in Hr. rewrite Split_app_sep in Hr.
  change ("/" +:+ Join l "/") with ("" +:+ String "/" (Join l "/")) in Hr. rewrite Split_app, Split_Join in Hr; [|done| |done].
  2: { eapply Forall_impl; [exact Hl|]. apply proper_noslash. }
  rewrite last_app, last_cons in Hr. cbn in Hr. destruct (last l) as [w|] eqn:Hw; [|by apply last_None in Hw].
  injection Hr as ->. apply last_Some_elem_of in Hw. rewrite Forall_forall in Hl. by specialize (Hl "" Hw).
Qed.

(** One directory includes another exactly when its elements are the first ones
    of the other's, never because its name is the beginning of a name. *)
Theorem isSubDirectoryOf_spec l l' :
  l ≠ [] → l' ≠ [] → Forall (λ w, proper w = true) l → Forall (λ w, proper w = true) l' →
  isSubDirectoryOf ("/" +:+ Join l "/") ("/" +:+ Join l' "/") = true ↔ l' `prefix_of` l.
Proof.
  intros Hne Hne' Hl Hl'. unfold isSubDirectoryOf, withSlash. rewrite !rooted_no_slash by done.
  rewrite !append_assoc, !Join_below by done.
  rewrite <- prefix_below by (eapply Forall_impl; [eassumption|apply proper_noslash]). done.
Qed.

(** ** Gaps *)

(** The comment of [getSourceMount] looks for a parent of the source, the code for a
    prefix of the string: a shared mount at /mnt/a is taken for the mount of /mnt/ab,
    which is on the private root, and the check for a shared mount passes. *)
Example getSourceMount_not_a_parent :
  let infos := [mkMountInfo "/" ""; mkMountInfo "/mnt/a" "shared:7"] in
  getSourceMount "/mnt/ab" infos = Ret ("/mnt/a", "shared:7") ∧ ensureShared "/mnt/ab" infos = Ret ().
Proof. by_compute. Qed.

(** The path of the host is not cleaned before it is compared with the storage. *)
Example isSubDirectoryOf_unclean : isSubDirectoryOf "/var/lib/containers/storage" "/var/lib/." = false.
Proof. by_compute. Qed.

(** The root has as many parts as the directories in it: sorted by depth, a mount of
    the root may come after one of /a, which it then hides. *)
Lemma root_mount_unordered (m1 m2 : CRIMount) :
  cm_ContainerPath m1 = "/a" → cm_ContainerPath m2 = "/" →
  StronglySorted (λ a b, (parts (cm_ContainerPath a) ≤ parts (cm_ContainerPath b))%nat) [m1; m2].
Proof. intros H1 H2. repeat constructor. by rewrite H1, H2. Qed.

(** ** Witnesses *)

Module ExampleMounts.
Definition le_by {A} (f : A → nat) (a b : A) : Prop := (f a ≤ f b)%nat.
#[local] Instance le_by_dec {A} (f : A → nat) : RelDecision (le_by f) := λ a b, le_dec (f a) (f b).
Definition bySize (A : Type) (f : A → nat) (l : list A) : list A := merge_sort (le_by f) l.

Lemma bySize_sorting : sorting bySize.
Proof.
  intros A f l. split; [apply merge_sort_Permutation|]. 
  assert (Transitive (le_by f)) by (intros a b c; unfold le_by; lia).
  assert (Total (le_by f)) by (intros a b; unfold le_by; lia).
  exact (StronglySorted_merge_sort (le_by f) l).
Qed.

Definition mount (dest host : string) (ro : bool) : CRIMount := mkCRIMount dest host ro false true PRIVATE [] [] None.
Definition mounts : list CRIMount := [mount "/data/sub" "/srv/sub" true; mount "/data" "/srv" false].
Definition request : MountRequest :=
  mkMountRequest "label" "" [] false false false true true "/var/lib/storage" false "/var/run/crio/exits".
Definition run : outcome (list ContainerVolume * list Mount) * MW :=
  addOCIBindMounts bySize (λ _, Ret false) (λ _ p, Ret p) (λ _, true) (λ _, Ret ()) (λ _, Ret None) Ret (λ _, Ret ())
    (λ _, Ret false) request (Ret [mkMountInfo "/" ""]) mounts (mkMW Example.spec []).
End ExampleMounts.
Import ExampleMounts.

Lemma sortCRIMounts_parents_first_witness :
  sortCRIMounts bySize mounts = reverse mounts ∧ (0 < 1)%nat.
Proof.
  split; [reflexivity|].
  apply (sortCRIMounts_parents_first bySize mounts ["data"] ["sub"] 0 1 (mount "/data" "/srv" false) (mount "/data/sub" "/srv/sub" true));
    [exact bySize_sorting|discriminate|discriminate|repeat constructor|reflexivity..].
Defined.


Lemma addOCIBindMounts_calls_witness : logged request mounts (mkMW Example.spec []) run.2.
Proof.
  assert (is_Some (match run.1 with Ret r => Some r | _ => None end)) as [r Hr] by (vm_compute; eauto).
  pose proof (addOCIBindMounts_calls bySize (λ _, Ret false) (λ _ p, Ret p) (λ _, true) (λ _, Ret ()) (λ _, Ret None) Ret
    (λ _, Ret ()) (λ _, Ret false) request (Ret [mkMountInfo "/" ""]) mounts (mkMW Example.spec []) bySize_sorting) as H.
  change (match run with (Ret _, w') | (Fail _, w') => logged request mounts (mkMW Example.spec []) w' | (Panic _, _) => True end) in H.
  destruct run as [[a|e|s] w]; [exact H|exact H|discriminate].
Defined.

Lemma addSortedMounts_unique_witness :
  let m := mkMount "/sys" "" "/srv" ["ro"] [] [] in
  NoDup (mt_Destination <$> g_Mounts (addSortedMounts bySize [m] [] [m] Example.spec)).
Proof. intros m. apply (addSortedMounts_unique bySize [m] [] [m] Example.spec bySize_sorting). constructor. Defined.

Lemma isSubDirectoryOf_spec_witness : isSubDirectoryOf "/var/lib/storage" "/var/lib" = true.
Proof.
  apply (isSubDirectoryOf_spec ["var"; "lib"; "storage"] ["var"; "lib"]);
    [discriminate|discriminate|repeat constructor|repeat constructor|exists ["storage"]; reflexivity].
Defined.
