(* ===== verification/Server.v ===== *)
(** * Server: the CRI requests that stop and remove pods and containers
    (server/container_start.go, container_stop.go, container_remove.go,
    sandbox_stop.go, sandbox_stop_linux.go, sandbox_remove.go, networkStop of
    sandbox_network.go)

    A request runs over the container server of ContainerServer, the state files of
    Sandbox, and an environment: the OCI runtime, the storage service, the hooks,
    NRI, CNI, the host's mounts.  A call to the environment is a value of [call];
    what it does is a parameter, so that every theorem holds for any behaviour
    and any failure of it. *)

From S2P Require Import Prelude GoStrings Registrar MemoryStore Cpuset Container Sandbox ContainerServer.
From Stdlib Require Import Ascii.
Local Open Scope Z_scope.

Definition ErrIDEmpty := ErrorsNew "PodSandboxId should not be empty".
Definition errSandboxNotCreated := ErrorsNew "sandbox not created".
Definition ErrContainerUnknown := ErrorsNew "container unknown".
Definition os_NotExist := ErrorsNew "file does not exist".

(** [types.ContainerEventType] *)
Inductive event := CREATED_EVENT | STARTED_EVENT | STOPPED_EVENT | DELETED_EVENT.

(** The calls a request makes to the environment; [p] is a container, [sp] a
    sandbox. *)
Inductive call :=
| RuntimeCreate (p : ptr) (cgroupParent : string)
| RuntimeStart (p : ptr) | RuntimeStop (p : ptr) (timeout : Z) | RuntimeDelete (p : ptr)
| RuntimeUpdate (p : ptr) (res : LinuxResources)
| ContainerStateToDisk (p : ptr) | SetStartFailed_ (p : ptr)
| StorageDelete (id : string) | RemoveExitFile (id : string) | CleanupConmonCgroup (p : ptr)
| HookPreStart (p sp : ptr) | HookPreStop (p sp : ptr) | HookPostStop (p sp : ptr)
| NriPostCreate (sp p : ptr) | NriStart (p : ptr) | NriPostStart (p : ptr) | NriStop (p : ptr) | NriRemove (p : ptr)
| NriUpdate (p : ptr) | NriPostUpdate (p : ptr) | NriStopPod (sp : ptr) | NriRemovePod (sp : ptr)
| UnlinkLogs (sp : ptr) | UnmountShm (sp : ptr) | RemoveNamespaces (sp : ptr)
| RemoveSandboxCgroup_ (sp : ptr)
| HostportRemove (sp : ptr) | NewPodNetwork (sp : ptr) | TearDownPod (sp : ptr)
| StatNetNS (sp : ptr) | RemoveNetNS (sp : ptr)
| RemoveSeccompNotifier (p : ptr) | CRIEvent (p : ptr) (e : event)
| WaitCNI (nm : string) | MkdirLog (dir : string) | InitInfraContainer (id : string)
| SetupShm (id : string) | UnmountShmPath (id : string) | MountPodLogs (id : string)
| SetMountLabel (id : string) | EnsureSaneLogPath (id : string) | SetupSeccomp (id : string)
| SetUpPod (sp : ptr) | HostportAdd (sp : ptr) (ip : string)
| WriteHostname (id : string) | KVMLabel (id : string) | CreateSandboxCgroup_ (sp : ptr)
| SaveSpec (sp : ptr) | NriRunPod (sp : ptr)
| NetworkGC (sps : list ptr) | DeleteImage (img : string).

Record world {St E : Type} := mkWorld { srv : ContainerServer St; sfiles : gset string; env : E }.
Arguments world : clear implicits.
#[export] Instance world_eta {St E} : Eta (world St E) := λ w, mkWorld St E (srv w) (sfiles w) (env w).

Section server.
Context {St E : Type} `{StorerLaws ptr St}.
Variable level : string → outcome string.
Variable perform : call → io E ().
(** The status of a container as the runtime last reported it. *)
Variable status : ptr → E → string.
(** [GetRuntimeHandlerHooks] found hooks for the sandbox. *)
Variable hasHooks : ptr → bool.
Variable spoofed : ptr → bool.
Variable ctrDir : ptr → string.
(** [os.Create] of a state file. *)
Variable create : string → option goerr.
(** [stopTimeoutFromContext] of the request. *)
Variable stopTimeout : Z.

Abbreviation W := (world St E).

(** ** Plumbing *)

Definition on_srv {A} (m : io (ContainerServer St) A) : io W A := λ w,
  let '(o, s) := m (srv w) in (o, w <| srv := s |>).
Definition perf (c : call) : io W () := λ w,
  let '(o, e) := perform c (env w) in (o, w <| env := e |>).
(** A sandbox method that touches its state files. *)
Definition on_sandbox {A} (sp : ptr) (m : io (sbworld (C := ptr) (St := St)) A) : io W A := λ w,
  match sbs (srv w) !! sp with
  | None => (Panic "nil pointer dereference", w)
  | Some sb =>
      let '(o, sw) := m (mkSbWorld sb (sfiles w)) in
      (o, w <| srv ::= λ s, s <| sbs ::= <[sp := sbox sw]> |> |> <| sfiles := files sw |>)
  end.
Definition getCtr (p : ptr) : io W Ctr := λ w, (deref (ctrs (srv w) !! p), w).
Definition getSb (sp : ptr) : io W (Sandbox ptr St) := λ w, (deref (sbs (srv w) !! sp), w).
(** [s.getSandbox(ctx, id)], whose nil result is dereferenced by the callers. *)
Definition getSandbox (id : string) : io W ptr := λ w, (deref (GetSandbox id (srv w)), w).

(** An error that counts as success. *)
Definition unless {A} (target : goerr) (dflt : A) (m : io W A) : io W A :=
  r ← try m;
  match r with
  | inl a => mret a
  | inr e => if errors_is e target then mret dflt else fail e
  end.

(** ** Containers *)

Definition stopContainer (p : ptr) (timeout : Z) : io W () :=
  c ← getCtr p;
  sp ← getSandbox (c_sandbox c);
  when (hasHooks sp) (wrap_err "failed to run pre-stop hook for container: " (perf (HookPreStop p sp))) ;;
  wrap_err "failed to stop container: " (perf (RuntimeStop p timeout)) ;;
  ignore (perf (ContainerStateToDisk p)) ;;
  when (hasHooks sp) (ignore (perf (HookPostStop p sp))) ;;
  perf (NriStop p).

Definition StopContainer (id : string) (timeout : Z) : io W () :=
  r ← try (λ w, (GetContainerFromShortID id (srv w), w));
  match r with
  | inr e => if errors_is e ErrNotExist then mret () else fail (ErrorsNew "could not find container")
  | inl p => stopContainer p timeout
  end.

Definition removeContainerInPod (sp p : ptr) : io W () :=
  c ← getCtr p;
  sb ← getSb sp;
  when (negb (stopped sb))
    (wrap_err "failed to stop container for removal " (stopContainer p stopTimeout)) ;;
  ignore (perf (NriRemove p)) ;;
  wrap_err "failed to delete container: " (perf (RuntimeDelete p)) ;;
  wrap_err "failed to remove container exit file: "
    (unless os_NotExist () (perf (RemoveExitFile (c_id c)))) ;;
  ignore (perf (CleanupConmonCgroup p)) ;;
  wrap_err "failed to delete container: "
    (unless ErrContainerUnknown () (perf (StorageDelete (c_id c)))) ;;
  on_srv (ReleaseContainerName (c_name c)) ;;
  on_srv (modify (RemoveContainer p)) ;;
  wrap_err "failed to delete container from index: " (on_srv (deleteCtrID (c_id c))) ;;
  on_srv (modify (λ s, s <| sbs ::= alter (Sandbox.RemoveContainer (ctrName s) p) sp |>)).

(** [ServerRemoveContainer] is the request RemoveContainer. *)
Definition ServerRemoveContainer (id : string) : io W () :=
  r ← try (λ w, (GetContainerFromShortID id (srv w), w));
  match r with
  | inr e => if errors_is e ErrNotExist then mret () else fail (ErrorsNew "could not find container")
  | inl p =>
      c ← getCtr p;
      sp ← getSandbox (c_sandbox c);
      removeContainerInPod sp p ;;
      ignore (perf (RemoveSeccompNotifier p)) ;;
      ignore (perf (CRIEvent p DELETED_EVENT))
  end.

(** The deferred function runs after the body, whatever its result; its errors
    are logged. *)
Definition StartContainer_cleanup (p sp : ptr) (failed : bool) : io W () :=
  when failed
    (ignore (perf (SetStartFailed_ p)) ;;
     when (hasHooks sp) (ignore (perf (HookPreStop p sp))) ;;
     ignore (perf (NriStop p)) ;;
     ignore (removeContainerInPod sp p)) ;;
  ignore (perf (ContainerStateToDisk p)).

Definition StartContainer (id : string) : io W () :=
  r ← try (λ w, (GetContainerFromShortID id (srv w), w));
  match r with
  | inr _ => fail (ErrorsNew "could not find container")
  | inl p =>
      st ← gets (λ w, status p (env w));
      if negb (bool_decide (st = ContainerStateCreated)) then
        fail (ErrorsNew "container is not in created state")
      else
        c ← getCtr p;
        sp ← getSandbox (c_sandbox c);
        ignore (perf (NriStart p)) ;;
        r ← try (when (hasHooks sp)
                   (wrap_err "failed to run pre-start hook for container: " (perf (HookPreStart p sp))) ;;
                 wrap_err "failed to start container: " (perf (RuntimeStart p)));
        match r with
        | inl _ =>
            ignore (perf (CRIEvent p STARTED_EVENT)) ;;
            ignore (perf (NriPostStart p)) ;;
            StartContainer_cleanup p sp false
        | inr e => StartContainer_cleanup p sp true ;; fail e
        end
  end.

(** ** Pods *)

Definition getPodSandboxFromRequest (id : string) (s : ContainerServer St) : outcome ptr :=
  if bool_decide (id = "") then Fail ErrIDEmpty
  else match index_get id (podIDIndex s) with
       | Panic w => Panic w
       | Fail e => Fail (Errorf "PodSandbox with ID starting with it not found: " e)
       | Ret sandboxID =>
           match GetSandbox sandboxID s with
           | None => Fail (ErrorsNew "specified pod sandbox not found")
           | Some sp =>
               if default false (sb_created <$> sbs s !! sp) then Ret sp else Fail errSandboxNotCreated
           end
       end.

Definition networkStop (sp : ptr) : io W () :=
  sb ← getSb sp;
  if hostNetwork sb || networkStopped sb then mret ()
  else
    ignore (perf (HostportRemove sp)) ;;
    perf (NewPodNetwork sp) ;;
    r ← try (perf (TearDownPod sp));
    match r with
    | inl _ => mret ()
    | inr e =>
        wrap_err "failed to destroy network for pod sandbox: stat netns path: " (perf (StatNetNS sp)) ;;
        wrap_err "failed to destroy network for pod sandbox: failed to remove netns path: "
          (perf (RemoveNetNS sp))
    end ;;
    on_sandbox sp (SetNetworkStopped ctrDir create true).

(** [errorUtils.AggregateGoroutines]: every function runs; an error of any is
    reported.  The goroutines act on different containers. *)
Fixpoint aggregate (fs : list (io W ())) : io W () :=
  match fs with
  | [] => mret ()
  | f :: fs =>
      r ← try f;
      r' ← try (aggregate fs);
      match r, r' with
      | inl _, inl _ => mret ()
      | inr e, _ => fail e
      | inl _, inr e => fail e
      end
  end.

Definition ann_LinkLogs : string := "io.kubernetes.cri-o.LinkLogs".
Definition annotationsOf (sb : Sandbox ptr St) : gmap string string :=
  default ∅ (ps_Annotations <$> criSandbox sb).

Definition stopPodSandbox (sp : ptr) : io W () :=
  sb ← getSb sp;
  when (bool_decide (is_Some (annotationsOf sb !! ann_LinkLogs))) (ignore (perf (UnlinkLogs sp))) ;;
  networkStop sp ;;
  sb ← getSb sp;
  if stopped sb then mret ()
  else
    cs ← gets (λ w, filter (λ p, status p (env w) ≠ ContainerStateStopped)
                      (st_list (createdAtOf (srv w)) (containers sb)));
    wrap_err "stop containers in parallel: " (aggregate ((λ p, stopContainer p stopTimeout) <$> cs)) ;;
    infra ← lift (deref (infraContainer sb));
    wrap_err "failed to stop infra container for pod sandbox: "
      (unless ErrContainerUnknown () (stopContainer infra stopTimeout)) ;;
    wrap_err "unable to remove managed namespaces: " (perf (RemoveNamespaces sp)) ;;
    perf (UnmountShm sp) ;;
    perf (NriStopPod sp) ;;
    on_sandbox sp (SetStopped ctrDir create true) ;;
    when (spoofed infra) (ignore (perf (CRIEvent infra STOPPED_EVENT))).

Definition StopPodSandbox (id : string) : io W () :=
  r ← try (λ w, (getPodSandboxFromRequest id (srv w), w));
  match r with
  | inr e =>
      if errors_is e ErrIDEmpty then fail e
      else if errors_is e errSandboxNotCreated then
        fail (ErrorsNew "StopPodSandbox failed as the sandbox is not created")
      else mret ()
  | inl sp => stopPodSandbox sp
  end.

Definition removePodSandbox (sp : ptr) : io W () :=
  sb ← getSb sp;
  cs ← gets (λ w, st_list (createdAtOf (srv w)) (containers sb));
  for_each (removeContainerInPod sp) cs ;;
  wrap_err "unable to unmount SHM: " (perf (UnmountShm sp)) ;;
  infra ← lift (deref (infraContainer sb));
  on_srv (modify (RemoveInfraContainer infra)) ;;
  removeContainerInPod sp infra ;;
  when (spoofed infra) (perf (RemoveSandboxCgroup_ sp)) ;;
  wrap_err "stop pod network: " (networkStop sp) ;;
  wrap_err "unable to remove managed namespaces: " (perf (RemoveNamespaces sp)) ;;
  id ← gets (λ w, sandboxID (srv w) sp);
  on_srv (ReleasePodName (sb_name sb)) ;;
  ignore (on_srv (RemoveSandbox level id)) ;;
  wrap_err "failed to delete pod sandbox from index: "
    (on_srv (λ s, match index_delete id (podIDIndex s) with
                  | Ret i => (Ret (), s <| podIDIndex := i |>)
                  | Fail e => (Fail e, s)
                  | Panic w => (Panic w, s)
                  end)) ;;
  ignore (perf (CRIEvent infra DELETED_EVENT)) ;;
  ignore (perf (NriRemovePod sp)).

Definition RemovePodSandbox (id : string) : io W () :=
  r ← try (λ w, (getPodSandboxFromRequest id (srv w), w));
  match r with
  | inr e =>
      if errors_is e ErrIDEmpty then fail e
      else if errors_is e errSandboxNotCreated then fail (ErrorsNew "sandbox is not yet created")
      else mret ()
  | inl sp => removePodSandbox sp
  end.
End server.

(** ** Lemmas: what does not touch the container server *)

Create HintDb frame discriminated.

Section frame.
Context {St E : Type} `{StorerLaws ptr St}.
Variable level : string → outcome string.
Variable perform : call → io E ().
Variable hasHooks spoofed : ptr → bool.
Variable ctrDir : ptr → string.
Variable create : string → option goerr.
Variable stopTimeout : Z.

Abbreviation W := (world St E).
Abbreviation perf := (perf (St := St) perform).
Abbreviation stopContainer := (stopContainer (St := St) perform hasHooks).
Abbreviation removeContainerInPod := (removeContainerInPod perform hasHooks stopTimeout).

(** The action leaves the container server as it is. *)
Definition keeps {A} (m : io W A) : Prop := ∀ w, srv (snd (m w)) = srv w.

Lemma keeps_ret {A} (a : A) : keeps (mret a).
Proof. by intros w. Qed.
Lemma keeps_fail {A} e : keeps (fail e : io W A).
Proof. by intros w. Qed.
Lemma keeps_perf c : keeps (perf c).
Proof. intros w. unfold Server.perf. by destruct (perform c (env w)). Qed.
Lemma keeps_getCtr p : keeps (getCtr p).
Proof. by intros w. Qed.
Lemma keeps_getSb sp : keeps (getSb sp).
Proof. by intros w. Qed.
Lemma keeps_getSandbox id : keeps (getSandbox id).
Proof. by intros w. Qed.
Lemma keeps_gets {A} (f : W → A) : keeps (gets f).
Proof. by intros w. Qed.
Lemma keeps_lift {A} (o : outcome A) : keeps (lift o).
Proof. by intros w. Qed.
Lemma keeps_bind {A B} (m : io W A) (k : A → io W B) :
  keeps m → (∀ a, keeps (k a)) → keeps (m ≫= k).
Proof.
  intros Hm Hk w. specialize (Hm w). unfold mbind, io_bind.
  destruct (m w) as [[a| |] w1]; simpl in *; [by rewrite Hk|done|done].
Qed.
Lemma keeps_ignore {A} (m : io W A) : keeps m → keeps (ignore m).
Proof. intros Hm w. specialize (Hm w). unfold ignore. by destruct (m w) as [[] ?]. Qed.
Lemma keeps_wrap {A} s (m : io W A) : keeps m → keeps (wrap_err s m).
Proof. intros Hm w. specialize (Hm w). unfold wrap_err. by destruct (m w) as [[] ?]. Qed.
Lemma keeps_when b (m : io W ()) : keeps m → keeps (when b m).
Proof. intros Hm. destruct b; [exact Hm|apply keeps_ret]. Qed.
Lemma keeps_try {A} (m : io W A) : keeps m → keeps (try m).
Proof. intros Hm w. specialize (Hm w). unfold try. by destruct (m w) as [[] ?]. Qed.
Lemma keeps_unless {A} t (d : A) (m : io W A) : keeps m → keeps (unless t d m).
Proof.
  intros Hm. apply keeps_bind; [by apply keeps_try|].
  intros [a|e]; [apply keeps_ret|]. destruct (errors_is e t); [apply keeps_ret|apply keeps_fail].
Qed.

#[local] Hint Resolve keeps_ret keeps_fail keeps_perf keeps_getCtr keeps_getSb keeps_getSandbox
  keeps_gets keeps_lift keeps_bind keeps_ignore keeps_wrap keeps_when keeps_try keeps_unless : frame.

Lemma keeps_stopContainer p t : keeps (stopContainer p t).
Proof. unfold Server.stopContainer. auto 20 with frame. Qed.
#[local] Hint Resolve keeps_stopContainer : frame.

(** A step that keeps the server, in a run that succeeds. *)
Lemma keeps_inv {A B} (m : io W A) (k : A → io W B) w b w2 :
  keeps m → (m ≫= k) w = (Ret b, w2) →
  ∃ a w1, m w = (Ret a, w1) ∧ srv w1 = srv w ∧ k a w1 = (Ret b, w2).
Proof.
  intros Hm Hr. apply io_bind_inv in Hr as (a & w1 & H1 & H2). exists a, w1. split; [done|].
  split; [|done]. specialize (Hm w). by rewrite H1 in Hm.
Qed.

(** The server after the container [p] = [c] was taken out of sandbox [sp]. *)
Definition removed (sp p : ptr) (c : Ctr) (s : ContainerServer St) : ContainerServer St :=
  let s := RemoveContainer p (s <| ctrNameIndex ::= Release (c_name c) |>) in
  let s := s <| ctrIDIndex ::= (.∖ {[c_id c]}) |> in
  s <| sbs ::= alter (Sandbox.RemoveContainer (ctrName s) p) sp |>.

Lemma RemoveContainer_ids p (s : ContainerServer St) : ctrIDIndex (RemoveContainer p s) = ctrIDIndex s.
Proof. unfold RemoveContainer. by repeat case_match. Qed.

Lemma removeContainerInPod_inv sp p w w' :
  removeContainerInPod sp p w = (Ret (), w') →
  ∃ c, ctrs (srv w) !! p = Some c ∧ c_id c ∈ ctrIDIndex (srv w) ∧ srv w' = removed sp p c (srv w).
Proof.
  unfold Server.removeContainerInPod. intros Hr.
  apply io_bind_inv in Hr as (c & w0 & Hc & Hr). unfold getCtr, deref in Hc.
  destruct (ctrs (srv w) !! p) as [c'|] eqn:Hp; simplify_eq.
  do 7 (apply keeps_inv in Hr as (? & ? & _ & Hw & Hr); [rewrite <- Hw in *; clear Hw|auto 20 with frame]).
  exists c. split; [done|]. revert Hr. unfold mbind, io_bind, on_srv, modify, ReleaseContainerName, wrap_err.
  simpl. unfold deleteCtrID, index_delete.
  rewrite RemoveContainer_ids. simpl.
  case_bool_decide as Hin; simpl; [|done]. case_bool_decide; simpl; [done|]. intros [= <-].
  split; [done|]. simpl. unfold removed. simpl. by rewrite RemoveContainer_ids.
Qed.

(** What the removal leaves of the maps of the server. *)
Lemma removed_fields sp p c s sp0 :
  ctrs s !! p = Some c → GetSandbox (c_sandbox c) s = Some sp0 → wf (ctrNameIndex s) →
  st_model (s_containers (removed sp p c s)) = delete (c_id c) (st_model (s_containers s)) ∧
  ctrIDIndex (removed sp p c s) = ctrIDIndex s ∖ {[c_id c]} ∧
  names (ctrNameIndex (removed sp p c s)) = delete (c_name c) (names (ctrNameIndex s)) ∧
  ctrs (removed sp p c s) = ctrs s ∧ sandboxes (removed sp p c s) = sandboxes s.
Proof.
  intros Hp Hs Hwf. unfold removed, RemoveContainer. simpl. rewrite Hp. unfold GetSandbox in Hs. rewrite Hs.
  simpl. rewrite model_delete. split_and!; try done. by apply names_Release.
Qed.

Lemma removed_sandbox sp p c s sb :
  ctrs s !! p = Some c → GetSandbox (c_sandbox c) s = Some sp → sbs s !! sp = Some sb →
  ∃ sb', sbs (removed sp p c s) !! sp = Some sb' ∧
    st_model (containers sb') = delete (c_name c) (st_model (containers sb)).
Proof.
  intros Hp Hs Hsb. unfold removed, RemoveContainer. simpl. rewrite Hp. unfold GetSandbox in Hs. rewrite Hs.
  simpl. rewrite !lookup_alter_eq, Hsb. simpl. eexists. split; [reflexivity|]. simpl.
  unfold ctrName. simpl. rewrite Hp. simpl. rewrite !model_delete. apply delete_delete_eq.
Qed.

(** C28: a container that was removed is gone everywhere: from the server's store, from
    its sandbox, from the ID index, and its name is free; the other containers
    stay; and the request can be repeated, as its ID is now unknown. *)
Theorem RemoveContainer_complete id p c sp sb w w' :
  wf (ctrNameIndex (srv w)) →
  GetContainerFromShortID id (srv w) = Ret p → ctrs (srv w) !! p = Some c →
  GetSandbox (c_sandbox c) (srv w) = Some sp → sbs (srv w) !! sp = Some sb →
  ServerRemoveContainer perform hasHooks stopTimeout id w = (Ret (), w') →
  GetContainer (c_id c) (srv w') = None ∧
  (∀ id', id' ≠ c_id c → GetContainer id' (srv w') = GetContainer id' (srv w)) ∧
  ctrIDIndex (srv w') = ctrIDIndex (srv w) ∖ {[c_id c]} ∧
  names (ctrNameIndex (srv w')) = delete (c_name c) (names (ctrNameIndex (srv w))) ∧
  (∃ sb', sbs (srv w') !! sp = Some sb' ∧
     st_model (containers sb') = delete (c_name c) (st_model (containers sb))) ∧
  (c_id c ≠ "" → (∀ i, i ∈ ctrIDIndex (srv w') → HasPrefix i (c_id c) = false) →
     ServerRemoveContainer perform hasHooks stopTimeout (c_id c) w' = (Ret (), w')).
Proof.
  intros Hwf Hg Hp Hs Hsb Hr.
  assert (srv w' = removed sp p c (srv w)) as Hw'.
  { unfold ServerRemoveContainer in Hr. apply io_bind_inv in Hr as (r & w1 & H1 & Hr).
    unfold try in H1. rewrite Hg in H1. simplify_eq.
    apply io_bind_inv in Hr as (c' & w2 & H2 & Hr). unfold getCtr in H2. rewrite Hp in H2. simplify_eq/=.
    apply io_bind_inv in Hr as (sp' & w3 & H3 & Hr). unfold getSandbox in H3. rewrite Hs in H3. simplify_eq/=.
    apply io_bind_inv in Hr as (? & w4 & H4 & Hr). destruct x.
    apply removeContainerInPod_inv in H4 as (c'' & Hc & _ & H4). simplify_eq.
    apply keeps_inv in Hr as (? & w5 & _ & H5 & Hr); [|auto with frame].
    assert (keeps (ignore (perf (CRIEvent p DELETED_EVENT)))) as Hk by auto with frame.
    specialize (Hk w5). rewrite Hr in Hk. simpl in Hk. congruence. }
  destruct (removed_fields sp p c (srv w) sp Hp Hs Hwf) as (Hm & Hi & Hn & Hc & Hss).
  pose proof (removed_sandbox sp p c (srv w) sb Hp Hs Hsb) as Hsb'.
  rewrite <- Hw' in *. unfold GetContainer. setoid_rewrite st_get_model. rewrite Hm. split_and!; try done.
  - apply lookup_delete_eq.
  - intros id' Hne. by rewrite lookup_delete_ne.
  - intros Hne Hpre. unfold ServerRemoveContainer, mbind, io_bind, try, GetContainerFromShortID.
    rewrite bool_decide_eq_false_2 by done. unfold index_get. rewrite bool_decide_eq_false_2 by done.
    destruct (filter _ _) as [|i l] eqn:Hf; [done|]. exfalso.
    assert (i ∈ filter (λ i, HasPrefix i (c_id c) = true) (elements (ctrIDIndex (srv w')))) as Hin
      by (rewrite Hf; by left).
    rewrite list_elem_of_filter, elem_of_elements in Hin. destruct Hin as [H1 H2].
    by rewrite Hpre in H1.
Qed.

(** *** The state files *)

Lemma createFile_keeps f (sw : sbworld (C := ptr) (St := St)) :
  sbox (snd (createFileInInfraDir ctrDir create f sw)) = sbox sw.
Proof.
  unfold createFileInInfraDir, mbind, io_bind, gets, lift, mret, io_ret. simpl.
  destruct (sb_created (sbox sw)); simpl; [|done]. destruct (infraFile _ _ _); simpl; [|done..].
  case_bool_decide; simpl; [|done]. unfold os_Create. by destruct (create _).
Qed.

Lemma SetNetworkStopped_inv b sb fs sw :
  SetNetworkStopped ctrDir create b (mkSbWorld sb fs : sbworld (C := ptr) (St := St)) = (Ret (), sw) →
  sbox sw = sb <| networkStopped := true |>.
Proof.
  unfold SetNetworkStopped, mbind, io_bind, gets, modify, when, wrap_err. simpl.
  destruct (networkStopped sb) eqn:Hn.
  { intros [= <-]. destruct sb; simpl in *. by subst. }
  destruct b; [|by intros [= <-]]. simpl.
  match goal with |- context [createFileInInfraDir _ _ ?f ?s] =>
    pose proof (createFile_keeps f s) as Hk; destruct (createFileInInfraDir ctrDir create f s) as [[] ?] end.
  all: intros Eq; simplify_eq; exact Hk.
Qed.

Lemma SetStopped_inv b sb fs o sw :
  SetStopped ctrDir create b (mkSbWorld sb fs : sbworld (C := ptr) (St := St)) = (Ret o, sw) →
  sbox sw = sb <| stopped := true |>.
Proof.
  unfold SetStopped, mbind, io_bind, gets, modify, when, ignore. simpl.
  destruct (stopped sb) eqn:Hn.
  { intros [= _ <-]. destruct sb; simpl in *. by subst. }
  destruct b; [|by intros [= _ <-]]. simpl.
  match goal with |- context [createFileInInfraDir _ _ ?f ?s] =>
    pose proof (createFile_keeps f s) as Hk; destruct (createFileInInfraDir ctrDir create f s) as [[] ?] end.
  all: intros Eq; simplify_eq; exact Hk.
Qed.

(** The server with the sandbox object replaced. *)
Definition with_sb (sp : ptr) (sb : Sandbox ptr St) (s : ContainerServer St) : ContainerServer St :=
  s <| sbs ::= <[sp := sb]> |>.

Lemma with_sb_id sp sb s : sbs s !! sp = Some sb → with_sb sp sb s = s.
Proof. intros Hs. unfold with_sb. destruct s; simpl in *. by rewrite insert_id. Qed.

Lemma networkStop_inv sp w w' :
  networkStop perform ctrDir create sp w = (Ret (), w') →
  ∃ sb sb', sbs (srv w) !! sp = Some sb ∧ (sb' = sb ∨ sb' = sb <| networkStopped := true |>) ∧
    hostNetwork sb' || networkStopped sb' = true ∧ srv w' = with_sb sp sb' (srv w).
Proof.
  unfold networkStop. intros Hr. apply io_bind_inv in Hr as (sb & w0 & Hg & Hr).
  unfold getSb, deref in Hg. destruct (sbs (srv w) !! sp) as [sb0|] eqn:Hsb; [|done]. simplify_eq.
  destruct (hostNetwork sb || networkStopped sb) eqn:Hn.
  { injection Hr as <-. exists sb, sb. split_and!; auto. by rewrite with_sb_id. }
  do 2 (apply keeps_inv in Hr as (? & ? & _ & Hw & Hr); [rewrite <- Hw in *; clear Hw|auto with frame]).
  apply keeps_inv in Hr as (r & w3 & _ & Hw & Hr); [rewrite <- Hw in *; clear Hw|auto with frame].
  apply keeps_inv in Hr as (? & w4 & _ & Hw & Hr); [rewrite <- Hw in *; clear Hw|destruct r; auto with frame].
  unfold on_sandbox in Hr. rewrite Hsb in Hr.
  destruct (SetNetworkStopped _ _ _ _) as [o sw] eqn:Hset. injection Hr as -> <-.
  apply SetNetworkStopped_inv in Hset. exists sb, (sb <| networkStopped := true |>).
  split_and!; [done|by right|apply orb_true_r|]. simpl. by rewrite Hset.
Qed.

Lemma keeps_aggregate fs : Forall keeps fs → keeps (aggregate (St := St) (E := E) fs).
Proof.
  induction 1 as [|f fs Hf Hfs IH]; [apply keeps_ret|]. simpl.
  apply keeps_bind; [by apply keeps_try|]. intros r. apply keeps_bind; [by apply keeps_try|].
  intros r'. destruct r, r'; auto with frame.
Qed.

Lemma keeps_stop_all cs : keeps (aggregate ((λ p, stopContainer p stopTimeout) <$> cs)).
Proof. apply keeps_aggregate, Forall_fmap, Forall_forall. intros p _. apply keeps_stopContainer. Qed.
#[local] Hint Resolve keeps_stop_all : frame.

(** A pod that was stopped stays stopped, with its network torn down, and stopping it
    again does nothing, not even a call to the environment. *)
Theorem StopPodSandbox_idempotent status sp w w' :
  stopPodSandbox perform status hasHooks spoofed ctrDir create stopTimeout sp w = (Ret (), w') →
  ∃ sb, sbs (srv w') !! sp = Some sb ∧ stopped sb = true ∧
    hostNetwork sb || networkStopped sb = true ∧
    (annotationsOf sb !! ann_LinkLogs = None →
     stopPodSandbox perform status hasHooks spoofed ctrDir create stopTimeout sp w' = (Ret (), w')).
Proof.
  intros Hr.
  assert (∃ sb, sbs (srv w') !! sp = Some sb ∧ stopped sb = true ∧
    hostNetwork sb || networkStopped sb = true) as (sb & Hsb & Hst & Hn).
  { unfold stopPodSandbox in Hr.
    do 2 (apply keeps_inv in Hr as (? & ? & _ & _ & Hr); [|auto with frame]).
    apply io_bind_inv in Hr as ([] & w2 & Hns & Hr). apply networkStop_inv in Hns as (sb & sb' & _ & _ & Hn & Hw2).
    apply io_bind_inv in Hr as (sb2 & w3 & Hg & Hr). unfold getSb in Hg. rewrite Hw2 in Hg. simpl in Hg.
    rewrite lookup_insert_eq in Hg. simplify_eq/=. destruct (stopped sb2) eqn:Hs.
    { injection Hr as <-. exists sb2. rewrite Hw2. simpl. by rewrite lookup_insert_eq. }
    apply keeps_inv in Hr as (cs & ? & _ & Hw & Hr); [rewrite <- Hw in *; clear Hw|auto with frame].
    apply keeps_inv in Hr as (? & ? & _ & Hw & Hr); [rewrite <- Hw in *; clear Hw|auto with frame].
    apply keeps_inv in Hr as (infra & ? & _ & Hw & Hr); [rewrite <- Hw in *; clear Hw|auto with frame].
    do 4 (apply keeps_inv in Hr as (? & ? & _ & Hw & Hr); [rewrite <- Hw in *; clear Hw|auto with frame]).
    apply io_bind_inv in Hr as ([] & w5 & Hset & Hr). unfold on_sandbox in Hset.
    match type of Hw2 with srv ?x = _ => rewrite Hw2 in Hset end. simpl in Hset.
    rewrite lookup_insert_eq in Hset. destruct (SetStopped _ _ _ _) as [o sw] eqn:Hss.
    injection Hset as -> <-. apply SetStopped_inv in Hss.
    assert (keeps (when (spoofed infra) (ignore (perf (CRIEvent infra STOPPED_EVENT))))) as Hk by auto with frame.
    match type of Hr with _ ?x = _ => specialize (Hk x) end. rewrite Hr in Hk. simpl in Hk.
    exists (sbox sw). rewrite Hk. simpl. rewrite lookup_insert_eq, Hss. done. }
  exists sb. split_and!; try done. intros Hann.
  unfold stopPodSandbox, mbind, io_bind, getSb. rewrite Hsb. simpl.
  rewrite bool_decide_eq_false_2 by (rewrite Hann; by intros []). simpl.
  unfold networkStop, mbind, io_bind, getSb. rewrite Hsb. simpl. rewrite Hn. unfold mret, io_ret.
  rewrite Hsb. simpl. by rewrite Hst.
Qed.

(** *** Removing a pod *)

(** Only containers went away; sandboxes, pod names and IDs are as before. *)
Record shrunk (s s' : ContainerServer St) : Prop := {
  sh_ctrs : ctrs s' = ctrs s;
  sh_sandboxes : sandboxes s' = sandboxes s;
  sh_names : podNameIndex s' = podNameIndex s;
  sh_ids : podIDIndex s' = podIDIndex s;
  sh_label q : labelOf s' q = labelOf s q;
  sh_sbid q : sandboxID s' q = sandboxID s q;
  sh_store : st_model (s_containers s') ⊆ st_model (s_containers s);
}.

Lemma shrunk_refl s : shrunk s s.
Proof. by split. Qed.
Lemma shrunk_trans s1 s2 s3 : shrunk s1 s2 → shrunk s2 s3 → shrunk s1 s3.
Proof. intros [] []. split; try congruence. by etrans. Qed.

Lemma alter_remove_shrunk f sp (s : ContainerServer St) :
  (∀ sb : Sandbox ptr St, processLabel (f sb) = processLabel sb ∧ criSandbox (f sb) = criSandbox sb) →
  shrunk s (s <| sbs ::= alter f sp |>).
Proof. intros Hf. split; try done; intros q; by destruct (alter_containers_fields f sp s q Hf). Qed.

Lemma removed_shrunk sp p c s : shrunk s (removed sp p c s).
Proof.
  unfold removed. eapply shrunk_trans; [|by apply alter_remove_shrunk].
  unfold RemoveContainer. simpl. destruct (ctrs s !! p) as [c'|]; [|by split].
  destruct (st_get (c_sandbox c') (sandboxes s)) as [sp'|]; [|by split].
  eapply (shrunk_trans _ (s <| sbs ::= alter (Sandbox.RemoveContainer (ctrName s) p) sp' |>));
    [by apply alter_remove_shrunk|]. split; try done. simpl. rewrite model_delete.
  apply delete_subseteq.
Qed.

Lemma removeAll_inv sp cs w w' :
  for_each (removeContainerInPod sp) cs w = (Ret (), w') →
  shrunk (srv w) (srv w') ∧
  ∀ p c, p ∈ cs → ctrs (srv w) !! p = Some c → is_Some (GetSandbox (c_sandbox c) (srv w)) →
    st_model (s_containers (srv w')) !! c_id c = None.
Proof.
  revert w. induction cs as [|q cs IH]; intros w Hr.
  { injection Hr as <-. split; [apply shrunk_refl|]. by intros ? ? ?%not_elem_of_nil. }
  simpl in Hr. apply io_bind_inv in Hr as ([] & w1 & H1 & Hr).
  apply removeContainerInPod_inv in H1 as (c1 & Hc1 & _ & Hw1).
  pose proof (removed_shrunk sp q c1 (srv w)) as Hsh1. rewrite <- Hw1 in Hsh1.
  destruct (IH w1 Hr) as [Hsh Hgone]. split; [by eapply shrunk_trans|].
  intros p c [->|Hp]%elem_of_cons Hc Hs.
  - eapply lookup_weaken_None; [|apply (sh_store _ _ Hsh)]. rewrite Hc1 in Hc. simplify_eq. rewrite Hw1. destruct Hs as [sp' Hs].
    unfold removed, RemoveContainer. simpl. rewrite Hc1. unfold GetSandbox in Hs. rewrite Hs. simpl.
    rewrite model_delete. apply lookup_delete_eq.
  - apply (Hgone p c Hp); [by rewrite (sh_ctrs _ _ Hsh1)|].
    unfold GetSandbox. by rewrite (sh_sandboxes _ _ Hsh1).
Qed.

Lemma networkStop_shrunk sp w w' :
  networkStop perform ctrDir create sp w = (Ret (), w') → shrunk (srv w) (srv w').
Proof.
  intros (sb & sb' & Hsb & Hor & _ & ->)%networkStop_inv.
  assert (processLabel sb' = processLabel sb ∧ criSandbox sb' = criSandbox sb) as [Hl Hc]
    by (by destruct Hor as [->| ->]).
  split; try done; intros q; unfold labelOf, sandboxID, with_sb; simpl;
    (destruct (decide (q = sp)) as [->|]; [rewrite lookup_insert_eq, Hsb; simpl|by rewrite lookup_insert_ne]).
  - by rewrite Hl.
  - by rewrite Hc.
Qed.

Lemma RemoveInfra_shrunk p s : shrunk s (RemoveInfraContainer p s).
Proof. unfold RemoveInfraContainer. case_match; by split. Qed.

(** The end of [removePodSandbox]: what it does to the server. *)
Lemma removeFromServer_inv id nm sp label w w' l k1 k2 :
  GetSandbox id (srv w) = Some sp → labelOf (srv w) sp = label → level label = Ret l →
  (on_srv (ReleasePodName nm) ;;
   ignore (on_srv (RemoveSandbox level id)) ;;
   wrap_err "failed to delete pod sandbox from index: "
     (on_srv (λ s, match index_delete id (podIDIndex s) with
                   | Ret i => (Ret (), s <| podIDIndex := i |>)
                   | Fail e => (Fail e, s)
                   | Panic w => (Panic w, s)
                   end)) ;;
   ignore (perf k1) ;; ignore (perf k2)) w = (Ret (), w') →
  st_model (sandboxes (srv w')) = delete id (st_model (sandboxes (srv w))) ∧
  (id ∉ podIDIndex (srv w')) ∧ podNameIndex (srv w') = Release nm (podNameIndex (srv w)) ∧
  ctrs (srv w') = ctrs (srv w) ∧ s_containers (srv w') = s_containers (srv w).
Proof.
  intros Hid Hlab Hl Hr. apply io_bind_inv in Hr as ([] & w1 & H1 & Hr). injection H1 as <-.
  apply io_bind_inv in Hr as ([] & w2 & H2 & Hr).
  apply io_bind_inv in Hr as ([] & w3 & H3 & Hr).
  apply keeps_inv in Hr as (? & w4 & _ & Hw4 & Hr); [|auto with frame].
  assert (keeps (ignore (perf k2))) as Hk by auto with frame. specialize (Hk w4). rewrite Hr in Hk.
  simpl in Hk. rewrite Hk, Hw4. clear Hk Hr Hw4.
  assert (∃ s2, srv w2 = s2 ∧ st_model (sandboxes s2) = delete id (st_model (sandboxes (srv w))) ∧
    podNameIndex s2 = Release nm (podNameIndex (srv w)) ∧ podIDIndex s2 = podIDIndex (srv w) ∧
    ctrs s2 = ctrs (srv w) ∧ s_containers s2 = s_containers (srv w)) as (s2 & Hw2 & Hm & Hn & Hi & Hc & Hs).
  { revert H2. unfold ignore, on_srv, RemoveSandbox, mbind, io_bind, gets, modify. simpl.
    change (GetSandbox id _) with (GetSandbox id (srv w)). rewrite Hid. unfold removeSandboxPlatform.
    change (labelOf _ sp) with (labelOf (srv w) sp). rewrite Hlab, Hl. simpl.
    destruct (processLevels (srv w) !! l) as [z|]; [case_bool_decide|]; simpl; intros Eq; simplify_eq/=;
      eexists; (split; [reflexivity|]); simpl; rewrite model_delete; done. }
  revert H3. unfold wrap_err, on_srv. rewrite Hw2, Hi. unfold index_delete.
  repeat case_bool_decide; simpl; intros Eq; simplify_eq/=. split_and!; try done. set_solver.
Qed.

(** The run of [removePodSandbox] up to there: the server [s2] after the containers were
    removed, and [w9] before the pod is taken out. *)
Lemma removePodSandbox_inv sp sb w w' :
  sbs (srv w) !! sp = Some sb →
  removePodSandbox level perform hasHooks spoofed ctrDir create stopTimeout sp w = (Ret (), w') →
  ∃ s2 w9 infra, shrunk (srv w) s2 ∧ shrunk s2 (srv w9) ∧
    (∀ p c, p ∈ st_list (createdAtOf (srv w)) (containers sb) → ctrs (srv w) !! p = Some c →
       is_Some (GetSandbox (c_sandbox c) (srv w)) → st_model (s_containers s2) !! c_id c = None) ∧
    (on_srv (ReleasePodName (sb_name sb)) ;;
     ignore (on_srv (RemoveSandbox level (sandboxID (srv w9) sp))) ;;
     wrap_err "failed to delete pod sandbox from index: "
       (on_srv (λ s, match index_delete (sandboxID (srv w9) sp) (podIDIndex s) with
                     | Ret i => (Ret (), s <| podIDIndex := i |>)
                     | Fail e => (Fail e, s)
                     | Panic w => (Panic w, s)
                     end)) ;;
     ignore (perf (CRIEvent infra DELETED_EVENT)) ;; ignore (perf (NriRemovePod sp))) w9 = (Ret (), w').
Proof.
  intros Hsb Hr. unfold removePodSandbox in Hr.
  apply io_bind_inv in Hr as (sb0 & w0 & Hg & Hr). unfold getSb in Hg. rewrite Hsb in Hg. simpl in Hg. injection Hg as <- <-.
  apply io_bind_inv in Hr as (cs & w1 & Hcs & Hr). injection Hcs as <- <-.
  apply io_bind_inv in Hr as ([] & w2 & Hall & Hr). apply removeAll_inv in Hall as [Hsh Hgone].
  apply keeps_inv in Hr as (? & w3 & _ & Hw & Hr); [rewrite <- Hw in *; clear Hw|auto with frame].
  apply keeps_inv in Hr as (infra & w4 & _ & Hw & Hr); [rewrite <- Hw in *; clear Hw|auto with frame].
  apply io_bind_inv in Hr as ([] & w5 & Hinf & Hr). injection Hinf as <-.
  apply io_bind_inv in Hr as ([] & w6 & Hrm & Hr).
  apply removeContainerInPod_inv in Hrm as (ci & _ & _ & Hw6). simpl in Hw6.
  pose proof (shrunk_trans _ _ _ (RemoveInfra_shrunk infra (srv w4)) (removed_shrunk sp infra ci _)) as Hsh6.
  rewrite <- Hw6 in Hsh6.
  apply keeps_inv in Hr as (? & w7 & _ & Hw & Hr); [rewrite <- Hw in *; clear Hw|auto with frame].
  apply io_bind_inv in Hr as ([] & w8 & Hns & Hr). unfold wrap_err in Hns.
  destruct (networkStop perform ctrDir create sp w7) as [[[]| |] w8'] eqn:Hns'; simplify_eq.
  pose proof (shrunk_trans _ _ _ Hsh6 (networkStop_shrunk _ _ _ Hns')) as Hrest.
  apply keeps_inv in Hr as (? & w9 & _ & Hw & Hr); [rewrite <- Hw in *; clear Hw|auto with frame].
  apply io_bind_inv in Hr as (id' & w10 & Hid' & Hr). injection Hid' as <- <-.
  by exists (srv w4), w9, infra.
Qed.

End frame.

(** ** Witnesses

    A server with one pod that has one container and an infra container, in an
    environment that answers every call with success and logs it. *)

#[local] Instance ms_storer : Storer ptr (memoryStore (T := ptr)) := memoryStore_storer map_to_list.
#[local] Instance ms_laws : StorerLaws ptr (memoryStore (T := ptr)) :=
  memoryStore_laws map_to_list (λ c, reflexivity (map_to_list c)).

Module Example3.
Definition level (l : string) : outcome string := Ret "s0".
Definition perform (c : call) : io (list call) () := λ l, (Ret (), l ++ [c]).
Definition sb1 : Sandbox ptr (memoryStore (T := ptr)) :=
  (loadedSandbox "pod1" "k8s_POD" ∅ "label" "" 1) <| infraContainer := Some 2%positive |>
    <| sb_created := true |>
    <| criSandbox ::= fmap (λ m, m <| ps_Metadata := Some (mkPodMetadata "shop" "uid1" "default" 0) |>) |>.
Definition c1 : Ctr := mkCtr "c1" "web" "pod1" true 2 (mkSpec None None).
Definition c2 : Ctr := mkCtr "i1" "infra" "pod1" false 1 (mkSpec None None).
Definition s1 := snd (allocSb sb1 (ContainerServer.New (St := memoryStore (T := ptr)))).
Definition s2 := snd (ContainerServer.AddSandbox level 1%positive s1).
Definition s3 := snd (allocCtr c1 s2).
Definition s4 := ContainerServer.AddContainer 1%positive s3.
Definition s5 := snd (allocCtr c2 s4).
Definition s6 := ContainerServer.AddInfraContainer 2%positive s5.
Definition s7 := s6 <| ctrIDIndex := {["c1"; "i1"]} |>.
Definition s8 := s7 <| podIDIndex := {["pod1"]} |>.
Definition s9 := s8 <| ctrNameIndex := fst (Reserve "infra" "i1" (fst (Reserve "web" "c1" NewRegistrar))) |>.
Definition s10 := s9 <| podNameIndex := fst (Reserve "k8s_POD" "pod1" NewRegistrar) |>.
Definition w : world (memoryStore (T := ptr)) (list call) := mkWorld _ _ s10 ∅ [].
Definition no (p : ptr) : bool := false.
Definition dir (p : ptr) : string := "/run/infra".
Definition create (f : string) : option goerr := None.
Definition running (p : ptr) (l : list call) : string := ContainerStateRunning.

Lemma reach_pod : rtc (server_step level) (ContainerServer.New) s10.
Proof.
  apply rtc_l with s1. { by apply (step_new_sandbox level _ sb1). }
  apply rtc_l with s2. { apply (step_AddSandbox level s1); [by eexists|by vm_compute]. }
  apply rtc_l with s3. { by apply (step_new_container level s2). }
  apply rtc_l with s4. { apply (step_AddContainer level s3 1%positive c1); [by vm_compute..|].
    intros sp sb Hs Hb. vm_compute in Hs. injection Hs as <-. vm_compute in Hb.
    injection Hb as <-. by vm_compute. }
  apply rtc_l with s5. { by apply (step_new_container level s4). }
  apply rtc_l with s6. { by apply (step_AddInfraContainer level s5). }
  apply rtc_l with s7. { apply step_ids. }
  apply rtc_l with s8. { apply step_pod_ids. }
  apply rtc_l with s9. { apply step_names. }
  apply rtc_l with s10. { apply step_pod_names. }
  apply rtc_refl.
Defined.

(** The environment of [perform], except that the namespaces cannot be removed. *)
Definition perform_busy (c : call) : io (list call) () := λ l,
  match c with
  | RemoveNamespaces _ => (Fail (ErrorsNew "device or resource busy"), l ++ [c])
  | _ => (Ret (), l ++ [c])
  end.
End Example3.

Lemma RemoveContainer_complete_witness :
  ∃ w', ServerRemoveContainer Example3.perform Example3.no 10 "c" Example3.w = (Ret (), w') ∧
    GetContainer "c1" (srv w') = None.
Proof.
  eexists. split; [vm_compute; reflexivity|].
  eapply (RemoveContainer_complete Example3.perform Example3.no 10 "c" 1%positive Example3.c1 1%positive
    (default Example3.sb1 (sbs Example3.s10 !! 1%positive)) Example3.w).
  - apply wf_reserve, wf_reserve, wf_new.
  - vm_compute. reflexivity.
  - vm_compute. reflexivity.
  - vm_compute. reflexivity.
  - vm_compute. reflexivity.
  - vm_compute. reflexivity.
Defined.

Lemma StopPodSandbox_idempotent_witness :
  ∃ w', stopPodSandbox Example3.perform Example3.running Example3.no Example3.no Example3.dir
      Example3.create 10 1%positive Example3.w = (Ret (), w') ∧
    ∃ sb, sbs (srv w') !! 1%positive = Some sb ∧ stopped sb = true.
Proof.
  eexists. split; [vm_compute; reflexivity|].
  match goal with |- ∃ sb, sbs (srv ?w1) !! _ = _ ∧ _ =>
    destruct (StopPodSandbox_idempotent Example3.perform Example3.no Example3.no Example3.dir
      Example3.create 10 Example3.running 1%positive Example3.w w1) as (sb & Hsb & Hst & _) end.
  - vm_compute. reflexivity.
  - exists sb. split; [exact Hsb|exact Hst].
Defined.


(** ** A removal that cannot be retried *)

(** The infra container's ID must be in the index. *)
Lemma removePodSandbox_needs_id {St E} `{StorerLaws ptr St} level (perform : call → io E ()) hasHooks
    spoofed ctrDir create t sp sb infra c (w : world St E) w' :
  sbs (srv w) !! sp = Some sb → infraContainer sb = Some infra → ctrs (srv w) !! infra = Some c →
  st_model (containers sb) = ∅ → c_id c ∉ ctrIDIndex (srv w) →
  removePodSandbox level perform hasHooks spoofed ctrDir create t sp w ≠ (Ret (), w').
Proof.
  intros Hsb Hinf Hc He Hid Hr. unfold removePodSandbox in Hr.
  apply io_bind_inv in Hr as (sb0 & w0 & Hg & Hr). unfold getSb in Hg. rewrite Hsb in Hg.
  simpl in Hg. injection Hg as <- <-. apply io_bind_inv in Hr as (cs & w1 & Hcs & Hr).
  injection Hcs as <- <-. replace (st_list _ (containers sb)) with ([] : list ptr) in Hr.
  2:{ symmetry. apply Permutation_nil_r. rewrite st_list_model, He. by rewrite map_to_list_empty. }
  apply io_bind_inv in Hr as ([] & w2 & Hall & Hr). injection Hall as <-.
  apply keeps_inv in Hr as (? & w3 & _ & Hw & Hr); [rewrite <- Hw in *|apply keeps_wrap, keeps_perf].
  apply io_bind_inv in Hr as (i & w4 & Hi & Hr). rewrite Hinf in Hi. injection Hi as <- <-.
  apply io_bind_inv in Hr as ([] & w5 & Hri & Hr). injection Hri as <-.
  apply io_bind_inv in Hr as ([] & w6 & Hrm & _).
  apply removeContainerInPod_inv in Hrm as (c' & Hc' & Hin & _). revert Hc' Hin. simpl.
  unfold RemoveInfraContainer. rewrite Hc. simpl. intros Hc'. rewrite Hc in Hc'. by injection Hc' as <-.
Qed.

(** The removal of a pod fails once after its infra container was deleted; from then on
    it fails in every environment. *)
Lemma removePodSandbox_no_retry :
  ∃ e w1, removePodSandbox Example3.level Example3.perform_busy Example3.no Example3.no Example3.dir
      Example3.create 10 1%positive Example3.w = (Fail e, w1) ∧
    HasSandbox "pod1" (srv w1) = true ∧
    ∀ (perform : call → io (list call) ()) w2,
      removePodSandbox Example3.level perform Example3.no Example3.no Example3.dir
        Example3.create 10 1%positive w1 ≠ (Ret (), w2).
Proof.
  eexists _, _. split; [vm_compute; reflexivity|]. split; [vm_compute; reflexivity|].
  intros perform w2. eapply removePodSandbox_needs_id.
  - vm_compute. reflexivity.
  - vm_compute. reflexivity.
  - vm_compute. reflexivity.
  - vm_compute. reflexivity.
  - vm_compute. by intros ?.
Qed.
