(* ===== verification/Queries.v ===== *)
(** * Queries: the requests that list and describe pods and containers
    (server/container_list.go, sandbox_list.go, container_status.go,
    sandbox_status.go, and the status helpers of server/server.go)

    The world of a query is the world of Server together with the container
    objects of Container and the CRI messages they point to.  A listing hands
    out pointers to messages, so the messages are a heap and a reply is a list of
    addresses: what a reply shows is what the heap holds under them. *)

From S2P Require Import Prelude GoStrings Registrar MemoryStore Container Sandbox ContainerServer Server.
Local Open Scope Z_scope.

Record qworld {St E : Type} := mkQ {
  sw : world St E;
  objs : gmap ptr Container;
  cri : crimem }.
Arguments qworld : clear implicits.
#[export] Instance qworld_eta {St E} : Eta (qworld St E) := λ w, mkQ St E (sw w) (objs w) (cri w).

(** ** Selectors ([fields.SelectorFromSet] of apimachinery) *)

(** The conjunction of one term per entry; [Set.Get] of an absent key is the
    empty string. *)
Definition fieldGet (ls : gmap string string) (field : string) : string := default "" (ls !! field).
Definition Matches (sel : gmap string string) (ls : gmap string string) : bool :=
  forallb (λ kv, bool_decide (fieldGet ls kv.1 = kv.2)) (map_to_list sel).

(** ** Errors of the gRPC status package *)

(** [status.Errorf(code, ...)] keeps the text of its arguments, not the errors. *)
Definition codes_NotFound := ErrorsNew "rpc error: code = NotFound".
Definition codes_Unknown := ErrorsNew "rpc error: code = Unknown".
Definition isNotFound (err : goerr) : bool := errors_is err codes_NotFound.

(** [UnixNano] of the zero [time.Time] is the wrapped count from year 1. *)
Definition UnixNano (t : Z) : Z := if bool_decide (t = 0) then -6795364578871345152 else t.

(** ** Messages *)

Record ContainerFilter := mkCtrFilter {
  cf_Id : string; cf_State : option CRIState; cf_PodSandboxId : string;
  cf_LabelSelector : option (gmap string string) }.
Record PodSandboxFilter := mkPodFilter {
  pf_Id : string; pf_State : option PodSandboxState;
  pf_LabelSelector : option (gmap string string) }.

(** [types.ContainerStatus]; a mount has the fields of a volume. *)
Record ContainerStatus := mkContainerStatus {
  cs_Id : string; cs_Metadata : option ContainerMetadata; cs_State : CRIState;
  cs_CreatedAt : Z; cs_StartedAt : Z; cs_FinishedAt : Z; cs_ExitCode : Z;
  cs_Image : string; cs_ImageRef : string; cs_ImageId : string;
  cs_Reason : string; cs_Message : string;
  cs_Labels : gmap string string; cs_Annotations : gmap string string;
  cs_Mounts : list ContainerVolume; cs_LogPath : string;
  cs_Resources : option LinuxContainerResources; cs_User : option ContainerUser }.
#[export] Instance ContainerStatus_eta : Eta ContainerStatus := λ s,
  mkContainerStatus (cs_Id s) (cs_Metadata s) (cs_State s) (cs_CreatedAt s) (cs_StartedAt s)
    (cs_FinishedAt s) (cs_ExitCode s) (cs_Image s) (cs_ImageRef s) (cs_ImageId s) (cs_Reason s)
    (cs_Message s) (cs_Labels s) (cs_Annotations s) (cs_Mounts s) (cs_LogPath s) (cs_Resources s)
    (cs_User s).

Record PodIP := mkPodIP { Ip : string }.
Definition toPodIPs (ips_ : list string) : list PodIP := mkPodIP <$> ips_.

Record PodSandboxStatus {N : Type} := mkPodSandboxStatus {
  ss_Id : string; ss_CreatedAt : Z; ss_Ip : string; ss_AdditionalIps : list PodIP;
  ss_State : PodSandboxState; ss_Labels : gmap string string; ss_Annotations : gmap string string;
  ss_Metadata : option PodSandboxMetadata; ss_Linux : option N }.
Arguments PodSandboxStatus : clear implicits.

Record PodSandboxStatusResponse {N : Type} := mkPodSandboxStatusResponse {
  sr_Status : PodSandboxStatus N;
  sr_ContainersStatuses : list (option ContainerStatus);
  sr_Timestamp : Z;
  sr_Info : option string }.
Arguments PodSandboxStatusResponse : clear implicits.

Definition oomKilledReason : string := "OOMKilled".
Definition seccompKilledReason : string := "seccomp killed".
Definition completedReason : string := "Completed".
Definition errorReason : string := "Error".

Record containerInfo := mkContainerInfo {
  ci_SandboxID : string; ci_Pid : Z; ci_RuntimeSpec : Spec; ci_Privileged : bool }.

(** What [createSandboxInfo] marshals: the image and the pid are left out of a
    spoofed container. *)
Record sandboxInfo := mkSandboxInfo { si_ImagePid : option (string * Z); si_RuntimeSpec : Spec }.

(** ** Filters *)

Definition stateMatches {A} `{EqDecision A} (want : option A) (have : A) : bool :=
  match want with Some st => bool_decide (have = st) | None => true end.
Definition labelsMatch (want : option (gmap string string)) (have : gmap string string) : bool :=
  match want with Some sel => Matches sel have | None => true end.

Definition filterContainer (c : CriContainer) (filter : option ContainerFilter) : bool :=
  match filter with
  | None => true
  | Some f => stateMatches (cf_State f) (cri_State c) && labelsMatch (cf_LabelSelector f) (cri_Labels c)
  end.
Definition filterSandbox (p : PodSandbox) (filter : option PodSandboxFilter) : bool :=
  match filter with
  | None => true
  | Some f => stateMatches (pf_State f) (ps_State p) && labelsMatch (pf_LabelSelector f) (ps_Labels p)
  end.

Section queries.
Context {St E N : Type} `{StorerLaws ptr St}.
(** [Runtime().UpdateContainerStatus] on a container object and the environment. *)
Variable updateStatus : Container → E → outcome () * Container * E.
(** The namespace options of a sandbox, which no other operation reads. *)
Variable nsOpts : ptr → option N.
Variable EnablePodEvents : bool.
Variable now : E → Z.
(** [StorageService().GetContainerMetadata], of which the flag is read, and
    [json.Marshal]. *)
Variable storedPrivileged : string → outcome bool.
Variable marshalCtr : containerInfo → outcome string.
Variable marshalPod : sandboxInfo → outcome string.

Abbreviation W := (qworld St E).
Abbreviation CS := (ContainerServer St).

Definition qsrv (w : W) : CS := srv (sw w).
Definition readSrv {A} (f : CS → outcome A) : io W A := λ w, (f (qsrv w), w).
Definition getObj (p : ptr) : io W Container := λ w, (deref (objs w !! p), w).
Definition qCtr (p : ptr) : io W Ctr := λ w, (deref (ctrs (qsrv w) !! p), w).
Definition qSb (sp : ptr) : io W (Sandbox ptr St) := λ w, (deref (sbs (qsrv w) !! sp), w).
Definition message (l : loc) : io W CriContainer := λ w, (deref (cri w !! l), w).

(** ** Containers *)

(** [ctr.CRIContainer()]: the address of the message. *)
Definition CRIContainer_ (p : ptr) : io W loc :=
  o ← getObj p;
  r ← (λ w, (CRIContainer (cri w) o, w));
  let '(h, o', l) := r in
  modify (λ w, w <| cri := h |> <| objs ::= <[p := o']> |>) ;;
  mret l.

Definition filterContainerList (f : ContainerFilter) (origCtrList : list ptr) (s : CS) : list ptr :=
  if bool_decide (cf_Id f ≠ "") then
    match GetContainerFromShortID (cf_Id f) s with
    | Ret p =>
        if bool_decide (cf_PodSandboxId f = "") then [p]
        else if HasPrefix (default "" (c_sandbox <$> ctrs s !! p)) (cf_PodSandboxId f) then [p]
        else []
    | _ => []
    end
  else if bool_decide (cf_PodSandboxId f ≠ "") then
    match getPodSandboxFromRequest (cf_PodSandboxId f) s with
    | Ret sp => default [] ((λ sb, st_list (createdAtOf s) (containers sb)) <$> sbs s !! sp)
    | _ => []
    end
  else origCtrList.

Fixpoint listMessages (filter : option ContainerFilter) (ctrList : list ptr) : io W (list loc) :=
  match ctrList with
  | [] => mret []
  | p :: ctrList =>
      c ← qCtr p;
      if negb (c_created c) then listMessages filter ctrList
      else
        l ← CRIContainer_ p;
        m ← message l;
        rest ← listMessages filter ctrList;
        mret (if filterContainer m filter then l :: rest else rest)
  end.

(** [ServerListContainers] is the request ListContainers. *)
Definition ServerListContainers (filter : option ContainerFilter) : io W (list loc) :=
  ctrList ← gets (λ w, ListContainers [] (qsrv w));
  ctrList ← gets (λ w, match filter with
                       | Some f => filterContainerList f ctrList (qsrv w)
                       | None => ctrList
                       end);
  listMessages filter ctrList.

(** ** Pods *)

Definition spoofedOf (w : W) (p : ptr) : bool := default false (spoofed <$> objs w !! p).
Definition statusOf (w : W) (p : ptr) : string := default "" ((λ o, Status (state o)) <$> objs w !! p).

Definition sbState (w : W) (sb : Sandbox ptr St) : PodSandboxState := State (spoofedOf w) (statusOf w) sb.
Definition sbReady (w : W) (sb : Sandbox ptr St) : bool := Ready (spoofedOf w) (statusOf w) sb.

(** The loop of [filterSandboxList]; the labels are read through [criSandbox]. *)
Fixpoint keepSandboxes (f : PodSandboxFilter) (podList : list ptr) : io W (list ptr) :=
  match podList with
  | [] => mret []
  | sp :: podList =>
      sb ← qSb sp;
      if negb (sb_created sb) then keepSandboxes f podList
      else
        st ← gets (λ w, sbState w sb);
        if negb (stateMatches (pf_State f) st) then keepSandboxes f podList
        else
          ok ← match pf_LabelSelector f with
               | None => mret true
               | Some sel => m ← lift (deref (criSandbox sb)); mret (Matches sel (ps_Labels m))
               end;
          rest ← keepSandboxes f podList;
          mret (if ok : bool then sp :: rest else rest)
  end.

Definition filterSandboxList (filter : option PodSandboxFilter) (podList : list ptr) : io W (list ptr) :=
  match filter with
  | None => mret podList
  | Some f =>
      if bool_decide (pf_Id f ≠ "") then
        r ← try (readSrv (λ s, index_get (pf_Id f) (podIDIndex s)));
        match r with
        | inr _ => mret []
        | inl id =>
            sb ← gets (λ w, ContainerServer.GetSandbox id (qsrv w));
            keepSandboxes f (option_list sb)
        end
      else keepSandboxes f podList
  end.

(** [sb.CRISandbox()] *)
Definition CRISandbox_ (sp : ptr) : io W PodSandbox :=
  sb ← qSb sp;
  r ← (λ w, (CRISandbox (spoofedOf w) (statusOf w) sb, w));
  let '(sb', m) := r in
  modify (λ w, w <| sw ::= λ v, v <| srv ::= λ s, s <| sbs ::= <[sp := sb']> |> |> |>) ;;
  mret m.

Fixpoint podMessages (filter : option PodSandboxFilter) (podList : list ptr) : io W (list PodSandbox) :=
  match podList with
  | [] => mret []
  | sp :: podList =>
      sb ← qSb sp;
      if negb (sb_created sb) then podMessages filter podList
      else
        pod ← CRISandbox_ sp;
        rest ← podMessages filter podList;
        mret (if filterSandbox pod filter then pod :: rest else rest)
  end.

Definition ListPodSandbox (filter : option PodSandboxFilter) : io W (list PodSandbox) :=
  all ← gets (λ w, ListSandboxes (qsrv w));
  podList ← filterSandboxList filter all;
  podMessages filter podList.

(** ** The status of a container *)

Definition setEnv (e : E) (w : W) : W := w <| sw ::= λ v, v <| Server.env := e |> |>.

Definition UpdateContainerStatus_ (p : ptr) : io W () :=
  o ← getObj p;
  (λ w, let '(r, o', e) := updateStatus o (Server.env (sw w)) in
        (r, setEnv e (w <| objs ::= <[p := o']> |>))) : io W ().

(** The switch over the state of the container. *)
Definition describeState (cState : ContainerState) (s : ContainerStatus) : ContainerStatus :=
  if bool_decide (Status cState = ContainerStateCreated) then s <| cs_State := CONTAINER_CREATED |>
  else if bool_decide (Status cState = ContainerStateRunning) || bool_decide (Status cState = ContainerStatePaused)
  then s <| cs_State := CONTAINER_RUNNING |> <| cs_StartedAt := UnixNano (Started cState) |>
  else if bool_decide (Status cState = ContainerStateStopped) then
    let exitCode := default (-1) (ExitCode cState) in
    let s := s <| cs_State := CONTAINER_EXITED |> <| cs_StartedAt := UnixNano (Started cState) |>
               <| cs_FinishedAt := UnixNano (Finished cState) |> <| cs_ExitCode := exitCode |> in
    if OOMKilled cState then s <| cs_Reason := oomKilledReason |>
    else if SeccompKilled cState then
      s <| cs_Reason := seccompKilledReason |> <| cs_Message := Error_ cState |>
    else if bool_decide (exitCode = 0) then s <| cs_Reason := completedReason |>
    else s <| cs_Reason := errorReason |> <| cs_Message := Error_ cState |>
  else s <| cs_State := CONTAINER_UNKNOWN |>.

Definition createContainerInfo (p : ptr) : io W string :=
  c ← qCtr p;
  o ← getObj p;
  priv ← wrap_err "getting container metadata: " (lift (storedPrivileged (c_id c)));
  wrap_err "marshal data: "
    (lift (marshalCtr (mkContainerInfo (c_sandbox c) (InitPid (state o)) (GetSpec o) priv))).

(** The fields that do not depend on the state. *)
Definition describeContainer (id : string) (o : Container) (m : CriContainer) : ContainerStatus :=
  mkContainerStatus id (cri_Metadata m) CONTAINER_CREATED 0 0 0 0
    (default "" (someNameOfTheImage o)) (cri_ImageRef m) (default "" (imageID o)) "" ""
    (cri_Labels m) (cri_Annotations m) (volumes o) ""
    (match spec_Linux (GetSpec o) with Some _ => resources o | None => None end)
    (runtimeUser o).

(** [ServerContainerStatus] is the request ContainerStatus. *)
Definition ServerContainerStatus (id : string) (verbose : bool) : io W (ContainerStatus * option string) :=
  r ← try (readSrv (GetContainerFromShortID id));
  match r with
  | inr _ => fail (Errorf "could not find container: " codes_NotFound)
  | inl p =>
      c ← qCtr p;
      l ← CRIContainer_ p;
      m ← message l;
      o ← getObj p;
      let base := describeContainer (c_id c) o m in
      when (bool_decide (Status (state o) = ContainerStateStopped) && bool_decide (ExitCode (state o) = None))
        (ignore (UpdateContainerStatus_ p)) ;;
      o ← getObj p;
      let resp := (describeState (state o) (base <| cs_CreatedAt := UnixNano (Created (state o)) |>))
                    <| cs_LogPath := logPath o |> in
      if verbose then
        info ← wrap_err "creating container info: " (createContainerInfo p);
        mret (resp, Some info)
      else mret (resp, None)
  end.

(** The loop both [getContainerStatuses] and [getContainerStatusesFromSandboxID]
    run: an entry whose container is gone stays nil. *)
Fixpoint statusesOf (containers : list loc) : io W (list (option ContainerStatus)) :=
  match containers with
  | [] => mret []
  | l :: containers =>
      cc ← message l;
      r ← try (ServerContainerStatus (cri_Id cc) false);
      match r with
      | inr e => if isNotFound e then rest ← statusesOf containers; mret (None :: rest) else fail e
      | inl (st, _) => rest ← statusesOf containers; mret (Some st :: rest)
      end
  end.

Definition KubernetesPodUIDLabel : string := "io.kubernetes.pod.uid".

Definition getContainerStatuses (sandboxUID : string) : io W (list (option ContainerStatus)) :=
  ls ← ServerListContainers (Some (mkCtrFilter "" None "" (Some {[KubernetesPodUIDLabel := sandboxUID]})));
  statusesOf ls.
Definition getContainerStatusesFromSandboxID (sandboxID : string) : io W (list (option ContainerStatus)) :=
  ls ← ServerListContainers (Some (mkCtrFilter "" None sandboxID None));
  statusesOf ls.

(** ** The status of a pod *)

(** [createSandboxInfo(sb.InfraContainer())]: a nil container is dereferenced. *)
Definition createSandboxInfo (infra : option ptr) : io W string :=
  p ← lift (deref infra);
  o ← getObj p;
  image ← (if spoofed o then mret None
           else m ← message (criContainer o); mret (Some (cri_Image m, Pid (state o))));
  wrap_err "marshal data: " (lift (marshalPod (mkSandboxInfo image (GetSpec o)))).

(** [ServerPodSandboxStatus] is the request PodSandboxStatus. *)
Definition ServerPodSandboxStatus (id : string) (verbose : bool) : io W (PodSandboxStatusResponse N) :=
  r ← try (readSrv (getPodSandboxFromRequest id));
  match r with
  | inr _ => fail (Errorf "could not find pod: " codes_NotFound)
  | inl sp =>
      sb ← qSb sp;
      ready ← gets (λ w, sbReady w sb);
      timestamp ← gets (λ w, if EnablePodEvents then now (Server.env (sw w)) else 0);
      statuses ← (if EnablePodEvents then
                    r ← try (getContainerStatusesFromSandboxID id);
                    match r with
                    | inl l => mret l
                    | inr _ => fail (Errorf "could not get container statuses: " codes_Unknown)
                    end
                  else mret []);
      m ← lift (deref (criSandbox sb));
      let st := mkPodSandboxStatus N (ps_Id m) (UnixNano (createdAt sb))
                  (hd "" (ips sb)) (toPodIPs (tl (ips sb)))
                  (if ready : bool then SANDBOX_READY else SANDBOX_NOTREADY)
                  (ps_Labels m) (ps_Annotations m) (ps_Metadata m) (nsOpts sp) in
      info ← (if verbose then
                info ← wrap_err "creating sandbox info: " (createSandboxInfo (infraContainer sb));
                mret (Some info)
              else mret None);
      mret (mkPodSandboxStatusResponse N st statuses timestamp info)
  end.

Definition getSandboxStatuses (sandboxID : string) : io W (PodSandboxStatus N) :=
  r ← try (ServerPodSandboxStatus sandboxID false);
  match r with
  | inl resp => mret (sr_Status resp)
  | inr e => if isNotFound e then fail e else fail (Errorf "getSandboxStatuses: " e)
  end.

End queries.

(** ** What a listing shows *)

(** What it means for a message to pass: it is in the state asked for, and has
    every label asked for; an absent label counts as an empty one. *)
Definition passes {A} (st : option A) (sel : option (gmap string string)) (state_ : A) (ls : gmap string string) : Prop :=
  (∀ s, st = Some s → state_ = s) ∧
  (∀ l k v, sel = Some l → l !! k = Some v → default "" (ls !! k) = v).
Definition passesContainer (m : CriContainer) (filter : option ContainerFilter) : Prop :=
  ∀ f, filter = Some f → passes (cf_State f) (cf_LabelSelector f) (cri_State m) (cri_Labels m).
Definition passesPod (m : PodSandbox) (filter : option PodSandboxFilter) : Prop :=
  ∀ f, filter = Some f → passes (pf_State f) (pf_LabelSelector f) (ps_State m) (ps_Labels m).

Lemma Matches_spec sel ls : Matches sel ls = true ↔ ∀ k v, sel !! k = Some v → default "" (ls !! k) = v.
Proof.
  unfold Matches. rewrite forallb_forall. split.
  - intros Hall k v Hk. specialize (Hall (k, v)). rewrite <- list_elem_of_In, elem_of_map_to_list in Hall.
    by apply Hall, bool_decide_eq_true in Hk.
  - intros Hall [k v] Hk. apply list_elem_of_In, elem_of_map_to_list in Hk. apply bool_decide_eq_true. by apply Hall.
Qed.

Lemma passes_spec {A} `{EqDecision A} (st : option A) sel state_ ls :
  stateMatches st state_ && labelsMatch sel ls = true ↔ passes st sel state_ ls.
Proof.
  unfold passes, stateMatches, labelsMatch. rewrite andb_true_iff. split.
  - intros [Hs Hl]. split; [intros s ->; by apply bool_decide_eq_true in Hs|].
    intros l k v ->. by apply Matches_spec.
  - intros [Hs Hl]. split; [destruct st; [apply bool_decide_eq_true; by apply Hs|done]|].
    destruct sel as [l|]; [|done]. apply Matches_spec. intros k v. by apply Hl.
Qed.

Lemma filterContainer_spec m filter : filterContainer m filter = true ↔ passesContainer m filter.
Proof.
  unfold filterContainer, passesContainer. destruct filter as [f|]; [|done]. rewrite passes_spec.
  split; [by intros ? ? [= <-]|intros Hf; by apply Hf].
Qed.
Lemma filterSandbox_spec m filter : filterSandbox m filter = true ↔ passesPod m filter.
Proof.
  unfold filterSandbox, passesPod. destruct filter as [f|]; [|done]. rewrite passes_spec.
  split; [by intros ? ? [= <-]|intros Hf; by apply Hf].
Qed.

Section listing.
Context {St E N : Type} `{StorerLaws ptr St}.
Abbreviation W := (qworld St E).
Abbreviation CS := (ContainerServer St).

(** The message of a container, with its current state. *)
Definition msgOf (w : W) (p : ptr) : option CriContainer :=
  o ← objs w !! p;
  m ← cri w !! criContainer o;
  Some (m <| cri_State := criStateOf (Status (state o)) |>).

(** What the loop of the listing keeps. *)
Definition listed (filter : option ContainerFilter) (w : W) (p : ptr) : bool :=
  match ctrs (qsrv w) !! p, msgOf w p with
  | Some c, Some m => c_created c && filterContainer m filter
  | _, _ => false
  end.

(** A query keeps the server, the messages handed out so far, and what every
    container shows. *)
Record quiet (w w' : W) : Prop := mkQuiet {
  quiet_sw : sw w' = sw w;
  quiet_cri : cri w ⊆ cri w';
  quiet_msg p m : msgOf w p = Some m → msgOf w' p = Some m }.

#[export] Instance quiet_preorder : PreOrder quiet.
Proof.
  split; [by intros w|]. intros w1 w2 w3 [H1 H2 H3] [H4 H5 H6].
  split; [congruence|by trans (cri w2)|eauto].
Qed.

Lemma msgOf_spec w p m : msgOf w p = Some m ↔
  ∃ o m0, objs w !! p = Some o ∧ cri w !! criContainer o = Some m0 ∧
    m = m0 <| cri_State := criStateOf (Status (state o)) |>.
Proof.
  unfold msgOf. destruct (objs w !! p) as [o|]; simpl; [|naive_solver].
  destruct (cri w !! criContainer o) as [m0|] eqn:Hm; simpl; naive_solver.
Qed.

Lemma CRIContainer_quiet w p m :
  msgOf w p = Some m →
  ∃ l w', CRIContainer_ p w = (Ret l, w') ∧ quiet w w' ∧ cri w' !! l = Some m ∧
    ∃ o, objs w !! p = Some o ∧ objs w' = <[p := o <| criContainer := l |>]> (objs w).
Proof.
  intros (o & m0 & Ho & Hm & ->)%msgOf_spec.
  destruct (CRIContainer_copy_on_write (cri w) o m0 Hm) as (h & o' & l & m' & Hc & Hsub & Hl & Hm' & -> & -> & _).
  eexists l, _. split_and!.
  - unfold CRIContainer_. erewrite io_bind_ret by (unfold getObj, deref; by rewrite Ho).
    erewrite io_bind_ret by (by rewrite Hc). reflexivity.
  - split; [done|done|]. intros q mq (oq & mq0 & Hq & Hmq & ->)%msgOf_spec. apply msgOf_spec.
    cbn [objs cri set]. destruct (decide (q = p)) as [->|Hne].
    + exists (o <| criContainer := l |>), (m0 <| cri_State := criStateOf (Status (state o)) |>).
      simplify_eq. split_and!; [by simplify_map_eq|done|by destruct m0].
    + exists oq, mq0. split_and!; [by simplify_map_eq|by eapply lookup_weaken|done].
  - done.
  - by exists o.
Qed.

Lemma listed_quiet filter w w' p m : quiet w w' → msgOf w p = Some m → listed filter w' p = listed filter w p.
Proof.
  intros [Hs _ Hm] Hp. unfold listed, qsrv. by rewrite Hs, Hp, (Hm _ _ Hp).
Qed.

(** What the addresses of a reply point to. *)
Definition replies (w : W) (ls : list loc) (ps : list ptr) : Prop :=
  Forall2 (λ l p, ∃ m, msgOf w p = Some m ∧ cri w !! l = Some m) ls ps.

Lemma listMessages_run filter ps w :
  Forall (λ p, is_Some (ctrs (qsrv w) !! p) ∧ is_Some (msgOf w p)) ps →
  ∃ ls w', listMessages filter ps w = (Ret ls, w') ∧ quiet w w' ∧
    replies w' ls (List.filter (listed filter w) ps).
Proof.
  revert w. induction ps as [|p ps IH]; intros w Hps.
  { exists [], w. split_and!; [done|done|constructor]. }
  apply Forall_cons in Hps as [[[c Hc] [m Hm]] Hps].
  assert (∀ w1, quiet w w1 → Forall (λ p, is_Some (ctrs (qsrv w1) !! p) ∧ is_Some (msgOf w1 p)) ps ∧
    List.filter (listed filter w1) ps = List.filter (listed filter w) ps) as Hw1.
  { intros w1 Hq. split.
    - eapply Forall_impl; [done|]. intros q [? [mq Hmq]]. unfold qsrv. rewrite (quiet_sw _ _ Hq).
      split; [done|]. exists mq. by apply (quiet_msg _ _ Hq).
    - clear IH. induction Hps as [|q ps [_ [mq Hmq]] _ IH']; [done|]. simpl.
      by rewrite (listed_quiet filter w w1 q mq Hq Hmq), IH'. }
  cbn [listMessages List.filter]. erewrite io_bind_ret by (unfold qCtr, deref; by rewrite Hc).
  unfold listed at 1. rewrite Hc, Hm. destruct (c_created c) eqn:Hcr; cbn [negb andb].
  2:{ destruct (IH w Hps) as (ls & w' & ? & ? & ?). by exists ls, w'. }
  destruct (CRIContainer_quiet w p m Hm) as (l & w1 & Hrun & Hq & Hl & _).
  destruct (Hw1 w1 Hq) as [Hps1 Hf]. destruct (IH w1 Hps1) as (ls & w2 & Hrest & Hq2 & Hls).
  rewrite Hf in Hls. exists (if filterContainer m filter then l :: ls else ls), w2. split_and!.
  - erewrite io_bind_ret by exact Hrun. erewrite io_bind_ret by (unfold message, deref; by rewrite Hl).
    by erewrite io_bind_ret by exact Hrest.
  - by trans w1.
  - destruct (filterContainer m filter); [|done]. constructor; [|done].
    exists m. split; [by apply (quiet_msg _ _ Hq2), (quiet_msg _ _ Hq)|].
    by eapply lookup_weaken, (quiet_cri _ _ Hq2).
Qed.

(** ** Which containers a listing looks at *)

Definition candidates (filter : option ContainerFilter) (s : CS) : list ptr :=
  match filter with
  | Some f => filterContainerList f (ListContainers [] s) s
  | None => ListContainers [] s
  end.

(** The ID of the filter is a prefix of this container's ID and of no other.  Its
    pod is given by a unique prefix when it is given alone; next to an ID, any
    prefix of the pod's ID will do. *)
Definition inScope (filter : option ContainerFilter) (s : CS) (c : Ctr) : Prop :=
  match filter with
  | None => True
  | Some f =>
      (cf_Id f ≠ "" → index_get (cf_Id f) (ctrIDIndex s) = Ret (c_id c)) ∧
      (cf_PodSandboxId f ≠ "" →
         if bool_decide (cf_Id f = "")
         then index_get (cf_PodSandboxId f) (podIDIndex s) = Ret (c_sandbox c) ∧
              ∃ sp sb, GetSandbox (c_sandbox c) s = Some sp ∧ sbs s !! sp = Some sb ∧ sb_created sb = true
         else HasPrefix (c_sandbox c) (cf_PodSandboxId f) = true)
  end.

Lemma elem_of_ListContainers (s : CS) p :
  p ∈ ListContainers [] s ↔ ∃ id, GetContainer id s = Some p.
Proof.
  unfold ListContainers, listContainers, GetContainer. rewrite st_list_model, list_elem_of_fmap. split.
  - intros ([id q] & -> & Hq%elem_of_map_to_list). exists id. by rewrite st_get_model.
  - intros (id & Hid). rewrite st_get_model in Hid. exists (id, p). split; [done|]. by apply elem_of_map_to_list.
Qed.

Lemma container_id (s : CS) id p c :
  consistent s → GetContainer id s = Some p → ctrs s !! p = Some c → id = c_id c.
Proof.
  unfold GetContainer. rewrite st_get_model. intros Hok Hid Hc.
  destruct (ok_ctr s Hok id p Hid) as (c' & _ & _ & ? & <- & _). by simplify_eq.
Qed.

Lemma GetContainerFromShortID_spec cid (s : CS) p :
  GetContainerFromShortID cid s = Ret p ↔
  ∃ id c, index_get cid (ctrIDIndex s) = Ret id ∧ GetContainer id s = Some p ∧
    ctrs s !! p = Some c ∧ c_created c = true.
Proof.
  unfold GetContainerFromShortID. case_bool_decide as Hc.
  { subst. split; [done|]. intros (? & ? & Hx & _). by apply index_get_spec in Hx as []. }
  destruct (index_get cid _) as [id| |]; [|naive_solver..].
  destruct (GetContainer id s) as [q|] eqn:Hq; [|naive_solver].
  destruct (ctrs s !! q) as [c|] eqn:Hq2; simpl; [|naive_solver].
  destruct (c_created c) eqn:Hcr.
  - split; [intros [= <-]; by exists id, c|]. intros (? & ? & [= <-] & ? & _). congruence.
  - split; [done|]. intros (? & ? & [= <-] & ? & ? & ?). congruence.
Qed.

Lemma getPodSandboxFromRequest_spec pid_ (s : CS) sp :
  getPodSandboxFromRequest pid_ s = Ret sp ↔
  ∃ sid sb, index_get pid_ (podIDIndex s) = Ret sid ∧ GetSandbox sid s = Some sp ∧
    sbs s !! sp = Some sb ∧ sb_created sb = true.
Proof.
  unfold getPodSandboxFromRequest. case_bool_decide as Hc.
  { subst. split; [done|]. intros (? & ? & Hx & _). by apply index_get_spec in Hx as []. }
  destruct (index_get pid_ _) as [id| |]; [|naive_solver..].
  destruct (GetSandbox id s) as [q|] eqn:Hq; [|naive_solver].
  destruct (sbs s !! q) as [c|] eqn:Hq2; simpl; [|naive_solver].
  destruct (sb_created c) eqn:Hcr.
  - split; [intros [= <-]; by exists id, c|]. intros (? & ? & [= <-] & ? & _). congruence.
  - split; [done|]. intros (? & ? & [= <-] & ? & ? & ?). congruence.
Qed.

(** The containers of a sandbox are those that name it. *)
Lemma elem_of_podContainers (s : CS) sid sp sb p c :
  consistent s → GetSandbox sid s = Some sp → sbs s !! sp = Some sb → ctrs s !! p = Some c →
  p ∈ st_list (createdAtOf s) (containers sb) ↔ GetContainer (c_id c) s = Some p ∧ c_sandbox c = sid.
Proof.
  unfold GetSandbox, GetContainer. rewrite !st_get_model. intros Hok Hs Hsb Hc.
  rewrite st_list_model, list_elem_of_fmap. split.
  - intros ([nm q] & -> & Hq%elem_of_map_to_list).
    destruct (ok_sb s Hok sid sp sb nm q Hs Hsb Hq) as (c' & ? & ? & ? & ?). simpl in *. by simplify_eq.
  - intros [Hg <-]. destruct (ok_ctr s Hok _ _ Hg) as (c' & sp' & sb' & ? & ? & ? & ? & ?). simplify_eq.
    exists (c_name c, p). split; [done|]. by apply elem_of_map_to_list.
Qed.

Lemma elem_of_byPod (s : CS) pid_ p c :
  consistent s → ctrs s !! p = Some c →
  p ∈ match getPodSandboxFromRequest pid_ s with
      | Ret sp => default [] ((λ sb, st_list (createdAtOf s) (containers sb)) <$> sbs s !! sp)
      | _ => []
      end ↔
  GetContainer (c_id c) s = Some p ∧ index_get pid_ (podIDIndex s) = Ret (c_sandbox c) ∧
    ∃ sp sb, GetSandbox (c_sandbox c) s = Some sp ∧ sbs s !! sp = Some sb ∧ sb_created sb = true.
Proof.
  intros Hok Hc. destruct (getPodSandboxFromRequest pid_ s) as [sp| |] eqn:Hr.
  - apply getPodSandboxFromRequest_spec in Hr as (sid & sb & Hx & Hg & Hsb & Hcb).
    rewrite Hsb. simpl. rewrite (elem_of_podContainers s sid sp sb p c) by done. split.
    + intros [? <-]. split_and!; [done|done|]. by exists sp, sb.
    + intros (? & Hx' & _). split; [done|]. congruence.
  - rewrite elem_of_nil. split; [done|]. intros (_ & Hx & sp & sb & Hrest).
    assert (getPodSandboxFromRequest pid_ s = Ret sp); [|congruence].
    apply getPodSandboxFromRequest_spec. by exists (c_sandbox c), sb.
  - rewrite elem_of_nil. split; [done|]. intros (_ & Hx & sp & sb & Hrest).
    assert (getPodSandboxFromRequest pid_ s = Ret sp); [|congruence].
    apply getPodSandboxFromRequest_spec. by exists (c_sandbox c), sb.
Qed.

Lemma elem_of_byID (s : CS) cid pod p c :
  consistent s → ctrs s !! p = Some c → c_created c = true →
  p ∈ match GetContainerFromShortID cid s with
      | Ret p =>
          if bool_decide (pod = "") then [p]
          else if HasPrefix (default "" (c_sandbox <$> ctrs s !! p)) pod then [p] else []
      | _ => []
      end ↔
  GetContainer (c_id c) s = Some p ∧ index_get cid (ctrIDIndex s) = Ret (c_id c) ∧
    (pod ≠ "" → HasPrefix (c_sandbox c) pod = true).
Proof.
  intros Hok Hc Hcr.
  assert (GetContainerFromShortID cid s = Ret p ↔
    GetContainer (c_id c) s = Some p ∧ index_get cid (ctrIDIndex s) = Ret (c_id c)) as Hid.
  { rewrite GetContainerFromShortID_spec. split; [|naive_solver].
    intros (id & c' & Hx & Hg & _). by rewrite <- (container_id s id p c). }
  destruct (GetContainerFromShortID cid s) as [q| |].
  - destruct (decide (q = p)) as [->|Hne].
    + destruct (proj1 Hid eq_refl) as [Hg Hx]. rewrite Hc. simpl.
      case_bool_decide; [rewrite list_elem_of_singleton; tauto|].
      destruct (HasPrefix _ _); [rewrite list_elem_of_singleton; tauto|].
      rewrite elem_of_nil. naive_solver.
    + split; [|intros (? & ? & _); destruct Hne; assert (Ret q = Ret p) by tauto; congruence].
      case_bool_decide; [by intros ?%list_elem_of_singleton; subst|].
      destruct (HasPrefix _ _); [by intros ?%list_elem_of_singleton; subst|by intros ?%elem_of_nil].
  - rewrite elem_of_nil. naive_solver.
  - rewrite elem_of_nil. naive_solver.
Qed.

Lemma elem_of_candidates filter (s : CS) p c :
  consistent s → ctrs s !! p = Some c → c_created c = true →
  p ∈ candidates filter s ↔ GetContainer (c_id c) s = Some p ∧ inScope filter s c.
Proof.
  intros Hok Hc Hcr.
  assert (p ∈ ListContainers [] s ↔ GetContainer (c_id c) s = Some p) as Hall.
  { rewrite elem_of_ListContainers. split; [|eauto]. intros [id Hid].
    by rewrite <- (container_id s id p c). }
  destruct filter as [f|]; cbn [candidates inScope]; [|by rewrite Hall; tauto].
  unfold filterContainerList. destruct (decide (cf_Id f = "")) as [Hi|Hi].
  - rewrite (bool_decide_eq_false_2 (cf_Id f ≠ "")), (bool_decide_eq_true_2 (cf_Id f = "")) by tauto.
    destruct (decide (cf_PodSandboxId f = "")) as [Hp|Hp].
    + rewrite bool_decide_eq_false_2, Hall by tauto. tauto.
    + rewrite bool_decide_eq_true_2, (elem_of_byPod s _ p c) by done. tauto.
  - rewrite (bool_decide_eq_true_2 (cf_Id f ≠ "")), (bool_decide_eq_false_2 (cf_Id f = "")) by done.
    rewrite (elem_of_byID s _ _ p c) by done. tauto.
Qed.

(** Every candidate is one of the server's containers, and none comes twice. *)
Lemma candidates_stored filter (s : CS) p :
  consistent s → p ∈ candidates filter s →
  ∃ c, ctrs s !! p = Some c ∧ GetContainer (c_id c) s = Some p.
Proof.
  intros Hok Hp.
  assert (∀ id, GetContainer id s = Some p → ∃ c, ctrs s !! p = Some c ∧ GetContainer (c_id c) s = Some p) as Hget.
  { intros id Hid. pose proof Hid as Hid'. unfold GetContainer in Hid. rewrite st_get_model in Hid.
    destruct (ok_ctr s Hok id p Hid) as (c & _ & _ & ? & <- & _). by exists c. }
  destruct filter as [f|]; cbn [candidates] in Hp.
  2:{ apply elem_of_ListContainers in Hp as [id Hid]. by apply (Hget id). }
  unfold filterContainerList in Hp. case_bool_decide.
  - destruct (GetContainerFromShortID _ s) as [q| |] eqn:Hq; [|by apply elem_of_nil in Hp..].
    apply GetContainerFromShortID_spec in Hq as (id & c & _ & Hid & _).
    assert (p = q) as ->; [|by apply (Hget id)].
    repeat case_match; first [by apply list_elem_of_singleton in Hp|by apply elem_of_nil in Hp].
  - case_bool_decide; [|apply elem_of_ListContainers in Hp as [id Hid]; by apply (Hget id)].
    destruct (getPodSandboxFromRequest _ s) as [sp| |] eqn:Hq; [|by apply elem_of_nil in Hp..].
    apply getPodSandboxFromRequest_spec in Hq as (sid & sb & _ & Hg & Hsb & _).
    rewrite Hsb in Hp. simpl in Hp. rewrite st_list_model, list_elem_of_fmap in Hp.
    destruct Hp as ([nm q] & -> & Hq%elem_of_map_to_list). unfold GetSandbox in Hg. rewrite st_get_model in Hg.
    destruct (ok_sb s Hok _ _ _ _ _ Hg Hsb Hq) as (c & ? & _ & _ & ?). exists c. split; [done|].
    unfold GetContainer. by rewrite st_get_model.
Qed.

Lemma NoDup_st_list (created : ptr → Z) (c : St) :
  (∀ k1 k2 p, st_model c !! k1 = Some p → st_model c !! k2 = Some p → k1 = k2) →
  NoDup (st_list created c).
Proof.
  intros Hinj. rewrite st_list_model. apply NoDup_fmap_2_strong; [|apply NoDup_map_to_list].
  intros [k1 p1] [k2 p2] Hk1%elem_of_map_to_list Hk2%elem_of_map_to_list Heq. simpl in Heq. subst.
  by rewrite (Hinj k1 k2 p2).
Qed.

Lemma candidates_NoDup filter (s : CS) : consistent s → NoDup (candidates filter s).
Proof.
  intros Hok.
  assert (NoDup (ListContainers [] s)) as Hall.
  { apply NoDup_st_list. intros k1 k2 p Hk1 Hk2.
    destruct (ok_ctr s Hok _ _ Hk1) as (c1 & _ & _ & ? & <- & _).
    destruct (ok_ctr s Hok _ _ Hk2) as (c2 & _ & _ & ? & <- & _). by simplify_eq. }
  destruct filter as [f|]; [|done]. cbn [candidates]. unfold filterContainerList.
  case_bool_decide.
  { repeat case_match; first [apply NoDup_nil_2|apply NoDup_singleton]. }
  case_bool_decide; [|done]. destruct (getPodSandboxFromRequest _ s) as [sp| |] eqn:Hq; try apply NoDup_nil_2.
  apply getPodSandboxFromRequest_spec in Hq as (sid & sb & _ & Hg & Hsb & _). rewrite Hsb. simpl.
  unfold GetSandbox in Hg. rewrite st_get_model in Hg.
  apply NoDup_st_list. intros k1 k2 p Hk1 Hk2.
  destruct (ok_sb s Hok _ _ _ _ _ Hg Hsb Hk1) as (c1 & ? & <- & _).
  destruct (ok_sb s Hok _ _ _ _ _ Hg Hsb Hk2) as (c2 & ? & <- & _). by simplify_eq.
Qed.

(** The objects and the messages belong to the containers of the server. *)
Record coherent (w : W) : Prop := mkCoherent {
  co_srv : consistent (qsrv w);
  co_ctr id p : GetContainer id (qsrv w) = Some p → ∃ m, msgOf w p = Some m ∧ cri_Id m = id;
  co_pod sid sp : GetSandbox sid (qsrv w) = Some sp →
    ∃ sb m, sbs (qsrv w) !! sp = Some sb ∧ criSandbox sb = Some m ∧ ps_Id m = sid }.

Lemma replies_before w w' ls ps :
  quiet w w' → (∀ p, p ∈ ps → is_Some (msgOf w p)) → replies w' ls ps →
  Forall2 (λ l p, ∃ m, msgOf w p = Some m ∧ cri w' !! l = Some m) ls ps.
Proof.
  intros Hq Hps. induction 1 as [|l p ls ps (m' & Hm' & Hl) _ IH]; constructor.
  - destruct (Hps p) as [m Hm]; [by left|]. exists m. split; [done|].
    apply (quiet_msg _ _ Hq) in Hm. congruence.
  - apply IH. intros q Hqp. apply Hps. by right.
Qed.

Lemma ListContainers_run filter w :
  coherent w →
  ∃ ls w', ServerListContainers filter w = (Ret ls, w') ∧ quiet w w' ∧
    replies w' ls (List.filter (listed filter w) (candidates filter (qsrv w))).
Proof.
  intros Hco. unfold ServerListContainers.
  destruct (listMessages_run filter (candidates filter (qsrv w)) w) as (ls & w' & Hrun & Hq & Hr).
  { apply Forall_forall. intros p Hp.
    destruct (candidates_stored filter (qsrv w) p (co_srv w Hco) Hp) as (c & Hc & Hg).
    split; [by exists c|]. destruct (co_ctr w Hco _ _ Hg) as (m & Hm & _). by exists m. }
  exists ls, w'. split_and!; [|done|done].
  erewrite io_bind_ret by reflexivity. erewrite io_bind_ret by reflexivity. exact Hrun.
Qed.

Lemma NoDup_listed filter w :
  coherent w → NoDup (List.filter (listed filter w) (candidates filter (qsrv w))).
Proof. intros Hco. apply NoDup_ListNoDup, List.NoDup_filter, NoDup_ListNoDup, candidates_NoDup, Hco. Qed.

(** C13: A listing shows every container that exists, is fully created and passes
    the filter, once, with its current state, and nothing else.  It changes
    neither the server nor any message that an earlier reply holds. *)
Theorem ListContainers_exact filter w :
  coherent w →
  ∃ ls w' ps, ServerListContainers filter w = (Ret ls, w') ∧
    sw w' = sw w ∧ cri w ⊆ cri w' ∧ NoDup ps ∧
    Forall2 (λ l p, ∃ m, msgOf w p = Some m ∧ cri w' !! l = Some m) ls ps ∧
    ∀ p, p ∈ ps ↔ ∃ c m, ctrs (qsrv w) !! p = Some c ∧ GetContainer (c_id c) (qsrv w) = Some p ∧
                    c_created c = true ∧ inScope filter (qsrv w) c ∧
                    msgOf w p = Some m ∧ passesContainer m filter.
Proof.
  intros Hco. destruct (ListContainers_run filter w Hco) as (ls & w' & Hrun & Hq & Hr).
  assert (∀ p, p ∈ candidates filter (qsrv w) → is_Some (msgOf w p)) as Hsome.
  { intros p Hp. destruct (candidates_stored filter _ p (co_srv w Hco) Hp) as (c & _ & Hg).
    destruct (co_ctr w Hco _ _ Hg) as (m & Hm & _). by exists m. }
  eexists ls, w', _. split_and!; [exact Hrun|apply Hq|apply Hq| | |].
  - by apply NoDup_listed.
  - eapply replies_before; [done| |exact Hr].
    intros p Hp%list_elem_of_In%filter_In. apply Hsome. by apply list_elem_of_In, Hp.
  - intros p. rewrite list_elem_of_In, filter_In, <- list_elem_of_In. unfold listed. split.
    + intros [Hp Hl]. destruct (ctrs (qsrv w) !! p) as [c|] eqn:Hc; [|done].
      destruct (msgOf w p) as [m|] eqn:Hm; [|done]. apply andb_true_iff in Hl as [Hcr Hf%filterContainer_spec].
      destruct (proj1 (elem_of_candidates filter _ p c (co_srv w Hco) Hc Hcr) Hp) as [Hg Hs].
      by exists c, m.
    + intros (c & m & Hc & Hg & Hcr & Hs & Hm & Hf%filterContainer_spec). rewrite Hc, Hm, Hcr, Hf. split; [|done].
      by apply (elem_of_candidates filter _ p c (co_srv w Hco) Hc Hcr).
Qed.

(** ** Pods *)

Definition podMsg (w : W) (sp : ptr) : option PodSandbox :=
  sb ← sbs (qsrv w) !! sp;
  m ← criSandbox sb;
  Some (m <| ps_State := sbState w sb |>).

Definition listedPod (filter : option PodSandboxFilter) (w : W) (sp : ptr) : bool :=
  match sbs (qsrv w) !! sp, podMsg w sp with
  | Some sb, Some m => sb_created sb && filterSandbox m filter
  | _, _ => false
  end.

(** Two worlds that differ in the state some pod messages were left with. *)
Definition forgetMsg (sb : Sandbox ptr St) : Sandbox ptr St := sb <| criSandbox := None |>.
Record podQuiet (w w' : W) : Prop := mkPodQuiet {
  pq_objs : objs w' = objs w;
  pq_cri : cri w' = cri w;
  pq_sw : sw w' = (sw w) <| srv ::= λ s, s <| sbs := sbs (qsrv w') |> |>;
  pq_sbs sp : forgetMsg <$> sbs (qsrv w') !! sp = forgetMsg <$> sbs (qsrv w) !! sp;
  pq_msg sp : podMsg w' sp = podMsg w sp }.

#[export] Instance podQuiet_preorder : PreOrder podQuiet.
Proof.
  split.
  - intros [[[] ? ?] ? ?]. split; reflexivity.
  - intros w1 w2 w3 [Ho Hc Hs Hb Hm] [Ho' Hc' Hs' Hb' Hm']. split; [congruence..| | |].
    + rewrite Hs', Hs. by destruct (sw w1) as [[] ? ?].
    + intros sp. by rewrite Hb'.
    + intros sp. by rewrite Hm'.
Qed.

Lemma CRISandbox_quiet w sp m :
  podMsg w sp = Some m → ∃ w', CRISandbox_ sp w = (Ret m, w') ∧ podQuiet w w'.
Proof.
  unfold podMsg. destruct (sbs (qsrv w) !! sp) as [sb|] eqn:Hsb; simpl; [|done].
  destruct (criSandbox sb) as [m0|] eqn:Hm0; simpl; [|done]. intros [= <-].
  set (m := m0 <| ps_State := sbState w sb |>).
  assert (CRISandbox (spoofedOf w) (statusOf w) sb = Ret (sb <| criSandbox := Some m |>, m)) as Hcri.
  { unfold CRISandbox. rewrite Hm0. unfold m, sbState. case_bool_decide as Hs; [|done].
    rewrite Hs. by destruct m0. }
  eexists. split.
  - unfold CRISandbox_. erewrite io_bind_ret by (unfold qSb, deref; by rewrite Hsb).
    erewrite io_bind_ret by (by rewrite Hcri). reflexivity.
  - set (w' := w <| sw ::= _ |>).
    assert (sbs (qsrv w') = <[sp := sb <| criSandbox := Some m |>]> (sbs (qsrv w))) as Hsbs by done.
    split; [done|done|by destruct w as [[[] ? ?] ? ?]| |].
    + intros q. rewrite Hsbs. destruct (decide (q = sp)) as [->|Hne]; [|by rewrite lookup_insert_ne].
      rewrite lookup_insert_eq, Hsb. simpl. by destruct sb.
    + intros q. unfold podMsg. rewrite Hsbs.
      destruct (decide (q = sp)) as [->|Hne]; [|by rewrite lookup_insert_ne].
      rewrite lookup_insert_eq, Hsb. simpl. by rewrite Hm0.
Qed.

Lemma listedPod_quiet filter w w' sp : podQuiet w w' → listedPod filter w' sp = listedPod filter w sp.
Proof.
  intros Hq. unfold listedPod. rewrite (pq_msg _ _ Hq sp). pose proof (pq_sbs _ _ Hq sp) as Hf.
  destruct (sbs (qsrv w') !! sp) as [a|], (sbs (qsrv w) !! sp) as [b|]; try done.
  simpl in Hf. apply (f_equal (λ o, sb_created <$> o)) in Hf. simpl in Hf. injection Hf as Hf.
  by rewrite Hf.
Qed.

Lemma podMessages_run filter sps w :
  Forall (λ sp, is_Some (podMsg w sp)) sps →
  ∃ w', podMessages filter sps w = (Ret (omap (podMsg w) (List.filter (listedPod filter w) sps)), w') ∧
    podQuiet w w'.
Proof.
  revert w. induction sps as [|sp sps IH]; intros w Hsps; [by exists w|].
  apply Forall_cons in Hsps as [[m Hm] Hsps].
  assert (∃ sb, sbs (qsrv w) !! sp = Some sb) as [sb Hsb].
  { unfold podMsg in Hm. destruct (sbs (qsrv w) !! sp) as [sb|]; [by exists sb|done]. }
  assert (∀ w1, podQuiet w w1 → Forall (λ sp, is_Some (podMsg w1 sp)) sps ∧
    omap (podMsg w1) (List.filter (listedPod filter w1) sps) =
    omap (podMsg w) (List.filter (listedPod filter w) sps)) as Hw1.
  { intros w1 Hq. split.
    - eapply Forall_impl; [done|]. intros q. by rewrite (pq_msg _ _ Hq).
    - rewrite (List.filter_ext _ (listedPod filter w)) by (intros ?; by apply listedPod_quiet).
      apply list_omap_ext, Forall_Forall2_diag, Forall_true. intros ?. apply (pq_msg _ _ Hq). }
  cbn [podMessages List.filter]. erewrite io_bind_ret by (unfold qSb, deref; by rewrite Hsb).
  unfold listedPod at 1. rewrite Hsb, Hm. destruct (sb_created sb) eqn:Hcr; cbn [negb andb].
  2:{ by apply IH. }
  destruct (CRISandbox_quiet w sp m Hm) as (w1 & Hrun & Hq).
  destruct (Hw1 w1 Hq) as [Hps1 Hf]. destruct (IH w1 Hps1) as (w2 & Hrest & Hq2).
  rewrite Hf in Hrest. exists w2. split; [|by trans w1].
  erewrite io_bind_ret by exact Hrun. erewrite io_bind_ret by exact Hrest.
  destruct (filterSandbox m filter); [|done]. cbn [omap list_omap]. by rewrite Hm.
Qed.

Lemma keepSandboxes_run f sps w :
  Forall (λ sp, is_Some (podMsg w sp)) sps →
  keepSandboxes f sps w = (Ret (List.filter (listedPod (Some f) w) sps), w).
Proof.
  induction 1 as [|sp sps [m Hm] _ IH]; [done|]. unfold podMsg in Hm.
  destruct (sbs (qsrv w) !! sp) as [sb|] eqn:Hsb; [|done].
  simpl in Hm. destruct (criSandbox sb) as [m0|] eqn:Hm0; [|done].
  cbn [keepSandboxes List.filter]. erewrite io_bind_ret by (unfold qSb, deref; by rewrite Hsb).
  unfold listedPod at 1, podMsg. rewrite Hsb. simpl. rewrite Hm0. simpl.
  destruct (sb_created sb); [|done]. cbn [negb andb filterSandbox].
  erewrite io_bind_ret by reflexivity. destruct (stateMatches _ _) eqn:Hst; cbn [negb andb]; [|by rewrite IH].
  cbn [ps_Labels set]. unfold labelsMatch. destruct (pf_LabelSelector f) as [sel|].
  - erewrite io_bind_ret by (erewrite io_bind_ret by reflexivity; reflexivity).
    erewrite io_bind_ret by exact IH. by destruct (Matches sel _).
  - erewrite io_bind_ret by reflexivity. by erewrite io_bind_ret by exact IH.
Qed.

Definition podCandidates (filter : option PodSandboxFilter) (s : CS) : list ptr :=
  match filter with
  | Some f =>
      if bool_decide (pf_Id f ≠ "") then
        match index_get (pf_Id f) (podIDIndex s) with
        | Ret id => option_list (GetSandbox id s)
        | _ => []
        end
      else ListSandboxes s
  | None => ListSandboxes s
  end.

Definition podScope (filter : option PodSandboxFilter) (s : CS) (sid : string) : Prop :=
  match filter with
  | Some f => pf_Id f ≠ "" → index_get (pf_Id f) (podIDIndex s) = Ret sid
  | None => True
  end.

Lemma elem_of_ListSandboxes (s : CS) sp : sp ∈ ListSandboxes s ↔ ∃ sid, GetSandbox sid s = Some sp.
Proof.
  unfold ListSandboxes, GetSandbox. rewrite st_list_model, list_elem_of_fmap. split.
  - intros ([id q] & -> & Hq%elem_of_map_to_list). exists id. by rewrite st_get_model.
  - intros (id & Hid). rewrite st_get_model in Hid. exists (id, sp). split; [done|]. by apply elem_of_map_to_list.
Qed.

Lemma elem_of_podCandidates filter (s : CS) sp :
  sp ∈ podCandidates filter s ↔ ∃ sid, GetSandbox sid s = Some sp ∧ podScope filter s sid.
Proof.
  destruct filter as [f|]; cbn [podCandidates podScope]; [|rewrite elem_of_ListSandboxes; naive_solver].
  case_bool_decide as Hi; [|rewrite elem_of_ListSandboxes; naive_solver].
  destruct (index_get _ _) as [id| |]; [|rewrite elem_of_nil; naive_solver..].
  transitivity (GetSandbox id s = Some sp).
  { destruct (GetSandbox id s); simpl; [rewrite list_elem_of_singleton|rewrite elem_of_nil]; naive_solver. }
  split; [intros Hg; by exists id|]. intros (sid & Hg & Hs). by injection (Hs Hi) as ->.
Qed.

Lemma podCandidates_NoDup filter (s : CS) : consistent s → NoDup (podCandidates filter s).
Proof.
  intros Hok. assert (NoDup (ListSandboxes s)) as Hall.
  { apply NoDup_st_list. intros k1 k2 p Hk1 Hk2.
    destruct (ok_id s Hok _ _ Hk1) as [_ <-]. by destruct (ok_id s Hok _ _ Hk2) as [_ <-]. }
  destruct filter as [f|]; [|done]. cbn [podCandidates]. case_bool_decide; [|done].
  destruct (index_get _ _) as [id| |]; [|apply NoDup_nil_2..].
  destruct (GetSandbox id s); [apply NoDup_singleton|apply NoDup_nil_2].
Qed.

Lemma filter_twice {A} (P : A → bool) l : List.filter P (List.filter P l) = List.filter P l.
Proof. induction l as [|x l IH]; [done|]. simpl. destruct (P x) eqn:HP; simpl; [rewrite HP|]; congruence. Qed.

Lemma ListPodSandbox_run filter w :
  coherent w →
  ∃ w', ListPodSandbox filter w =
    (Ret (omap (podMsg w) (List.filter (listedPod filter w) (podCandidates filter (qsrv w)))), w') ∧
    podQuiet w w'.
Proof.
  intros Hco.
  assert (∀ sps, (∀ sp, sp ∈ sps → ∃ sid, GetSandbox sid (qsrv w) = Some sp) →
    Forall (λ sp, is_Some (podMsg w sp)) sps) as Hsome.
  { intros sps Hs. apply Forall_forall. intros sp [sid Hg]%Hs.
    destruct (co_pod w Hco sid sp Hg) as (sb & m & Hsb & Hm & _).
    unfold podMsg. rewrite Hsb. simpl. by rewrite Hm. }
  assert (∀ sp, sp ∈ podCandidates filter (qsrv w) → ∃ sid, GetSandbox sid (qsrv w) = Some sp) as Hc.
  { intros sp (sid & Hg & _)%elem_of_podCandidates. by exists sid. }
  unfold ListPodSandbox. erewrite io_bind_ret by reflexivity.
  destruct filter as [f|]; cycle 1.
  { erewrite io_bind_ret by reflexivity. by apply podMessages_run, Hsome. }
  destruct (podMessages_run (Some f) (List.filter (listedPod (Some f) w) (podCandidates (Some f) (qsrv w))) w)
    as (w' & Hrun & Hq).
  { apply Hsome. intros sp Hp%list_elem_of_In%filter_In. by apply Hc, list_elem_of_In, Hp. }
  rewrite filter_twice in Hrun. exists w'. split; [|done].
  erewrite io_bind_ret; [exact Hrun|]. specialize (Hsome _ Hc).
  cbn [filterSandboxList podCandidates] in Hsome |- *. destruct (bool_decide (pf_Id f ≠ "")).
  2:{ by apply keepSandboxes_run. }
  destruct (index_get (pf_Id f) (podIDIndex (qsrv w))) as [id|e|msg] eqn:Hx.
  - erewrite io_bind_ret by (unfold try, readSrv; by rewrite Hx). cbn beta iota.
    erewrite io_bind_ret by reflexivity. by apply keepSandboxes_run.
  - by erewrite io_bind_ret by (unfold try, readSrv; by rewrite Hx).
  - exfalso. unfold index_get in Hx. repeat case_match; done.
Qed.

(** A listing of pods shows every pod that exists, is fully created and passes
    the filter, once, with its current state, and nothing else; it writes
    nothing but the state of the messages it shows. *)
Theorem ListPodSandbox_exact filter w :
  coherent w →
  ∃ sps w', ListPodSandbox filter w = (Ret (omap (podMsg w) sps), w') ∧ podQuiet w w' ∧ NoDup sps ∧
    ∀ sp, sp ∈ sps ↔ ∃ sid sb m, GetSandbox sid (qsrv w) = Some sp ∧ podScope filter (qsrv w) sid ∧
                       sbs (qsrv w) !! sp = Some sb ∧ sb_created sb = true ∧
                       podMsg w sp = Some m ∧ passesPod m filter.
Proof.
  intros Hco. destruct (ListPodSandbox_run filter w Hco) as (w' & Hrun & Hq).
  eexists _, w'. split_and!; [exact Hrun|done| |].
  { apply NoDup_ListNoDup, List.NoDup_filter, NoDup_ListNoDup, podCandidates_NoDup, Hco. }
  intros sp. rewrite list_elem_of_In, filter_In, <- list_elem_of_In, elem_of_podCandidates. unfold listedPod.
  split.
  - intros [(sid & Hg & Hs) Hl]. destruct (sbs (qsrv w) !! sp) as [sb|] eqn:Hsb; [|done].
    destruct (podMsg w sp) as [m|] eqn:Hm; [|done]. apply andb_true_iff in Hl as [Hcr Hf%filterSandbox_spec].
    by exists sid, sb, m.
  - intros (sid & sb & m & Hg & Hs & Hsb & Hcr & Hm & Hf%filterSandbox_spec). rewrite Hsb, Hm, Hcr, Hf. split; [|done].
    by exists sid.
Qed.
End listing.

(** ** What a status shows *)

Lemma describeState_state cst s : cs_State (describeState cst s) = criStateOf (Status cst).
Proof. unfold describeState, criStateOf. repeat case_match; done. Qed.

(** The switch leaves what does not depend on the state. *)
Lemma describeState_keeps cst s :
  cs_Id (describeState cst s) = cs_Id s ∧ cs_Metadata (describeState cst s) = cs_Metadata s ∧
  cs_Labels (describeState cst s) = cs_Labels s ∧ cs_Annotations (describeState cst s) = cs_Annotations s ∧
  cs_ImageRef (describeState cst s) = cs_ImageRef s ∧ cs_CreatedAt (describeState cst s) = cs_CreatedAt s ∧
  cs_Resources (describeState cst s) = cs_Resources s ∧ cs_User (describeState cst s) = cs_User s ∧
  cs_Mounts (describeState cst s) = cs_Mounts s.
Proof. unfold describeState. repeat case_match; done. Qed.

Section statuses.
Context {St E N : Type} `{StorerLaws ptr St}.
Variable updateStatus : Container → E → outcome () * Container * E.
Variable storedPrivileged : string → outcome bool.
Variable marshalCtr : containerInfo → outcome string.
Abbreviation W := (qworld St E).
Abbreviation CS := (ContainerServer St).
Abbreviation status_ := (ServerContainerStatus updateStatus storedPrivileged marshalCtr).

(** The runtime's update writes the state of the container and nothing else of
    the object, whether or not it succeeds. *)
Definition updates_state : Prop := ∀ o e, ∃ r st e',
  updateStatus o e = (r, o <| state := st |>, e') ∧ ∀ what, r ≠ Panic what.

(** The world after a status request: the environment may have moved, and
    containers may have a new state. *)
Record observed (w w' : W) : Prop := mkObserved {
  ob_srv : qsrv w' = qsrv w;
  ob_cri : cri w ⊆ cri w';
  ob_msg p m : msgOf w p = Some m → ∃ st, msgOf w' p = Some (m <| cri_State := st |>) }.

#[export] Instance observed_preorder : PreOrder observed.
Proof.
  split.
  - intros w. split; [done|done|]. intros p m Hm. exists (cri_State m). rewrite Hm. by destruct m.
  - intros w1 w2 w3 [Hs1 Hc1 Hm1] [Hs2 Hc2 Hm2]. split; [congruence|by trans (cri w2)|].
    intros p m (st & Hm)%Hm1. apply Hm2 in Hm as (st' & ->). exists st'. by destruct m.
Qed.

Lemma quiet_observed (w w' : W) : quiet w w' → observed w w'.
Proof.
  intros [Hsw Hcri Hmsg]. split; [unfold qsrv; by rewrite Hsw|done|].
  intros p m ->%Hmsg. exists (cri_State m). by destruct m.
Qed.

Lemma observed_coherent (w w' : W) : observed w w' → coherent w → coherent w'.
Proof.
  intros [Hs Hc Hm] [H1' H2' H3']. split; rewrite Hs; [done| |done].
  intros id p (m & (st & Hp)%Hm & <-)%H2'. eexists. split; [exact Hp|done].
Qed.

Lemma UpdateContainerStatus_run w p o :
  updates_state → objs w !! p = Some o →
  ∃ st w', ignore (UpdateContainerStatus_ updateStatus p) w = (Ret (), w') ∧ observed w w' ∧
    objs w' !! p = Some (o <| state := st |>).
Proof.
  intros Hu Ho. destruct (Hu o (Server.env (sw w))) as (r & st & e' & Hr & Hp).
  set (w' := setEnv e' (w <| objs ::= <[p := o <| state := st |>]> |>)).
  assert (UpdateContainerStatus_ updateStatus p w = (r, w')) as Hrun.
  { unfold UpdateContainerStatus_. erewrite io_bind_ret by (unfold getObj, deref; by rewrite Ho).
    by rewrite Hr. }
  exists st, w'. split_and!.
  - unfold ignore. rewrite Hrun. destruct r as [[]|?|what]; [done|done|by destruct (Hp what)].
  - split; [done|done|]. intros q m (oq & mq & Hq & Hmq & ->)%msgOf_spec.
    destruct (decide (q = p)) as [->|Hne].
    + exists (criStateOf (Status st)). apply msgOf_spec. simplify_eq.
      exists (o <| state := st |>), mq. split_and!; [apply lookup_insert_eq|done|by destruct mq].
    + exists (criStateOf (Status (state oq))). apply msgOf_spec. exists oq, mq.
      split_and!; [by apply lookup_insert_Some; right|done|by destruct mq].
  - apply lookup_insert_eq.
Qed.

Lemma ContainerStatus_run w id p c m :
  updates_state → GetContainerFromShortID id (qsrv w) = Ret p →
  ctrs (qsrv w) !! p = Some c → msgOf w p = Some m →
  ∃ o w' o', status_ id false w =
      (Ret ((describeState (state o')
               ((describeContainer (c_id c) o m) <| cs_CreatedAt := UnixNano (Created (state o')) |>))
              <| cs_LogPath := logPath o' |>, None), w') ∧
    observed w w' ∧ (∃ o0, objs w !! p = Some o0 ∧ o = o0 <| criContainer := criContainer o |>) ∧
    objs w' !! p = Some o' ∧ o' = o <| state := state o' |> ∧
    (ExitCode (state o) ≠ None ∨ Status (state o) ≠ ContainerStateStopped → o' = o).
Proof.
  intros Hu Hid Hc Hm. destruct (CRIContainer_quiet w p m Hm) as (l & w1 & Hrun & Hq & Hl & o & Ho & Hobj).
  set (o1 := o <| criContainer := l |>) in *.
  assert (objs w1 !! p = Some o1) as Ho1 by (rewrite Hobj; apply lookup_insert_eq).
  set (b := bool_decide (Status (state o1) = ContainerStateStopped) && bool_decide (ExitCode (state o1) = None)).
  assert (∃ w2 o2, when b (ignore (UpdateContainerStatus_ updateStatus p)) w1 = (Ret (), w2) ∧ observed w1 w2 ∧
    objs w2 !! p = Some o2 ∧ o2 = o1 <| state := state o2 |> ∧ (b = false → o2 = o1)) as (w2 & o2 & Hw & Hob & Ho2 & Heq & Hb).
  { destruct b; [|by exists w1, o1; split_and!]. 
    destruct (UpdateContainerStatus_run w1 p o1 Hu Ho1) as (st & w2 & ? & ? & ?).
    exists w2, (o1 <| state := st |>). by split_and!. }
  exists o1, w2, o2. split_and!; [|by trans w1; [apply quiet_observed|]|by exists o|done|done|].
  - unfold ServerContainerStatus. erewrite io_bind_ret by (unfold try, readSrv; by rewrite Hid).
    cbn beta iota. erewrite io_bind_ret by (unfold qCtr, deref; by rewrite Hc).
    erewrite io_bind_ret by exact Hrun. erewrite io_bind_ret by (unfold message, deref; by rewrite Hl).
    erewrite io_bind_ret by (unfold getObj, deref; by rewrite Ho1). cbn beta zeta.
    erewrite io_bind_ret by exact Hw. by erewrite io_bind_ret by (unfold getObj, deref; by rewrite Ho2).
  - intros Hor. apply Hb. unfold b. apply andb_false_iff.
    rewrite !bool_decide_eq_false. tauto.
Qed.

(** The reason shown for a container that exited. *)
Definition exitReason (cst : ContainerState) : string :=
  if OOMKilled cst then oomKilledReason
  else if SeccompKilled cst then seccompKilledReason
  else if bool_decide (default (-1) (ExitCode cst) = 0) then completedReason else errorReason.

Lemma describeState_exited cst s :
  criStateOf (Status cst) = CONTAINER_EXITED →
  cs_ExitCode (describeState cst s) = default (-1) (ExitCode cst) ∧
  cs_Reason (describeState cst s) = exitReason cst ∧
  cs_FinishedAt (describeState cst s) = UnixNano (Finished cst).
Proof. unfold criStateOf, describeState, exitReason. intros Hs. repeat case_match; done. Qed.

(** The status of a container agrees with what a listing shows of it, and the
    state, exit code and reason are those of the container after the request:
    a stopped container whose exit code was unknown is asked about once more,
    any other is left as it is. *)
Theorem ContainerStatus_agrees w id p c m :
  updates_state → GetContainerFromShortID id (qsrv w) = Ret p →
  ctrs (qsrv w) !! p = Some c → msgOf w p = Some m →
  ∃ st w' o o', status_ id false w = (Ret (st, None), w') ∧ observed w w' ∧
    objs w !! p = Some o ∧ objs w' !! p = Some o' ∧
    cs_Id st = c_id c ∧ cs_Metadata st = cri_Metadata m ∧ cs_Labels st = cri_Labels m ∧
    cs_Annotations st = cri_Annotations m ∧ cs_ImageRef st = cri_ImageRef m ∧
    cs_State st = criStateOf (Status (state o')) ∧
    (cs_State st = CONTAINER_EXITED →
       cs_ExitCode st = default (-1) (ExitCode (state o')) ∧ cs_Reason st = exitReason (state o')) ∧
    (ExitCode (state o) ≠ None ∨ Status (state o) ≠ ContainerStateStopped →
       state o' = state o ∧ cs_State st = cri_State m).
Proof.
  intros Hu Hid Hc Hm. destruct (ContainerStatus_run w id p c m Hu Hid Hc Hm)
    as (o & w' & o' & Hrun & Hob & (o0 & Ho0 & Heq) & Ho' & Heq' & Hsame).
  set (base := (describeContainer (c_id c) o m) <| cs_CreatedAt := UnixNano (Created (state o')) |>) in Hrun.
  destruct (describeState_keeps (state o') base) as (K1 & K2 & K3 & K4 & K5 & _).
  assert (state o = state o0) as Hst by (by rewrite Heq).
  eexists _, w', o0, o'. split; [exact Hrun|]. split_and!; [done|done|done|exact K1|exact K2|exact K3|exact K4|exact K5| | |].
  - apply (describeState_state (state o') base).
  - cbn [cs_State set]. intros He. change (cs_State (describeState (state o') base) = CONTAINER_EXITED) in He.
    rewrite describeState_state in He. by destruct (describeState_exited (state o') base He) as (? & ? & _).
  - rewrite <- Hst. intros Hor. specialize (Hsame Hor). subst o'. split; [done|].
    transitivity (criStateOf (Status (state o))); [apply (describeState_state (state o) base)|].
    apply msgOf_spec in Hm as (o1 & m0 & Ho1 & _ & ->). rewrite Ho0 in Ho1. injection Ho1 as <-. cbn [cri_State set]. by rewrite Hst.
Qed.

(** Every container is found under its own ID: the ID is in the index and is not
    a prefix of another one. *)
Definition indexed (s : CS) : Prop :=
  ∀ id p, GetContainer id s = Some p → index_get id (ctrIDIndex s) = Ret id.

(** A message that names a container of the server. *)
Definition names_ctr (w : W) (l : loc) (c : Ctr) : Prop :=
  ∃ m p, cri w !! l = Some m ∧ cri_Id m = c_id c ∧ ctrs (qsrv w) !! p = Some c ∧
    c_created c = true ∧ GetContainer (c_id c) (qsrv w) = Some p.

Lemma names_observed (w w' : W) ls cs :
  observed w w' → Forall2 (names_ctr w) ls cs → Forall2 (names_ctr w') ls cs.
Proof.
  intros [Hs Hc _] Hn. eapply Forall2_impl; [exact Hn|]. intros l c (m & p & Hl & ? & ? & ? & ?).
  exists m, p. rewrite Hs. split_and!; try done. by eapply lookup_weaken.
Qed.

Lemma ContainerStatus_named w l c :
  updates_state → coherent w → indexed (qsrv w) → names_ctr w l c →
  ∃ st w', status_ (c_id c) false w = (Ret (st, None), w') ∧ observed w w' ∧ cs_Id st = c_id c.
Proof.
  intros Hu Hco Hix (m0 & p & _ & _ & Hc & Hcr & Hg). destruct (co_ctr w Hco _ _ Hg) as (m & Hm & _).
  assert (GetContainerFromShortID (c_id c) (qsrv w) = Ret p) as Hs.
  { apply GetContainerFromShortID_spec. exists (c_id c), c. split_and!; eauto. }
  destruct (ContainerStatus_run w (c_id c) p c m Hu Hs Hc Hm) as (o & w' & o' & Hrun & Hob & _).
  eexists _, w'. split_and!; [exact Hrun|done|].
  by destruct (describeState_keeps (state o')
    ((describeContainer (c_id c) o m) <| cs_CreatedAt := UnixNano (Created (state o')) |>)) as (K & _).
Qed.

Lemma statusesOf_run ls cs w :
  updates_state → coherent w → indexed (qsrv w) → Forall2 (names_ctr w) ls cs →
  ∃ sts w', statusesOf updateStatus storedPrivileged marshalCtr ls w = (Ret (Some <$> sts), w') ∧
    observed w w' ∧ cs_Id <$> sts = c_id <$> cs.
Proof.
  intros Hu Hco Hix Hn. revert w Hco Hix Hn. induction ls as [|l ls IH] in cs |- *; intros w Hco Hix Hn.
  { inv Hn. by exists [], w. }
  inv Hn as [|? c ? cs' Hl Hn'].
  destruct (ContainerStatus_named w l c Hu Hco Hix Hl) as (st & w1 & Hrun & Hob & Hst).
  destruct (IH cs' w1) as (sts & w2 & Hrest & Hob2 & Hids).
  { by apply (observed_coherent w). }
  { by rewrite (ob_srv _ _ Hob). }
  { by eapply names_observed. }
  exists (st :: sts), w2. split_and!; [|by trans w1|by rewrite !fmap_cons, Hst, Hids].
  destruct Hl as (m & p & Hl & Hid & _). cbn [statusesOf].
  erewrite io_bind_ret by (unfold message, deref; by rewrite Hl).
  erewrite io_bind_ret by (unfold try; rewrite Hid, Hrun; reflexivity). cbn beta iota.
  by erewrite io_bind_ret by exact Hrest.
Qed.

Lemma listed_names filter w w' ls :
  coherent w → quiet w w' →
  replies w' ls (List.filter (listed filter w) (candidates filter (qsrv w))) →
  ∃ cs, Forall2 (names_ctr w') ls cs ∧
    Forall2 (λ p c, ctrs (qsrv w) !! p = Some c) (List.filter (listed filter w) (candidates filter (qsrv w))) cs.
Proof.
  intros Hco Hq. set (ps := List.filter _ _).
  assert (∀ p, p ∈ ps → ∃ c, ctrs (qsrv w) !! p = Some c ∧ c_created c = true ∧
    GetContainer (c_id c) (qsrv w) = Some p) as Hps.
  { intros p [Hp Hl]%list_elem_of_In%filter_In. unfold listed in Hl.
    destruct (candidates_stored filter (qsrv w) p (co_srv w Hco)) as (c & Hc & Hg); [by apply list_elem_of_In|].
    rewrite Hc in Hl. destruct (msgOf w p); [|done]. apply andb_true_iff in Hl as [? _]. by exists c. }
  clearbody ps. intros Hr. induction Hr as [|l p ls ps (m & Hm & Hl) Hr IH]; [exists []; split; constructor|].
  destruct IH as (cs & Hn & Hcs); [intros q Hq'; apply Hps; by right|].
  destruct (Hps p) as (c & Hc & Hcr & Hg); [by left|].
  exists (c :: cs). split; constructor; try done.
  destruct (co_ctr w Hco _ _ Hg) as (m' & Hm' & Hid). apply (quiet_msg _ _ Hq) in Hm'.
  exists m, p. unfold qsrv. rewrite (quiet_sw _ _ Hq). split_and!; try done. congruence.
Qed.

Lemma ids_of (s : CS) ps cs :
  Forall2 (λ p c, ctrs s !! p = Some c) ps cs → NoDup ps →
  (∀ p c, p ∈ ps → ctrs s !! p = Some c → GetContainer (c_id c) s = Some p) →
  NoDup (c_id <$> cs) ∧
  ∀ id, id ∈ c_id <$> cs ↔ ∃ p c, p ∈ ps ∧ ctrs s !! p = Some c ∧ c_id c = id.
Proof.
  induction 1 as [|p c ps cs Hc Hcs IH]; intros Hnd Hg.
  { split; [constructor|]. intros id. rewrite elem_of_nil. split; [done|].
    intros (? & ? & Hx & _). by apply elem_of_nil in Hx. }
  apply NoDup_cons in Hnd as [Hp Hnd]. destruct IH as [IH1 IH2]; [done|intros q d Hq; apply Hg; by right|].
  rewrite fmap_cons. split.
  - apply NoDup_cons. split; [|done]. intros (q & d & Hq & Hd & Hid)%IH2.
    assert (GetContainer (c_id c) s = Some p) by (apply Hg; [by left|done]).
    assert (GetContainer (c_id d) s = Some q) by (apply Hg; [by right|done]). congruence.
  - intros id. rewrite elem_of_cons, IH2. split.
    + intros [->|(q & d & Hq & ? & ?)]; [exists p, c; split_and!; [by left|done|done]|].
      exists q, d. split_and!; [by right|done|done].
    + intros (q & d & [->|Hq]%elem_of_cons & Hd & Hid); [left; congruence|right; by exists q, d].
Qed.

End statuses.

(** ** Witnesses

    The server of Server's example, with its two container objects and their
    messages. *)

#[local] Instance q_storer : Storer ptr (memoryStore (T := ptr)) := memoryStore_storer map_to_list.
#[local] Instance q_laws : StorerLaws ptr (memoryStore (T := ptr)) :=
  memoryStore_laws map_to_list (λ c, reflexivity (map_to_list c)).

Module ExampleQuery.
Definition h1 := NewContainer ∅ "c1" "web" "/b" "/l" {["app" := "shop"]} ∅ ∅ "img" (Some "name") (Some "iid")
  "ref" (Some (mkMetadata "web" 0)) "pod1" false false false "runc" "/d" 2 "".
Definition h2 := NewSpoofedContainer h1.1 "i1" "infra" ∅ "pod1" 1 "/d2".
Definition o1 := h1.2 <| state ::= λ s, s <| Status := ContainerStateStopped |> <| ExitCode := Some 3 |> |>.
Definition w : qworld (memoryStore (T := ptr)) (list call) :=
  mkQ _ _ Example3.w {[1%positive := o1; 2%positive := h2.2]} h2.1.
Definition update (o : Container) (l : list call) : outcome () * Container * list call := (Ret (), o, l).

Lemma only_ctr id p : GetContainer id (qsrv w) = Some p → id = "c1" ∧ p = 1%positive.
Proof.
  unfold GetContainer. rewrite st_get_model. change (st_model (s_containers (qsrv w))) with
    ({["c1" := 1%positive]} : gmap string ptr). by intros [<- <-]%lookup_singleton_Some.
Defined.
Lemma only_pod id sp : GetSandbox id (qsrv w) = Some sp → id = "pod1" ∧ sp = 1%positive.
Proof.
  unfold GetSandbox. rewrite st_get_model. change (st_model (sandboxes (qsrv w))) with
    ({["pod1" := 1%positive]} : gmap string ptr). by intros [<- <-]%lookup_singleton_Some.
Defined.

Lemma is_coherent : coherent w.
Proof.
  split.
  - exact (proj1 (reachable_ok _ _ Example3.reach_pod)).
  - intros id p [-> ->]%only_ctr. eexists. split; vm_compute; reflexivity.
  - intros id p [-> ->]%only_pod. eexists _, _. split_and!; vm_compute; reflexivity.
Defined.
Lemma is_updating : updates_state update.
Proof. intros o e. exists (Ret ()), (state o), e. split; [by destruct o|done]. Defined.
Lemma is_indexed : indexed (qsrv w).
Proof. intros id p [-> ->]%only_ctr. vm_compute. reflexivity. Defined.
End ExampleQuery.

Lemma ListContainers_exact_witness :
  ∃ ls w', ServerListContainers (Some (mkCtrFilter "" (Some CONTAINER_EXITED) "pod" (Some {["app" := "shop"]})))
      ExampleQuery.w = (Ret ls, w') ∧ length ls = 1%nat.
Proof.
  destruct (ListContainers_exact (Some (mkCtrFilter "" (Some CONTAINER_EXITED) "pod" (Some {["app" := "shop"]})))
    ExampleQuery.w ExampleQuery.is_coherent) as (ls & w' & ps & Hrun & _ & _ & _ & _ & _).
  exists ls, w'. split; [exact Hrun|]. vm_compute in Hrun. by injection Hrun as <- _.
Defined.

Lemma ListPodSandbox_exact_witness :
  ∃ l w', ListPodSandbox (Some (mkPodFilter "p" (Some SANDBOX_READY) None)) ExampleQuery.w = (Ret l, w') ∧
    ps_Id <$> l = ["pod1"].
Proof.
  destruct (ListPodSandbox_exact (Some (mkPodFilter "p" (Some SANDBOX_READY) None))
    ExampleQuery.w ExampleQuery.is_coherent) as (sps & w' & Hrun & _).
  set (l := omap _ sps) in Hrun. clearbody l. exists l, w'. split; [exact Hrun|].
  vm_compute in Hrun. by injection Hrun as <- _.
Defined.

Lemma ContainerStatus_agrees_witness :
  ∃ st w', ServerContainerStatus ExampleQuery.update (λ _, Ret false) (λ _, Ret "") "c" false ExampleQuery.w =
      (Ret (st, None), w') ∧ cs_Reason st = errorReason ∧ cs_ExitCode st = 3.
Proof.
  destruct (ContainerStatus_agrees ExampleQuery.update (λ _, Ret false) (λ _, Ret "") ExampleQuery.w "c" 1%positive
    Example3.c1 (default (mkCriContainer "" "" None "" "" "" CONTAINER_CREATED 0 ∅ ∅) (msgOf ExampleQuery.w 1%positive)))
    as (st & w' & o & o' & Hrun & _); [apply ExampleQuery.is_updating|vm_compute; reflexivity..|].
  exists st, w'. split; [exact Hrun|]. vm_compute in Hrun. by injection Hrun as <- _.
Defined.

