(* ===== verification/Updates.v ===== *)
(** * Updates: the requests that change or inspect one container
    (server/container_update_resources.go, container_reopen_log.go,
    runtime_status.go, the endpoints of inspect.go)

    Built over the world of Queries.  An update goes from the CRI message to the
    OCI resources, through the runtime, into the spec of the container and from
    there into the resources its status shows; the theorems say what a client
    reads back. *)

From S2P Require Import Prelude GoStrings MemoryStore Cpuset ConfigRuntime Container Sandbox ContainerServer Server Queries.
From Stdlib Require Import Ascii.
Local Open Scope Z_scope.

(** ** From the CRI to the OCI *)

(** [hasSwap] is [node.CgroupHasMemorySwap()]. *)
Definition toOCIResources (hasSwap : bool) (r : LinuxContainerResources) : LinuxResources :=
  let nonzero z v := if bool_decide (z = 0) then None else Some v in
  mkLinuxResources
    (Some (mkLinuxCPU (nonzero (CpuShares r) (u64 (CpuShares r))) (nonzero (CpuQuota r) (CpuQuota r))
             (nonzero (CpuPeriod r) (u64 (CpuPeriod r))) (CpusetCpus r) (CpusetMems r)))
    (Some (mkLinuxMemory (nonzero (MemoryLimitInBytes r) (MemoryLimitInBytes r))
             (if hasSwap then nonzero (MemoryLimitInBytes r) (MemoryLimitInBytes r) else None)))
    ∅ [].

Definition sharedCPUsEnvVar : string := "OPENSHIFT_SHARED_CPUS".

(** The loop over the environment: the last assignment wins; an entry that is the
    bare name of the variable is indexed out of range. *)
Fixpoint findShared (envs : list string) (sharedCpus : string) : outcome string :=
  match envs with
  | [] => Ret sharedCpus
  | e :: envs =>
      match Split e "=" with
      | key :: rest =>
          if bool_decide (key = sharedCPUsEnvVar)
          then match rest with
               | value :: _ => findShared envs value
               | [] => Panic "index out of range [1] with length 1"
               end
          else findShared envs sharedCpus
      | [] => Panic "index out of range [0] with length 0"
      end
  end.

Definition reapplySharedCPUs (o : Container) (r : LinuxContainerResources) : outcome LinuxContainerResources :=
  match spec_Process (GetSpec o) with
  | None => Ret r
  | Some proc =>
      sharedCpus ← findShared (sp_Env proc) "";
      if bool_decide (sharedCpus = "") then Ret r
      else
        shared ← Parse sharedCpus;
        isolated ← Parse (CpusetCpus r);
        Ret (r <| CpusetCpus := String_ (Union isolated shared) |>)
  end.

Section updates.
Context {St E : Type} `{StorerLaws ptr St}.
Variable perform : call → io E ().
Variable updateStatus : Container → E → outcome () * Container * E.
Variable hasSwap : bool.
(** [nri.updateContainer]: the resources as the plugins want them, nil to keep
    those of the request. *)
Variable nriUpdate : ptr → LinuxContainerResources → E → outcome (option LinuxContainerResources) * E.
(** The OCI runtime: [IsContainerAlive], [ReopenContainerLog], [PauseContainer],
    [UnpauseContainer]. *)
Variable isAlive : Container → E → outcome bool.
Variable reopenLog pause unpause : ptr → io E ().

Abbreviation W := (qworld St E).

Definition inEnv {A} (m : E → outcome A * E) : io W A := λ w,
  let '(r, e) := m (Server.env (sw w)) in (r, setEnv e w).

(** [s.UpdateContainerLinuxResources]: the spec of the object and what the server
    knows of it. *)
Definition updateSpec (p : ptr) (res : LinuxResources) : io W () := λ w,
  match UpdateContainerLinuxResources p res (qsrv w), objs w !! p, lr_CPU res, lr_Memory res with
  | Ret s, Some o, Some cpu, Some mem =>
      (Ret (), w <| sw ::= λ v, v <| srv := s |> |>
                 <| objs ::= <[p := SetSpec (mergeSpec (GetSpec o) cpu mem) o]> |>)
  | _, _, _, _ => (Panic "nil pointer dereference", w)
  end.

(** [reapplySharedCPUs] writes into the request, so the NRI plugins and the
    conversion see its result. *)
Definition UpdateContainerResources (id : string) (linux : option LinuxContainerResources) : io W () :=
  p ← readSrv (GetContainerFromShortID id);
  o ← getObj p;
  if negb (bool_decide (Status (state o) = ContainerStateRunning) ||
           bool_decide (Status (state o) = ContainerStateCreated))
  then fail (ErrorsNew "container is not running or created state")
  else
    match linux with
    | None => mret ()
    | Some r =>
        r ← lift (reapplySharedCPUs o r);
        updated ← inEnv (nriUpdate p r);
        let resources := toOCIResources hasSwap (default r updated) in
        inEnv (perform (RuntimeUpdate p resources)) ;;
        updateSpec p resources ;;
        ignore (inEnv (perform (NriPostUpdate p)))
    end.

Definition ReopenContainerLog (id : string) : io W () :=
  p ← wrap_err "could not find container: " (readSrv (GetContainerFromShortID id));
  o ← getObj p;
  running ← (λ w, (isAlive o (Server.env (sw w)), w));
  if negb running then fail (ErrorsNew "container is not running")
  else inEnv (reopenLog p).

(** ** The inspect endpoints *)

(** An HTTP reply: the status code and the text. *)
Record response := mkResponse { r_Code : Z; r_Body : string }.
Definition StatusOK : Z := 200.
Definition StatusNotFound : Z := 404.
Definition StatusConflict : Z := 409.
Definition StatusInternalServerError : Z := 500.

(** [err.Error()] *)
Fixpoint errText (e : goerr) : string :=
  match e with ErrorsNew msg => msg | Errorf msg e => msg +:+ errText e end.

(** A step whose error is the reply. *)
Definition orError (m : io W ()) (k : io W response) : io W response :=
  r ← try m;
  match r with
  | inl _ => k
  | inr e => mret (mkResponse StatusInternalServerError (errText e))
  end.

(** The two handlers differ in the states they accept and the call they make. *)
Definition changeState (accepts : string → bool) (msg : string) (m : ptr → io E ()) (id : string) : io W response :=
  c ← gets (λ w, GetContainer id (qsrv w));
  match c with
  | None => mret (mkResponse StatusNotFound ("can't find the container with id " +:+ id))
  | Some p =>
      o ← getObj p;
      if negb (accepts (Status (state o)))
      then mret (mkResponse StatusConflict (msg +:+ Status (state o)))
      else
        orError (inEnv (m p))
          (orError (UpdateContainerStatus_ updateStatus p) (mret (mkResponse StatusOK "200 OK")))
  end.

Definition inspectPause : string → io W response :=
  changeState (λ st, bool_decide (st = ContainerStateRunning) || bool_decide (st = ContainerStateCreated))
    "container is not in running or created state, now is " pause.
Definition inspectUnpause : string → io W response :=
  changeState (λ st, bool_decide (st = ContainerStatePaused))
    "container is not in paused state, now is " unpause.

(** [types.ContainerInfo] *)
Record ContainerInfo := mkInfo {
  in_Name : string; in_Pid : Z; in_Image : string; in_ImageRef : string; in_CreatedTime : Z;
  in_Labels : gmap string string; in_Annotations : gmap string string;
  in_CrioAnnotations : gmap string string; in_LogPath : string; in_Root : string;
  in_Sandbox : string; in_IPs : list string }.

Definition errCtrNotFound := ErrorsNew "container not found".
Definition errSandboxNotFound := ErrorsNew "sandbox for container not found".

(** [c.Pid()] of a container of the pod. *)
Variable pidOf : Container → outcome Z.

Fixpoint firstPid (ctrs_ : list Container) (dflt : Z) : Z :=
  match ctrs_ with
  | [] => dflt
  | o :: ctrs_ =>
      match pidOf o with
      | Ret n => if 0 <? n then n else firstPid ctrs_ dflt
      | _ => firstPid ctrs_ dflt
      end
  end.

(** The state of an object is never nil here. *)
Definition getContainerInfo (id : string) : io W ContainerInfo :=
  found ← gets (λ w, match GetContainer id (qsrv w) with
                     | Some p => Some (p, false)
                     | None => (λ p, (p, true)) <$> GetInfraContainer id (qsrv w)
                     end);
  match found with
  | None => fail errCtrNotFound
  | Some (p, isInfra) =>
      c ← qCtr p;
      o ← getObj p;
      sp ← gets (λ w, GetSandbox (c_sandbox c) (qsrv w));
      match sp with
      | None => fail errSandboxNotFound
      | Some sp =>
          sb ← qSb sp;
          pidToReturn ← gets (λ w,
            if isInfra && bool_decide (InitPid (state o) = 0)
            then firstPid (omap (λ q, objs w !! q) (st_list (createdAtOf (qsrv w)) (containers sb))) (InitPid (state o))
            else InitPid (state o));
          l ← CRIContainer_ p;
          m ← message l;
          mret (mkInfo (c_name c) pidToReturn (default "" (someNameOfTheImage o)) (cri_ImageRef m)
                  (UnixNano (Created (state o))) (cri_Labels m) (cri_Annotations m) (crioAnnotations o)
                  (logPath o) (mountPoint o) (c_sandbox c) (ips sb))
      end
  end.

(** The [/containers/{id}] endpoint; [marshal] is [json.Marshal]. *)
Definition inspectContainer (marshal : ContainerInfo → outcome string) (id : string) : io W response :=
  r ← try (getContainerInfo id);
  match r with
  | inl ci =>
      match marshal ci with
      | Ret js => mret (mkResponse StatusOK js)
      | Fail e => mret (mkResponse StatusInternalServerError (errText e))
      | Panic s => panic s
      end
  | inr e =>
      mret (if errors_is e errCtrNotFound
            then mkResponse StatusNotFound ("can't find the container with id " +:+ id)
            else if errors_is e errSandboxNotFound
            then mkResponse StatusNotFound ("can't find the sandbox for container id " +:+ id)
            else mkResponse StatusInternalServerError (errText e))
  end.
End updates.

(** ** The status of the runtime *)

Record RuntimeCondition := mkCondition { rc_Type : string; rc_Status : bool; rc_Reason : string; rc_Message : string }.
Record RuntimeHandlerStatus := mkHandlerStatus { rh_Name : string; rh_RRO : bool; rh_UserNS : bool }.
Record StatusResponse := mkStatusResponse {
  st_Conditions : list RuntimeCondition; st_SupplementalGroupsPolicy : bool;
  st_Handlers : list RuntimeHandlerStatus; st_Info : option string }.

Definition RuntimeReady : string := "RuntimeReady".
Definition NetworkReady : string := "NetworkReady".
Definition networkNotReadyReason : string := "NetworkPluginNotReady".

Section runtime_status.
(** The enumeration of the table, [CNIPluginReadyOrError], and [json.Marshal] of
    the runtime's info. *)
Variable order : gmap string RuntimeHandler → list (string * RuntimeHandler).
Variable cniReady : outcome ().
Variable runtimeInfo : outcome string.

Definition networkCondition : RuntimeCondition :=
  match cniReady with
  | Ret _ | Panic _ => mkCondition NetworkReady true "" ""
  | Fail e => mkCondition NetworkReady false networkNotReadyReason ("Network plugin returns error: " +:+ errText e)
  end.

Definition makeRuntimeHandler (name : string) (h : RuntimeHandler) : RuntimeHandlerStatus :=
  mkHandlerStatus name (Handler_SupportsRROMounts h) (Handler_SupportsIDMap h).

(** The default runtime is listed a second time, with an empty name. *)
Definition handlerStatuses (c : RuntimeTable) : list RuntimeHandlerStatus :=
  order (t_Runtimes c) ≫= λ '(name, h),
    makeRuntimeHandler name h ::
    (if bool_decide (name = t_DefaultRuntime c) then [makeRuntimeHandler "" h] else []).

Definition RuntimeStatus (c : RuntimeTable) (verbose : bool) : outcome StatusResponse :=
  let resp := mkStatusResponse [mkCondition RuntimeReady true "" ""; networkCondition] true (handlerStatuses c) in
  if verbose then
    match runtimeInfo with
    | Ret info => Ret (resp (Some info))
    | Fail e => Fail (Errorf "creating runtime info: " e)
    | Panic s => Panic s
    end
  else Ret (resp None).
End runtime_status.

(** ** What an update does to the resources a client reads *)

(** The resources a spec stands for, as [SetResources] computes them. *)
Definition specResources (s : Spec) : LinuxContainerResources :=
  let lr := default (mkLinuxResources None None ∅ []) (spec_Linux s ≫= sl_Resources) in
  let r := oomStatus (spec_Process s) (memStatus (lr_Memory lr) (cpuStatus (lr_CPU lr) emptyLCR)) in
  r <| Unified := lr_Unified lr |>
    <| HugepageLimits := (λ e, (hp_Pagesize e, hp_Limit e)) <$> lr_HugepageLimits lr |>.

(** What the update promises: a value given replaces the old one, a zero or empty
    value keeps it, and the swap limit follows the memory limit where the kernel
    has one. *)
Definition overlay (hasSwap : bool) (r old : LinuxContainerResources) : LinuxContainerResources :=
  let pick (v d : Z) := if bool_decide (v = 0) then d else v in
  let pickS (v d : string) := if bool_decide (v = "") then d else v in
  old <| CpuPeriod ::= pick (CpuPeriod r) |> <| CpuQuota ::= pick (CpuQuota r) |>
      <| CpuShares ::= pick (CpuShares r) |>
      <| MemoryLimitInBytes ::= pick (MemoryLimitInBytes r) |>
      <| MemorySwapLimitInBytes ::= if hasSwap then pick (MemoryLimitInBytes r) else id |>
      <| CpusetCpus ::= pickS (CpusetCpus r) |> <| CpusetMems ::= pickS (CpusetMems r) |>.

Lemma i64_u64 z : in_s 64 z → i64 (u64 z) = z.
Proof.
  intros Hz. transitivity (i64 z); [|by apply wrap_s_id].
  unfold wrap_s, wrap_u. by rewrite Z.add_mod_idemp_l.
Qed.

(** The spec after an update, read back: CRI to OCI, merge, OCI to CRI. *)
Lemma merged_resources hasSwap r s cpu mem :
  in_s 64 (CpuShares r) → in_s 64 (CpuPeriod r) →
  lr_CPU (toOCIResources hasSwap r) = Some cpu → lr_Memory (toOCIResources hasSwap r) = Some mem →
  specResources (mergeSpec s cpu mem) = overlay hasSwap r (specResources s).
Proof.
  intros Hs Hp [= <-] [= <-]. destruct r as [per quo sh lim ? cp me ? ? ?]. cbn in Hs, Hp.
  unfold specResources, mergeSpec, mergeCPU, mergeMemory, overlay, cpuStatus, memStatus, oomStatus.
  destruct s as [proc [[[[[[osh oq op oc om]|] [[ol os]|] un hp]|] ns ml]|]]; cbn; unfold set; cbn;
    destruct proc; cbn; destruct hasSwap; cbn;
    repeat (case_bool_decide; cbn; subst); rewrite ?i64_u64 by done; reflexivity.
Qed.

Lemma SetSpec_cri s o : criContainer (SetSpec s o) = criContainer o.
Proof. unfold SetSpec, SetRuntimeUser, SetResources. repeat case_match; done. Qed.

(** An object whose spec was just merged shows its resources. *)
Lemma SetSpec_resources s0 cpu mem o :
  let s := mergeSpec s0 cpu mem in
  GetSpec (SetSpec s o) = s ∧ is_Some (spec_Linux s) ∧ resources (SetSpec s o) = Some (specResources s).
Proof.
  unfold SetSpec, SetRuntimeUser, SetResources. cbn. split_and!; [|by eexists|].
  - repeat case_match; done.
  - unfold specResources. cbn. by destruct (spec_Process s0).
Qed.

Section update_theorems.
Context {St E : Type} `{StorerLaws ptr St}.
Variable perform : call → io E ().
Variable updateStatus : Container → E → outcome () * Container * E.
Variable hasSwap : bool.
Variable nriUpdate : ptr → LinuxContainerResources → E → outcome (option LinuxContainerResources) * E.
Variable storedPrivileged : string → outcome bool.
Variable marshalCtr : containerInfo → outcome string.
Abbreviation W := (qworld St E).
Abbreviation update_ := (UpdateContainerResources (St := St) perform hasSwap nriUpdate).

(** Nothing but the environment moved. *)
Definition untouched_q (w w' : W) : Prop := qsrv w' = qsrv w ∧ objs w' = objs w ∧ cri w' = cri w.

Lemma inEnv_untouched {A} (m : E → outcome A * E) w r w' : inEnv m w = (r, w') → untouched_q w w'.
Proof. unfold inEnv. destruct (m _) as [r' e]. by intros [= <- <-]. Qed.

Lemma inEnv_run {A} (m : E → outcome A * E) (w : W) a w' :
  inEnv m w = (Ret a, w') → ∃ e, m (Server.env (sw w)) = (Ret a, e) ∧ w' = setEnv e w.
Proof. unfold inEnv. destruct (m _) as [r e]. intros [= -> <-]. by exists e. Qed.

(** A successful update, step by step. *)
Lemma UpdateContainerResources_inv id r w w' :
  update_ id (Some r) w = (Ret (), w') →
  ∃ p o r' upd e1 e2 w1,
    GetContainerFromShortID id (qsrv w) = Ret p ∧ objs w !! p = Some o ∧
    (Status (state o) = ContainerStateRunning ∨ Status (state o) = ContainerStateCreated) ∧
    reapplySharedCPUs o r = Ret r' ∧ nriUpdate p r' (Server.env (sw w)) = (Ret upd, e1) ∧
    perform (RuntimeUpdate p (toOCIResources hasSwap (default r' upd))) e1 = (Ret (), e2) ∧
    updateSpec p (toOCIResources hasSwap (default r' upd)) (setEnv e2 (setEnv e1 w)) = (Ret (), w1) ∧
    ∃ e3, w' = setEnv e3 w1.
Proof.
  unfold UpdateContainerResources. intros Hr.
  apply io_bind_inv in Hr as (p & w1 & Hp & Hr). unfold readSrv in Hp. injection Hp as Hp <-.
  apply io_bind_inv in Hr as (o & w1 & Ho & Hr). unfold getObj, deref in Ho.
  destruct (objs w !! p) as [o'|] eqn:Hobj; [|done]. injection Ho as <- <-.
  destruct (bool_decide (Status (state o') = ContainerStateRunning) ||
            bool_decide (Status (state o') = ContainerStateCreated)) eqn:Hst; [|done]. cbn [negb] in Hr.
  apply io_bind_inv in Hr as (r' & w1 & Hre & Hr). apply lift_ret in Hre as [Hre ->].
  apply io_bind_inv in Hr as (upd & w1 & Hn & Hr). apply inEnv_run in Hn as (e1 & Hn & ->).
  apply io_bind_inv in Hr as ([] & w1 & Hu & Hr). apply inEnv_run in Hu as (e2 & Hu & ->).
  apply io_bind_inv in Hr as ([] & w1 & Hs & Hr).
  exists p, o', r', upd, e1, e2, w1. split_and!; try done.
  - apply orb_true_iff in Hst as [?%bool_decide_eq_true|?%bool_decide_eq_true]; auto.
  - unfold ignore, inEnv in Hr. destruct (perform (NriPostUpdate p) _) as [[[]|err|what] e'];
    [| |done]; injection Hr as <-; by exists e'.
Qed.

(** The container is still found under the same prefix. *)
Lemma updateSpec_inv p res (w w' : W) :
  updateSpec p res w = (Ret (), w') →
  ∃ o cpu mem, objs w !! p = Some o ∧ lr_CPU res = Some cpu ∧ lr_Memory res = Some mem ∧
    cri w' = cri w ∧ objs w' = <[p := SetSpec (mergeSpec (GetSpec o) cpu mem) o]> (objs w) ∧
    (∀ id, GetContainerFromShortID id (qsrv w) = Ret p → GetContainerFromShortID id (qsrv w') = Ret p) ∧
    is_Some (ctrs (qsrv w') !! p).
Proof.
  unfold updateSpec, UpdateContainerLinuxResources.
  destruct (ctrs (qsrv w) !! p) as [c|] eqn:Hc; [|done].
  destruct (lr_CPU res) as [cpu|]; [|done]. destruct (lr_Memory res) as [mem|]; [|done].
  destruct (objs w !! p) as [o|]; [|done]. intros [= <-].
  exists o, cpu, mem. split_and!; try done.
  - intros id. rewrite !GetContainerFromShortID_spec. intros (i & c' & Hx & Hg & Hc' & Hcr).
    rewrite Hc in Hc'. injection Hc' as <-.
    exists i, (c <| c_spec ::= λ sp, mergeSpec sp cpu mem |>). split_and!; [done| |apply lookup_insert_eq|done].
    unfold GetContainer in *. rewrite st_get_model in *. cbn. rewrite model_add.
    destruct (decide (i = c_id c)) as [->|Hne]; [apply lookup_insert_eq|by rewrite lookup_insert_ne].
  - eexists. apply lookup_insert_eq.
Qed.


Lemma inEnv_triple {A} (m : E → outcome A * E) w0 :
  triple (untouched_q w0) (inEnv m) (λ _, untouched_q w0) (λ _, untouched_q w0).
Proof.
  intros w (H1' & H2' & H3'). destruct (inEnv m w) as [r w'] eqn:Hm.
  destruct (inEnv_untouched m w r w' Hm) as (? & ? & ?).
  assert (untouched_q w0 w') by (split_and!; congruence). by destruct r.
Qed.


End update_theorems.

(** The CPUs shared with a container are added to those a request pins it to:
    the set the request carries on names every CPU of both, and no other. *)
Theorem reapplySharedCPUs_union o r proc shared_ shared isolated :
  spec_Process (GetSpec o) = Some proc → findShared (sp_Env proc) "" = Ret shared_ → shared_ ≠ "" →
  Parse shared_ = Ret shared → Parse (CpusetCpus r) = Ret isolated →
  set_Forall valid_cpu (isolated ∪ shared) →
  ∃ r', reapplySharedCPUs o r = Ret r' ∧ Parse (CpusetCpus r') = Ret (isolated ∪ shared) ∧
    r' = r <| CpusetCpus := CpusetCpus r' |>.
Proof.
  intros Hp Hf Hne Hs Hi Hv. unfold reapplySharedCPUs. rewrite Hp, Hf. cbn.
  rewrite bool_decide_eq_false_2 by done. rewrite Hs, Hi. cbn.
  eexists. split_and!; [reflexivity|by apply Parse_String_|done].
Qed.

(** A finding: an environment entry that is the bare name of the variable (an
    entry without an equals sign is legal) makes the update panic. *)
Theorem reapplySharedCPUs_bare_name o r proc :
  spec_Process (GetSpec o) = Some proc → sp_Env proc = [sharedCPUsEnvVar] →
  reapplySharedCPUs o r = Panic "index out of range [1] with length 1".
Proof. intros Hp He. unfold reapplySharedCPUs. rewrite Hp, He. reflexivity. Qed.

(** The endpoints that pause and resume refuse a container they do not know and
    one in another state, without a call to the runtime. *)
Lemma changeState_refuses {St E} `{Storer ptr St} (updateStatus : Container → E → outcome () * Container * E)
    accepts msg (m : ptr → io E ()) id (w : qworld St E) :
  (GetContainer id (qsrv w) = None →
     changeState updateStatus accepts msg m id w =
       (Ret (mkResponse StatusNotFound ("can't find the container with id " +:+ id)), w)) ∧
  (∀ p o, GetContainer id (qsrv w) = Some p → objs w !! p = Some o → accepts (Status (state o)) = false →
     changeState updateStatus accepts msg m id w = (Ret (mkResponse StatusConflict (msg +:+ Status (state o))), w)).
Proof.
  split.
  - intros Hn. unfold changeState. erewrite io_bind_ret by reflexivity. by rewrite Hn.
  - intros p o Hp Ho Ha. unfold changeState. erewrite io_bind_ret by reflexivity. rewrite Hp.
    erewrite io_bind_ret by (unfold getObj, deref; by rewrite Ho). by rewrite Ha.
Qed.

(** Every runtime is reported under its name, and the default one under the empty
    name as well. *)
Lemma elem_of_handlerStatuses order c s :
  (∀ t, order t ≡ₚ map_to_list t) →
  s ∈ handlerStatuses order c ↔
  ∃ name h, t_Runtimes c !! name = Some h ∧
    (s = makeRuntimeHandler name h ∨ name = t_DefaultRuntime c ∧ s = makeRuntimeHandler "" h).
Proof.
  intros Ho. unfold handlerStatuses. rewrite list_elem_of_bind. split.
  - intros ([name h] & Hs & Hin). rewrite Ho, elem_of_map_to_list in Hin. exists name, h. split; [done|].
    apply elem_of_cons in Hs as [->|Hs]; [by left|]. case_bool_decide; [|by apply elem_of_nil in Hs].
    apply list_elem_of_singleton in Hs. auto.
  - intros (name & h & Hin & Hs). exists (name, h). rewrite Ho, elem_of_map_to_list. split; [|done].
    apply elem_of_cons. destruct Hs as [->|[-> ->]]; [by left|]. right.
    rewrite bool_decide_eq_true_2 by done. by left.
Qed.

(** ** Witnesses *)

#[local] Instance u_storer : Storer ptr (memoryStore (T := ptr)) := memoryStore_storer map_to_list.
#[local] Instance u_laws : StorerLaws ptr (memoryStore (T := ptr)) :=
  memoryStore_laws map_to_list (λ c, reflexivity (map_to_list c)).

Module ExampleUpdate.
Definition proc : SpecProcess := mkSpecProcess 0 0 [] None "" ["PATH=/bin"; "OPENSHIFT_SHARED_CPUS=8-9"].
Definition o1 := SetSpec (mkSpec (Some proc) None) (ExampleQuery.h1.2 <| state ::= λ s, s <| Status := "running" |> |>).
Definition w : qworld (memoryStore (T := ptr)) (list call) :=
  ExampleQuery.w <| objs ::= <[1%positive := o1]> |>.
Definition nri (p : ptr) (r : LinuxContainerResources) (l : list call) : outcome (option LinuxContainerResources) * list call :=
  (if bool_decide (in_s 64 (CpuShares r) ∧ in_s 64 (CpuPeriod r)) then Ret None else Fail (ErrorsNew "range"), l).
Definition r : LinuxContainerResources := emptyLCR <| CpuShares := 512 |> <| CpusetCpus := "0-1" |>.
Definition w' := snd (UpdateContainerResources Example3.perform true nri "c1" (Some r) w).
Lemma objects p : is_Some (objs w !! p) → is_Some (msgOf w p).
Proof.
  intros Hp. assert (p = 1%positive ∨ p = 2%positive) as [->| ->].
  { change (is_Some (({[1%positive := o1; 2%positive := ExampleQuery.h2.2]} : gmap ptr Container) !! p)) in Hp.
    destruct (decide (p = 1%positive)) as [|H1]; [by left|]. destruct (decide (p = 2%positive)) as [|H2]; [by right|].
    rewrite lookup_insert_ne, lookup_singleton_ne in Hp by done. by destruct Hp. }
  all: by eexists; vm_compute.
Defined.
Lemma nri_range p q upd e e' :
  nri p q e = (Ret upd, e') → in_s 64 (CpuShares (default q upd)) ∧ in_s 64 (CpuPeriod (default q upd)).
Proof. unfold nri. case_bool_decide as Hq; [|done]. by intros [= <- <-]. Defined.
End ExampleUpdate.



Lemma reapplySharedCPUs_union_witness :
  ∃ r', reapplySharedCPUs ExampleUpdate.o1 ExampleUpdate.r = Ret r' ∧ Parse (CpusetCpus r') = Ret {[0; 1; 8; 9]}.
Proof.
  destruct (reapplySharedCPUs_union ExampleUpdate.o1 ExampleUpdate.r ExampleUpdate.proc "8-9" {[8; 9]} {[0; 1]})
    as (r' & Hr & Hp & _); [reflexivity|reflexivity|done|vm_compute; reflexivity|vm_compute; reflexivity| |].
  - intros c Hc. unfold valid_cpu. set_solver by lia.
  - exists r'. split; [exact Hr|]. by rewrite Hp.
Defined.
