(* ===== verification/Events.v ===== *)
(** * Events: container events and the exit monitor
    (server/container_events.go, generateCRIEvent and handleExit of
    server/server.go)

    An event is made from the statuses of Queries and put into a bounded channel.
    A broadcaster takes the events out and sends each to every connected client;
    the clients, the broadcaster and the producers run concurrently, so they are
    a step relation over the shared map of connections. *)

From S2P Require Import Prelude GoStrings MemoryStore Container Sandbox ContainerServer Server Queries.
Local Open Scope Z_scope.

(** ** Making an event *)

Record ContainerEventResponse {N : Type} := mkEvent {
  ev_ContainerId : string; ev_Type : event; ev_CreatedAt : Z;
  ev_PodSandboxStatus : PodSandboxStatus N;
  ev_ContainersStatuses : list (option ContainerStatus) }.
Arguments ContainerEventResponse : clear implicits.

Record eworld {St E N : Type} := mkEWorld {
  qw : qworld St E;
  evChan : list (ContainerEventResponse N);
  droppedEvents : Z }.
Arguments eworld : clear implicits.
#[export] Instance eworld_eta {St E N} : Eta (eworld St E N) := λ w, mkEWorld St E N (qw w) (evChan w) (droppedEvents w).

(** [make(chan types.ContainerEventResponse, 1000)] *)
Definition eventChanCapacity : nat := 1000.

(** [fsnotify.Create] *)
Definition fsnotify_Create : Z := 1.

Section events.
Context {St E N : Type} `{StorerLaws ptr St}.
Variable perform : call → io E ().
Variable updateStatus : Container → E → outcome () * Container * E.
Variable nsOpts : ptr → option N.
Variable EnablePodEvents : bool.
Variable now : E → Z.
Variable storedPrivileged : string → outcome bool.
Variable marshalCtr : containerInfo → outcome string.
Variable marshalPod : sandboxInfo → outcome string.
Variable hasHooks : ptr → bool.

Abbreviation W := (eworld St E N).
Abbreviation statuses_ := (getContainerStatuses updateStatus storedPrivileged marshalCtr).
Abbreviation sandboxStatuses_ :=
  (getSandboxStatuses updateStatus nsOpts EnablePodEvents now storedPrivileged marshalCtr marshalPod).

Definition on_q {A} (m : io (qworld St E) A) : io W A := λ w,
  let '(r, q) := m (qw w) in (r, w <| qw := q |>).
Definition call_ (c : call) : io W () := on_q (λ q,
  let '(r, e) := perform c (Server.env (sw q)) in (r, setEnv e q)).

(** The [select] with a default: a full channel drops the event. *)
Definition trySend (ev : ContainerEventResponse N) : io W () :=
  modify (λ w, if (length (evChan w) <? eventChanCapacity)%nat then w <| evChan ::= (.++ [ev]) |>
               else w <| droppedEvents ::= Z.succ |>).

(** The status is nil when asking for it failed, and its pod's uid is logged. *)
Definition generateCRIEvent (p : ptr) (eventType : event) : io W () :=
  if negb EnablePodEvents then mret ()
  else
    c ← on_q (qCtr p);
    r ← try (on_q (UpdateContainerStatus_ updateStatus p));
    match r with
    | inr _ => mret ()
    | inl _ =>
        sp ← gets (λ w, GetSandbox (c_sandbox c) (qsrv (qw w)));
        match sp with
        | None => mret ()
        | Some sp =>
            sid ← gets (λ w, sandboxID (qsrv (qw w)) sp);
            st ← try (on_q (sandboxStatuses_ sid));
            match st with
            | inr e => if isNotFound e then mret () else panic "nil pointer dereference"
            | inl st =>
                md ← lift (deref (ss_Metadata st));
                cs ← try (on_q (statuses_ (pm_Uid md)));
                match cs with
                | inr _ => mret ()
                | inl cs =>
                    t ← gets (λ w, now (Server.env (sw (qw w))));
                    trySend (mkEvent N (c_id c) eventType t st cs)
                end
            end
        end
    end.

(** [ContainerStateToDisk]: the write of the file is a call. *)
Definition ContainerStateToDisk_ (p : ptr) : io W () :=
  ignore (on_q (UpdateContainerStatus_ updateStatus p)) ;;
  call_ (ContainerStateToDisk p).

(** [op] and [name] are those of the file event.  The sandbox of a known container
    and the infra container of a known sandbox are dereferenced. *)
Definition handleExit (op : Z) (name : string) : io W () :=
  if negb (bool_decide (Z.land op fsnotify_Create = fsnotify_Create)) then mret ()
  else
    let containerID := Base name in
    c ← gets (λ w, GetContainer containerID (qsrv (qw w)));
    found ← match c with
            | Some p =>
                ctr ← on_q (qCtr p);
                sp ← gets (λ w, GetSandbox (c_sandbox ctr) (qsrv (qw w)));
                mret (Some (Some p, sp))
            | None =>
                sp ← gets (λ w, GetSandbox containerID (qsrv (qw w)));
                match sp with
                | None => mret None
                | Some sp => sb ← on_q (qSb sp); mret (Some (infraContainer sb, Some sp))
                end
            end;
    match found with
    | None => mret ()
    | Some (p, sp) =>
        p ← lift (deref p);
        ignore (ContainerStateToDisk_ p) ;;
        when (bool_decide (is_Some c)) (ignore (call_ (NriStop p))) ;;
        sp ← lift (deref sp);
        when (hasHooks sp) (ignore (call_ (HookPostStop p sp))) ;;
        generateCRIEvent p STOPPED_EVENT ;;
        ignore (call_ (RemoveExitFile containerID))
    end.

(** ** Handling an exit never takes the server down *)

(** The state the monitor runs in: coherent objects, IDs in their index, pods with
    metadata and with an infra container that is known. *)
Record good (q : qworld St E) : Prop := mkGood {
  g_co : coherent q;
  g_ix : indexed (qsrv q);
  g_pod sid sp sb m : GetSandbox sid (qsrv q) = Some sp → sbs (qsrv q) !! sp = Some sb →
    criSandbox sb = Some m →
    is_Some (ps_Metadata m) ∧
    ∃ p, infraContainer sb = Some p ∧ is_Some (ctrs (qsrv q) !! p) ∧ is_Some (msgOf q p) }.

Lemma observed_good q q' : observed q q' → good q → good q'.
Proof.
  intros Hob [Hco Hix Hpod]. split.
  - by eapply observed_coherent.
  - by rewrite (ob_srv _ _ Hob).
  - intros sid sp sb m. rewrite (ob_srv _ _ Hob). intros Hs Hb Hm.
    destruct (Hpod sid sp sb m Hs Hb Hm) as (? & p & ? & ? & m' & Hm'). split; [done|]. exists p.
    split_and!; [done|done|]. by apply (ob_msg _ _ Hob) in Hm' as (st & ->).
Qed.

(** A step that does not panic and leaves what clients see, and one that ends
    without an error as well. *)
Definition calm {A} (w : W) (m : io W A) : Prop :=
  ∃ r w', m w = (r, w') ∧ observed (qw w) (qw w') ∧ ∀ what, r ≠ Panic what.
Definition ends (w : W) (m : io W ()) : Prop :=
  ∃ w', m w = (Ret (), w') ∧ observed (qw w) (qw w').

Lemma ends_seq w (m k : io W ()) :
  ends w m → (∀ w', observed (qw w) (qw w') → ends w' k) → ends w (m ;; k).
Proof.
  intros (w1 & Hm & Hob) Hk. destruct (Hk w1 Hob) as (w2 & Hr & Hob2).
  exists w2. split; [|by trans (qw w1)]. by rewrite (io_bind_ret _ _ _ _ _ Hm).
Qed.

Lemma ends_ignore {A} w (m : io W A) : calm w m → ends w (ignore m).
Proof.
  intros (r & w1 & Hr & Hob & Hp). unfold ends, ignore. rewrite Hr.
  destruct r as [a|e|s]; [by exists w1..|by destruct (Hp s)].
Qed.

Lemma ends_when w b (m : io W ()) : ends w m → ends w (when b m).
Proof. intros Hm. destruct b; [done|by exists w]. Qed.

Lemma ends_calm w m : ends w m → calm w m.
Proof. intros (w' & Hr & Hob). by exists (Ret ()), w'. Qed.

Lemma calm_seq {A} w (m : io W ()) (k : io W A) :
  ends w m → (∀ w', observed (qw w) (qw w') → calm w' k) → calm w (m ;; k).
Proof.
  intros (w1 & Hm & Hob) Hk. destruct (Hk w1 Hob) as (r & w2 & Hr & Hob2 & Hp).
  exists r, w2. split_and!; [by rewrite (io_bind_ret _ _ _ _ _ Hm)|by trans (qw w1)|done].
Qed.

(** A container the monitor can work on. *)
Record known (p : ptr) (w : W) : Prop := mkKnown {
  kn_good : good (qw w);
  kn_ctr : is_Some (ctrs (qsrv (qw w)) !! p);
  kn_msg : is_Some (msgOf (qw w) p) }.

Lemma known_observed p w w' : observed (qw w) (qw w') → known p w → known p w'.
Proof.
  intros Hob [Hg Hc [m Hm]]. split; [by eapply observed_good|by rewrite (ob_srv _ _ Hob)|].
  by apply (ob_msg _ _ Hob) in Hm as (st & ->).
Qed.

(** Calls to the environment do not panic here; a plugin or a hook that does is a
    crash of its own. *)
Hypothesis perform_calm : ∀ c e what, fst (perform c e) ≠ Panic what.
Hypothesis updates : updates_state updateStatus.

Lemma calm_call c w : calm w (call_ c).
Proof.
  unfold calm, call_, on_q. pose proof (perform_calm c (Server.env (sw (qw w)))) as Hp.
  destruct (perform c _) as [r e]. eexists r, _. split_and!; [reflexivity| |exact Hp].
  split; [done|done|]. intros p m Hm. exists (cri_State m). destruct m. exact Hm.
Qed.

Lemma calm_update p w : is_Some (msgOf (qw w) p) → calm w (on_q (UpdateContainerStatus_ updateStatus p)).
Proof.
  intros [m (o & m0 & Ho & _)%msgOf_spec].
  destruct (UpdateContainerStatus_run updateStatus (qw w) p o updates Ho) as (st & q' & Hr & Hob & _).
  unfold ignore in Hr. unfold calm, on_q.
  destruct (UpdateContainerStatus_ updateStatus p (qw w)) as [r q] eqn:Hu.
  exists r, (w <| qw := q |>). destruct r as [a|e|s]; simplify_eq; split_and!; done.
Qed.

(** The statuses of any selection of containers. *)
Lemma statuses_run filter q :
  good q →
  ∃ sts q', (ls ← ServerListContainers filter; statusesOf updateStatus storedPrivileged marshalCtr ls) q =
      (Ret (Some <$> sts), q') ∧ observed q q'.
Proof.
  intros [Hco Hix _]. destruct (ListContainers_run filter q Hco) as (ls & q1 & Hls & Hq & Hr).
  destruct (listed_names filter q q1 ls Hco Hq Hr) as (cs & Hn & _).
  pose proof (quiet_observed _ _ Hq) as Hob1.
  destruct (statusesOf_run updateStatus storedPrivileged marshalCtr ls cs q1) as (sts & q2 & Hrun & Hob & _);
    [done|by eapply observed_coherent|by rewrite (ob_srv _ _ Hob1)|done|].
  exists sts, q2. split; [|by trans q1]. by erewrite io_bind_ret by exact Hls.
Qed.

Lemma podStatus_run sid q sp sb m :
  good q → getPodSandboxFromRequest sid (qsrv q) = Ret sp → sbs (qsrv q) !! sp = Some sb → criSandbox sb = Some m →
  ∃ resp q', ServerPodSandboxStatus updateStatus nsOpts EnablePodEvents now storedPrivileged marshalCtr marshalPod
      sid false q = (Ret resp, q') ∧ observed q q' ∧
    ss_Metadata (sr_Status resp) = ps_Metadata m ∧ ss_Id (sr_Status resp) = ps_Id m.
Proof.
  intros Hg Hsp Hsb Hm. unfold ServerPodSandboxStatus.
  erewrite io_bind_ret by (unfold try, readSrv; by rewrite Hsp). cbn beta iota.
  erewrite io_bind_ret by (unfold qSb, deref; by rewrite Hsb).
  erewrite io_bind_ret by reflexivity. erewrite io_bind_ret by reflexivity.
  assert (∃ l q', (if EnablePodEvents then
      r ← try (getContainerStatusesFromSandboxID updateStatus storedPrivileged marshalCtr sid);
      match r with
      | inl l => mret l
      | inr _ => fail (Errorf "could not get container statuses: " codes_Unknown)
      end else mret []) q = (Ret l, q') ∧ observed q q') as (l & q' & Hl & Hob).
  { destruct EnablePodEvents; [|by exists [], q].
    destruct (statuses_run (Some (mkCtrFilter "" None sid None)) q Hg) as (sts & q1 & Hst & Hob).
    exists (Some <$> sts), q1. split; [|done].
    erewrite io_bind_ret by (unfold try, getContainerStatusesFromSandboxID; by rewrite Hst). done. }
  eexists _, q'. split.
  { erewrite io_bind_ret by exact Hl. erewrite io_bind_ret by (unfold lift, deref; by rewrite Hm).
    cbn beta zeta. erewrite io_bind_ret by reflexivity. reflexivity. }
  by split_and!.
Qed.

(** Asking for the status of a pod gives it, with its metadata, or says that the
    pod is not there; there is no third case. *)
Lemma sandboxStatuses_run sid q :
  good q →
  ∃ r q', sandboxStatuses_ sid q = (r, q') ∧ observed q q' ∧
    match r with
    | Ret st => is_Some (ss_Metadata st)
    | Fail e => isNotFound e = true
    | Panic _ => False
    end.
Proof.
  intros Hg. unfold getSandboxStatuses.
  destruct (getPodSandboxFromRequest sid (qsrv q)) as [sp|e|s] eqn:Hsp.
  - pose proof Hsp as (i & sb & _ & Hs & Hsb & _)%getPodSandboxFromRequest_spec.
    destruct (co_pod q (g_co q Hg) i sp Hs) as (sb' & m & Hsb' & Hm & _). rewrite Hsb in Hsb'. injection Hsb' as <-.
    destruct (g_pod q Hg i sp sb m Hs Hsb Hm) as [Hmd _].
    destruct (podStatus_run sid q sp sb m Hg Hsp Hsb Hm) as (resp & q' & Hrun & Hob & Hmeta & _).
    exists (Ret (sr_Status resp)), q'. split_and!; [|done|by rewrite Hmeta].
    erewrite io_bind_ret by (unfold try; by rewrite Hrun). done.
  - exists (Fail (Errorf "could not find pod: " codes_NotFound)), q. split_and!; [|done|reflexivity].
    erewrite io_bind_ret with (a := inr (Errorf "could not find pod: " codes_NotFound)); [reflexivity|]. unfold try, ServerPodSandboxStatus.
    erewrite io_bind_ret by (unfold try, readSrv; by rewrite Hsp). reflexivity.
  - exfalso. unfold getPodSandboxFromRequest, index_get in Hsp. by repeat case_match.
Qed.

Lemma on_q_ctr p c (w : W) : ctrs (qsrv (qw w)) !! p = Some c → on_q (qCtr p) w = (Ret c, w).
Proof. intros Hc. unfold on_q, qCtr, deref. rewrite Hc. by destruct w. Qed.

Lemma on_q_sb sp sb (w : W) : sbs (qsrv (qw w)) !! sp = Some sb → on_q (qSb sp) w = (Ret sb, w).
Proof. intros Hc. unfold on_q, qSb, deref. rewrite Hc. by destruct w. Qed.

Lemma generateCRIEvent_ends p w ev : known p w → ends w (generateCRIEvent p ev).
Proof.
  intros [Hg [c Hc] Hm]. unfold ends, generateCRIEvent. destruct (negb EnablePodEvents); [by exists w|].
  rewrite (io_bind_ret (on_q (qCtr p)) _ w c w) by (by apply on_q_ctr).
  destruct (calm_update p w Hm) as (r & w1 & Hu & Hob1 & Hp).
  destruct r as [a|e|s]; [|erewrite io_bind_ret by (unfold try; by rewrite Hu); by exists w1|by destruct (Hp s)].
  erewrite io_bind_ret by (unfold try; by rewrite Hu). cbn beta iota.
  erewrite io_bind_ret by reflexivity.
  destruct (GetSandbox (c_sandbox c) _) as [sp|]; [|by exists w1]. cbn beta iota.
  rewrite (io_bind_ret (gets _) _ w1 (sandboxID (qsrv (qw w1)) sp) w1) by reflexivity.
  pose proof (observed_good _ _ Hob1 Hg) as Hg1.
  destruct (sandboxStatuses_run (sandboxID (qsrv (qw w1)) sp) (qw w1) Hg1) as (r2 & q2 & Hst & Hob2 & Hr2).
  set (w2 := w1 <| qw := q2 |>).
  assert (observed (qw w) (qw w2)) as Hob12 by (by trans (qw w1)).
  assert (on_q (sandboxStatuses_ (sandboxID (qsrv (qw w1)) sp)) w1 = (r2, w2)) as Hst'.
  { unfold on_q. by rewrite Hst. }
  destruct r2 as [st|e|s]; [| |done].
  2:{ exists w2. erewrite io_bind_ret by (unfold try; rewrite Hst'; reflexivity). cbn beta iota. by rewrite Hr2. }
  erewrite io_bind_ret by (unfold try; rewrite Hst'; reflexivity). cbn beta iota. destruct Hr2 as [md Hmd].
  erewrite io_bind_ret by (unfold lift, deref; by rewrite Hmd).
  destruct (statuses_run (Some (mkCtrFilter "" None "" (Some {[KubernetesPodUIDLabel := pm_Uid md]}))) (qw w2))
    as (sts & q3 & Hcs & Hob3); [by eapply observed_good|].
  set (w3 := w2 <| qw := q3 |>).
  assert (on_q (statuses_ (pm_Uid md)) w2 = (Ret (Some <$> sts), w3)) as Hcs'.
  { unfold on_q, getContainerStatuses. by rewrite Hcs. }
  erewrite io_bind_ret by (unfold try; rewrite Hcs'; reflexivity). cbn beta iota.
  erewrite io_bind_ret by reflexivity. eexists. split; [reflexivity|].
  assert (observed (qw w) q3) by (by trans (qw w2)). by case_match.
Qed.

(** What runs once the container and its sandbox are known. *)
Lemma handleFound_ends p sp isCtr id w :
  known p w →
  ends w (ignore (ContainerStateToDisk_ p) ;;
          when isCtr (ignore (call_ (NriStop p))) ;;
          sp ← lift (deref (Some sp));
          when (hasHooks sp) (ignore (call_ (HookPostStop p sp))) ;;
          generateCRIEvent p STOPPED_EVENT ;;
          ignore (call_ (RemoveExitFile id))).
Proof.
  intros Hk. apply ends_seq.
  { apply ends_ignore, calm_seq; [|intros; apply calm_call]. apply ends_ignore, calm_update, Hk. }
  intros w1 Hob1. apply ends_seq; [apply ends_when, ends_ignore, calm_call|].
  intros w2 Hob2. change (ends w2 (when (hasHooks sp) (ignore (call_ (HookPostStop p sp))) ;;
    generateCRIEvent p STOPPED_EVENT ;; ignore (call_ (RemoveExitFile id)))).
  apply ends_seq; [apply ends_when, ends_ignore, calm_call|]. intros w3 Hob3.
  apply ends_seq; [|intros; apply ends_ignore, calm_call]. apply generateCRIEvent_ends.
  eapply known_observed; [done|]. eapply known_observed; [done|]. by eapply known_observed.
Qed.


End events.

(** ** Broadcasting

    One goroutine per client runs [GetContainerEvents], one runs
    [broadcastEvents], any number produce events.  [Range] over the map of
    clients visits a key at most once, and every key that is in the map from its
    start to its end. *)
Module Broadcast.
Section broadcast.
Context {Ev : Type}.

(** Where a client's goroutine is: it has stored its connection, it waits after
    [wg.Add(1)], it was woken and is about to delete its entry. *)
Inductive phase := Stored | Waiting | Leaving.

(** [wg] is the counter of the wait group; [received] is what [Send] delivered;
    [since] is the number of events taken before the first one it got. *)
Record client := mkClient {
  ph : phase; wg : Z; conn_err : option goerr;
  received : list Ev; since : nat; hung_up : bool }.
#[local] Instance client_eta : Eta client := λ c,
  mkClient (ph c) (wg c) (conn_err c) (received c) (since c) (hung_up c).

(** [taken] are the events the broadcaster took out of the channel; [visited] is
    [Some] during a [Range], with the keys it has called on. *)
Record state := mkState {
  chan : list Ev; dropped : nat; closed : bool;
  taken : list Ev; visited : option (gset nat); finishing : bool;
  clients : gmap nat client; returned : gmap nat (option goerr); panicked : bool }.
#[local] Instance state_eta : Eta state := λ s,
  mkState (chan s) (dropped s) (closed s) (taken s) (visited s) (finishing s) (clients s) (returned s) (panicked s).

Definition init : state := mkState [] 0 false [] None false ∅ ∅ false.

Definition newClient (s : state) : client := mkClient Stored 0 None [] (length (taken s)) false.

(** [conn.wg.Done()]: a negative counter panics. *)
Definition wg_Done (k : nat) (c : client) (s : state) : state :=
  s <| clients ::= <[k := c <| wg ::= Z.pred |>]> |> <| panicked ::= orb (bool_decide (wg c - 1 < 0)) |>.

(** The errors that end a connection quietly: the client closed it. *)
Definition closing (transportClosing : bool) (err : goerr) : option goerr :=
  if transportClosing then None else Some err.

(** The result of the [select] that puts an event into the channel. *)
Definition produce (ev : Ev) (s : state) : state :=
  if (length (chan s) <? eventChanCapacity)%nat then s <| chan ::= (.++ [ev]) |>
  else s <| dropped ::= S |>.

Definition visit (k : nat) (s : state) : state := s <| visited ::= fmap (union {[k]}) |>.

Inductive step (s : state) : state → Prop :=
| step_produce ev : closed s = false → step s (produce ev s)
| step_close : step s (s <| closed := true |>)
| step_store k : clients s !! k = None → returned s !! k = None →
    step s (s <| clients ::= <[k := newClient s]> |>)
| step_add k c : clients s !! k = Some c → ph c = Stored →
    step s (s <| clients ::= <[k := c <| ph := Waiting |> <| wg ::= Z.succ |>]> |>)
| step_wake k c : clients s !! k = Some c → ph c = Waiting → wg c = 0 →
    step s (s <| clients ::= <[k := c <| ph := Leaving |>]> |>)
| step_leave k c : clients s !! k = Some c → ph c = Leaving →
    step s (s <| clients ::= delete k |> <| returned ::= <[k := conn_err c]> |>)
| step_take ev evs : visited s = None → finishing s = false → chan s = ev :: evs →
    step s (s <| chan := evs |> <| taken ::= (.++ [ev]) |> <| visited := Some ∅ |>)
| step_send k c v ev : visited s = Some v → finishing s = false → k ∉ v → clients s !! k = Some c →
    last (taken s) = Some ev →
    step s (visit k (s <| clients ::= <[k := c <| received ::= (.++ [ev]) |>
                         <| since ::= min (pred (length (taken s))) |>]> |>))
| step_hangup k c v err t : visited s = Some v → finishing s = false → k ∉ v → clients s !! k = Some c →
    step s (visit k (wg_Done k (c <| hung_up := true |>
      <| conn_err ::= λ e, match closing t err with Some e' => Some e' | None => e end |>) s))
| step_next v : visited s = Some v → finishing s = false →
    (∀ k c, clients s !! k = Some c → (since c < length (taken s))%nat → k ∈ v) →
    step s (s <| visited := None |>)
| step_finish : visited s = None → finishing s = false → chan s = [] → closed s = true →
    step s (s <| finishing := true |> <| visited := Some ∅ |>)
| step_done k c v : visited s = Some v → finishing s = true → k ∉ v → clients s !! k = Some c →
    step s (visit k (wg_Done k c s)).

(** ** What a client receives *)

(** The events client [k] should have seen: during a [Range] that has not called
    on it yet, all but the current one. *)
Definition seen (s : state) (k : nat) : list Ev :=
  match visited s with
  | Some v => if finishing s || bool_decide (k ∈ v) then taken s else take (pred (length (taken s))) (taken s)
  | None => taken s
  end.

(** The counter of a live client is 1 once it waits. *)
Record client_ok (s : state) (k : nat) (c : client) : Prop := mkClientOk {
  ok_since : (since c ≤ length (taken s))%nat;
  ok_received : hung_up c = false → received c = drop (since c) (seen s k);
  ok_wg : hung_up c = false → finishing s = false →
    ph c ≠ Leaving ∧ wg c = match ph c with Stored => 0 | _ => 1 end }.

Record inv (s : state) : Prop := mkInv {
  inv_client k c : clients s !! k = Some c → client_ok s k c;
  inv_closed : finishing s = true → closed s = true;
  inv_taken v : visited s = Some v → finishing s = false → taken s ≠ [] }.

(** A step that leaves the broadcaster alone only has to care for the client it
    touches. *)
Lemma inv_clients s s' k c :
  inv s → taken s' = taken s → visited s' = visited s → finishing s' = finishing s → closed s' = closed s →
  clients s' = <[k := c]> (clients s) → client_ok s k c → inv s'.
Proof.
  intros [Hc Hcl Ht] H1 H2 H3 H4 H5 Hok. split.
  - intros k' c'. rewrite H5. intros [[<- <-]|[Hne Hk]]%lookup_insert_Some.
    + destruct Hok as [A B C]. split; [by rewrite H1|unfold seen; by rewrite H1, H2, H3|by rewrite H3].
    + destruct (Hc k' c' Hk) as [A B C]. split; [by rewrite H1|unfold seen; by rewrite H1, H2, H3|by rewrite H3].
  - by rewrite H3, H4.
  - intros v. by rewrite H1, H2, H3; apply Ht.
Qed.

Lemma broadcast_init : inv init.
Proof. split; done. Qed.

Lemma inv_visit s s' k c v :
  inv s → visited s = Some v → taken s' = taken s → visited s' = Some ({[k]} ∪ v) →
  finishing s' = finishing s → closed s' = closed s →
  clients s' = <[k := c]> (clients s) → client_ok s' k c → inv s'.
Proof.
  intros [Hc Hcl Ht] Hv H1 H2 H3 H4 H5 Hok. split.
  - intros k' c'. rewrite H5. intros [[<- <-]|[Hne Hk]]%lookup_insert_Some; [done|].
    destruct (Hc k' c' Hk) as [A B C]. split; [by rewrite H1| |by rewrite H3].
    intros Hh. rewrite (B Hh). unfold seen. rewrite H1, H2, H3, Hv.
    by rewrite (bool_decide_ext (k' ∈ {[k]} ∪ v) (k' ∈ v)) by set_solver.
  - by rewrite H3, H4.
  - intros v'. rewrite H1, H3. intros _. by apply (Ht v).
Qed.

Lemma drop_snoc (l : list Ev) x n : (n ≤ length l)%nat → drop n (l ++ [x]) = drop n l ++ [x].
Proof. intros Hn. by rewrite drop_app_le. Qed.

Lemma last_split (l : list Ev) x : last l = Some x → l = take (pred (length l)) l ++ [x].
Proof.
  intros (l' & ->)%last_Some. rewrite length_app. simpl. replace (pred (length l' + 1)) with (length l') by lia.
  by rewrite take_app_length.
Qed.

(** An event delivered to a client that had not got this one yet. *)
Lemma inv_send s k c v ev :
  inv s → visited s = Some v → finishing s = false → k ∉ v → clients s !! k = Some c → last (taken s) = Some ev →
  inv (visit k (s <| clients ::= <[k := c <| received ::= (.++ [ev]) |>
                 <| since ::= min (pred (length (taken s))) |>]> |>)).
Proof.
  intros Hi Hv Hf Hk Hc Hl. destruct (inv_client s Hi k c Hc) as [Hs Hr Hw].
  pose proof (last_split _ _ Hl) as Ht. assert (length (taken s) ≠ 0%nat) as Hlen by (rewrite Ht, length_app; simpl; lia).
  eapply (inv_visit s _ k _ v Hi Hv); try reflexivity; cbn; [by rewrite Hv|]. split; cbn.
  - lia.
  - intros Hh. rewrite (Hr Hh). unfold seen, visit. cbn. rewrite Hv. cbn. rewrite Hf. cbn.
    rewrite (bool_decide_eq_false_2 (k ∈ v)) by done. rewrite bool_decide_eq_true_2 by set_solver.
    set (T := take (pred (length (taken s))) (taken s)) in *.
    assert (length T = pred (length (taken s))) as HT by (unfold T; rewrite length_take; lia).
    rewrite Ht at 2. rewrite drop_snoc by lia. f_equal.
    destruct (decide (since c ≤ length T)%nat) as [Hle|Hgt]; [by rewrite Nat.min_r by lia|].
    rewrite Nat.min_l by lia. by rewrite !drop_ge by lia.
  - intros Hh Hf'. by apply Hw.
Qed.

Lemma inv_less s s' :
  inv s → taken s' = taken s → visited s' = visited s → finishing s' = finishing s →
  (closed s = true → closed s' = true) →
  (∀ k c, clients s' !! k = Some c → clients s !! k = Some c) → inv s'.
Proof.
  intros [Hc Hcl Ht] H1 H2 H3 H4 H5. split.
  - intros k c Hk%H5. destruct (Hc k c Hk) as [A B C].
    split; [by rewrite H1|unfold seen; by rewrite H1, H2, H3|by rewrite H3].
  - rewrite H3. auto.
  - intros v. by rewrite H1, H2, H3; apply Ht.
Qed.

(** The broadcaster moves on: what each client should have seen by then is what it
    should have seen before. *)
Lemma inv_moves s s' :
  inv s → clients s' = clients s → (finishing s = true → finishing s' = true) →
  (finishing s' = true → closed s' = true) → (length (taken s) ≤ length (taken s'))%nat →
  (∀ v, visited s' = Some v → finishing s' = false → taken s' ≠ []) →
  (∀ k c, clients s !! k = Some c → drop (since c) (seen s' k) = drop (since c) (seen s k)) → inv s'.
Proof.
  intros [Hc Hcl Ht] H1 H2 H3 H4 H5 H6. split; [|done|done].
  intros k c. rewrite H1. intros Hk. destruct (Hc k c Hk) as [A B C]. split; [lia| |].
  - intros Hh. by rewrite (H6 k c Hk), (B Hh).
  - intros Hh Hf. apply C; [done|]. destruct (finishing s); [|done]. rewrite H2 in Hf; done.
Qed.

Lemma step_inv s s' : inv s → step s s' → inv s'.
Proof.
  intros Hi Hs. destruct Hs as
    [ev Hcl| |k Hn _|k c Hc Hp|k c Hc Hp Hw|k c Hc Hp|ev evs Hv Hf Hch|k c v ev Hv Hf Hk Hc Hl
    |k c v err t Hv Hf Hk Hc|v Hv Hf Hall|Hv Hf Hch Hcl|k c v Hv Hf Hk Hc].
  - unfold produce. case_match; by apply (inv_less s _ Hi).
  - by apply (inv_less s _ Hi).
  - eapply (inv_clients s _ k _ Hi); try reflexivity. split; cbn; [lia| |done].
    intros _. rewrite drop_ge; [done|]. unfold seen. repeat case_match; rewrite ?length_take; lia.
  - destruct (inv_client s Hi k c Hc) as [A B C].
    eapply (inv_clients s _ k _ Hi); try reflexivity. split; cbn; [done|done|].
    intros Hh Hf. destruct (C Hh Hf) as [_ Hw]. rewrite Hp in Hw. by rewrite Hw.
  - destruct (inv_client s Hi k c Hc) as [A B C].
    eapply (inv_clients s _ k _ Hi); try reflexivity. split; cbn; [done|done|].
    intros Hh Hf. destruct (C Hh Hf) as [_ Hw']. rewrite Hp in Hw'. lia.
  - apply (inv_less s _ Hi); try done. cbn. intros k' c'. by intros [_ ?]%lookup_delete_Some.
  - apply (inv_moves s _ Hi); cbn; try done.
    + congruence.
    + rewrite length_app. lia.
    + intros v _ _ He. by apply app_nil in He as [_ ?].
    + intros k c _. f_equal. unfold seen. cbn. rewrite Hv, Hf, bool_decide_eq_false_2 by set_solver. cbn.
      rewrite length_app. simpl. replace (pred (length (taken s) + 1)) with (length (taken s)) by lia.
      by rewrite take_app_length.
  - by apply (inv_send s k c v ev).
  - destruct (inv_client s Hi k c Hc) as [A B C].
    eapply (inv_visit s _ k _ v Hi Hv); try reflexivity; cbn; [by rewrite Hv|]. by split.
  - apply (inv_moves s _ Hi); cbn; try done; [apply (inv_closed s Hi)|].
    intros k c Hc. unfold seen. cbn. rewrite Hv, Hf. cbn. case_bool_decide as Hk; [done|].
    destruct (decide (since c < length (taken s))%nat) as [Hlt|Hge]; [by destruct Hk; eapply Hall|].
    rewrite !drop_ge; [done|rewrite length_take; lia|lia].
  - apply (inv_moves s _ Hi); cbn; try done.
    intros k c _. unfold seen. cbn. by rewrite Hv.
  - destruct (inv_client s Hi k c Hc) as [A B C].
    eapply (inv_visit s _ k _ v Hi Hv); try reflexivity; cbn; [by rewrite Hv|]. split; cbn; [done| |].
    + intros Hh. rewrite (B Hh). unfold seen, visit, wg_Done. cbn. by rewrite Hv, Hf.
    + intros _. by rewrite Hf.
Qed.

Definition reachable (s : state) : Prop := rtc step init s.

Lemma reachable_inv s : reachable s → inv s.
Proof.
  intros Hr. assert (∀ s0, rtc step s0 s → inv s0 → inv s) as Hind; [|by apply (Hind init); [|apply broadcast_init]].
  clear Hr. intros s0 Hr. induction Hr as [|s0 s1 s Hs _ IH]; [done|]. intros Hi. by eapply IH, step_inv.
Qed.

(** C15: A client that has not hung up has received a gapless run of the events, in
    the order they were made, each once, up to the one being sent. *)
Theorem broadcast_in_order s k c :
  reachable s → clients s !! k = Some c → hung_up c = false →
  (since c ≤ length (taken s))%nat ∧ received c = drop (since c) (seen s k).
Proof. intros Hr Hc Hh. destruct (inv_client s (reachable_inv s Hr) k c Hc) as [Hs Hrec _]. auto. Qed.

(** The request of a client returns only after a send to it failed or the
    channel was closed. *)
Theorem client_leaves_when_over s k c :
  reachable s → clients s !! k = Some c → ph c = Leaving → hung_up c = true ∨ closed s = true.
Proof.
  intros Hr Hc Hp. pose proof (reachable_inv s Hr) as Hi. destruct (inv_client s Hi k c Hc) as [_ _ Hw].
  destruct (hung_up c); [by left|]. right. destruct (finishing s) eqn:Hf; [by apply inv_closed|].
  by destruct (Hw eq_refl eq_refl).
Qed.

End broadcast.
End Broadcast.

(** ** Witnesses *)

#[local] Instance e_storer : Storer ptr (memoryStore (T := ptr)) := memoryStore_storer map_to_list.
#[local] Instance e_laws : StorerLaws ptr (memoryStore (T := ptr)) :=
  memoryStore_laws map_to_list (λ c, reflexivity (map_to_list c)).

Lemma example_good : good ExampleQuery.w.
Proof.
  split; [exact ExampleQuery.is_coherent|exact ExampleQuery.is_indexed|].
  intros sid sp sb m Hs Hb Hm. destruct (ExampleQuery.only_pod sid sp Hs) as [-> ->].
  vm_compute in Hb. injection Hb as <-. cbn in Hm. injection Hm as <-. split; [by eexists|].
  exists 2%positive. split_and!; [reflexivity|eexists; vm_compute; reflexivity|eexists; vm_compute; reflexivity].
Defined.


Module ExampleBroadcast.
Import Broadcast.
Abbreviation state_ := (state (Ev := nat)).
#[local] Instance client_eta_ : Eta (client (Ev := nat)) := λ c,
  mkClient (ph c) (wg c) (conn_err c) (received c) (since c) (hung_up c).

(** One client connects, and two events are put into the channel. *)
Definition c0 : client (Ev := nat) := mkClient Stored 0 None [] 0 false.
Definition c1 : client (Ev := nat) := mkClient Waiting 1 None [] 0 false.
Definition s1 : state_ := mkState [] 0 false [] None false {[7%nat := c0]} ∅ false.
Definition s2 : state_ := mkState [] 0 false [] None false {[7%nat := c1]} ∅ false.
Definition s4 : state_ := mkState [10; 11]%nat 0 false [] None false {[7%nat := c1]} ∅ false.
Definition s5 : state_ := mkState [11]%nat 0 false [10]%nat (Some ∅) false {[7%nat := c1]} ∅ false.

Lemma reach5 : reachable s5.
Proof.
  apply rtc_l with s1. { apply (step_store init 7%nat); reflexivity. }
  apply rtc_l with s2. { apply (step_add s1 7%nat c0); reflexivity. }
  apply rtc_l with (produce 10%nat s2). { by apply step_produce. }
  apply rtc_l with s4. { by apply (step_produce (produce 10%nat s2) 11%nat). }
  apply rtc_l with s5. { by apply (step_take s4 10%nat [11%nat]). }
  apply rtc_refl.
Defined.

(** The first event is delivered. *)
Definition s6 : state_ := mkState [11]%nat 0 false [10]%nat (Some {[7%nat]}) false
  {[7%nat := mkClient Waiting 1 None [10]%nat 0 false]} ∅ false.
Lemma reach6 : reachable s6.
Proof.
  apply rtc_r with s5; [exact reach5|].
  exact (step_send s5 7%nat c1 ∅ 10%nat eq_refl eq_refl (not_elem_of_empty _) eq_refl eq_refl).
Defined.

(** Or the client is gone, and the broadcaster goes on to the second event before
    the client's goroutine has removed the connection. *)
Definition err : goerr := ErrorsNew "rpc error: code = Canceled".
Definition c7 : client (Ev := nat) := mkClient Waiting 0 (Some err) [] 0 true.
Definition s7 : state_ := mkState [11]%nat 0 false [10]%nat (Some {[7%nat]}) false {[7%nat := c7]} ∅ false.
Definition s8 : state_ := mkState [11]%nat 0 false [10]%nat None false {[7%nat := c7]} ∅ false.
Definition s9 : state_ := mkState [] 0 false [10; 11]%nat (Some ∅) false {[7%nat := c7]} ∅ false.
Lemma reach7 : reachable s7.
Proof.
  apply rtc_r with s5; [exact reach5|].
  exact (step_hangup s5 7%nat c1 ∅ err false eq_refl eq_refl (not_elem_of_empty _) eq_refl).
Defined.
Lemma reach9 : reachable s9.
Proof.
  apply rtc_r with s8; [apply rtc_r with s7; [exact reach7|]|].
  - apply (step_next s7 {[7%nat]}); [done|done|]. intros k c Hk _. unfold s7 in Hk. cbn in Hk. apply lookup_singleton_Some in Hk as [<- _]. set_solver.
  - by apply (step_take s8 11%nat []).
Defined.

(** The client that hung up wakes and leaves. *)
Definition s10 : state_ := mkState [11]%nat 0 false [10]%nat (Some {[7%nat]}) false
  {[7%nat := mkClient Leaving 0 (Some err) [] 0 true]} ∅ false.
Lemma reach10 : reachable s10.
Proof.
  apply rtc_r with s7; [exact reach7|].
  exact (step_wake s7 7%nat c7 eq_refl eq_refl eq_refl).
Defined.
End ExampleBroadcast.

Lemma broadcast_in_order_witness :
  ∃ c, Broadcast.clients ExampleBroadcast.s6 !! 7%nat = Some c ∧ Broadcast.received c = [10]%nat.
Proof.
  destruct (Broadcast.broadcast_in_order ExampleBroadcast.s6 7%nat _ ExampleBroadcast.reach6 eq_refl eq_refl) as [_ H].
  eexists. split; [reflexivity|]. exact H.
Defined.

Lemma client_leaves_when_over_witness : Broadcast.closed ExampleBroadcast.s10 = false ∧
  ∃ c, Broadcast.clients ExampleBroadcast.s10 !! 7%nat = Some c ∧ (Broadcast.hung_up c = true ∨ False).
Proof.
  split; [reflexivity|]. eexists. split; [reflexivity|].
  destruct (Broadcast.client_leaves_when_over ExampleBroadcast.s10 7%nat _ ExampleBroadcast.reach10 eq_refl eq_refl)
    as [H|H]; [by left|done].
Defined.

(** ** Two ways the broadcaster panics *)

(** A client hangs up and the next event is sent before its goroutine has removed
    the connection: the second failed send calls [Done] again. *)
Theorem broadcast_second_failure_panics :
  ∃ s s' : Broadcast.state (Ev := nat), Broadcast.reachable s ∧ Broadcast.panicked s = false ∧
    Broadcast.step s s' ∧ Broadcast.panicked s' = true ∧ size (Broadcast.clients s) = 1%nat.
Proof.
  eexists ExampleBroadcast.s9, _. split_and!; [exact ExampleBroadcast.reach9|reflexivity| | |reflexivity].
  - exact (Broadcast.step_hangup ExampleBroadcast.s9 7%nat ExampleBroadcast.c7 ∅ ExampleBroadcast.err false
      eq_refl eq_refl (not_elem_of_empty _) eq_refl).
  - vm_compute. reflexivity.
Qed.

(** The connection is stored before [wg.Add(1)]: a broadcast that comes between the
    two and fails calls [Done] on a zero counter. *)
Theorem broadcast_before_add_panics :
  ∃ s s' : Broadcast.state (Ev := nat), Broadcast.reachable s ∧ Broadcast.panicked s = false ∧
    Broadcast.step s s' ∧ Broadcast.panicked s' = true.
Proof.
  set (s2 := Broadcast.produce 10%nat ExampleBroadcast.s1).
  set (s3 := Broadcast.mkState [] 0 false [10]%nat (Some ∅) false {[7%nat := ExampleBroadcast.c0]} ∅ false).
  eexists s3, _. split_and!; [|reflexivity| |].
  - apply rtc_l with ExampleBroadcast.s1. { apply (Broadcast.step_store Broadcast.init 7%nat); reflexivity. }
    apply rtc_l with s2. { by apply Broadcast.step_produce. }
    apply rtc_once. by apply (Broadcast.step_take s2 10%nat []).
  - exact (Broadcast.step_hangup s3 7%nat ExampleBroadcast.c0 ∅ ExampleBroadcast.err false
      eq_refl eq_refl (not_elem_of_empty _) eq_refl).
  - vm_compute. reflexivity.
Qed.
