(* ===== verification/Request.v ===== *)
(** * Request: the state of a request that creates a pod or a container
    (the parts server/container_create.go and server/sandbox_run_linux.go share,
    getResourceOrWait and isContextError of server/utils.go)

    A request registers, after each of its steps, how to undo it.  When it fails, the
    undo functions run; when the client went away, the object and its undo functions
    go to the resource store, where a retry of the request finds it.  The state is
    the world of Server, the resource store and the variables the deferred function
    reads.  The second half is a logic for such requests: what the registered
    functions bring back. *)

From S2P Require Import Prelude GoStrings Registrar ResourceCleaner ResourceStore MemoryStore Container.
From S2P Require Import Sandbox ContainerServer Server.
Local Open Scope Z_scope.

Definition context_Canceled := ErrorsNew "context canceled".
Definition context_DeadlineExceeded := ErrorsNew "context deadline exceeded".

Definition isContextError (err : option goerr) : bool :=
  match err with
  | None => false
  | Some e => errors_is e context_Canceled || errors_is e context_DeadlineExceeded
  end.

(** The server with its resource store, and the local variables of the handler
    the deferred function reads: [resourceCleaner] and [storeResource]. *)
Record state {St E : Type} := mkState {
  st_world : Server.world St E;
  resourceStore : ResourceStore (Server.world St E);
  resourceCleaner : ResourceCleaner (Server.world St E);
  storeResource : bool }.
Arguments state : clear implicits.
#[export] Instance state_eta {St E} : Eta (state St E) := λ t,
  mkState St E (st_world t) (resourceStore t) (resourceCleaner t) (storeResource t).

Section request.
Context {St E : Type} `{StorerLaws ptr St}.
(** The error with which the wait for another request ends. *)
Variable waitErr : goerr.

Abbreviation W := (Server.world St E).
Abbreviation T := (state St E).

Definition on_world {A} (m : io W A) : io T A := λ t,
  let '(o, w) := m (st_world t) in (o, t <| st_world := w |>).
Definition on_store (f : ResourceStore W → ResourceStore W) : io T () :=
  modify (λ t, t <| resourceStore ::= f |>).
Definition setStage (nm stg : string) : io T () := on_store (SetStageForResource nm stg).

(** A closure as a cleanup function.  A panic of the environment in it counts as
    its error. *)
Definition closure (m : io W ()) : cleanupFunc W := λ w,
  match m w with
  | (Ret _, w) => (w, None)
  | (Fail e, w) => (w, Some e)
  | (Panic s, w) => (w, Some (ErrorsNew s))
  end.
Definition onFailure (m : io W ()) : io T () :=
  modify (λ t, t <| resourceCleaner ::= ResourceCleaner.Add (closure m) |>).

(** [IdentifiableCreatable.SetCreated] *)
Definition setCreated (o : object) (s : ContainerServer St) : ContainerServer St :=
  match o with
  | ContainerObj p => s <| ctrs ::= alter (λ c, c <| c_created := true |>) p |>
  | SandboxObj sp => s <| sbs ::= alter Sandbox.SetCreated sp |>
  end.

(** A watcher is registered before the wait; the wait ends with an error in every
    case: the context is done, it took too long, or the resource became ready and
    is left for the next request. *)
Definition getResourceOrWait (nm : string) : io T string := λ t,
  let '(rc, cachedID, o) := ResourceStore.Get nm (resourceStore t) in
  let t := t <| resourceStore := rc |> in
  let t := match o with
           | Some o => t <| st_world ::= λ w, w <| srv ::= setCreated (ic_ref o) |> |>
           | None => t
           end in
  if negb (bool_decide (cachedID = "")) then (Ret cachedID, t)
  else (Fail (Errorf "kubelet may be retrying requests that are timing out in CRI-O due to system load" waitErr),
        t <| resourceStore := (WatcherForResource nm rc).1 |>).

(** [err != nil && !strings.Contains(err.Error(), noSuchID)] after the deletion
    from the index. *)
Definition deleteCtrID_quiet (id : string) : io W () :=
  unless (ErrorsNew "no such id") () (on_srv (deleteCtrID id)).

(** Deleting from the index of pods, likewise. *)
Definition deletePodID (id : string) : io (ContainerServer St) () := λ s,
  match index_delete id (podIDIndex s) with
  | Ret i => (Ret (), s <| podIDIndex := i |>)
  | Fail e => (Fail e, s)
  | Panic w => (Panic w, s)
  end.
Definition deletePodID_quiet (id : string) : io W () :=
  unless (ErrorsNew "no such id") () (on_srv (deletePodID id)).

(** The deferred function: on an error, unless the resource is stored, everything
    registered so far is undone.  A panic leaves [retErr] nil. *)
Definition undoing {A} (body : io T A) : io T A := λ t,
  match body t with
  | (Fail e, t) =>
      if storeResource t then (Fail e, t)
      else (Fail e, t <| st_world ::= λ w, (Cleanup (resourceCleaner t) w).1 |>)
  | r => r
  end.
End request.

(** ** Undoing

    [s ⊑ s']: the server [s'] tracks the same containers, sandboxes, names and IDs
    as [s], and every object of [s] is unchanged; objects nobody refers to any
    more may be left in its heap.  The sandbox [x] is the one the request is making:
    only its label and that it is not created stay. *)

Section undo.
Context {St E : Type} `{StorerLaws ptr St}.
Context {x : option ptr}.
Variable waitErr : goerr.

Abbreviation CS := (ContainerServer St).
Abbreviation W := (Server.world St E).
Abbreviation T := (state St E).

Definition same_sandbox (sb sb' : Sandbox ptr St) : Prop :=
  st_model (containers sb') = st_model (containers sb) ∧
  sb' <| containers := st_new |> = sb <| containers := st_new |>.

Definition related (sp : ptr) (sb sb' : Sandbox ptr St) : Prop :=
  if bool_decide (x = Some sp) then processLabel sb' = processLabel sb ∧ sb_created sb' = sb_created sb
  else same_sandbox sb sb'.

Record restored (s s' : CS) : Prop := {
  res_ctrs p c : ctrs s !! p = Some c → ctrs s' !! p = Some c;
  res_sbs sp sb : sbs s !! sp = Some sb → ∃ sb', sbs s' !! sp = Some sb' ∧ related sp sb sb';
  res_containers : st_model (s_containers s') = st_model (s_containers s);
  res_infra : st_model (infraContainers s') = st_model (infraContainers s);
  res_sandboxes : st_model (sandboxes s') = st_model (sandboxes s);
  res_levels : processLevels s' = processLevels s;
  res_names : wf (ctrNameIndex s) →
    wf (ctrNameIndex s') ∧ names (ctrNameIndex s') = names (ctrNameIndex s);
  res_pod_names : wf (podNameIndex s) →
    wf (podNameIndex s') ∧ names (podNameIndex s') = names (podNameIndex s);
  res_ids : ctrIDIndex s' = ctrIDIndex s;
  res_pod_ids : podIDIndex s' = podIDIndex s;
}.
Infix "⊑" := restored (at level 70).

#[export] Instance same_sandbox_equiv : Equivalence same_sandbox.
Proof.
  split; [done| |].
  - intros a b [??]; split; congruence.
  - intros a b c [??] [??]; split; congruence.
Qed.

#[export] Instance related_preorder sp : PreOrder (related sp).
Proof.
  unfold related. split; case_bool_decide; [done|done| |].
  - intros a b c [??] [??]; split; congruence.
  - intros a b c ??; by etrans.
Qed.

#[export] Instance restored_preorder : PreOrder restored.
Proof.
  split.
  - intros s. split; try done. intros sp sb Hs. by exists sb.
  - intros s1 s2 s3 H1 H2. destruct H1, H2. split; [by eauto| |congruence..|  |  |congruence|congruence].
    + intros sp sb Hs. destruct (res_sbs0 _ _ Hs) as (sb' & Hs' & ?).
      destruct (res_sbs1 _ _ Hs') as (sb'' & ? & ?). exists sb''. split; [done|by etrans].
    + intros Hw. destruct (res_names0 Hw) as [Hw' ?]. destruct (res_names1 Hw'). split; [done|congruence].
    + intros Hw. destruct (res_pod_names0 Hw) as [Hw' ?]. destruct (res_pod_names1 Hw').
      split; [done|congruence].
Qed.

(** An undo function brings the server from [s2] back to [s1], within the
    attempts the cleaner makes, wherever it starts from. *)
Definition reverts (u : io W ()) (s2 s1 : CS) : Prop :=
  ∀ w, s2 ⊑ srv w → ∃ w', retry (closure u) w = (w', None) ∧ s1 ⊑ srv w'.

(** All registered functions bring the server from [s] back to [s0]. *)
Definition cleans (rc : ResourceCleaner W) (s0 s : CS) : Prop :=
  ∀ w, s ⊑ srv w → ∃ w', Cleanup rc w = (w', None) ∧ s0 ⊑ srv w'.

Lemma cleans_new s : cleans NewResourceCleaner s s.
Proof. intros w Hw. by exists w. Qed.

Lemma cleans_add rc u s0 s1 s2 :
  cleans rc s0 s1 → reverts u s2 s1 → cleans (ResourceCleaner.Add (closure u) rc) s0 s2.
Proof.
  intros Hc Hu w Hw. destruct (Hu w Hw) as (w1 & Hr & H1). unfold Cleanup. simpl.
  rewrite Hr. by apply Hc.
Qed.

Lemma cleans_le rc s0 s s' : cleans rc s0 s → s ⊑ s' → cleans rc s0 s'.
Proof. intros Hc Hs w Hw. apply Hc. by etrans. Qed.

(** A function that succeeds at once. *)
Lemma retry_now (u : io W ()) w w' : u w = (Ret (), w') → retry (closure u) w = (w', None).
Proof. intros Hu. unfold retry, closure. simpl. by rewrite Hu. Qed.

Lemma reverts_now (u : io W ()) s2 s1 :
  (∀ w, s2 ⊑ srv w → ∃ w', u w = (Ret (), w') ∧ s1 ⊑ srv w') → reverts u s2 s1.
Proof. intros Hu w Hw. destruct (Hu w Hw) as (w' & Hr & ?). exists w'. split; [by apply retry_now|done]. Qed.

(** A function that changes nothing of the server but may fail some times. *)
Lemma after_runs_keeps (u : io W ()) n w :
  keeps u → srv (after_runs (closure u) n w) = srv w.
Proof.
  intros Hk. revert w. induction n as [|n IH]; intros w; [done|]. simpl. rewrite IH.
  specialize (Hk w). unfold closure. by destruct (u w) as [[] ?].
Qed.

Lemma reverts_keeps (u : io W ()) s :
  keeps u →
  (∀ w, ∃ i, (i < defaultRetryTimes)%nat ∧ (closure u (after_runs (closure u) i w)).2 = None) →
  reverts u s s.
Proof.
  intros Hk Hev w Hw. destruct (backoff_spec (closure u) defaultRetryTimes w)
    as [(i & _ & _ & _ & Hr)|[Hbad _]].
  - exists (after_runs (closure u) (S i) w). unfold retry. rewrite Hr. split; [done|].
    by rewrite after_runs_keeps.
  - destruct (Hev w) as (i & Hi & Hok). by destruct (Hbad i Hi).
Qed.

Lemma index_add_in id idx i : index_add id idx = Ret i → id ∈ i.
Proof. unfold index_add. intros Hi. go_cases. set_solver. Qed.

(** *** The undo functions of the server *)

Lemma reverts_release id nm s r :
  Reserve nm id (ctrNameIndex s) = (r, None) → wf (ctrNameIndex s) →
  names (ctrNameIndex s) !! nm = None →
  reverts (on_srv (ReleaseContainerName nm)) (s <| ctrNameIndex := r |>) s.
Proof.
  intros Hr Hwf Hn. apply reverts_now. intros w Hw. eexists. split; [reflexivity|].
  pose proof (Reserve_cases nm id _ Hwf) as Hc. rewrite Hr in Hc.
  destruct Hc as [Hwr [[? _]|[_ Hns]]]; [congruence|].
  destruct Hw; simpl in *. destruct (res_names0 Hwr) as [Hw' Hn'].
  split; simpl; try done. intros _. split; [by apply wf_release|].
  rewrite names_Release, Hn', Hns by done. by rewrite delete_insert_id.
Qed.

Lemma related_none sp a b : x = None → related sp a b ↔ same_sandbox a b.
Proof. intros Hx. unfold related. by rewrite bool_decide_false by congruence. Qed.

Lemma reverts_add p c s :
  x = None → ctrs s !! p = Some c → st_model (s_containers s) !! c_id c = None →
  (∀ sp sb, sbs s !! sp = Some sb → st_model (containers sb) !! c_name c = None) →
  reverts (on_srv (modify (RemoveContainer p))) (AddContainer p s) s.
Proof.
  intros Hx Hp Hid Hnm. apply reverts_now. intros w Hw. eexists. split; [reflexivity|]. simpl.
  set (s' := srv w) in *. clearbody s'. clear w.
  unfold AddContainer in Hw. rewrite Hp in Hw.
  assert (ctrs s' !! p = Some c ∧ st_model (sandboxes s') = st_model (sandboxes s)) as [Hp' Hs'].
  { destruct (st_get _ (sandboxes s)); destruct Hw; auto. }
  unfold RemoveContainer. rewrite Hp', st_get_model, Hs', <- st_get_model.
  destruct (st_get (c_sandbox c) (sandboxes s)) as [sp|]; [|done].
  assert (ctrName s p = c_name c ∧ ctrName s' p = c_name c) as [Hnm1 Hnm2].
  { unfold ctrName. by rewrite Hp, Hp'. }
  destruct Hw; simpl in *. split; simpl; try done.
  - intros q sb Hq. destruct (decide (q = sp)) as [->|Hne].
    + destruct (res_sbs0 sp (Sandbox.AddContainer (ctrName s) p sb)) as (sb' & Hsb' & Hrel).
      { by rewrite lookup_alter_eq, Hq. }
      apply related_none in Hrel as [Hm He]; [|done].
      eexists. rewrite lookup_alter_eq, Hsb'. split; [reflexivity|]. apply related_none; [done|]. split; simpl.
      * rewrite model_delete, Hm. simpl. rewrite model_add, Hnm1, Hnm2.
        rewrite delete_insert_id; [done|by eauto].
      * exact He.
    + rewrite lookup_alter_ne by done. apply res_sbs0. by rewrite lookup_alter_ne.
  - rewrite model_delete, res_containers0, model_add. by rewrite delete_insert_id.
Qed.

Lemma reverts_index id s i :
  index_add id (ctrIDIndex s) = Ret i →
  reverts (deleteCtrID_quiet id) (s <| ctrIDIndex := i |>) s.
Proof.
  unfold index_add. intros Hi. destruct (contains_char _ _); [done|].
  case_bool_decide as Hne; [done|]. case_bool_decide as Hin; simplify_eq.
  apply reverts_now. intros w Hw.
  assert (ctrIDIndex (srv w) = {[id]} ∪ ctrIDIndex s) as Hids by apply Hw.
  exists (w <| srv ::= λ s', s' <| ctrIDIndex := ctrIDIndex s |> |>). split.
  - unfold deleteCtrID_quiet, unless, try, on_srv, deleteCtrID, index_delete, mbind, io_bind.
    rewrite Hids, bool_decide_true by set_solver. rewrite bool_decide_false by done. simpl.
    replace (({[id]} ∪ ctrIDIndex s) ∖ {[id]}) with (ctrIDIndex s) by set_solver. done.
  - destruct Hw; simpl in *. by split.
Qed.

Lemma restored_alloc c s : s ⊑ snd (allocCtr c s).
Proof.
  split; simpl; try done.
  - intros p c' Hp. rewrite lookup_insert_ne; [done|]. intros <-.
    pose proof (is_fresh (dom (ctrs s))) as Hf. apply Hf. by apply elem_of_dom_2 in Hp.
  - intros sp sb Hs. by exists sb.
Qed.

(** The environment performs the call within the attempts of a cleaner. *)
Definition eventually (perform : call → io E ()) (c : call) : Prop :=
  ∀ e, ∃ i, (i < defaultRetryTimes)%nat ∧
    (perform c (Nat.iter i (λ e, (perform c e).2) e)).1 = Ret ().

(** A function that makes one call. *)
Lemma reverts_calling perform c (u : io W ()) s :
  (∀ w, snd (u w) = w <| env := (perform c (env w)).2 |>) →
  (∀ w, (perform c (env w)).1 = Ret () → fst (u w) = Ret ()) →
  eventually perform c → reverts u s s.
Proof.
  intros Hu Hok Hev. apply reverts_keeps; [intros w; by rewrite Hu|]. intros w.
  destruct (Hev (env w)) as (i & Hi & Hret). exists i. split; [done|].
  assert (∀ w, fst (closure u w) = w <| env := (perform c (env w)).2 |>) as Hc.
  { intros w0. rewrite <- Hu. unfold closure. by destruct (u w0) as [[] ?]. }
  assert (∀ n w, after_runs (closure u) n w = w <| env := Nat.iter n (λ e, (perform c e).2) (env w) |>) as Ha.
  { induction n as [|n IH]; intros w0; [by destruct w0|].
    cbn [after_runs]. rewrite Hc, IH. destruct w0 as [s1 f e0]. simpl. f_equal.
    exact (eq_sym (Nat.iter_succ_r n _ _)). }
  rewrite Ha. set (w1 := w <| env := _ |>). specialize (Hok w1 Hret). unfold closure.
  destruct (u w1) as [[] ?]; simpl in *; done.
Qed.

Lemma reverts_call perform c s : eventually perform c → reverts (perf perform c) s s.
Proof.
  apply reverts_calling; intros w; unfold perf; [by destruct (perform c (env w))|].
  by destruct (perform c (env w)) as [[] ?].
Qed.

Lemma reverts_perf perform c msg s :
  eventually perform c → reverts (wrap_err msg (perf perform c)) s s.
Proof.
  apply reverts_calling; intros w; unfold wrap_err, perf; by destruct (perform c (env w)) as [[] ?].
Qed.

(** *** The undo functions of a pod *)

Lemma reverts_release_pod id nm s r :
  Reserve nm id (podNameIndex s) = (r, None) → wf (podNameIndex s) →
  names (podNameIndex s) !! nm = None →
  reverts (on_srv (ReleasePodName nm)) (s <| podNameIndex := r |>) s.
Proof.
  intros Hr Hwf Hn. apply reverts_now. intros w Hw. eexists. split; [reflexivity|].
  pose proof (Reserve_cases nm id _ Hwf) as Hc. rewrite Hr in Hc.
  destruct Hc as [Hwr [[? _]|[_ Hns]]]; [congruence|].
  destruct Hw; simpl in *. destruct (res_pod_names0 Hwr) as [Hw' Hn'].
  split; simpl; try done. intros _. split; [by apply wf_release|].
  rewrite names_Release, Hn', Hns by done. by rewrite delete_insert_id.
Qed.

Lemma reverts_pod_index id s i :
  index_add id (podIDIndex s) = Ret i →
  reverts (deletePodID_quiet id) (s <| podIDIndex := i |>) s.
Proof.
  unfold index_add. intros Hi. destruct (contains_char _ _); [done|].
  case_bool_decide as Hne; [done|]. case_bool_decide as Hin; simplify_eq.
  apply reverts_now. intros w Hw.
  assert (podIDIndex (srv w) = {[id]} ∪ podIDIndex s) as Hids by apply Hw.
  exists (w <| srv ::= λ s', s' <| podIDIndex := podIDIndex s |> |>). split.
  - unfold deletePodID_quiet, unless, try, on_srv, deletePodID, index_delete, mbind, io_bind.
    rewrite Hids, bool_decide_true by set_solver. rewrite bool_decide_false by done. simpl.
    replace (({[id]} ∪ podIDIndex s) ∖ {[id]}) with (podIDIndex s) by set_solver. done.
  - destruct Hw; simpl in *. by split.
Qed.

Lemma restored_allocSb sb s : s ⊑ snd (allocSb sb s).
Proof.
  split; simpl; try done. intros sp sb' Hs. exists sb'. split; [|done]. rewrite lookup_insert_ne; [done|].
  intros <-. pose proof (is_fresh (dom (sbs s))) as Hf. apply Hf. by apply elem_of_dom_2 in Hs.
Qed.

(** The sandbox [x] is added and removed again. *)
Lemma reverts_sandbox level msg sp sb l id s s' :
  x = Some sp → sbs s !! sp = Some sb → sandboxID s sp = id → level (processLabel sb) = Ret l →
  st_model (sandboxes s) !! id = None → (∀ n, processLevels s !! l = Some n → 0 < n) →
  AddSandbox level sp s = (Ret (), s') →
  reverts (wrap_err msg (on_srv (RemoveSandbox level id))) s' s.
Proof.
  intros Hx Hsb Hid Hl Hfree Hpos Hadd. apply reverts_now. intros w Hw.
  assert (level (labelOf s sp) = Ret l) as Hl1 by (unfold labelOf; by rewrite Hsb).
  unfold AddSandbox, mbind, io_bind, modify, addSandboxPlatform in Hadd.
  change (labelOf (s <| sandboxes ::= _ |>) sp) with (labelOf s sp) in Hadd.
  rewrite Hl1 in Hadd. injection Hadd as <-. rewrite Hid in Hw. destruct Hw. simpl in *.
  destruct (res_sbs0 sp sb Hsb) as (sb' & Hsb' & Hrel).
  unfold related in Hrel. rewrite bool_decide_true in Hrel by done. destruct Hrel as [Hlab _].
  assert (level (labelOf (srv w) sp) = Ret l) as Hl2 by (unfold labelOf; rewrite Hsb'; simpl; congruence).
  unfold wrap_err, on_srv, RemoveSandbox, mbind, io_bind, gets, modify, removeSandboxPlatform, ContainerServer.GetSandbox.
  rewrite st_get_model, res_sandboxes0, model_add, lookup_insert_eq. cbn beta iota.
  rewrite Hl2, res_levels0, lookup_insert_eq.
  assert (delete id (<[id := sp]> (st_model (sandboxes s))) = st_model (sandboxes s)) as Hdel by by apply delete_insert_id.
  destruct (processLevels s !! l) as [n|] eqn:Hn; simpl.
  - specialize (Hpos n eq_refl). rewrite bool_decide_eq_false_2 by lia. eexists. split; [reflexivity|].
    split; simpl; try done.
    + by rewrite model_delete, res_sandboxes0, model_add.
    + rewrite res_levels0, insert_insert_eq. replace (n + 1 - 1) with n by lia. by apply insert_id.
  - rewrite ?bool_decide_eq_true_2 by lia. eexists. split; [reflexivity|]. split; simpl; try done.
    + by rewrite model_delete, res_sandboxes0, model_add.
    + rewrite res_levels0. by rewrite delete_insert_id.
Qed.

Lemma reverts_infra p c s s' :
  s ⊑ s' → ctrs s' !! p = Some c → st_model (infraContainers s) !! c_id c = None →
  reverts (on_srv (modify (RemoveInfraContainer p))) (AddInfraContainer p s') s.
Proof.
  intros Hs Hp Hfree. apply reverts_now. intros w Hw. eexists. split; [reflexivity|]. simpl.
  unfold AddInfraContainer in Hw. rewrite Hp in Hw.
  assert (ctrs (srv w) !! p = Some c) as Hp' by by apply Hw.
  assert (st_model (infraContainers (srv w)) = <[c_id c := p]> (st_model (infraContainers s))) as Hi.
  { destruct Hw as [_ _ _ Hi _ _ _ _ _ _]. rewrite Hi. simpl. rewrite model_add. f_equal. apply Hs. }
  assert (s ⊑ s' → st_model (infraContainers s') = st_model (infraContainers s)) as Hi0 by by intros [].
  unfold RemoveInfraContainer. rewrite Hp'.
  assert (s' ⊑ (srv w) <| infraContainers := infraContainers s' |>) as Hw' by (destruct Hw; by split).
  etrans; [exact Hs|]. destruct Hw'. split; simpl; try done.
  rewrite model_delete, Hi, delete_insert_id by done. by rewrite Hi0.
Qed.

(** *** The state of a request between two of its steps *)

(** The server is [s]; the functions registered bring it back to [s0]. *)
Definition undoable (s0 s : CS) (t : T) : Prop :=
  srv (st_world t) = s ∧ cleans (resourceCleaner t) s0 s.
(** What holds after a failure. *)
Definition failed (s0 : CS) (e : goerr) (t : T) : Prop := ∃ s, undoable s0 s t.

Lemma undo_store s0 s f {A} (k : io T A) Q :
  triple (undoable s0 s) k Q (failed s0) → triple (undoable s0 s) (on_store f ;; k) Q (failed s0).
Proof. intros Hk t Ht. by apply Hk. Qed.

Lemma undo_world_ret s0 s {A B} (m : io W A) (k : A → io T B) Q :
  keeps m → (∀ a w w', m w = (Ret a, w') → triple (undoable s0 s) (k a) Q (failed s0)) →
  triple (undoable s0 s) (on_world m ≫= k) Q (failed s0).
Proof.
  intros Hm Hk t [Hs Hc]. specialize (Hm (st_world t)). unfold mbind, io_bind, on_world.
  assert (∀ w, srv w = srv (st_world t) → undoable s0 s (t <| st_world := w |>)) as Hu.
  { intros w Hw. split; [simpl; congruence|done]. }
  destruct (m (st_world t)) as [[a|e|msg] w1] eqn:Hr; [by eapply Hk; [done|apply Hu]| |done].
  exists s. by apply Hu.
Qed.

Lemma undo_world s0 s {A B} (m : io W A) (k : A → io T B) Q :
  keeps m → (∀ a, triple (undoable s0 s) (k a) Q (failed s0)) →
  triple (undoable s0 s) (on_world m ≫= k) Q (failed s0).
Proof. intros Hm Hk. by apply undo_world_ret. Qed.

Lemma undo_when s0 s b (m : io W ()) {A} (k : io T A) Q :
  keeps m → triple (undoable s0 s) k Q (failed s0) →
  triple (undoable s0 s) (when b (on_world m) ;; k) Q (failed s0).
Proof. intros Hm Hk. destruct b; [by apply undo_world|by intros t Ht; apply Hk]. Qed.

Lemma undo_lift s0 s {A B} (o : outcome A) (k : A → io T B) Q :
  (∀ a, o = Ret a → triple (undoable s0 s) (k a) Q (failed s0)) →
  triple (undoable s0 s) (lift o ≫= k) Q (failed s0).
Proof.
  intros Hk t Ht. unfold mbind, io_bind, lift. destruct o as [a|e|]; [by apply Hk| |done]. by exists s.
Qed.

Lemma undo_fail s0 s {A} e (Q : A → T → Prop) : triple (undoable s0 s) (fail e) Q (failed s0).
Proof. apply triple_fail. intros t Ht. by exists s. Qed.

Lemma undo_op_fail s0 s {A B} (op : io CS A) e (k : A → io T B) Q :
  op s = (Fail e, s) → triple (undoable s0 s) (on_world (on_srv op) ≫= k) Q (failed s0).
Proof.
  intros Hop t [Hs Hc]. unfold mbind, io_bind, on_world, on_srv. rewrite Hs, Hop. by exists s.
Qed.

(** A step on the server, followed by the registration of its undo function. *)
Lemma undo_step s0 s s' {A B} (op : io CS A) (u : A → io W ()) (k : A → io T B) Q a :
  op s = (Ret a, s') → reverts (u a) s' s →
  triple (undoable s0 s') (k a) Q (failed s0) →
  triple (undoable s0 s) (on_world (on_srv op) ≫= λ a, onFailure (u a) ;; k a) Q (failed s0).
Proof.
  intros Hop Hu Hk t [Hs Hc]. unfold mbind, io_bind, on_world, on_srv.
  rewrite Hs, Hop. apply Hk. split; [done|]. simpl. by eapply cleans_add.
Qed.


(** *** Steps that change the sandbox under construction

    From here on the server may differ from [s] in the sandbox [x] and in objects
    nobody refers to. *)

Definition within (s0 s : CS) (t : T) : Prop :=
  s ⊑ srv (st_world t) ∧ cleans (resourceCleaner t) s0 s.

Lemma undoable_within s0 s t : undoable s0 s t → within s0 s t.
Proof. intros [<- Hc]. by split. Qed.
Lemma within_failed s0 s e t : within s0 s t → failed s0 e t.
Proof. intros [Hs Hc]. exists (srv (st_world t)). split; [done|by eapply cleans_le]. Qed.

Definition grows {A} (m : io W A) : Prop := ∀ w, srv w ⊑ srv (snd (m w)).

Lemma grows_keeps {A} (m : io W A) : keeps m → grows m.
Proof. intros Hm w. by rewrite Hm. Qed.
Lemma grows_bind {A B} (m : io W A) (k : A → io W B) : grows m → (∀ a, grows (k a)) → grows (m ≫= k).
Proof.
  intros Hm Hk w. specialize (Hm w). unfold mbind, io_bind. destruct (m w) as [[a|e|s] w1]; [|done..].
  etrans; [exact Hm|apply Hk].
Qed.
Lemma grows_try {A} (m : io W A) : grows m → grows (try m).
Proof. intros Hm w. specialize (Hm w). unfold try. by destruct (m w) as [[] ?]. Qed.
Lemma grows_ignore {A} (m : io W A) : grows m → grows (ignore m).
Proof. intros Hm w. specialize (Hm w). unfold ignore. by destruct (m w) as [[] ?]. Qed.
Lemma grows_defer {A} (c : io W ()) (m : io W A) : grows c → grows m → grows (defer_on_err c m).
Proof.
  intros Hc Hm w. specialize (Hm w). unfold defer_on_err. destruct (m w) as [[a|e|s] w1]; [done| |done].
  specialize (Hc w1). destruct (c w1) as [[] ?]; by etrans.
Qed.
Lemma grows_for_each {A} (f : A → io W ()) l : (∀ a, grows (f a)) → grows (for_each f l).
Proof. intros Hf. induction l as [|a l IH]; [by apply grows_keeps, keeps_ret|]. by apply grows_bind. Qed.

(** What happens to a sandbox that keeps its label and its mark. *)
Lemma restored_alter sp f s :
  x = Some sp → (∀ sb, processLabel (f sb) = processLabel sb ∧ sb_created (f sb) = sb_created sb) →
  s ⊑ s <| sbs ::= alter f sp |>.
Proof.
  intros Hx Hf. split; simpl; try done. intros q sb Hq. destruct (decide (q = sp)) as [->|Hne].
  - exists (f sb). rewrite lookup_alter_eq, Hq. split; [done|]. unfold related. by rewrite bool_decide_true.
  - exists sb. by rewrite lookup_alter_ne.
Qed.

Lemma restored_with sp sb sb' s :
  x = Some sp → sbs s !! sp = Some sb → processLabel sb' = processLabel sb → sb_created sb' = sb_created sb →
  s ⊑ with_sb sp sb' s.
Proof.
  intros Hx Hsb Hl Hc. split; simpl; try done. intros q sb0 Hq. destruct (decide (q = sp)) as [->|Hne].
  - simplify_eq. exists sb'. rewrite lookup_insert_eq. split; [done|]. unfold related. by rewrite bool_decide_true.
  - exists sb0. by rewrite lookup_insert_ne.
Qed.

Lemma grows_on_sandbox sp {A} (m : io (sbworld (C := ptr) (St := St)) A) :
  x = Some sp →
  (∀ sw, processLabel (sbox (snd (m sw))) = processLabel (sbox sw) ∧
         sb_created (sbox (snd (m sw))) = sb_created (sbox sw)) →
  grows (on_sandbox (E := E) sp m).
Proof.
  intros Hx Hm w. unfold on_sandbox. destruct (sbs (srv w) !! sp) as [sb|] eqn:Hsb; [|done].
  destruct (Hm (mkSbWorld sb (sfiles w))) as [Hl Hc]. destruct (m _) as [o sw]. by apply (restored_with sp sb).
Qed.

Lemma within_step s0 s {A} (m : io W A) :
  grows m → triple (within s0 s) (on_world m) (λ _, within s0 s) (failed s0).
Proof.
  intros Hm t [Hs Hc]. specialize (Hm (st_world t)). unfold on_world.
  assert (∀ w, srv (st_world t) ⊑ srv w → within s0 s (t <| st_world := w |>)) as Hu.
  { intros w Hw. split; [simpl; by etrans|done]. }
  destruct (m (st_world t)) as [[a|e|msg] w1]; [by apply Hu| |done]. by eapply within_failed, Hu.
Qed.
Lemma within_world s0 s {A B} (m : io W A) (k : A → io T B) Q :
  grows m → (∀ a, triple (within s0 s) (k a) Q (failed s0)) →
  triple (within s0 s) (on_world m ≫= k) Q (failed s0).
Proof. intros Hm Hk. eapply triple_bind; [by apply within_step|exact Hk]. Qed.
Lemma within_when s0 s b (m : io W ()) :
  grows m → triple (within s0 s) (when b (on_world m)) (λ _, within s0 s) (failed s0).
Proof. intros Hm. destruct b; [by apply within_step|by apply triple_ret]. Qed.
Lemma within_try s0 s {A B} (m : io W A) (k : A + goerr → io T B) Q :
  grows m → (∀ r, triple (within s0 s) (k r) Q (failed s0)) →
  triple (within s0 s) (try (on_world m) ≫= k) Q (failed s0).
Proof.
  intros Hm Hk t [Hs Hc]. specialize (Hm (st_world t)). unfold mbind, io_bind, try, on_world.
  assert (∀ w, srv (st_world t) ⊑ srv w → within s0 s (t <| st_world := w |>)) as Hu.
  { intros w Hw. split; [simpl; by etrans|done]. }
  destruct (m (st_world t)) as [[a|e|msg] w1]; [by apply Hk, Hu|by apply Hk, Hu|done].
Qed.

(** A new container object, and its entry among the infra containers. *)
Lemma within_alloc s0 s c {B} (k : ptr → io T B) Q :
  (∀ p s', s ⊑ s' → ctrs s' !! p = Some c → triple (within s0 s') (k p) Q (failed s0)) →
  triple (within s0 s) (on_world (on_srv (allocCtr c)) ≫= k) Q (failed s0).
Proof.
  intros Hk t [Hs Hc]. set (s1 := srv (st_world t)). set (p := fresh (dom (ctrs s1))).
  assert (s ⊑ snd (allocCtr c s1)) as Hle by (etrans; [exact Hs|apply restored_alloc]).
  apply (Hk p (snd (allocCtr c s1))); [done|by apply lookup_insert_eq|].
  split; [done|]. by eapply cleans_le.
Qed.

Lemma within_infra s0 s p c {B} (k : io T B) Q :
  ctrs s !! p = Some c → st_model (infraContainers s) !! c_id c = None →
  (∀ s1 s', s ⊑ s1 → s' = AddInfraContainer p s1 → triple (within s0 s') k Q (failed s0)) →
  triple (within s0 s) (on_world (on_srv (modify (AddInfraContainer p))) ;;
                        onFailure (on_srv (modify (RemoveInfraContainer p))) ;; k) Q (failed s0).
Proof.
  intros Hp Hfree Hk t [Hs Hc]. set (s1 := srv (st_world t)).
  assert (ctrs s1 !! p = Some c) as Hp1 by by apply Hs.
  apply (Hk s1 _ Hs eq_refl). split; [done|]. simpl. eapply cleans_add; [exact Hc|]. by eapply reverts_infra.
Qed.

Lemma within_store s0 s f {A} (k : io T A) Q R :
  triple (within s0 s) k Q R → triple (within s0 s) (on_store f ;; k) Q R.
Proof. intros Hk t Ht. by apply Hk. Qed.
Lemma within_lift s0 s {A B} (o : outcome A) (k : A → io T B) Q :
  (∀ a, o = Ret a → triple (within s0 s) (k a) Q (failed s0)) →
  triple (within s0 s) (lift o ≫= k) Q (failed s0).
Proof.
  intros Hk t Ht. unfold mbind, io_bind, lift. destruct o as [a|e|]; [by apply Hk| |done].
  by eapply within_failed.
Qed.
Lemma within_register s0 s (u : io W ()) {A} (k : io T A) Q R :
  reverts u s s → triple (within s0 s) k Q R → triple (within s0 s) (onFailure u ;; k) Q R.
Proof. intros Hu Hk t [Hs Hc]. apply Hk. split; [done|]. by eapply cleans_add. Qed.

(** *** Steps that only register, report or call the environment *)

(** The objects in the resource store have an ID. *)
Definition stored_ids (rc : ResourceStore W) : Prop :=
  ∀ nm r o, ResourceStore.resources rc !! nm = Some r → resource r = Some o → ResourceStore.ID o ≠ "".

(** The name is taken: a failure leaves the server as it is. *)
Lemma getResourceOrWait_fail nm t e t' :
  stored_ids (resourceStore t) → getResourceOrWait waitErr nm t = (Fail e, t') →
  t' = t <| resourceStore := (WatcherForResource nm (resourceStore t)).1 |>.
Proof.
  intros Hids. unfold getResourceOrWait, ResourceStore.Get.
  destruct (ResourceStore.resources (resourceStore t) !! nm) as [r|] eqn:Hr.
  - destruct (resource r) as [o|] eqn:Ho.
    + rewrite bool_decide_false by eauto. done.
    + simpl. intros [= _ <-]. by destruct t.
  - simpl. intros [= _ <-]. by destruct t.
Qed.

Lemma undo_register s0 s (u : io W ()) {A} (k : io T A) Q :
  reverts u s s → triple (undoable s0 s) k Q (failed s0) →
  triple (undoable s0 s) (onFailure u ;; k) Q (failed s0).
Proof.
  intros Hu Hk t [Hs Hc]. apply Hk. split; [done|]. by eapply cleans_add.
Qed.

(** The end of the request does not fail. *)
Definition no_fail {A} (m : io T A) : Prop := ∀ t e t', m t ≠ (Fail e, t').
Lemma no_fail_bind {A B} (m : io T A) (k : A → io T B) :
  no_fail m → (∀ a, no_fail (k a)) → no_fail (m ≫= k).
Proof.
  intros Hm Hk t e t'. unfold mbind, io_bind. specialize (Hm t).
  destruct (m t) as [[a|e1|] t1]; [apply Hk|by destruct (Hm e1 t1)|done].
Qed.
Lemma no_fail_ignore {A} (m : io W A) : no_fail (on_world (ignore m)).
Proof. intros t e t'. unfold on_world, ignore. by destruct (m (st_world t)) as [[] ?]. Qed.
Lemma no_fail_modify f : no_fail (on_world (on_srv (modify f))).
Proof. by intros t e t'. Qed.
Lemma no_fail_store f : no_fail (on_store f).
Proof. by intros t e t'. Qed.
Lemma no_fail_ret {A} (a : A) : no_fail (mret a).
Proof. by intros t e t'. Qed.

(** Nothing was put into the resource store under the name. *)
Definition unput (nm : string) (rc : ResourceStore W) : Prop :=
  ∀ r, ResourceStore.resources rc !! nm = Some r → resource r = None.

Definition fresh_at (nm : string) (s : CS) (t : T) : Prop :=
  storeResource t = false ∧ srv (st_world t) = s ∧ unput nm (resourceStore t).

Lemma unput_stage nm stg rc : unput nm rc → unput nm (SetStageForResource nm stg rc).
Proof.
  intros Hu r. unfold SetStageForResource. destruct (ResourceStore.resources rc !! nm) as [r0|] eqn:Hr;
    simpl; rewrite lookup_insert_eq; intros [= <-]; [by apply (Hu r0)|done].
Qed.

Lemma fresh_world nm s {A B} (m : io W A) (k : A → io T B) Q (R : goerr → T → Prop) :
  keeps m → (∀ a, triple (fresh_at nm s) (k a) Q R) → (∀ e t, fresh_at nm s t → R e t) →
  triple (fresh_at nm s) (on_world m ≫= k) Q R.
Proof.
  intros Hm Hk HR t (Hf & Hs & Hu). specialize (Hm (st_world t)). unfold mbind, io_bind, on_world.
  assert (∀ w, srv w = srv (st_world t) → fresh_at nm s (t <| st_world := w |>)) as Hw.
  { intros w Hw. split_and!; [done|simpl; congruence|done]. }
  destruct (m (st_world t)) as [[a|e|msg] w1]; [by apply Hk, Hw|by apply HR, Hw|done].
Qed.

Lemma fresh_op nm s s' {A B} (op : io CS A) (k : A → io T B) Q (R : goerr → T → Prop) a :
  op s = (Ret a, s') → triple (fresh_at nm s') (k a) Q R →
  triple (fresh_at nm s) (on_world (on_srv op) ≫= k) Q R.
Proof.
  intros Hop Hk t (Hf & Hs & Hu). unfold mbind, io_bind, on_world, on_srv. rewrite Hs, Hop.
  apply Hk. by split_and!.
Qed.

Lemma fresh_register nm s (u : io W ()) {A} (k : io T A) Q R :
  triple (fresh_at nm s) k Q R → triple (fresh_at nm s) (onFailure u ;; k) Q R.
Proof. intros Hk t Ht. by apply Hk. Qed.

Lemma fresh_stage nm s stg {A} (k : io T A) Q R :
  triple (fresh_at nm s) k Q R → triple (fresh_at nm s) (setStage nm stg ;; k) Q R.
Proof. intros Hk t (Hf & Hs & Hu). apply Hk. split_and!; [done|done|by apply unput_stage]. Qed.

(** Calls whose errors are dropped keep the server and the resource store. *)
Lemma ignored_keeps s (Q : ResourceStore W → Prop) {A} (m : io W A) (R : goerr → T → Prop) :
  keeps m →
  triple (λ t, srv (st_world t) = s ∧ Q (resourceStore t)) (on_world (ignore m))
    (λ _ t, srv (st_world t) = s ∧ Q (resourceStore t)) R.
Proof.
  intros Hm t [Hs HQ]. specialize (Hm (st_world t)). unfold on_world, ignore.
  by destruct (m (st_world t)) as [[] w]; simpl in *; rewrite ?Hm.
Qed.

End undo.

(** A sandbox that did not exist before leaves no trace. *)
Section forget.
Context {St E : Type} `{StorerLaws ptr St}.

Lemma restored_weaken x (s s' : ContainerServer St) : restored (x := None) s s' → restored (x := x) s s'.
Proof.
  intros []. split; try done. intros sp sb Hs. destruct (res_sbs0 sp sb Hs) as (sb' & ? & Hrel).
  exists sb'. split; [done|]. apply related_none in Hrel; [|done]. unfold related. case_bool_decide; [|done].
  destruct Hrel as [_ Heq]. split.
  - exact (f_equal processLabel Heq).
  - exact (f_equal sb_created Heq).
Qed.

Lemma restored_forget sp (s s' : ContainerServer St) :
  sbs s !! sp = None → restored (x := Some sp) s s' → restored (x := None) s s'.
Proof.
  intros Hn []. split; try done. intros q sb Hs. destruct (res_sbs0 q sb Hs) as (sb' & ? & Hrel).
  exists sb'. split; [done|]. unfold related in *. rewrite bool_decide_false in Hrel by congruence.
  by rewrite bool_decide_false.
Qed.

Lemma cleans_forget sp (rc : ResourceCleaner (Server.world St E)) s0 s :
  sbs s0 !! sp = None → cleans (x := Some sp) rc s0 s → cleans (x := None) rc s0 s.
Proof.
  intros Hn Hc w Hw. destruct (Hc w) as (w' & ? & ?); [by apply restored_weaken|].
  exists w'. split; [done|]. by eapply restored_forget.
Qed.
End forget.
