(* ===== verification/Create.v ===== *)
(** * Create: the CRI request that creates a container
    (server/container_create.go, getResourceOrWait of server/utils.go, and the
    configuration and naming of internal/factory/container/container.go)

    A request reserves the name, builds the container, makes it known to the
    server, and creates it in the runtime, registering after each step how to undo
    it.  When it fails, the undo functions run; when the client went away, the
    container and its undo functions go to the resource store, where a retry of
    the request finds it.  The state is the world of Server and the resource store.

    [createSandboxContainer], which generates the OCI spec and creates the
    container's storage, is a parameter with any behaviour on the environment. *)

From S2P Require Import Prelude GoStrings Registrar ResourceCleaner ResourceStore MemoryStore Container.
From S2P Require Import Sandbox ContainerServer Server Request.
Local Open Scope Z_scope.

(** ** The request *)

Record ContainerMetadata := mkContainerMetadata { cm_Name : string; cm_Attempt : Z }.

(** What the handler itself reads of [types.ContainerConfig]; [cc_Image] is
    whether there is an image. *)
Record ContainerConfig := mkContainerConfig {
  cc_Metadata : option ContainerMetadata; cc_Image : bool }.

Record CreateContainerRequest := mkCreateRequest {
  PodSandboxId : string;
  req_Config : option ContainerConfig;
  req_SandboxConfig : option PodSandboxConfig }.

(** The struct [container] of the factory. *)
Record factory := mkFactory {
  f_config : option ContainerConfig;
  f_sboxConfig : option PodSandboxConfig;
  f_id : string;
  f_name : string }.
#[export] Instance factory_eta : Eta factory := λ f,
  mkFactory (f_config f) (f_sboxConfig f) (f_id f) (f_name f).

Definition newFactory : factory := mkFactory None None "" "".

Definition f_SetConfig (cfg : option ContainerConfig) (sboxConfig : option PodSandboxConfig)
    (c : factory) : outcome factory :=
  match f_config c, cfg with
  | Some _, _ => Fail (ErrorsNew "config already set")
  | None, None => Fail (ErrorsNew "config is nil")
  | None, Some g =>
      match cc_Metadata g with
      | None => Fail (ErrorsNew "metadata is nil")
      | Some md =>
          if bool_decide (cm_Name md = "") then Fail (ErrorsNew "name is empty")
          else match sboxConfig, f_sboxConfig c with
               | None, _ => Fail (ErrorsNew "sandbox config is nil")
               | Some _, Some _ => Fail (ErrorsNew "sandbox config is already set")
               | Some _, None => Ret (c <| f_config := cfg |> <| f_sboxConfig := sboxConfig |>)
               end
      end
  end.

(** [generated] is what [stringid.GenerateNonCryptoID] returns. *)
Definition SetNameAndID (generated oldID : string) (c : factory) : outcome factory :=
  match f_config c, f_sboxConfig c with
  | None, _ => Fail (ErrorsNew "config is not set")
  | Some _, None => Fail (ErrorsNew "sandbox config is nil")
  | Some g, Some sg =>
      match cfg_Metadata sg, cc_Metadata g with
      | None, _ => Fail (ErrorsNew "sandbox metadata is nil")
      | Some _, None => Panic "nil pointer dereference"
      | Some smd, Some md =>
          let id := if bool_decide (oldID = "") then generated else oldID in
          let nm := Join ["k8s"; cm_Name md; pm_Name smd; pm_Namespace smd; pm_Uid smd;
                          Itoa (cm_Attempt md)] "_" in
          Ret (c <| f_id := id |> <| f_name := nm |>)
      end
  end.

Section create.
Context {St E : Type} `{StorerLaws ptr St}.
Variable perform : call → io E ().
(** [createSandboxContainer]: the stages it reports to the resource store, and the
    creation time and spec of the container it returns. *)
Variable createSandboxContainer : factory → ptr → E → (list string * outcome (Z * Spec)) * E.
(** [ctx.Err()] *)
Variable ctxErr : E → option goerr.
(** The error with which the wait for another request ends. *)
Variable waitErr : goerr.

Abbreviation W := (Server.world St E).
Abbreviation T := (state St E).

(** ** CreateContainer *)

(** The answer to a request whose name is taken by another one. *)
Definition nameTaken (nm : string) (err : goerr) : io T string :=
  r ← try (on_world (λ w, (ContainerIDForName nm (srv w), w)));
  match r with
  | inr getErr =>
      fail (Errorf "failed to get ID of container with reserved name, after failing to reserve name" getErr)
  | inl reservedID =>
      dup ← gets (λ t, match GetContainer reservedID (srv (st_world t)) with
                       | Some p => default false (c_created <$> ctrs (srv (st_world t)) !! p)
                       | None => false
                       end);
      if dup : bool then mret reservedID
      else
        r ← try (getResourceOrWait waitErr nm);
        match r with
        | inl cachedID => mret cachedID
        | inr resourceErr => fail (Errorf "name is reserved: " resourceErr)
        end
  end.

(** [createSandboxContainer], with the stages it reports and the object it
    returns. *)
Definition newContainer (f : factory) (sp : ptr) (sbID : string) : io T ptr := λ t,
  let '((stages, o), e) := createSandboxContainer f sp (env (st_world t)) in
  let t := t <| st_world ::= λ w, w <| env := e |> |>
             <| resourceStore ::= λ rc, foldl (λ rc stg, SetStageForResource (f_name f) stg rc) rc stages |> in
  match o with
  | Ret (created_, spec_) =>
      on_world (on_srv (allocCtr (mkCtr (f_id f) (f_name f) sbID false created_ spec_))) t
  | Fail e => (Fail e, t)
  | Panic s => (Panic s, t)
  end.

(** The end of the request when the client is gone: the container waits in the
    resource store.  A send to a watcher that blocks for ever shows as a panic. *)
Definition storeProgress (f : factory) (p : ptr) (e : goerr) : io T string := λ t,
  match Put (f_name f) (mkIC (ContainerObj p) (f_id f)) (resourceCleaner t) (resourceStore t) with
  | (rc, PutBlocked) => (Panic "blocked on a watcher", t <| resourceStore := rc |>)
  | (rc, _) => (Fail e, t <| resourceStore := rc |> <| storeResource := true |>)
  end.

(** The end of the request when the client is there. *)
Definition finishCreate (f : factory) (sp p : ptr) : io T string :=
  on_store (ResourceStore.Delete (f_name f)) ;;
  on_world (on_srv (modify (setCreated (ContainerObj p)))) ;;
  on_world (ignore (perf perform (NriPostCreate sp p))) ;;
  on_world (ignore (perf perform (CRIEvent p CREATED_EVENT))) ;;
  mret (f_id f).

(** The request once it owns the name. *)
Definition createReserved (f : factory) (sp : ptr) (sbID cgroupParent : string) : io T string :=
  p ← newContainer f sp sbID;
  onFailure (wrap_err "failed to cleanup container storage: " (perf perform (StorageDelete (f_id f)))) ;;
  on_world (on_srv (modify (AddContainer p))) ;;
  onFailure (on_srv (modify (RemoveContainer p))) ;;
  on_world (on_srv (addCtrID (f_id f))) ;;
  onFailure (deleteCtrID_quiet (f_id f)) ;;
  setStage (f_name f) "container runtime creation" ;;
  on_world (perf perform (RuntimeCreate p cgroupParent)) ;;
  onFailure (wrap_err "failed to delete container in runtime: " (perf perform (RuntimeDelete p))) ;;
  on_world (ignore (perf perform (ContainerStateToDisk p))) ;;
  err ← gets (λ t, ctxErr (env (st_world t)));
  match (if isContextError err then err else None) with
  | Some e => storeProgress f p e
  | None => finishCreate f sp p
  end.

Definition createBody (f : factory) (sp : ptr) (sbID cgroupParent : string) : io T string :=
  r ← try (on_world (on_srv (ReserveContainerName (f_id f) (f_name f))));
  match r with
  | inr err => nameTaken (f_name f) err
  | inl _ =>
      setStage (f_name f) "container creating" ;;
      onFailure (on_srv (ReleaseContainerName (f_name f))) ;;
      createReserved f sp sbID cgroupParent
  end.

(** The checks of the request: the container to create, the sandbox, its ID and its
    cgroup. *)
Definition prepareCreate (generated : string) (req : CreateContainerRequest) :
    io T (factory * ptr * string * string) :=
  match req_Config req with
  | None => fail (ErrorsNew "config is nil")
  | Some cfg =>
      if negb (cc_Image cfg) then fail (ErrorsNew "config image is nil")
      else match req_SandboxConfig req with
      | None => fail (ErrorsNew "sandbox config is nil")
      | Some sc =>
          match cfg_Metadata sc with
          | None => fail (ErrorsNew "sandbox config metadata is nil")
          | Some _ =>
              r ← try (gets (λ t, srv (st_world t)) ≫= λ s,
                       lift (getPodSandboxFromRequest (PodSandboxId req) s));
              match r with
              | inr e => if errors_is e ErrIDEmpty then fail e
                         else fail (Errorf "specified sandbox not found: " e)
              | inl sp =>
                  s ← gets (λ t, srv (st_world t));
                  sb ← lift (deref (sbs s !! sp));
                  if stopped sb then
                    fail (ErrorsNew "CreateContainer failed as the sandbox was stopped")
                  else
                    f ← wrap_err "setting container config: "
                          (lift (f_SetConfig (req_Config req) (req_SandboxConfig req) newFactory));
                    f ← wrap_err "setting container name and ID: " (lift (SetNameAndID generated "" f));
                    mret (f, sp, sandboxID s sp, cgroupParent sb)
              end
          end
      end
  end.

Definition CreateContainer (generated : string) (req : CreateContainerRequest) : io T string :=
  modify (λ t, t <| resourceCleaner := NewResourceCleaner |> <| storeResource := false |>) ;;
  x ← prepareCreate generated req;
  let '(f, sp, sbID, cgroupParent) := x in
  undoing (createBody f sp sbID cgroupParent).
End create.

(** ** The lifecycle of a request *)

Section lifecycle.
Context {St E : Type} `{StorerLaws ptr St}.
Variable perform : call → io E ().
Variable createSandboxContainer : factory → ptr → E → (list string * outcome (Z * Spec)) * E.
Variable ctxErr : E → option goerr.
Variable waitErr : goerr.

Abbreviation CS := (ContainerServer St).
Abbreviation W := (Server.world St E).
Abbreviation T := (state St E).
Abbreviation undoable := (undoable (x := None)).
Abbreviation failed := (failed (x := None)).
Abbreviation cleans := (cleans (x := None)).
Abbreviation restored := (Request.restored (x := None)).
Abbreviation createBody := (createBody perform createSandboxContainer ctxErr waitErr).
Abbreviation createReserved := (createReserved perform createSandboxContainer ctxErr).
Abbreviation newContainer := (newContainer (St := St) createSandboxContainer).

(** Every container of a pod has its name reserved. *)
Definition names_cover (s : CS) : Prop :=
  ∀ sp sb nm p, sbs s !! sp = Some sb → st_model (containers sb) !! nm = Some p →
    is_Some (names (ctrNameIndex s) !! nm).

(** The generated ID is not in use. *)
Definition unused (id : string) (s : CS) : Prop :=
  st_model (s_containers s) !! id = None ∧ ∀ nm, names (ctrNameIndex s) !! nm ≠ Some id.

Lemma newContainer_triple s0 s f sp sbID (k : ptr → io T string) Q :
  (∀ created_ spec_,
     triple (undoable s0 (snd (allocCtr (mkCtr (f_id f) (f_name f) sbID false created_ spec_) s)))
       (k (fresh (dom (ctrs s)))) Q (failed s0)) →
  triple (undoable s0 s) (newContainer f sp sbID ≫= k) Q (failed s0).
Proof.
  intros Hk t [Hs Hc]. unfold mbind, io_bind, Create.newContainer.
  destruct (createSandboxContainer f sp (env (st_world t))) as [[stages [[cr spec_]|e|x]] e1].
  - simpl. rewrite Hs. apply (Hk cr spec_). split; [done|].
    eapply cleans_le; [done|apply restored_alloc].
  - by exists s.
  - done.
Qed.

Lemma storeProgress_triple s0 s f p e Q :
  triple (undoable s0 s) (storeProgress (St := St) (E := E) f p e) Q (failed s0).
Proof. intros t Ht. unfold storeProgress. destruct (Put _ _ _ _) as [rc []]; [by exists s..|done]. Qed.

Lemma nameTaken_triple s0 s nm err :
  triple (λ t : T, undoable s0 s t ∧ stored_ids (resourceStore t)) (nameTaken waitErr nm err)
    (λ _ _, True) (failed s0).
Proof.
  intros t [Ht Hids]. assert (∀ e, failed s0 e t) as Hf by by exists s.
  destruct t as [w0 rs rcl sr]. set (t := mkState St E w0 rs rcl sr) in *.
  unfold nameTaken, mbind, io_bind, try, on_world, gets, fail, mret, io_ret.
  change (st_world t) with w0.
  destruct (ContainerIDForName nm _) as [id|e|]; cbn beta iota; [|apply (Hf e)|done].
  destruct (match GetContainer id _ with Some _ => _ | None => _ end); [done|].
  change (t <| st_world := w0 |>) with t.
  destruct (getResourceOrWait waitErr nm t) as [[cid|e|] t2] eqn:Hg; [done| |done].
  apply getResourceOrWait_fail in Hg as ->; [|done]. by exists s.
Qed.

Lemma finishCreate_no_fail f sp p : no_fail (finishCreate (St := St) perform f sp p).
Proof.
  unfold finishCreate.
  repeat first [ apply no_fail_ignore | apply no_fail_modify | apply no_fail_store
               | apply no_fail_ret | apply no_fail_bind; [|intros _] ].
Qed.

Lemma createReserved_triple s0 s f sp sbID cg :
  st_model (s_containers s) !! f_id f = None →
  (∀ sp sb, sbs s !! sp = Some sb → st_model (containers sb) !! f_name f = None) →
  eventually perform (StorageDelete (f_id f)) →
  (∀ p, eventually perform (RuntimeDelete p)) →
  triple (undoable s0 s) (createReserved f sp sbID cg) (λ _ _, True) (failed s0).
Proof.
  intros Hid Hnm Hsd Hrd. apply newContainer_triple. intros cr spec_.
  set (c := mkCtr _ _ _ _ _ _). set (s2 := snd (allocCtr c s)). set (p := fresh _).
  apply undo_register; [by apply reverts_perf|].
  apply (undo_step s0 s2 (AddContainer p s2) (modify (AddContainer p))
    (λ _, on_srv (modify (RemoveContainer p))) (λ _, _) _ ()); [done| |].
  { apply (reverts_add p c); [done|by apply lookup_insert_eq|done|done]. }
  set (s3 := AddContainer p s2). destruct (index_add (f_id f) (ctrIDIndex s3)) as [i|e|x] eqn:Hi.
  2: { apply (undo_op_fail _ _ _ e). unfold addCtrID. by rewrite Hi. }
  2: { intros t [Hs _]. unfold mbind, io_bind, on_world, on_srv, addCtrID. by rewrite Hs, Hi. }
  apply (undo_step s0 s3 (s3 <| ctrIDIndex := i |>) (addCtrID (f_id f))
    (λ _, deleteCtrID_quiet (f_id f)) (λ _, _) _ ()).
  { unfold addCtrID. by rewrite Hi. }
  { by apply reverts_index. }
  apply undo_store. apply undo_world; [apply keeps_perf|intros _].
  apply undo_register; [by apply reverts_perf|].
  apply undo_world; [apply keeps_ignore, keeps_perf|intros _].
  eapply (triple_bind _ _ (λ _, undoable s0 (s3 <| ctrIDIndex := i |>))); [by apply triple_gets|].
  intros err. destruct (if isContextError err then err else None) as [e|].
  - apply storeProgress_triple.
  - intros t _. destruct (finishCreate perform f sp p t) as [[|e|] t'] eqn:Hf; [done| |done].
    by destruct (finishCreate_no_fail f sp p t e t').
Qed.

Lemma createBody_triple s f sp sbID cg :
  wf (ctrNameIndex s) → names_cover s → unused (f_id f) s →
  eventually perform (StorageDelete (f_id f)) →
  (∀ p, eventually perform (RuntimeDelete p)) →
  triple (λ t : T, undoable s s t ∧ stored_ids (resourceStore t)) (createBody f sp sbID cg)
    (λ _ _, True) (failed s).
Proof.
  intros Hwf Hcov [Hid Hkey] Hsd Hrd t [[Hs Hc] Hids].
  pose proof (Reserve_cases (f_name f) (f_id f) _ Hwf) as Hres.
  destruct t as [[s' fs e] rs rcl sr]. simpl in Hs. subst s'. simpl in Hc, Hids.
  unfold Create.createBody, mbind at 1, io_bind at 1, try, on_world at 1, on_srv at 1, ReserveContainerName.
  simpl srv. destruct (Reserve (f_name f) (f_id f) (ctrNameIndex s)) as [r [err|]] eqn:Hr.
  { apply (nameTaken_triple s s). done. }
  destruct Hres as [Hwr [[Hk _]|[Hfree Hns]]]; [by destruct (Hkey (f_name f))|].
  apply (createReserved_triple s (s <| ctrNameIndex := r |>)); [done| |done|done|].
  - intros sp' sb Hsb. destruct (st_model (containers sb) !! f_name f) as [q|] eqn:Hq; [|done].
    destruct (Hcov _ _ _ _ Hsb Hq). congruence.
  - split; [done|]. simpl. eapply cleans_add; [done|]. by eapply reverts_release.
Qed.

Lemma SetNameAndID_id generated f f' : SetNameAndID generated "" f = Ret f' → f_id f' = generated.
Proof. unfold SetNameAndID. intros Hf. by go_cases. Qed.

(** The checks change nothing. *)
Lemma prepareCreate_keeps generated req (t : T) :
  let '(o, t') := prepareCreate generated req t in
  t' = t ∧ ∀ f sp sbID cg, o = Ret (f, sp, sbID, cg) →
    f_id f = generated ∧ ∃ sb, getPodSandboxFromRequest (PodSandboxId req) (srv (st_world t)) = Ret sp ∧
      sbs (srv (st_world t)) !! sp = Some sb ∧ stopped sb = false ∧
      sbID = sandboxID (srv (st_world t)) sp.
Proof.
  unfold prepareCreate, try, gets, lift, fail, wrap_err, mret, io_ret, mbind, io_bind.
  destruct (req_Config req) as [cfg|]; [|done]. destruct (cc_Image cfg); [|done]. simpl.
  destruct (req_SandboxConfig req) as [sc|]; [|done]. destruct (cfg_Metadata sc); [|done].
  destruct (getPodSandboxFromRequest _ _) as [sp|e|] eqn:Hsp; [|by destruct (errors_is e ErrIDEmpty)|done].
  destruct (sbs _ !! sp) as [sb|] eqn:Hsb; simpl; [|done]. destruct (stopped sb) eqn:Hst; [done|].
  destruct (f_SetConfig _ _ _) as [f1| |]; [|done|done].
  destruct (SetNameAndID generated "" f1) as [f2| |] eqn:Hf; [|done|done].
  split; [done|]. intros f sp' sbID cg [= <- <- <- <-]. split; [by eapply SetNameAndID_id|]. eauto.
Qed.


(** *** What a request leaves behind *)

(** The name a request asks for. *)
Definition requestName (req : CreateContainerRequest) : string :=
  match cc ← req_Config req; md ← cc_Metadata cc; sc ← req_SandboxConfig req; smd ← cfg_Metadata sc;
        Some (md, smd) with
  | Some (md, smd) => Join ["k8s"; cm_Name md; pm_Name smd; pm_Namespace smd; pm_Uid smd;
                            Itoa (cm_Attempt md)] "_"
  | None => ""
  end.

(** The server that knows the new container. *)
Definition tracked (c : Ctr) (i : TruncIndex) (s : CS) : CS :=
  (AddContainer (fresh (dom (ctrs s))) (snd (allocCtr c s))) <| ctrIDIndex := i |>.

(** How a request that owns the name ends: the container is tracked and created,
    or it is tracked and waits in the resource store, or the functions registered
    run. *)
Definition created_ (f : factory) (sbID : string) (s : CS) (id : string) (t : T) : Prop :=
  id = f_id f ∧ ∃ cr spec_ i, index_add (f_id f) (ctrIDIndex s) = Ret i ∧
    srv (st_world t) = setCreated (ContainerObj (fresh (dom (ctrs s))))
      (tracked (mkCtr (f_id f) (f_name f) sbID false cr spec_) i s) ∧
    ResourceStore.resources (resourceStore t) !! f_name f = None.
Definition stored_ (f : factory) (sbID : string) (s : CS) (e : goerr) (t : T) : Prop :=
  isContextError (Some e) = true ∧ ∃ cr spec_ i r, index_add (f_id f) (ctrIDIndex s) = Ret i ∧
    srv (st_world t) = tracked (mkCtr (f_id f) (f_name f) sbID false cr spec_) i s ∧
    ResourceStore.resources (resourceStore t) !! f_name f = Some r ∧
    resource r = Some (mkIC (ContainerObj (fresh (dom (ctrs s)))) (f_id f)) ∧
    cleaner r = Some (resourceCleaner t).

Lemma storeProgress_ends f sbID s cr spec_ i e :
  index_add (f_id f) (ctrIDIndex s) = Ret i → isContextError (Some e) = true →
  triple (fresh_at (f_name f) (tracked (mkCtr (f_id f) (f_name f) sbID false cr spec_) i s))
    (storeProgress f (fresh (dom (ctrs s))) e) (created_ f sbID s) (stored_ f sbID s).
Proof.
  intros Hi He t (Hf & Hs & Hu). unfold storeProgress, Put.
  assert (match ResourceStore.resources (resourceStore t) !! f_name f with
          | Some r => wasPut r = false | None => True end) as Hw.
  { destruct (_ !! f_name f) as [r|] eqn:Hr; [|done]. unfold wasPut. by rewrite (Hu r Hr). }
  destruct (ResourceStore.resources (resourceStore t) !! f_name f) as [r|] eqn:Hr; simpl.
  - rewrite Hw. simpl. destruct (notify _ _) as [b|]; [|done]. split; [done|]. eexists cr, spec_, i, _.
    simpl. rewrite lookup_insert_eq. by split_and!.
  - split; [done|]. eexists cr, spec_, i, _. simpl. rewrite lookup_insert_eq. by split_and!.
Qed.

Lemma finishCreate_ends f sp sbID s cr spec_ i R :
  index_add (f_id f) (ctrIDIndex s) = Ret i →
  triple (fresh_at (f_name f) (tracked (mkCtr (f_id f) (f_name f) sbID false cr spec_) i s))
    (finishCreate perform f sp (fresh (dom (ctrs s)))) (created_ f sbID s) R.
Proof.
  intros Hi. set (p := fresh _). set (s1 := tracked _ _ _).
  set (I := λ t : T, srv (st_world t) = setCreated (ContainerObj p) s1 ∧
              ResourceStore.resources (resourceStore t) !! f_name f = None).
  assert (triple I (on_world (ignore (perf perform (NriPostCreate sp p))) ;;
      on_world (ignore (perf perform (CRIEvent p CREATED_EVENT))) ;; mret (f_id f))
      (created_ f sbID s) R) as Hrest.
  { do 2 (eapply triple_bind;
      [apply (ignored_keeps _ (λ rc, ResourceStore.resources rc !! f_name f = None)), keeps_perf|];
      intros []).
    apply triple_ret. intros t [Hs Hr]. split; [done|]. by exists cr, spec_, i. }
  intros t (_ & Hs & _). apply Hrest. split; simpl; [by rewrite Hs|apply lookup_delete_eq].
Qed.

Lemma newContainer_ends s f sp sbID (k : ptr → io T string) Q (R : goerr → T → Prop) :
  (∀ cr spec_, triple (fresh_at (f_name f)
       (snd (allocCtr (mkCtr (f_id f) (f_name f) sbID false cr spec_) s)))
     (k (fresh (dom (ctrs s)))) Q R) →
  (∀ e t, storeResource t = false → R e t) →
  triple (fresh_at (f_name f) s) (newContainer f sp sbID ≫= k) Q R.
Proof.
  intros Hk HR t (Hf & Hs & Hu). unfold mbind, io_bind, Create.newContainer.
  destruct (createSandboxContainer f sp (env (st_world t))) as [[stages [[cr spec_]|e|x]] e1].
  - simpl. rewrite Hs. apply (Hk cr spec_). split_and!; [done|done|]. simpl.
    assert (∀ l (rc : ResourceStore W), unput (f_name f) rc →
      unput (f_name f) (foldl (λ rc stg, SetStageForResource (f_name f) stg rc) rc l)) as Hl.
    { induction l as [|stg l IH]; intros rc Hrc; [done|]. simpl. by apply IH, unput_stage. }
    by apply Hl.
  - by apply HR.
  - done.
Qed.

Lemma createReserved_ends s f sp sbID cg :
  triple (fresh_at (f_name f) s) (createReserved f sp sbID cg) (created_ f sbID s)
    (λ e t, storeResource t = false ∨ stored_ f sbID s e t).
Proof.
  apply newContainer_ends; [|by left]. intros cr spec_. set (c := mkCtr _ _ _ _ _ _).
  set (s2 := snd _). set (p := fresh _).
  apply fresh_register. eapply fresh_op; [reflexivity|]. apply fresh_register.
  assert (ctrIDIndex (AddContainer p s2) = ctrIDIndex s) as Hix.
  { unfold AddContainer. destruct (ctrs s2 !! p); [|done]. by destruct (st_get _ _). }
  destruct (index_add (f_id f) (ctrIDIndex s)) as [i|e|x] eqn:Hi.
  2,3: intros t (Hf & Hs & Hu); unfold mbind, io_bind, on_world, on_srv, addCtrID;
       rewrite Hs, Hix, Hi; first [by left|done].
  apply (fresh_op _ _ (tracked c i s) _ _ _ _ ()).
  { unfold addCtrID. by rewrite Hix, Hi. }
  apply fresh_register. apply fresh_stage.
  apply fresh_world; [apply keeps_perf| |by intros ? ? (? & _); left]. intros _. apply fresh_register.
  apply fresh_world; [apply keeps_ignore, keeps_perf| |by intros ? ? (? & _); left]. intros _.
  eapply (triple_bind _ _ (λ _, fresh_at (f_name f) (tracked c i s))); [by apply triple_gets|].
  intros err. destruct (isContextError err) eqn:He; [destruct err as [e|]; [|done]|].
  - eapply triple_conseq; [by apply (storeProgress_ends f sbID s cr spec_ i e)|done|done|by right].
  - by apply finishCreate_ends.
Qed.

Lemma createBody_ends s f sp sbID cg :
  wf (ctrNameIndex s) → names (ctrNameIndex s) !! f_name f = None →
  ∃ r, wf r ∧ names r = <[f_name f := f_id f]> (names (ctrNameIndex s)) ∧
    triple (fresh_at (f_name f) s) (createBody f sp sbID cg)
      (created_ f sbID (s <| ctrNameIndex := r |>))
      (λ e t, storeResource t = false ∨ stored_ f sbID (s <| ctrNameIndex := r |>) e t).
Proof.
  intros Hwf Hfree. pose proof (Reserve_cases (f_name f) (f_id f) _ Hwf) as Hres.
  destruct (Reserve (f_name f) (f_id f) (ctrNameIndex s)) as [r [err|]] eqn:Hr.
  { unfold Reserve in Hr. by rewrite Hfree in Hr. }
  destruct Hres as [Hwr [[? _]|[_ Hns]]]; [congruence|]. exists r. split_and!; [done|done|].
  intros t (Hf & Hs & Hu). unfold Create.createBody, mbind at 1, io_bind at 1, try, on_world at 1,
    on_srv at 1, ReserveContainerName. rewrite Hs, Hr.
  apply (fresh_stage _ (s <| ctrNameIndex := r |>) _
    (onFailure (on_srv (ReleaseContainerName (f_name f))) ;; createReserved f sp sbID cg)); [|by split_and!].
  apply fresh_register, createReserved_ends.
Qed.

Lemma prepareCreate_name generated req (t t' : T) f sp sbID cg :
  prepareCreate generated req t = (Ret (f, sp, sbID, cg), t') → f_name f = requestName req.
Proof.
  unfold prepareCreate, try, gets, lift, fail, wrap_err, mret, io_ret, mbind, io_bind, requestName.
  destruct (req_Config req) as [cfg|] eqn:Hcfg; [|done]. destruct (cc_Image cfg); [|done]. simpl.
  destruct (req_SandboxConfig req) as [sc|] eqn:Hsc; [|done]. destruct (cfg_Metadata sc) as [smd|] eqn:Hsmd; [|done].
  destruct (getPodSandboxFromRequest _ _) as [sp1|e|]; [|by destruct (errors_is e ErrIDEmpty)|done].
  destruct (sbs _ !! sp1) as [sb|]; simpl; [|done]. destruct (stopped sb); [done|].
  unfold f_SetConfig. simpl. destruct (cc_Metadata cfg) as [md|] eqn:Hmd; [|done].
  destruct (bool_decide _); [done|]. unfold SetNameAndID. simpl. rewrite Hsmd, Hmd. simpl.
  intros [= <- _ _ _ _]. simpl. by rewrite ?Hmd, ?Hsmd.
Qed.

(** The same request passes the checks again in a later state of the pod. *)
Lemma prepareCreate_again g1 g2 req (t1 t2 : T) f sp sbID cg :
  prepareCreate g1 req t1 = (Ret (f, sp, sbID, cg), t1) →
  getPodSandboxFromRequest (PodSandboxId req) (srv (st_world t2)) = Ret sp →
  (∀ sb, sbs (srv (st_world t1)) !! sp = Some sb →
     ∃ sb', sbs (srv (st_world t2)) !! sp = Some sb' ∧ stopped sb' = stopped sb) →
  ∃ sbID' cg', prepareCreate g2 req t2 = (Ret (f <| f_id := g2 |>, sp, sbID', cg'), t2).
Proof.
  intros H1 H2 H3. revert H1.
  unfold prepareCreate, try, gets, lift, fail, wrap_err, mret, io_ret, mbind, io_bind.
  destruct (req_Config req) as [cfg|]; [|done]. destruct (cc_Image cfg); [|done]. simpl.
  destruct (req_SandboxConfig req) as [sc|]; [|done]. destruct (cfg_Metadata sc) as [smd|] eqn:Hsmd; [|done].
  rewrite H2. destruct (getPodSandboxFromRequest (PodSandboxId req) (srv (st_world t1))) as [sp1|e|];
    [|by destruct (errors_is e ErrIDEmpty)|done].
  destruct (sbs (srv (st_world t1)) !! sp1) as [sb|] eqn:Hsb; simpl; [|done].
  destruct (stopped sb) eqn:Hst; [done|].
  unfold f_SetConfig. simpl. destruct (cc_Metadata cfg) as [md|] eqn:Hmd; [|done].
  destruct (bool_decide _); [done|]. unfold SetNameAndID. simpl. rewrite Hsmd, Hmd. simpl.
  intros [= <- -> _ _]. destruct (H3 sb Hsb) as (sb' & -> & Hst'). simpl. rewrite Hst', Hst. eauto.
Qed.

Lemma tracked_spec c i s sp sb :
  st_model (sandboxes s) !! c_sandbox c = Some sp → sbs s !! sp = Some sb →
  let p := fresh (dom (ctrs s)) in let s' := tracked c i s in
  ctrs s' !! p = Some c ∧ st_model (s_containers s') !! c_id c = Some p ∧
  sbs s' !! sp = Some (sb <| containers ::= st_add (c_name c) p |>) ∧
  ctrNameIndex s' = ctrNameIndex s ∧ ctrIDIndex s' = i ∧
  podIDIndex s' = podIDIndex s ∧ sandboxes s' = sandboxes s.
Proof.
  intros Hsp Hsb p s'. unfold s', tracked, AddContainer, allocCtr. simpl. fold p.
  rewrite lookup_insert_eq, st_get_model, Hsp. simpl.
  rewrite lookup_insert_eq, model_add, lookup_insert_eq, lookup_alter_eq, Hsb. simpl.
  unfold Sandbox.AddContainer, ctrName. simpl. by rewrite lookup_insert_eq.
Qed.

Lemma request_sandbox s id sp :
  consistent s → getPodSandboxFromRequest id s = Ret sp →
  st_model (sandboxes s) !! sandboxID s sp = Some sp ∧
  ∃ k sb, index_get id (podIDIndex s) = Ret k ∧ st_model (sandboxes s) !! k = Some sp ∧
    sbs s !! sp = Some sb ∧ sb_created sb = true ∧ id ≠ "".
Proof.
  intros Hc. unfold getPodSandboxFromRequest. case_bool_decide as Hid; [done|].
  destruct (index_get id (podIDIndex s)) as [k| |] eqn:Hk; [|done|done].
  destruct (GetSandbox k s) as [sp'|] eqn:Hg; [|done].
  unfold GetSandbox in Hg. rewrite st_get_model in Hg.
  destruct (ok_id s Hc k sp' Hg) as [[sb Hsb] Hkid]. rewrite Hsb. simpl.
  destruct (sb_created sb) eqn:Hcr; [|done]. intros [= ->]. rewrite Hkid. split; [done|]. by exists k, sb.
Qed.


Lemma created_facts f sbID s id (t : T) sp sb :
  created_ f sbID s id t → st_model (sandboxes s) !! sbID = Some sp → sbs s !! sp = Some sb →
  id = f_id f ∧ ∃ p c, GetContainer id (srv (st_world t)) = Some p ∧
    ctrs (srv (st_world t)) !! p = Some c ∧ c_id c = id ∧ c_name c = f_name f ∧ c_created c = true ∧
    id ∈ ctrIDIndex (srv (st_world t)) ∧ ctrNameIndex (srv (st_world t)) = ctrNameIndex s ∧
    ResourceStore.resources (resourceStore t) !! f_name f = None ∧
    ∃ sb', sbs (srv (st_world t)) !! sp = Some sb' ∧ Sandbox.GetContainer (f_name f) sb' = Some p.
Proof.
  intros [-> (cr & spec_ & i & Hi & Hs & Hrs)] Hsp Hsb. split; [done|].
  set (c := mkCtr (f_id f) (f_name f) sbID false cr spec_) in *.
  destruct (tracked_spec c i s sp sb Hsp Hsb) as (Hc & Hin & Hsb' & Hn' & Hi' & _).
  set (p := fresh (dom (ctrs s))) in *. rewrite Hs. set (s2 := tracked c i s) in *. clearbody s2.
  exists p, (c <| c_created := true |>). unfold GetContainer. rewrite st_get_model. simpl.
  rewrite lookup_alter_eq, Hc. split_and!; try done; [rewrite Hi'; by eapply index_add_in|].
  eexists. split; [done|]. unfold Sandbox.GetContainer. rewrite st_get_model. simpl.
  by rewrite model_add, lookup_insert_eq.
Qed.

(** C27: a request to create a container that succeeds under a free name makes the
    container known everywhere: the server's store has it under the returned ID,
    marked created; its name is reserved for that ID; the ID is in the index; the
    pod of the request has it under its name; nothing is left for it in the
    resource store. *)
Theorem CreateContainer_success generated req (t : T) id t' :
  let s := srv (st_world t) in let s' := srv (st_world t') in let nm := requestName req in
  consistent s → wf (ctrNameIndex s) → names (ctrNameIndex s) !! nm = None →
  unput nm (resourceStore t) →
  CreateContainer perform createSandboxContainer ctxErr waitErr generated req t = (Ret id, t') →
  id = generated ∧ ∃ p c sp sb,
    GetContainer id s' = Some p ∧ ctrs s' !! p = Some c ∧
    c_id c = id ∧ c_name c = nm ∧ c_created c = true ∧
    ContainerIDForName nm s' = Ret id ∧ id ∈ ctrIDIndex s' ∧
    getPodSandboxFromRequest (PodSandboxId req) s = Ret sp ∧
    sbs s' !! sp = Some sb ∧ Sandbox.GetContainer nm sb = Some p ∧
    ResourceStore.resources (resourceStore t') !! nm = None.
Proof.
  intros s s' nm Hcons Hwf Hfree Hun. unfold CreateContainer, modify, mbind, io_bind.
  set (t0 := t <| resourceCleaner := _ |> <| storeResource := _ |>).
  pose proof (prepareCreate_keeps generated req t0) as Hp.
  destruct (prepareCreate generated req t0) as [o t1] eqn:Hprep. destruct Hp as [-> Hp].
  destruct o as [[[[f sp] sbID] cg]|e1|]; [|done|done].
  destruct (Hp _ _ _ _ eq_refl) as [Hid (sb & Hreq & Hsb & _ & ->)].
  apply prepareCreate_name in Hprep as Hname. fold nm in Hname. change (srv (st_world t0)) with s in Hreq, Hsb |- *.
  rewrite <- Hname in Hfree, Hun.
  destruct (createBody_ends s f sp (sandboxID s sp) cg Hwf Hfree) as (r & Hwr & Hns & Hb).
  specialize (Hb t0 (conj eq_refl (conj eq_refl Hun))). unfold undoing. clearbody s.
  destruct (createBody f sp _ cg _) as [[id'|e1|] t2]; [|by destruct (storeResource t2)|done].
  intros [= <- <-]. destruct (request_sandbox s _ sp Hcons Hreq) as [Hsp _].
  destruct (created_facts f _ (s <| ctrNameIndex := r |>) id' t2 sp sb Hb Hsp Hsb)
    as (-> & p & c & Hp' & Hc & Hcid & Hcn & Hcr & Hin & Hn' & Hrs & sb' & Hsb' & Hg).
  split; [done|]. exists p, c, sp, sb'. unfold s', ContainerIDForName, Registrar.Get.
  rewrite Hn', <- Hname. simpl. rewrite Hns, lookup_insert_eq. by split_and!.
Qed.

(** The second request finds the name taken by the first and the container in the
    resource store. *)
Lemma stored_answers f2 sp sbID2 cg f sbID s e (t1 t2 : T) sp0 sb0 :
  stored_ f sbID s e t1 → srv (st_world t2) = srv (st_world t1) → resourceStore t2 = resourceStore t1 →
  st_model (sandboxes s) !! sbID = Some sp0 → sbs s !! sp0 = Some sb0 →
  names (ctrNameIndex s) !! f_name f = Some (f_id f) → f_name f2 = f_name f → f_id f2 ≠ f_id f →
  f_id f ≠ "" →
  ∃ t3 p c, createBody f2 sp sbID2 cg t2 = (Ret (f_id f), t3) ∧
    env (st_world t3) = env (st_world t2) ∧
    s_containers (srv (st_world t3)) = s_containers (srv (st_world t1)) ∧
    GetContainer (f_id f) (srv (st_world t3)) = Some p ∧ ctrs (srv (st_world t3)) !! p = Some c ∧
    c_name c = f_name f ∧ c_created c = true ∧
    ResourceStore.resources (resourceStore t3) !! f_name f = None.
Proof.
  intros [He (cr & spec_ & i & r & Hi & Hs & Hr & Hro & Hcl)] Hs2 Hr2 Hsp Hsb Hns Hf2 Hne Hid.
  set (c := mkCtr (f_id f) (f_name f) sbID false cr spec_) in *.
  destruct (tracked_spec c i s sp0 sb0 Hsp Hsb) as (Hc & Hin & _ & Hn' & _).
  change (c_id c) with (f_id f) in Hin.
  set (p := fresh (dom (ctrs s))) in *. rewrite Hs in Hs2 |- *. set (s2 := tracked c i s) in *. clearbody s2.
  destruct t2 as [[s' fs ev] rs rcl sr]. simpl in Hs2, Hr2. subst s' rs.
  unfold Create.createBody, mbind at 1, io_bind at 1, try, on_world at 1, on_srv at 1, ReserveContainerName,
    Reserve. simpl srv. rewrite Hn', Hf2, Hns. rewrite decide_False by congruence.
  unfold nameTaken, mbind, io_bind, try, on_world, gets, ContainerIDForName, Registrar.Get, mret, io_ret.
  simpl. rewrite Hn', Hns. simpl. unfold GetContainer. rewrite st_get_model, Hin, Hc. simpl.
  unfold getResourceOrWait, ResourceStore.Get. simpl. rewrite Hr, Hro. simpl.
  rewrite bool_decide_false by done. simpl.
  eexists _, p, (c <| c_created := true |>). split; [reflexivity|]. simpl.
  rewrite st_get_model, lookup_alter_eq, Hc, lookup_delete_eq. by split_and!.
Qed.

Lemma stored_request f sbID s e (t : T) id sp sb k :
  stored_ f sbID s e t → st_model (sandboxes s) !! sbID = Some sp → sbs s !! sp = Some sb →
  index_get id (podIDIndex s) = Ret k → st_model (sandboxes s) !! k = Some sp →
  sb_created sb = true → id ≠ "" →
  getPodSandboxFromRequest id (srv (st_world t)) = Ret sp ∧
  ∃ sb', sbs (srv (st_world t)) !! sp = Some sb' ∧ stopped sb' = stopped sb.
Proof.
  intros [_ (cr & spec_ & i & r & _ & Hs & _)] Hsp Hsb Hk Hksp Hcr Hne. rewrite Hs.
  destruct (tracked_spec (mkCtr (f_id f) (f_name f) sbID false cr spec_) i s sp sb Hsp Hsb)
    as (_ & _ & Hsb' & _ & _ & Hpi & Hsbs).
  set (s2 := tracked _ _ _) in *. clearbody s2. split; [|eauto].
  unfold getPodSandboxFromRequest, GetSandbox. rewrite bool_decide_false by done.
  rewrite Hpi, Hk, Hsbs, st_get_model, Hksp, Hsb'. simpl. by rewrite Hcr.
Qed.

(** C25: when the client of a request went away while its container was made (the
    context was cancelled or its deadline passed), the same request sent again is
    answered with the container made by the first one: it returns the first ID,
    calls nothing of the environment, tracks no further container, and marks that
    container created. *)
Theorem CreateContainer_retry g1 g2 req (t : T) e t1 t2 :
  let s := srv (st_world t) in let nm := requestName req in
  consistent s → wf (ctrNameIndex s) → names (ctrNameIndex s) !! nm = None →
  unput nm (resourceStore t) → g1 ≠ "" → g1 ≠ g2 →
  CreateContainer perform createSandboxContainer ctxErr waitErr g1 req t = (Fail e, t1) →
  storeResource t1 = true →
  srv (st_world t2) = srv (st_world t1) → resourceStore t2 = resourceStore t1 →
  isContextError (Some e) = true ∧ ∃ t3 p c,
    CreateContainer perform createSandboxContainer ctxErr waitErr g2 req t2 = (Ret g1, t3) ∧
    env (st_world t3) = env (st_world t2) ∧
    s_containers (srv (st_world t3)) = s_containers (srv (st_world t1)) ∧
    GetContainer g1 (srv (st_world t3)) = Some p ∧ ctrs (srv (st_world t3)) !! p = Some c ∧
    c_name c = nm ∧ c_created c = true ∧
    ResourceStore.resources (resourceStore t3) !! nm = None.
Proof.
  intros s nm Hcons Hwf Hfree Hun Hg1 Hg2. unfold CreateContainer, modify, mbind, io_bind.
  set (t0 := t <| resourceCleaner := _ |> <| storeResource := _ |>).
  set (t4 := t2 <| resourceCleaner := _ |> <| storeResource := _ |>).
  pose proof (prepareCreate_keeps g1 req t0) as Hp.
  destruct (prepareCreate g1 req t0) as [o t1'] eqn:Hprep. destruct Hp as [-> Hp].
  destruct o as [[[[f sp] sbID] cg]|e1|]; [|intros [= _ <-]; done|done].
  destruct (Hp _ _ _ _ eq_refl) as [Hid (sb & Hreq & Hsb & Hst & ->)].
  apply prepareCreate_name in Hprep as Hname. fold nm in Hname.
  change (srv (st_world t0)) with s in Hreq, Hsb, Hprep |- *. rewrite <- Hname in Hfree, Hun.
  destruct (createBody_ends s f sp (sandboxID s sp) cg Hwf Hfree) as (r & Hwr & Hns & Hb).
  specialize (Hb t0 (conj eq_refl (conj eq_refl Hun))). unfold undoing at 1.
  destruct (createBody f sp _ cg t0) as [[id'|e1|] t3]; [done| |done].
  destruct (storeResource t3) eqn:Hf3; intros [= <- <-]; [|simpl; congruence].
  destruct Hb as [?|Hb]; [congruence|]. intros _ Hs2 Hr2.
  destruct (request_sandbox s _ sp Hcons Hreq) as [Hsp (k & sb' & Hk & Hksp & Hsb2 & Hcr & Hne)].
  assert (sb' = sb) as -> by congruence.
  split; [apply Hb|].
  destruct (stored_request f _ (s <| ctrNameIndex := r |>) e1 t3 _ sp sb k Hb Hsp Hsb Hk Hksp Hcr Hne)
    as (Hreq' & sb' & Hsb' & Hst').
  destruct (prepareCreate_again g1 g2 req t0 t4 f sp _ cg Hprep) as (sbID' & cg' & ->).
  { simpl. by rewrite Hs2. }
  { intros sb1. change (srv (st_world t0)) with s. rewrite Hsb. intros [= <-]. exists sb'.
    simpl. by rewrite Hs2. }
  destruct (stored_answers (f <| f_id := g2 |>) sp sbID' cg' f _ (s <| ctrNameIndex := r |>) e1 t3 t4
    sp sb Hb Hs2 Hr2 Hsp Hsb) as (t5 & p & c & Hrun & Henv & Hcs & Hg & Hc & Hcn & Hcd & Hrs);
    [simpl; by rewrite Hns, lookup_insert_eq|done|simpl; congruence|congruence|].
  exists t5, p, c. unfold undoing. rewrite Hrun, <- Hname. subst g1. by split_and!.
Qed.
End lifecycle.

(** ** Examples *)

#[local] Existing Instance Server.ms_storer.
#[local] Existing Instance Server.ms_laws.

Module Example4.
Abbreviation MS := (memoryStore (T := ptr)).
Definition t : state MS (list call) :=
  mkState MS (list call) Example3.w NewWithTimeout NewResourceCleaner false.
Definition req : CreateContainerRequest :=
  mkCreateRequest "pod1" (Some (mkContainerConfig (Some (mkContainerMetadata "db" 0)) true))
    (Some (mkPodSandboxConfig (Some (mkPodMetadata "p" "u" "ns" 0)) true)).
(** The environment logs its calls; the spec generation succeeds. *)
Definition build (f : factory) (sp : ptr) (l : list call) :
    (list string * outcome (Z * Spec)) * list call :=
  ((["container storage creation"], Ret (3, mkSpec None None)), l).
Definition present (l : list call) : option goerr := None.
Definition gone (l : list call) : option goerr := Some context_DeadlineExceeded.
Definition perform_fail (c : call) : io (list call) () := λ l,
  match c with
  | RuntimeCreate _ _ => (Fail (ErrorsNew "runc create failed"), l ++ [c])
  | _ => (Ret (), l ++ [c])
  end.
Definition err := ErrorsNew "waited".

Lemma cover : names_cover (srv (st_world t)).
Proof.
  assert (map_Forall (λ _ sb, map_Forall (λ nm _, is_Some (names (ctrNameIndex (srv (st_world t))) !! nm))
    (st_model (containers sb))) (sbs (srv (st_world t)))) as Hm
    by (refine (bool_decide_unpack _ _); vm_compute; exact I).
  intros sp sb nm p Hsb Hp. exact (Hm sp sb Hsb nm p Hp).
Defined.

Lemma new_id : unused "c9" (srv (st_world t)).
Proof.
  split; [vm_compute; reflexivity|]. intros nm Hn.
  assert (map_Forall (λ _ k, k ≠ "c9") (names (ctrNameIndex (srv (st_world t))))) as Hm
    by (refine (bool_decide_unpack _ _); vm_compute; exact I).
  by apply (Hm nm "c9" Hn).
Defined.
End Example4.


Lemma CreateContainer_success_witness :
  let r := CreateContainer Example3.perform Example4.build Example4.present Example4.err "c9"
      Example4.req Example4.t in
  r.1 = Ret "c9" ∧ ContainerIDForName "k8s_db_p_ns_u_0" (srv (st_world r.2)) = Ret "c9".
Proof.
  intros r. assert (r.1 = Ret "c9") as H1 by (vm_compute; reflexivity). split; [exact H1|].
  assert (r = (Ret "c9", r.2)) as H3 by (rewrite <- H1; apply surjective_pairing).
  destruct (CreateContainer_success Example3.perform Example4.build Example4.present Example4.err
    "c9" Example4.req Example4.t "c9" r.2) as [_ (p & c & sp & sb & _ & _ & _ & _ & _ & Hn & _)].
  - exact (proj1 (reachable_ok _ _ Example3.reach_pod)).
  - apply wf_reserve, wf_reserve, wf_new.
  - vm_compute. reflexivity.
  - intros x Hx. vm_compute in Hx. discriminate Hx.
  - exact H3.
  - exact Hn.
Defined.

(** The client is gone when the container is made; the second request generates
    another ID. *)
Lemma CreateContainer_retry_witness :
  let r := CreateContainer Example3.perform Example4.build Example4.gone Example4.err "c9"
      Example4.req Example4.t in
  r.1 = Fail context_DeadlineExceeded ∧
  ∃ t3, CreateContainer Example3.perform Example4.build Example4.gone Example4.err "c10"
      Example4.req r.2 = (Ret "c9", t3).
Proof.
  intros r. assert (r.1 = Fail context_DeadlineExceeded) as H1 by (vm_compute; reflexivity).
  split; [exact H1|].
  assert (r = (Fail context_DeadlineExceeded, r.2)) as H3 by (rewrite <- H1; apply surjective_pairing).
  destruct (CreateContainer_retry Example3.perform Example4.build Example4.gone Example4.err
    "c9" "c10" Example4.req Example4.t context_DeadlineExceeded r.2 r.2) as [_ (t3 & p & c & Hr & _)].
  - exact (proj1 (reachable_ok _ _ Example3.reach_pod)).
  - apply wf_reserve, wf_reserve, wf_new.
  - vm_compute. reflexivity.
  - intros x Hx. vm_compute in Hx. discriminate Hx.
  - discriminate.
  - discriminate.
  - exact H3.
  - vm_compute. reflexivity.
  - reflexivity.
  - reflexivity.
  - exists t3. exact Hr.
Defined.
