(* ===== verification/RunPod.v ===== *)
(** * RunPod: the CRI request that runs a pod sandbox
    (runPodSandbox and configureGeneratorForSandboxNamespaces of
    server/sandbox_run_linux.go, networkStart of server/sandbox_network.go,
    ReserveSandboxContainerIDAndName of server/naming.go)

    The request reserves the names of the pod and of its infra container, creates the
    storage, the shared memory, the sandbox object, the namespaces and the network,
    and runs the infra container, registering after each step how to undo it, over the
    state of Request.  Calls to the environment are those of Server; the calls that
    return something are parameters of the model with any behaviour. *)

From S2P Require Import Prelude GoStrings Registrar ResourceCleaner ResourceStore MemoryStore Container.
From S2P Require Import ConfigData ConfigRuntime RuntimeDispatch Sandbox ContainerServer PodSpec Server Request.
Local Open Scope Z_scope.

(** What [CreatePodSandbox] of the storage service returns. *)
Record podContainer := mkPodContainer {
  st_Dir : string; st_RunDir : string; st_RootFs : string; st_MountLabel : string; st_ProcessLabel : string;
  st_StopSignal : string; st_ResolvPath : string }.

Definition ErrDuplicateName := ErrorsNew "that name is already in use".

Definition NeedsInfra (serverDropsInfra : bool) (nsOpts : NamespaceOption) : bool :=
  negb serverDropsInfra || bool_decide (no_Pid nsOpts = POD).

(** What a request meets: the configuration of the server, and the environment's
    answers. *)
Class PodEnv (E : Type) := {
  perform : call → io E ();
  level : string → outcome string;
  hasHooks : ptr → bool;
  ctrDir : ptr → string;
  create : string → option goerr;
  ctxErr : E → option goerr;
  waitErr : goerr;
  stopTimeout : Z;
  (* the configuration *)
  runtime : Runtime;
  workloads : gmap string WorkloadConfig;
  defaultSysctls : list string;
  defaultLogDir : string;
  pauseImage : string;
  dropInfraCtr : bool;
  prefixOrder : list (string * ConfigData.Namespace);
  (* the storage of the pod, [resource.ParseQuantity] of the size of the shared memory,
     [SandboxCgroupPath], [Setup] of the seccomp configuration, the pinned namespaces,
     the addresses of the pod with the JSON of the CNI result, [os.Hostname] *)
  CreatePodSandbox : string → E → outcome podContainer * E;
  ParseQuantity : string → outcome (option Z);
  SandboxCgroupPath : string → string → Z → outcome string;
  seccompRef : E → outcome string;
  NewPodNamespaces : gmap string string → bool → bool → E → outcome (list (option Sandbox.Namespace)) * E;
  PodNetworkStatus : ptr → E → outcome (list string * option string) * E;
  osHostname : outcome string;
  isIPv6 : string → bool;
  marshalNsOpts : NamespaceOption → string;
  marshalPorts : list PortMapping → string;
  now : E → Z }.

Section run.
Context {St E : Type} `{StorerLaws ptr St} `{ConfigEnv} `{PodEnv E}.

Abbreviation W := (Server.world St E).
Abbreviation T := (state St E).
Abbreviation perf := (perf (St := St) perform).

(** A call that returns something. *)
Definition ask {A} (f : E → outcome A * E) : io W A := λ w,
  let '(o, e) := f (env w) in (o, w <| env := e |>).

(** A change of the sandbox object. *)
Definition set_sb (sp : ptr) (f : Sandbox ptr St → Sandbox ptr St) : io W () :=
  on_srv (modify (λ s, s <| sbs ::= alter f sp |>)).

(** ** The answer to a request whose name is taken *)

Definition podNameTaken (nm : string) (err : goerr) : io T string :=
  r ← try (on_world (λ w, (PodIDForName nm (srv w), w)));
  match r with
  | inr getErr =>
      fail (Errorf "failed to get ID of pod with reserved name, after failing to reserve name" getErr)
  | inl reservedID =>
      dup ← gets (λ t, match ContainerServer.GetSandbox reservedID (srv (st_world t)) with
                       | Some sp => default false (sb_created <$> sbs (srv (st_world t)) !! sp)
                       | None => false
                       end);
      if dup : bool then mret reservedID
      else
        r ← try (getResourceOrWait waitErr nm);
        match r with
        | inl cachedID => mret cachedID
        | inr resourceErr => fail (Errorf "name is reserved: " resourceErr)
        end
  end.

(** ** The network *)

(** The port mappings of each address that gets them. *)
Definition addHostports (sp : ptr) (portMappings : list PortMapping) (addrs : list string) : io W () :=
  if bool_decide (portMappings = []) then mret ()
  else for_each (λ ip, wrap_err "failed to add hostport mapping for sandbox: " (perf (HostportAdd sp ip)))
         (mappedIPs isIPv6 false false addrs).

(** On an error the network is stopped again, and the error of that is logged. *)
Definition networkStart (sp : ptr) (portMappings : list PortMapping) : io W (list string * option string) :=
  sb ← getSb sp;
  if hostNetwork sb then mret ([], None)
  else
    perf (NewPodNetwork sp) ;;
    defer_on_err (ignore (networkStop perform ctrDir create sp))
      (wrap_err "failed to create pod network sandbox: " (perf (SetUpPod sp)) ;;
       x ← wrap_err "failed to get network status for pod sandbox: " (ask (PodNetworkStatus sp));
       addHostports sp portMappings x.1 ;;
       mret x).

(** ** Phases *)

(** The name of the infra container is reserved under an ID of its own. *)
Definition ReserveSandboxContainerIDAndName (generated : string) (md : PodSandboxMetadata) : io W string :=
  on_srv (ReserveContainerName generated (makeSandboxContainerName md)).

(** What the first phase finds out. *)
Record Admission := mkAdmission {
  a_hostNetwork : bool; a_hostIPC : bool; a_hostPID : bool; a_nsOpts : NamespaceOption;
  a_handler : string; a_annotations : gmap string string; a_containerName : string; a_privileged : bool }.

Definition admission (cfg : PodConfig) (md : PodSandboxMetadata) (ctrID nm : string) (handler : string) : io T Admission :=
  setStage nm "sandbox creating" ;;
  let sc := default (mkSecurityContext None false None) (pc_SecurityContext cfg) in
  let o := default (mkNamespaceOption POD POD POD) (sc_NamespaceOptions sc) in
  let hostNetwork := bool_decide (no_Network o = NODE) in
  when (negb hostNetwork) (on_world (perf (WaitCNI nm))) ;;
  setStage nm "sandbox network ready" ;;
  handler ← lift (checkHandler handler runtime);
  defaults ← lift (RuntimeDefaultAnnotations handler runtime).1;
  anns ← lift (FilterDisallowedAnnotations workloads (pc_Annotations cfg) (pc_Annotations cfg) handler runtime);
  containerName ← on_world (ReserveSandboxContainerIDAndName ctrID md);
  onFailure (on_srv (ReleaseContainerName containerName)) ;;
  mret (mkAdmission hostNetwork (bool_decide (no_Ipc o = NODE)) (bool_decide (no_Pid o = NODE)) o handler
          (podAnnotations defaults anns) containerName
          (privilegedSandbox (Some (mkSecurityContext (Some o) (sc_Privileged sc) (sc_SelinuxOptions sc))))).

Definition createPod (id : string) : io W podContainer :=
  r ← try (ask (CreatePodSandbox id));
  match r with
  | inl pod => mret pod
  | inr e =>
      if errors_is e ErrDuplicateName then fail (ErrorsNew "pod sandbox already exists")
      else fail (Errorf "creating pod sandbox: " e)
  end.

(** The storage of the pod, and what lives in it: the storage's answer, the path of
    the shared memory, the log directory and the SELinux labels of the spec. *)
Definition prepareStorage (cfg : PodConfig) (labels : gmap string string) (id nm : string) (a : Admission) :
    io T (podContainer * string * string) :=
  setStage nm "sandbox storage creation" ;;
  pod ← on_world (createPod id);
  onFailure (perf (StorageDelete id)) ;;
  let logDir := if bool_decide (pc_LogDirectory cfg = "") then PathJoin [defaultLogDir; id] else pc_LogDirectory cfg in
  if negb (HasPrefix logDir "/") then fail (ErrorsNew "requested logDir is a relative path")
  else
    on_world (perf (MkdirLog logDir)) ;;
    on_world (perf (InitInfraContainer id)) ;;
    lift (of_err (validateLabels labels)) ;;
    setStage nm "sandbox shm creation" ;;
    shm ← (if a_hostIPC a then mret "/dev/shm"
           else
             lift (match a_annotations a !! "io.kubernetes.cri-o.ShmSize" with
                   | Some size => _ ← ParseQuantity size; Ret ()
                   | None => Ret ()
                   end) ;;
             on_world (perf (SetupShm id)) ;;
             onFailure (wrap_err "failed to unmount shm for sandbox: " (perf (UnmountShmPath id))) ;;
             mret (PathJoin [st_RunDir pod; "shm"]) : io T string);
    when (bool_decide (is_Some (a_annotations a !! "io.kubernetes.cri-o.LinkLogs")))
      (on_world (ignore (perf (MountPodLogs id)))) ;;
    setStage nm "sandbox spec configuration" ;;
    on_world (perf (SetMountLabel id)) ;;
    on_world (on_srv (addCtrID id)) ;;
    onFailure (deleteCtrID_quiet id) ;;
    on_world (perf (EnsureSaneLogPath id)) ;;
    mret (pod, shm, logDir).

(** The sandbox object with everything known so far, added to the server. *)
Definition addObject (cfg : PodConfig) (md : PodSandboxMetadata) (labels : gmap string string) (id nm : string)
    (a : Admission) (pod : podContainer) (shm logDir : string) : io T (ptr * PodInfo) :=
  hostname ← lift (getHostname osHostname id (pc_Hostname cfg) (a_hostNetwork a));
  created ← gets (λ t, now (env (st_world t)));
  (if bool_decide (created = 0) then fail (ErrorsNew "createdAt time is Zero") else mret ()) ;;
  minMemory ← lift (GetContainerMinMemory (a_handler a) runtime).1;
  cgroupParent ← lift (SandboxCgroupPath (pc_CgroupParent cfg) id minMemory);
  seccomp ← (if a_privileged a then mret "Unconfined"
             else wrap_err "setup seccomp: " (gets (λ t, seccompRef (env (st_world t))) ≫= lift) : io T string);
  let info := mkPodInfo id nm (a_containerName a) md labels (a_annotations a) logDir shm (a_privileged a) (a_handler a)
    (st_ResolvPath pod) hostname (st_RunDir pod +:+ "/hostname") (a_hostNetwork a) created cgroupParent seccomp
    (ann (a_annotations a) ann_UsernsMode) (st_ProcessLabel pod) (st_MountLabel pod) pauseImage (st_StopSignal pod)
    (st_RootFs pod) false (marshalNsOpts (a_nsOpts a)) (marshalPorts (convertPortMappings (pc_PortMappings cfg)))
    "null" "null" None in
  sp ← on_world (on_srv (allocSb (podSandbox info)));
  on_world (on_srv (AddSandbox level sp)) ;;
  onFailure (wrap_err "could not remove pod sandbox: " (on_srv (RemoveSandbox level id))) ;;
  on_world (on_srv (addPodID id)) ;;
  onFailure (deletePodID_quiet id) ;;
  mret (sp, info).

(** The namespaces and the network.  The removal of the namespaces is registered
    alone when the namespaces or the network fail, and behind the stop of the network
    otherwise. *)
Definition removeNamespaces (sp : ptr) : io W () :=
  wrap_err "RunSandbox: failed to cleanup namespace " (perf (RemoveNamespaces sp)).

Definition addNamespaces (sp : ptr) (sysctls : gmap string string) (a : Admission) : io W () :=
  nss ← ask (NewPodNamespaces sysctls (a_hostIPC a) (a_hostNetwork a));
  sb ← getSb sp;
  sb ← lift (AddManagedNamespaces nss sb);
  set_sb sp (λ _, sb).

Definition startNetwork (cfg : PodConfig) (nm : string) (sp : ptr) (a : Admission) : io T (list string * option string) :=
  let sysctls := configureGeneratorForSysctls prefixOrder defaultSysctls (a_hostNetwork a) (a_hostIPC a) (pc_Sysctls cfg) in
  setStage nm "sandbox namespace creation" ;;
  on_world (addNamespaces sp sysctls a) ;;
  setStage nm "sandbox network creation" ;;
  r ← try (on_world (networkStart sp (convertPortMappings (pc_PortMappings cfg))));
  match r with
  | inr e => onFailure (removeNamespaces sp) ;; fail e
  | inl x =>
      onFailure (wrap_err "error stopping network on cleanup: " (networkStop perform ctrDir create sp) ;;
                 removeNamespaces sp) ;;
      mret x
  end.

(** The infra container, or a spoofed one where the pod needs none. *)
Definition makeInfra (nm : string) (sp : ptr) (id : string) (a : Admission) (info : PodInfo) : io T ptr :=
  setStage nm "sandbox storage start" ;;
  on_world (perf (WriteHostname id)) ;;
  runtimeType ← lift (r_RuntimeType (a_handler a) runtime).1;
  let separated := podIsKernelSeparated runtimeType (a_handler a) (t_DefaultRuntime (r_config runtime)) in
  (if NeedsInfra dropInfraCtr (a_nsOpts a) || separated then when separated (on_world (perf (KVMLabel id)))
   else on_world (wrap_err "create dropped infra cgroup: " (perf (CreateSandboxCgroup_ sp)))) ;;
  p ← on_world (on_srv (allocCtr (mkCtr id (a_containerName a) id false (pi_created info)
                                    (mkSpec None None))));
  on_world (on_srv (setInfra sp p)) ;;
  on_world (on_sandbox sp (SetContainerEnvFile ctrDir create)) ;;
  on_world (perf (SaveSpec sp)) ;;
  on_world (on_srv (modify (AddInfraContainer p))) ;;
  onFailure (on_srv (modify (RemoveInfraContainer p))) ;;
  mret p.

(** The end of the request. *)
Definition storePod (id nm : string) (sp : ptr) (e : goerr) : io T string := λ t,
  match Put nm (mkIC (SandboxObj sp) id) (resourceCleaner t) (resourceStore t) with
  | (rc, PutBlocked) => (Panic "blocked on a watcher", t <| resourceStore := rc |>)
  | (rc, _) => (Fail e, t <| resourceStore := rc |> <| storeResource := true |>)
  end.

Definition finishRun (id nm : string) (sp p : ptr) : io T string :=
  on_store (ResourceStore.Delete nm) ;;
  on_world (on_srv (modify (setCreated (SandboxObj sp)))) ;;
  on_world (ignore (perf (CRIEvent p STARTED_EVENT))) ;;
  mret id.

(** The steps of [RemovePodSandbox] that undo a started infra container. *)
Definition stopInfra (p : ptr) : io W () :=
  r ← try (stopContainer perform hasHooks p stopTimeout);
  match r with
  | inl _ => mret ()
  | inr _ => fail (ErrorsNew "failed to stop container for removal")
  end ;;
  wrap_err "failed to delete container in pod sandbox: " (perf (RuntimeDelete p)) ;;
  wrap_err "failed to write container state: " (perf (ContainerStateToDisk p)).

Definition runInfra (id nm : string) (sp p : ptr) (cgroupParent : string) (addrs : list string) : io T string :=
  setStage nm "sandbox container runtime creation" ;;
  on_world (perf (RuntimeCreate p cgroupParent)) ;;
  when (hasHooks sp)
    (on_world (wrap_err "failed to run pre-stop hook for container: " (perf (HookPreStart p sp)))) ;;
  on_world (ignore (perf (CRIEvent p CREATED_EVENT))) ;;
  on_world (perf (RuntimeStart p)) ;;
  onFailure (stopInfra p) ;;
  on_world (ignore (perf (ContainerStateToDisk p))) ;;
  on_world (set_sb sp (λ sb, sb <| ips := addrs |>)) ;;
  on_world (perf (NriRunPod sp)) ;;
  err ← gets (λ t, ctxErr (env (st_world t)));
  match (if isContextError err then err else None) with
  | Some e => storePod id nm sp e
  | None => finishRun id nm sp p
  end.

(** The request once it owns the name of the pod. *)
Definition runReserved (cfg : PodConfig) (md : PodSandboxMetadata) (id nm ctrID handler : string) : io T string :=
  let labels := populateSandboxLabels (pc_Labels cfg) (pm_Name md) (pm_Uid md) (pm_Namespace md) in
  a ← admission cfg md ctrID nm handler;
  '(pod, shm, logDir) ← prepareStorage cfg labels id nm a;
  let labels := <[KubernetesContainerNameLabel := InfraContainerName]> labels in
  '(sp, info) ← addObject cfg md labels id nm a pod shm logDir;
  '(addrs, _) ← startNetwork cfg nm sp a;
  p ← makeInfra nm sp id a info;
  runInfra id nm sp p (pi_cgroupParent info) addrs.

Definition runBody (cfg : PodConfig) (md : PodSandboxMetadata) (id nm ctrID handler : string) : io T string :=
  r ← try (on_world (on_srv (ReservePodName id nm)));
  match r with
  | inr err => podNameTaken nm err
  | inl _ =>
      onFailure (on_srv (ReleasePodName nm)) ;;
      runReserved cfg md id nm ctrID handler
  end.

(** [generated] and [ctrID] are the IDs generated for the pod and for the name of its
    infra container. *)
Definition prepareRun (generated : string) (req : RunPodSandboxRequest) : outcome (PodConfig * PodSandboxMetadata * string) :=
  b ← SetConfig (C := ptr) (St := St)
        ((λ c, mkPodSandboxConfig (pc_Metadata c) true) <$> rq_Config req) NewBuilder;
  b ← GenerateNameAndID generated b;
  match rq_Config req, c ← rq_Config req; pc_Metadata c, sandboxRef b with
  | Some cfg, Some md, Some sb => Ret (cfg, md, sb_name sb)
  | _, _, _ => Panic "nil pointer dereference"
  end.

Definition runPodSandbox (generated ctrID : string) (req : RunPodSandboxRequest) : io T string :=
  modify (λ t, t <| resourceCleaner := NewResourceCleaner |> <| storeResource := false |>) ;;
  '(cfg, md, nm) ← lift (prepareRun generated req);
  undoing (runBody cfg md generated nm ctrID (rq_RuntimeHandler req)).
End run.

(** ** The lifecycle of a request *)

Section lifecycle.
Context {St E : Type} `{StorerLaws ptr St} `{ConfigEnv} `{PodEnv E}.
Context {x : option ptr}.

Abbreviation CS := (ContainerServer St).
Abbreviation W := (Server.world St E).
Abbreviation T := (state St E).
Abbreviation undoable := (undoable (x := x)).
Abbreviation within := (within (x := x)).
Abbreviation failed := (failed (x := x)).
Abbreviation cleans := (cleans (x := x)).
Abbreviation grows := (grows (x := x)).
Abbreviation reverts := (reverts (x := x)).
Infix "⊑" := (restored (x := x)) (at level 70).

Definition reliable (c : call) : Prop := ∀ e, ∃ e', perform c e = (Ret (), e').

Lemma reliable_perf c (w : W) : reliable c → ∃ w', perf perform c w = (Ret (), w') ∧ srv w' = srv w.
Proof. intros Hc. destruct (Hc (env w)) as [e' He]. unfold perf. rewrite He. by eexists. Qed.

(** *** The undo functions *)

Lemma grows_SetNetworkStopped sp b :
  x = Some sp → grows (on_sandbox (E := E) sp (SetNetworkStopped ctrDir create b)).
Proof.
  intros Hx. apply grows_on_sandbox; [done|]. intros sw.
  unfold SetNetworkStopped, mbind, io_bind, gets, modify, when, wrap_err, mret, io_ret.
  destruct (networkStopped (sbox sw)); [done|]. destruct b; [|done].
  match goal with |- context [createFileInInfraDir _ _ ?f ?s] =>
    pose proof (createFile_keeps ctrDir create f s) as Hk; destruct (createFileInInfraDir ctrDir create f s) as [[] ?] end.
  all: simpl in *; by rewrite Hk.
Qed.

Lemma grows_SetContainerEnvFile sp :
  x = Some sp → grows (on_sandbox (E := E) sp (SetContainerEnvFile ctrDir create)).
Proof.
  intros Hx. apply grows_on_sandbox; [done|]. intros sw.
  unfold SetContainerEnvFile, mbind, io_bind, gets, modify, ignore, lift, mret, io_ret.
  case_bool_decide; [|done]. simpl. destruct (infraFile _ _ _); [|done..]. unfold os_Create. by destruct (create _).
Qed.

Lemma grows_networkStop sp : x = Some sp → grows (networkStop perform ctrDir create sp).
Proof.
  intros Hx. unfold networkStop. apply grows_bind; [by apply grows_keeps, keeps_getSb|]. intros sb.
  destruct (hostNetwork sb || networkStopped sb); [by apply grows_keeps, keeps_ret|].
  apply grows_bind; [by apply grows_keeps, keeps_ignore, keeps_perf|]. intros _.
  apply grows_bind; [by apply grows_keeps, keeps_perf|]. intros _.
  apply grows_bind; [by apply grows_keeps, keeps_try, keeps_perf|]. intros r.
  apply grows_bind; [|intros _; by apply grows_SetNetworkStopped].
  apply grows_keeps. destruct r; [apply keeps_ret|].
  apply keeps_bind; [apply keeps_wrap, keeps_perf|]. intros _. apply keeps_wrap, keeps_perf.
Qed.

(** The network of a sandbox that was never created is stopped without a file. *)
Lemma networkStop_runs sp sb (w : W) :
  reliable (HostportRemove sp) → reliable (NewPodNetwork sp) → reliable (TearDownPod sp) →
  sbs (srv w) !! sp = Some sb → sb_created sb = false →
  ∃ w', networkStop perform ctrDir create sp w = (Ret (), w').
Proof.
  intros R1 R2 R3 Hsb Hc. unfold networkStop.
  rewrite (io_bind_ret (getSb sp) _ w sb w) by (unfold getSb; by rewrite Hsb).
  destruct (hostNetwork sb || networkStopped sb); [by eexists|].
  destruct (reliable_perf _ w R1) as (w1 & Hp1 & Hw1).
  rewrite (io_bind_ret (ignore _) _ w () w1) by (unfold ignore; by rewrite Hp1).
  destruct (reliable_perf _ w1 R2) as (w2 & Hp2 & Hw2). rewrite (io_bind_ret _ _ w1 () w2 Hp2).
  destruct (reliable_perf _ w2 R3) as (w3 & Hp3 & Hw3).
  rewrite (io_bind_ret (try _) _ w2 (inl ()) w3) by (unfold try; by rewrite Hp3).
  rewrite (io_bind_ret (mret ()) _ w3 () w3) by done.
  unfold on_sandbox. rewrite Hw3, Hw2, Hw1, Hsb.
  unfold SetNetworkStopped, mbind, io_bind, gets, modify, when, wrap_err. simpl.
  destruct (networkStopped sb); [by eexists|].
  unfold createFileInInfraDir, mbind, io_bind, gets. simpl. rewrite Hc. by eexists.
Qed.

Lemma reverts_network sp sb s :
  x = Some sp → sbs s !! sp = Some sb → sb_created sb = false →
  reliable (HostportRemove sp) → reliable (NewPodNetwork sp) → reliable (TearDownPod sp) →
  reliable (RemoveNamespaces sp) →
  reverts (wrap_err "error stopping network on cleanup: " (networkStop perform ctrDir create sp) ;;
           removeNamespaces sp) s s.
Proof.
  intros Hx Hsb Hc R1 R2 R3 R4. apply reverts_now. intros w Hw.
  destruct (res_sbs _ _ Hw sp sb Hsb) as (sb' & Hsb' & Hrel). unfold related in Hrel.
  rewrite bool_decide_true in Hrel by done. destruct Hrel as [_ Hcr].
  destruct (networkStop_runs sp sb' w) as [w1 Hr1]; [done|done|done|done|congruence|].
  pose proof (grows_networkStop sp Hx w) as Hg. rewrite Hr1 in Hg. cbn [snd] in Hg.
  destruct (reliable_perf _ w1 R4) as (w2 & Hp & Hw2). exists w2. split.
  - rewrite (io_bind_ret _ _ w () w1) by (unfold wrap_err; by rewrite Hr1).
    unfold removeNamespaces, wrap_err. by rewrite Hp.
  - rewrite Hw2. by etrans.
Qed.

(** The calls that stop the infra container. *)
Definition stops (p sp : ptr) : Prop :=
  reliable (HookPreStop p sp) ∧ reliable (RuntimeStop p stopTimeout) ∧ reliable (ContainerStateToDisk p) ∧
  reliable (HookPostStop p sp) ∧ reliable (NriStop p) ∧ reliable (RuntimeDelete p).

Lemma stopContainer_runs p c sp (w : W) :
  stops p sp → ctrs (srv w) !! p = Some c → st_model (sandboxes (srv w)) !! c_sandbox c = Some sp →
  ∃ w', stopContainer perform hasHooks p stopTimeout w = (Ret (), w').
Proof.
  intros (R1 & R2 & R3 & R4 & R5 & _) Hp Hs. unfold stopContainer.
  rewrite (io_bind_ret (getCtr p) _ w c w) by (unfold getCtr; by rewrite Hp).
  rewrite (io_bind_ret (getSandbox _) _ w sp w)
    by (unfold getSandbox, ContainerServer.GetSandbox; by rewrite st_get_model, Hs).
  destruct (reliable_perf _ w R1) as (w1 & Hp1 & _).
  assert (∃ w1, when (hasHooks sp) (wrap_err "failed to run pre-stop hook for container: "
            (perf perform (HookPreStop p sp))) w = (Ret (), w1)) as [w1' Hw1'].
  { destruct (hasHooks sp); [|by eexists]. exists w1. unfold when, wrap_err. by rewrite Hp1. }
  rewrite (io_bind_ret _ _ w () w1' Hw1').
  destruct (reliable_perf _ w1' R2) as (w2 & Hp2 & _).
  rewrite (io_bind_ret (wrap_err _ _) _ w1' () w2) by (unfold wrap_err; by rewrite Hp2).
  destruct (reliable_perf _ w2 R3) as (w3 & Hp3 & _).
  rewrite (io_bind_ret (ignore _) _ w2 () w3) by (unfold ignore; by rewrite Hp3).
  destruct (reliable_perf _ w3 R4) as (w4 & Hp4 & _).
  assert (∃ w4, when (hasHooks sp) (ignore (perf perform (HookPostStop p sp))) w3 = (Ret (), w4))
    as [w4' Hw4'].
  { destruct (hasHooks sp); [|by eexists]. exists w4. unfold when, ignore. by rewrite Hp4. }
  rewrite (io_bind_ret _ _ w3 () w4' Hw4').
  destruct (reliable_perf _ w4' R5) as (w5 & Hp5 & _). by exists w5.
Qed.

Lemma reverts_stopInfra p c sp s :
  stops p sp → ctrs s !! p = Some c → st_model (sandboxes s) !! c_sandbox c = Some sp →
  reverts (stopInfra p) s s.
Proof.
  intros Hst Hp Hs. apply reverts_now. intros w Hw.
  destruct (stopContainer_runs p c sp w Hst) as [w1 Hr1].
  { by apply Hw. }
  { by rewrite (res_sandboxes _ _ Hw). }
  pose proof (keeps_stopContainer perform hasHooks p stopTimeout w) as Hk. rewrite Hr1 in Hk. cbn [snd] in Hk.
  destruct Hst as (_ & _ & R3 & _ & _ & R6).
  destruct (reliable_perf _ w1 R6) as (w2 & Hp2 & Hw2). destruct (reliable_perf _ w2 R3) as (w3 & Hp3 & Hw3).
  exists w3. split; [|congruence]. unfold stopInfra.
  rewrite (io_bind_ret (try _) _ w (inl ()) w1) by (unfold try; by rewrite Hr1).
  rewrite (io_bind_ret (mret ()) _ w1 () w1) by done.
  rewrite (io_bind_ret (wrap_err _ _) _ w1 () w2) by (unfold wrap_err; by rewrite Hp2).
  unfold wrap_err. by rewrite Hp3.
Qed.

Lemma reliable_eventually c : reliable c → eventually perform c.
Proof. intros Hc e. exists 0%nat. split; [unfold defaultRetryTimes; lia|]. destruct (Hc e) as [e' He]. cbn. by rewrite He. Qed.

(** *** Phases *)

(** Nothing but names and IDs changed. *)
Definition framed (s s' : CS) : Prop :=
  sbs s' = sbs s ∧ sandboxes s' = sandboxes s ∧ infraContainers s' = infraContainers s ∧
  processLevels s' = processLevels s ∧ podNameIndex s' = podNameIndex s.

Definition during (s0 s : CS) (t : T) : Prop := ∃ s', framed s s' ∧ undoable s0 s' t.

Lemma keeps_ask {A} (f : E → outcome A * E) : keeps (ask (St := St) f).
Proof. intros w. unfold ask. by destruct (f (env w)). Qed.

Lemma admission_triple s0 s cfg md ctrID nm handler :
  wf (ctrNameIndex s) → (∀ nm, names (ctrNameIndex s) !! nm ≠ Some ctrID) →
  triple (undoable s0 s) (admission cfg md ctrID nm handler) (λ _, during s0 s) (failed s0).
Proof.
  intros Hwf Hkey. unfold admission. apply undo_store, undo_when; [apply keeps_perf|]. apply undo_store.
  do 3 (apply undo_lift; intros ? _).
  pose proof (Reserve_cases (makeSandboxContainerName md) ctrID _ Hwf) as Hres.
  unfold ReserveSandboxContainerIDAndName.
  destruct (Reserve (makeSandboxContainerName md) ctrID (ctrNameIndex s)) as [r [err|]] eqn:Hr.
  { eapply undo_op_fail. unfold ReserveContainerName. by rewrite Hr. }
  destruct Hres as [Hwr [[Hk _]|[Hfree Hns]]]; [by destruct (Hkey (makeSandboxContainerName md))|].
  eapply (undo_step s0 s (s <| ctrNameIndex := r |>) (ReserveContainerName ctrID (makeSandboxContainerName md))
    (λ a, on_srv (ReleaseContainerName a))).
  { unfold ReserveContainerName. by rewrite Hr. }
  { by eapply reverts_release. }
  apply triple_ret. intros t Ht. by exists (s <| ctrNameIndex := r |>).
Qed.

Lemma createPod_keeps id : keeps (createPod (St := St) id).
Proof.
  apply keeps_bind; [apply keeps_try, keeps_ask|]. intros [pod|e]; [apply keeps_ret|].
  destruct (errors_is e ErrDuplicateName); apply keeps_fail.
Qed.

(** The labels the storage gives are valid. *)
Definition labels_valid (id : string) : Prop :=
  ∀ e pod e', CreatePodSandbox id e = (Ret pod, e') → ∃ l, level (st_ProcessLabel pod) = Ret l.

Lemma createPod_label id (w : W) pod w' :
  labels_valid id → createPod id w = (Ret pod, w') → ∃ l, level (st_ProcessLabel pod) = Ret l.
Proof.
  unfold createPod, ask, try, mbind, io_bind. intros Hv.
  destruct (CreatePodSandbox id (env w)) as [[pod'|e|] e'] eqn:Hc; [|by destruct (errors_is e _)|done].
  intros [= <- _]. by eapply Hv.
Qed.

Lemma addCtrID_undo s0 s id {A} (k : io T A) Q :
  (∀ i, triple (undoable s0 (s <| ctrIDIndex := i |>)) k Q (failed s0)) →
  triple (undoable s0 s) (on_world (on_srv (addCtrID id)) ;; onFailure (deleteCtrID_quiet id) ;; k) Q (failed s0).
Proof.
  intros Hk. destruct (index_add id (ctrIDIndex s)) as [i|e|y] eqn:Hi.
  - eapply (undo_step s0 s (s <| ctrIDIndex := i |>) (addCtrID id) (λ _, deleteCtrID_quiet id) (λ _, k) _ ()).
    { unfold addCtrID. by rewrite Hi. } { by apply reverts_index. } apply Hk.
  - eapply undo_op_fail. unfold addCtrID. by rewrite Hi.
  - intros t [Hs _]. unfold mbind, io_bind, on_world, on_srv, addCtrID. by rewrite Hs, Hi.
Qed.

Lemma addPodID_undo s0 s id {A} (k : io T A) Q :
  (∀ i, id ∈ i → triple (undoable s0 (s <| podIDIndex := i |>)) k Q (failed s0)) →
  triple (undoable s0 s) (on_world (on_srv (addPodID id)) ;; onFailure (deletePodID_quiet id) ;; k) Q (failed s0).
Proof.
  intros Hk. destruct (index_add id (podIDIndex s)) as [i|e|y] eqn:Hi.
  - eapply (undo_step s0 s (s <| podIDIndex := i |>) (addPodID id) (λ _, deletePodID_quiet id) (λ _, k) _ ()).
    { unfold addPodID. by rewrite Hi. } { by apply reverts_pod_index. } apply Hk. by eapply index_add_in.
  - eapply undo_op_fail. unfold addPodID. by rewrite Hi.
  - intros t [Hs _]. unfold mbind, io_bind, on_world, on_srv, addPodID. by rewrite Hs, Hi.
Qed.

Lemma prepareStorage_triple s0 s cfg labels id nm a :
  eventually perform (StorageDelete id) → eventually perform (UnmountShmPath id) → labels_valid id →
  triple (undoable s0 s) (prepareStorage cfg labels id nm a)
    (λ r t, during s0 s t ∧ ∃ l, level (st_ProcessLabel r.1.1) = Ret l) (failed s0).
Proof.
  intros Hsd Hshm Hlab. unfold prepareStorage. apply undo_store.
  apply undo_world_ret; [apply createPod_keeps|]. intros pod w w' Hpod%createPod_label; [|done].
  apply undo_register; [by apply reverts_call|]. destruct (negb _); [apply undo_fail|].
  do 2 (apply undo_world; [apply keeps_perf|intros _]). apply undo_lift. intros _ _. apply undo_store.
  eapply (triple_bind _ _ (λ _, undoable s0 s)).
  { destruct (a_hostIPC a); [by apply triple_ret|]. apply undo_lift. intros _ _.
    apply undo_world; [apply keeps_perf|intros _]. apply undo_register; [by apply reverts_perf|].
    by apply triple_ret. }
  intros shm. apply undo_when; [apply keeps_ignore, keeps_perf|]. apply undo_store.
  apply undo_world; [apply keeps_perf|intros _]. apply addCtrID_undo. intros i.
  apply undo_world; [apply keeps_perf|intros _]. apply triple_ret. intros t Ht. split; [|done].
  by exists (s <| ctrIDIndex := i |>).
Qed.

(** The sandbox under construction, known to the server [s]. *)
Record made (id nm : string) (sp : ptr) (s : CS) : Prop := {
  made_sb : ∃ sb, sbs s !! sp = Some sb ∧ sb_created sb = false;
  made_id : st_model (sandboxes s) !! id = Some sp;
  made_index : id ∈ podIDIndex s;
  made_name : wf (podNameIndex s) ∧ names (podNameIndex s) !! nm = Some id }.

Lemma made_le id nm sp s s' : x = Some sp → made id nm sp s → s ⊑ s' → made id nm sp s'.
Proof.
  intros Hx [(sb & Hsb & Hc) Hid Hix [Hw Hn]] Hs. split.
  - destruct (res_sbs _ _ Hs sp sb Hsb) as (sb' & Hsb' & Hrel). exists sb'. split; [done|].
    unfold related in Hrel. rewrite bool_decide_true in Hrel by done. destruct Hrel. congruence.
  - by rewrite (res_sandboxes _ _ Hs).
  - by rewrite (res_pod_ids _ _ Hs).
  - destruct (res_pod_names _ _ Hs Hw) as [? ->]. done.
Qed.

Lemma addSandbox_undo s0 s sp sb id l {A} (k : io T A) Q :
  x = Some sp → sbs s !! sp = Some sb → sandboxID s sp = id → level (processLabel sb) = Ret l →
  st_model (sandboxes s) !! id = None → (∀ l n, processLevels s !! l = Some n → 0 < n) →
  (∀ m, triple (undoable s0 (s <| sandboxes ::= st_add id sp |> <| processLevels := m |>)) k Q (failed s0)) →
  triple (undoable s0 s) (on_world (on_srv (AddSandbox level sp)) ;;
    onFailure (wrap_err "could not remove pod sandbox: " (on_srv (RemoveSandbox level id))) ;; k) Q (failed s0).
Proof.
  intros Hx Hsb HsID Hl Hid Hlv Hk.
  assert (∃ m, AddSandbox level sp s = (Ret (), s <| sandboxes ::= st_add id sp |> <| processLevels := m |>))
    as [lv Hadd].
  { unfold AddSandbox, mbind, io_bind, modify, addSandboxPlatform. rewrite HsID.
    change (labelOf (s <| sandboxes ::= _ |>) sp) with (labelOf s sp). unfold labelOf. rewrite Hsb.
    simpl. rewrite Hl. by eexists. }
  eapply (undo_step s0 s _ (AddSandbox level sp) (λ _, wrap_err _ (on_srv (RemoveSandbox level id))) (λ _, k) _ ());
    [exact Hadd| |apply Hk].
  eapply (reverts_sandbox level _ sp sb l); [done|done|done|done|done| |exact Hadd]. apply Hlv.
Qed.

Lemma addObject_triple s0 s cfg md labels id nm a pod shm logDir l :
  x = Some (fresh (dom (sbs s))) → level (st_ProcessLabel pod) = Ret l →
  st_model (sandboxes s) !! id = None → (∀ l n, processLevels s !! l = Some n → 0 < n) →
  wf (podNameIndex s) → names (podNameIndex s) !! nm = Some id →
  triple (undoable s0 s) (addObject cfg md labels id nm a pod shm logDir)
    (λ r t, x = Some r.1 ∧ ∃ s', made id nm r.1 s' ∧ infraContainers s' = infraContainers s ∧ within s0 s' t)
    (failed s0).
Proof.
  intros Hx Hl Hid Hlv Hw Hn. unfold addObject. apply undo_lift. intros hostname _.
  eapply (triple_bind _ _ (λ _, undoable s0 s)); [by apply triple_gets|]. intros created_.
  eapply (triple_bind _ _ (λ _, undoable s0 s)).
  { case_bool_decide; [apply undo_fail|by apply triple_ret]. }
  intros _. apply undo_lift. intros minMemory _. apply undo_lift. intros cgroupParent _.
  eapply (triple_bind _ _ (λ _, undoable s0 s)).
  { destruct (a_privileged a); [by apply triple_ret|].
    intros t Ht. unfold wrap_err, mbind, io_bind, gets, lift. destruct (seccompRef _); [done|by exists s|done]. }
  intros seccomp. set (info := mkPodInfo _ _ _ _ _ _ _ _ _ _ _ _ _ _ _ _ _ _ _ _ _ _ _ _ _ _ _ _ _).
  set (sb := podSandbox info). set (sp := fresh (dom (sbs s))). set (s1 := s <| sbs ::= <[sp := sb]> |>).
  assert (sbs s1 !! sp = Some sb) as Hsb by by apply lookup_insert_eq.
  assert (sandboxID s1 sp = id) as HsID by (unfold sandboxID; by rewrite Hsb).
  intros t [Hs Hc]. set (t1 := t <| st_world := (st_world t) <| srv := s1 |> |>).
  assert (on_world (on_srv (allocSb sb)) t = (Ret sp, t1)) as Ha.
  { unfold on_world, on_srv, allocSb. by rewrite Hs. }
  unfold triple. rewrite (io_bind_ret _ _ t sp t1 Ha).
  eapply (addSandbox_undo s0 s1 sp sb id l); [done|done|done|done|done|done| |].
  - intros lv. apply addPodID_undo. intros i Hi. apply triple_ret. intros t' Ht'. split; [done|]. eexists.
    split; [|split; [|by apply undoable_within]]; [|done]. split; [by exists sb| |exact Hi|done].
    simpl. by rewrite model_add, lookup_insert_eq.
  - split; [done|]. eapply cleans_le; [exact Hc|]. apply (restored_allocSb sb s).
Qed.

(** *** The network *)

Lemma AddManagedNamespaces_keeps nss (sb sb' : Sandbox ptr St) :
  AddManagedNamespaces nss sb = Ret sb' → processLabel sb' = processLabel sb ∧ sb_created sb' = sb_created sb.
Proof.
  revert sb. induction nss as [|ns nss IH]; intros sb; simpl; [by intros [= ->]|].
  unfold AddManagedNamespace. destruct ns as [n|]; simpl; [|apply IH].
  by destruct (n_Type n); simpl; intros Hr; try apply IH in Hr.
Qed.

Lemma grows_addNamespaces sp sysctls a : x = Some sp → grows (addNamespaces (St := St) sp sysctls a).
Proof.
  intros Hx w. unfold addNamespaces, mbind, io_bind.
  pose proof (keeps_ask (NewPodNamespaces sysctls (a_hostIPC a) (a_hostNetwork a)) w) as Hk.
  destruct (ask _ w) as [[nss|e|] w1]; cbn [snd] in Hk |- *; [|by rewrite Hk..].
  unfold getSb, deref, lift. destruct (sbs (srv w1) !! sp) as [sb|] eqn:Hsb; cbn [snd]; [|by rewrite Hk].
  destruct (AddManagedNamespaces nss sb) as [sb'| |] eqn:Hns; cbn [snd]; [|by rewrite Hk..].
  rewrite <- Hk. apply AddManagedNamespaces_keeps in Hns as [Hl Hc]. unfold set_sb, on_srv, modify. simpl.
  assert (alter (λ _, sb') sp (sbs (srv w1)) = <[sp := sb']> (sbs (srv w1))) as Halt.
  { apply map_eq. intros q. destruct (decide (q = sp)) as [->|].
    - by rewrite lookup_alter_eq, lookup_insert_eq, Hsb.
    - by rewrite lookup_alter_ne, lookup_insert_ne. }
  rewrite Halt. by apply (restored_with sp sb).
Qed.

Lemma grows_networkStart sp pms : x = Some sp → grows (networkStart (St := St) sp pms).
Proof.
  intros Hx. apply grows_bind; [by apply grows_keeps, keeps_getSb|]. intros sb.
  destruct (hostNetwork sb); [by apply grows_keeps, keeps_ret|].
  apply grows_bind; [by apply grows_keeps, keeps_perf|]. intros _.
  apply grows_defer; [by apply grows_ignore, grows_networkStop|].
  apply grows_bind; [by apply grows_keeps, keeps_wrap, keeps_perf|]. intros _.
  apply grows_bind; [by apply grows_keeps, keeps_wrap, keeps_ask|]. intros y.
  apply grows_bind; [|intros _; by apply grows_keeps, keeps_ret].
  unfold addHostports. case_bool_decide; [by apply grows_keeps, keeps_ret|].
  apply grows_for_each. intros ip. by apply grows_keeps, keeps_wrap, keeps_perf.
Qed.

(** What the environment must do for the pod to be undone. *)
Record cooperative (id : string) : Prop := {
  co_storage : eventually perform (StorageDelete id);
  co_shm : eventually perform (UnmountShmPath id);
  co_labels : labels_valid id;
  co_network sp : reliable (HostportRemove sp) ∧ reliable (NewPodNetwork sp) ∧ reliable (TearDownPod sp) ∧
                  reliable (RemoveNamespaces sp);
  co_stop p sp : stops p sp }.

Lemma startNetwork_triple s0 s cfg id nm sp a :
  cooperative id → x = Some sp → made id nm sp s →
  triple (within s0 s) (startNetwork cfg nm sp a) (λ _, within s0 s) (failed s0).
Proof.
  intros Hco Hx Hm. destruct (co_network _ Hco sp) as (R1 & R2 & R3 & R4). unfold startNetwork.
  apply within_store, within_world; [by apply grows_addNamespaces|intros _]. apply within_store.
  apply within_try; [by apply grows_networkStart|]. intros [y|e].
  - apply within_register; [|by apply triple_ret]. destruct (made_sb _ _ _ _ Hm) as (sb & Hsb & Hc).
    by eapply reverts_network.
  - apply within_register; [by apply reverts_perf, reliable_eventually|].
    apply triple_fail. intros t. apply within_failed.
Qed.

(** *** The infra container *)

Lemma grows_setInfra sp p : x = Some sp → grows (on_srv (E := E) (setInfra (St := St) sp p)).
Proof.
  intros Hx w. unfold on_srv, setInfra. destruct (sbs (srv w) !! sp) as [sb|] eqn:Hsb; [|done].
  unfold SetInfraContainer. destruct (infraContainer sb); [done|].
  by apply (restored_with sp sb (sb <| infraContainer := Some p |>)).
Qed.

(** The pod with its infra container. *)
Definition complete (id nm : string) (sp p : ptr) (s : CS) : Prop :=
  made id nm sp s ∧ st_model (infraContainers s) !! id = Some p ∧ ∃ c, ctrs s !! p = Some c ∧ c_sandbox c = id.

Lemma makeInfra_triple s0 s nm sp id a info :
  x = Some sp → made id nm sp s → st_model (infraContainers s) !! id = None →
  triple (within s0 s) (makeInfra nm sp id a info)
    (λ p t, ∃ s', complete id nm sp p s' ∧ within s0 s' t) (failed s0).
Proof.
  intros Hx Hm Hinf. unfold makeInfra. apply within_store.
  apply within_world; [by apply grows_keeps, keeps_perf|intros _]. apply within_lift. intros rt _.
  eapply (triple_bind _ _ (λ _, within s0 s)).
  { case_match; [by apply within_when, grows_keeps, keeps_perf|by apply within_step, grows_keeps, keeps_wrap, keeps_perf]. }
  intros _. apply within_alloc. intros p s' Hle Hp.
  apply within_world; [by apply grows_setInfra|intros _].
  apply within_world; [by apply grows_SetContainerEnvFile|intros _].
  apply within_world; [by apply grows_keeps, keeps_perf|intros _].
  eapply within_infra; [exact Hp|simpl; by rewrite (res_infra _ _ Hle)|]. intros s2 s3 Hs2 ->. apply triple_ret.
  intros t Ht. eexists. split; [|exact Ht]. pose proof (res_ctrs _ _ Hs2 _ _ Hp) as Hp2.
  assert (made id nm sp s2) as [] by (do 2 (eapply made_le; [done| |done]); done).
  unfold AddInfraContainer. rewrite Hp2. split; [done|]. simpl. split; [by rewrite model_add, lookup_insert_eq|]. by eexists.
Qed.

Lemma grows_set_sb sp f :
  x = Some sp → (∀ sb, processLabel (f sb) = processLabel sb ∧ sb_created (f sb) = sb_created sb) →
  grows (set_sb (E := E) (St := St) sp f).
Proof. intros Hx Hf w. by apply (restored_alter sp f). Qed.

(** The sandbox is created, and its request is over. *)
Definition running (id nm : string) (s : CS) : Prop := ∃ sp p sb,
  ContainerServer.GetSandbox id s = Some sp ∧ GetInfraContainer id s = Some p ∧
  sbs s !! sp = Some sb ∧ sb_created sb = true ∧ id ∈ podIDIndex s ∧ PodIDForName nm s = Ret id.

Lemma finishRun_runs s0 s id nm sp p :
  x = Some sp → complete id nm sp p s →
  triple (within s0 s) (finishRun id nm sp p) (λ id' t, id' = id ∧ running id nm (srv (st_world t))) (failed s0).
Proof.
  intros Hx (Hm & Hinf & _) t [Hle _]. unfold finishRun, mbind, io_bind, on_store, modify, on_world, on_srv, ignore.
  cbn beta iota. set (s1 := srv (st_world t)) in Hle.
  set (w1 := (st_world t) <| srv := setCreated (SandboxObj sp) s1 |>).
  pose proof (keeps_perf (St := St) perform (CRIEvent p STARTED_EVENT) w1) as Hk.
  match goal with |- context [perf perform (CRIEvent p STARTED_EVENT) ?w] => change w with w1 end.
  destruct (perf _ _ w1) as [o w2]. assert (srv w2 = setCreated (SandboxObj sp) s1) as Hw2 by exact Hk.
  apply (made_le id nm sp s s1) in Hm as [(sb & Hsb & _) Hid Hix [Hwf Hn]]; [|done..].
  assert (running id nm (srv w2)) as Hrun.
  { rewrite Hw2. exists sp, p, (Sandbox.SetCreated sb). split_and!; simpl.
    - unfold ContainerServer.GetSandbox. by rewrite st_get_model.
    - unfold GetInfraContainer. rewrite st_get_model. simpl. by rewrite (res_infra _ _ Hle).
    - by rewrite lookup_alter_eq, Hsb.
    - done.
    - done.
    - unfold PodIDForName, Registrar.Get. simpl. by rewrite Hn. }
  by destruct o.
Qed.

Lemma runInfra_triple s0 s id nm sp p cg addrs :
  cooperative id → x = Some sp → complete id nm sp p s →
  triple (within s0 s) (runInfra id nm sp p cg addrs)
    (λ id' t, id' = id ∧ running id nm (srv (st_world t))) (failed s0).
Proof.
  intros Hco Hx Hc. unfold runInfra. apply within_store.
  apply within_world; [by apply grows_keeps, keeps_perf|intros _].
  eapply (triple_bind _ _ (λ _, within s0 s)).
  { by apply within_when, grows_keeps, keeps_wrap, keeps_perf. }
  intros _. apply within_world; [by apply grows_keeps, keeps_ignore, keeps_perf|intros _].
  apply within_world; [by apply grows_keeps, keeps_perf|intros _].
  apply within_register.
  { destruct Hc as ([_ Hid _ _] & _ & c & Hp & Hcs).
    eapply reverts_stopInfra; [apply (co_stop _ Hco)|exact Hp|by rewrite Hcs]. }
  apply within_world; [by apply grows_keeps, keeps_ignore, keeps_perf|intros _].
  apply within_world; [by apply grows_set_sb|intros _].
  apply within_world; [by apply grows_keeps, keeps_perf|intros _].
  eapply (triple_bind _ _ (λ _, within s0 s)); [by apply triple_gets|].
  intros err. destruct (if isContextError err then err else None) as [e|]; [|by apply finishRun_runs].
  intros t Ht. unfold storePod. destruct (Put _ _ _ _) as [rc []]; [by eapply within_failed, Ht..|done].
Qed.

(** *** The request *)

(** The generated IDs are not in use, and the levels are counted; the ID of the pod
    holds no name of a pod. *)
Record available (id ctrID : string) (s : CS) : Prop := {
  av_names : wf (ctrNameIndex s);
  av_ctrID nm : names (ctrNameIndex s) !! nm ≠ Some ctrID;
  av_sandbox : st_model (sandboxes s) !! id = None;
  av_infra : st_model (infraContainers s) !! id = None;
  av_levels l n : processLevels s !! l = Some n → 0 < n }.

Definition unnamed (id : string) (s : CS) : Prop :=
  wf (podNameIndex s) ∧ ∀ nm, names (podNameIndex s) !! nm ≠ Some id.

Lemma triple_during s0 s {A} (m : io T A) Q :
  (∀ s', framed s s' → triple (undoable s0 s') m Q (failed s0)) → triple (during s0 s) m Q (failed s0).
Proof. intros Hm t (s' & Hf & Ht). by apply (Hm s'). Qed.

Lemma runReserved_triple s0 s cfg md id nm ctrID handler :
  cooperative id → available id ctrID s → x = Some (fresh (dom (sbs s))) →
  wf (podNameIndex s) → names (podNameIndex s) !! nm = Some id →
  triple (undoable s0 s) (runReserved cfg md id nm ctrID handler)
    (λ id' t, id' = id ∧ running id nm (srv (st_world t))) (failed s0).
Proof.
  intros Hco [Hwf Hkey Hid Hinf Hlv] Hx Hwp Hnm. unfold runReserved.
  eapply triple_bind; [by apply admission_triple|]. intros a. apply triple_during.
  intros s1 (Hsb1 & Hs1 & Hi1 & Hl1 & Hn1).
  eapply triple_bind; [by apply prepareStorage_triple; apply Hco|]. intros [[pod shm] logDir] t [Hd (l & Hl)].
  revert t Hd. apply triple_during. intros s2 (Hsb2 & Hs2 & Hi2 & Hl2 & Hn2).
  eapply triple_bind.
  { apply (addObject_triple s0 s2 cfg md _ id nm a pod shm logDir l); [congruence|done|congruence| |congruence..].
    intros l0 n. rewrite Hl2, Hl1. apply Hlv. }
  intros [sp info] t (Hxs & s3 & Hm & Hi3 & Ht). revert t Ht.
  eapply triple_bind; [by eapply startNetwork_triple|]. intros [addrs res].
  eapply triple_bind; [apply (makeInfra_triple s0 s3 nm sp id); [done|done|congruence]|].
  intros p t (s4 & Hc & Ht). revert t Ht. by eapply runInfra_triple.
Qed.

Lemma podNameTaken_triple s0 s nm err :
  triple (λ t : T, undoable s0 s t ∧ stored_ids (resourceStore t)) (podNameTaken nm err)
    (λ _ _, True) (failed s0).
Proof.
  intros t [Ht Hids]. assert (∀ e, failed s0 e t) as Hf by by exists s.
  destruct t as [w0 rs rcl sr]. set (t := mkState St E w0 rs rcl sr) in *.
  unfold podNameTaken, mbind, io_bind, try, on_world, gets, fail, mret, io_ret.
  change (st_world t) with w0.
  destruct (PodIDForName nm _) as [id|e|]; cbn beta iota; [|apply (Hf e)|done].
  destruct (match ContainerServer.GetSandbox id _ with Some _ => _ | None => _ end); [done|].
  change (t <| st_world := w0 |>) with t.
  destruct (getResourceOrWait waitErr nm t) as [[cid|e|] t2] eqn:Hg; [done| |done].
  apply getResourceOrWait_fail in Hg as ->; [|done]. by exists s.
Qed.

Lemma runBody_triple s cfg md id nm ctrID handler :
  cooperative id → available id ctrID s → unnamed id s → x = Some (fresh (dom (sbs s))) →
  triple (λ t : T, undoable s s t ∧ stored_ids (resourceStore t)) (runBody cfg md id nm ctrID handler)
    (λ id' t, names (podNameIndex s) !! nm = None → id' = id ∧ running id nm (srv (st_world t))) (failed s).
Proof.
  intros Hco Hav [Hwp Hkey] Hx t [[Hs Hc] Hids]. pose proof (Reserve_cases nm id _ Hwp) as Hres.
  destruct t as [[s' fs e] rs rcl sr]. simpl in Hs. subst s'. simpl in Hc, Hids.
  unfold runBody, mbind at 1, io_bind at 1, try, on_world at 1, on_srv at 1, ReservePodName.
  simpl srv. destruct (Reserve nm id (podNameIndex s)) as [r [err|]] eqn:Hr.
  { eapply triple_conseq; [apply (podNameTaken_triple s s nm (Errorf "error reserving pod name: " err))|done| |done|done].
    intros id' t _ Hfree. unfold Reserve in Hr. by rewrite Hfree in Hr. }
  destruct Hres as [Hwr [[Hk _]|[Hfree Hns]]]; [by destruct (Hkey nm)|]. set (s1 := s <| podNameIndex := r |>).
  assert (names (podNameIndex s1) !! nm = Some id) as Hn by (simpl; by rewrite Hns, lookup_insert_eq).
  assert (available id ctrID s1) as Hav1 by by destruct Hav.
  assert (triple (undoable s s1) (runReserved cfg md id nm ctrID handler)
    (λ id' t, names (podNameIndex s) !! nm = None → id' = id ∧ running id nm (srv (st_world t))) (failed s)) as Hrun.
  { eapply triple_conseq; [by apply (runReserved_triple s s1)|done|done|done]. }
  apply Hrun. split; [done|]. simpl. eapply cleans_add; [done|]. by eapply reverts_release_pod.
Qed.
End lifecycle.

Section theorems.
Context {St E : Type} `{StorerLaws ptr St} `{ConfigEnv} `{PodEnv E}.
Abbreviation T := (state St E).


(** The name of the pod a request asks for. *)
Definition requestPodName (req : RunPodSandboxRequest) : string :=
  match c ← rq_Config req; pc_Metadata c with
  | Some md => Join ["k8s"; pm_Name md; pm_Namespace md; pm_Uid md; Itoa (pm_Attempt md)] "_"
  | None => ""
  end.

Lemma prepareRun_name generated req cfg md nm :
  prepareRun (St := St) generated req = Ret (cfg, md, nm) → nm = requestPodName req.
Proof.
  unfold prepareRun, requestPodName, SetConfig, GenerateNameAndID. destruct (rq_Config req) as [c|]; [|done]. simpl.
  destruct (pc_Metadata c) as [md0|] eqn:Hmd; simpl; [|done]. intros Hr. by go_cases.
Qed.

End theorems.

(** ** Witnesses *)

#[local] Existing Instance ContainerServer.ms_storer.
#[local] Existing Instance ContainerServer.ms_laws.

Module ExampleRun.
Import ExampleTable.
Abbreviation MS := (memoryStore (T := ptr)).
Definition pod : podContainer := mkPodContainer "/var/pod" "/run/pod" "/root" "m" "label" "" "/run/resolv.conf".
(** An environment that logs its calls; [fails] says which of them fail, [valid] whether
    the level of a label is known. *)
Definition environment (fails : call → bool) (valid : bool) : PodEnv (list call) := {|
  perform := λ c l, if fails c then (Fail (ErrorsNew "refused"), l) else (Ret (), l ++ [c]);
  level := λ _, if valid then Ret "s0" else Fail (ErrorsNew "invalid label");
  hasHooks := λ _, true; ctrDir := λ _, "/dir"; create := λ _, None; ctxErr := λ _, None;
  waitErr := ErrorsNew "waited"; stopTimeout := 10;
  runtime := ExampleDispatch.start; workloads := ∅; defaultSysctls := []; defaultLogDir := "/var/log";
  pauseImage := "pause"; dropInfraCtr := false; prefixOrder := [];
  CreatePodSandbox := λ _ l, (Ret pod, l); ParseQuantity := λ _, Ret None;
  SandboxCgroupPath := λ p _ _, Ret p; seccompRef := λ _, Ret "runtime/default";
  NewPodNamespaces := λ _ _ _ l, (Ret [Some (Sandbox.mkNamespace NETNS "/run/netns/a")], l);
  PodNetworkStatus := λ _ l, (Ret (["10.0.0.7"], None), l);
  osHostname := Ret "node"; isIPv6 := λ _, false; marshalNsOpts := λ _, "{}"; marshalPorts := λ _, "[]";
  now := λ _, 7 |}.
Definition req : RunPodSandboxRequest :=
  mkRunRequest (Some (mkPodConfig (Some (mkPodMetadata "web" "u" "ns" 0)) "host" "/var/log/pods"
    [mkPortMapping 80 8080 "TCP" ""] ∅ ∅ "kubepods.slice" None ∅)) "".
Definition t : state MS (list call) := mkState MS (list call) Example3.w NewWithTimeout NewResourceCleaner false.
Definition nri_fails (c : call) : bool := match c with NriRunPod _ => true | _ => false end.

Lemma cooperates fails : (∀ p sp, fails (HookPreStop p sp) = false ∧ fails (RuntimeStop p 10) = false ∧
    fails (ContainerStateToDisk p) = false ∧ fails (HookPostStop p sp) = false ∧ fails (NriStop p) = false ∧
    fails (RuntimeDelete p) = false ∧ fails (HostportRemove sp) = false ∧ fails (NewPodNetwork sp) = false ∧
    fails (TearDownPod sp) = false ∧ fails (RemoveNamespaces sp) = false ∧ fails (StorageDelete "pod9") = false ∧
    fails (UnmountShmPath "pod9") = false) →
  cooperative (H2 := environment fails true) "pod9".
Proof.
  intros Hf.
  assert (∀ c, fails c = false → reliable (H2 := environment fails true) c) as Hr.
  { intros c Hc e. exists (e ++ [c]). cbn. by rewrite Hc. }
  split.
  - by apply reliable_eventually, Hr, (Hf 1%positive 1%positive).
  - by apply reliable_eventually, Hr, (Hf 1%positive 1%positive).
  - intros e pd e' _. by exists "s0".
  - intros sp. split_and!; by apply Hr, (Hf 1%positive sp).
  - intros p sp. unfold stops. split_and!; by apply Hr, (Hf p sp).
Qed.

Lemma is_available : available "pod9" "ctr9" (srv (st_world t)).
Proof.
  split.
  - apply wf_reserve, wf_reserve, wf_new.
  - intros nm Hn. assert (map_Forall (λ _ k, k ≠ "ctr9") (names (ctrNameIndex (srv (st_world t))))) as Hm
      by (refine (bool_decide_unpack _ _); vm_compute; exact I). by apply (Hm nm "ctr9" Hn).
  - vm_compute. reflexivity.
  - vm_compute. reflexivity.
  - intros l n Hn. assert (map_Forall (λ _ n, 0 < n) (processLevels (srv (st_world t)))) as Hm
      by (refine (bool_decide_unpack _ _); vm_compute; exact I). by apply (Hm l n Hn).
Qed.

Lemma is_unnamed : unnamed "pod9" (srv (st_world t)).
Proof.
  split.
  - apply wf_reserve, wf_new.
  - intros nm Hn. assert (map_Forall (λ _ k, k ≠ "pod9") (names (podNameIndex (srv (st_world t))))) as Hm
      by (refine (bool_decide_unpack _ _); vm_compute; exact I). by apply (Hm nm "pod9" Hn).
Qed.
End ExampleRun.

Section run_witnesses.
Import ExampleTable ExampleRun.



(** ** Gaps *)

(** A process label whose level cannot be parsed: the sandbox is in the server before
    its level is counted, and its removal is registered after, so the failed pod stays. *)
Lemma runPodSandbox_bad_label :
  let r := runPodSandbox (H2 := environment (λ _, false) false) "pod9" "ctr9" req t in
  r.1 = Fail (ErrorsNew "invalid label") ∧ storeResource r.2 = false ∧
  is_Some (ContainerServer.GetSandbox "pod9" (srv (st_world r.2))) ∧
  PodIDForName "k8s_web_ns_u_0" (srv (st_world r.2)) ≠ Ret "pod9".
Proof. vm_compute. split_and!; [done|done|by eexists|done]. Qed.

(** The infra container fails to start: its runtime state stays, since its deletion is
    registered only after the start. *)
Definition start_fails (c : call) : bool := match c with RuntimeStart _ => true | _ => false end.
Lemma runPodSandbox_keeps_runtime_container :
  let r := runPodSandbox (H2 := environment start_fails true) "pod9" "ctr9" req t in
  r.1 = Fail (ErrorsNew "refused") ∧ storeResource r.2 = false ∧
  Exists (λ c, match c with RuntimeCreate _ _ => True | _ => False end) (Server.env (st_world r.2)) ∧
  Forall (λ c, match c with RuntimeDelete _ => False | _ => True end) (Server.env (st_world r.2)).
Proof. vm_compute. split_and!; [done|done| |repeat constructor]. repeat first [apply Exists_cons_hd; exact I|apply Exists_cons_tl]. Qed.

(** The name of the infra container is reserved for an ID of its own and not for the
    ID of the pod, under which a restart of the server reserves it. *)
Lemma runPodSandbox_infra_name :
  let r := runPodSandbox (H2 := environment (λ _, false) true) "pod9" "ctr9" req t in
  ContainerIDForName "k8s_POD_web_ns_u_0" (srv (st_world r.2)) = Ret "ctr9".
Proof. vm_compute. reflexivity. Qed.
End run_witnesses.
