(* ===== verification/CtrAnnotations.v ===== *)
(** * CtrAnnotations: the annotations of a container's spec
    (SpecAddAnnotations of internal/factory/container/container.go, against
    LoadContainer of internal/lib/container_server.go)

    The annotations are how a container survives a restart of the server: the factory
    writes them into config.json and [LoadContainer] reads them back.  They are a map
    that is filled in order: the sandbox's, the server's, the container's own ones and
    its labels, the IPs of the pod, those for systemd, the stop signal. *)

From S2P Require Import Prelude GoStrings Registrar MemoryStore Container Sandbox ContainerServer ConfigData PodSpec CtrSpec.
From S2P Require Import Request Create.
Local Open Scope Z_scope.

(** ** Data *)

Definition ann_TTY : string := "io.kubernetes.cri-o.TTY".
Definition ann_Stdin : string := "io.kubernetes.cri-o.Stdin".
Definition ann_StdinOnce : string := "io.kubernetes.cri-o.StdinOnce".
Definition ann_PlatformRuntimePath : string := "io.kubernetes.cri-o.PlatformRuntimePath".
Definition ann_IP : string := "io.kubernetes.cri-o.IP".
Definition OCISeccompBPFHookAnnotation : string := "io.containers.trace-syscall".
Definition podTerminationGracePeriodLabel : string := "io.kubernetes.pod.terminationGracePeriod".

(** The factory, the sandbox and the arguments; the JSON texts nobody reads here are
    strings. *)
Record AnnInput := mkAnnInput {
  a_id : string; a_name : string; a_cfg : CtrConfig; a_sbox : SboxConfig;
  a_sbID : string; a_sbName : string; a_sbLogDir : string; a_sbResolvPath : string; a_sbIPs : list string;
  a_mountPoint : string; a_stopSignal : string; a_RepoTags : list string; a_imageId : string;
  a_isSystemd : bool; a_seccompRef : string; a_platformRuntimePath : string;
  a_created : Z; a_metadataJSON : string; a_volumesJSON : string }.

(** ** Operations *)

(** The sandbox's annotations in the order the map is visited.  The key of the seccomp
    hook for this container is rewritten, also in the container's own annotations,
    which are the map the later steps use; writing to a nil map panics. *)
Fixpoint addSandboxAnnotations (name : string) (order : list (string * string)) (kube : option (gmap string string))
    (m : gmap string string) : outcome (option (gmap string string) * gmap string string) :=
  match order with
  | [] => Ret (kube, m)
  | (k, v) :: order =>
      if bool_decide (k = OCISeccompBPFHookAnnotation +:+ "/" +:+ name) then
        match kube with
        | None => Panic "assignment to entry in nil map"
        | Some a => addSandboxAnnotations name order (Some (<[OCISeccompBPFHookAnnotation := v]> a))
                      (<[OCISeccompBPFHookAnnotation := v]> m)
        end
      else addSandboxAnnotations name order kube (<[k := v]> m)
  end.

Definition ipAnnotations (ips : list string) : list (string * string) :=
  imap (λ idx ip, (ann_IP +:+ "." +:+ Itoa (Z.of_nat idx), ip)) ips.

Definition systemdAnnotations (isSystemd : bool) (kube : gmap string string) : list (string * string) :=
  if isSystemd then
    match kube !! podTerminationGracePeriodLabel with
    | Some t => [("org.systemd.property.TimeoutStopUSec", "uint64 " +:+ t +:+ "000000")]
    | None => []
    end ++ [("org.systemd.property.DefaultDependencies", "true"); ("org.systemd.property.After", "['crio.service']")]
  else [].

Section annotations.
(** [utils.EnsureSaneLogPath], [json.Marshal] of a map, and the time format. *)
Variable sane : string → option goerr.
Variable marshalMap : option (gmap string string) → string.
Variable formatTime : Z → string.

(** Those of the server, in the order they are added. *)
Definition ctrInternalAnnotations (i : AnnInput) (image logPath : string) (kube : option (gmap string string)) :
    list (string * string) :=
  [(ann_UserRequestedImage, image);
   (ann_SomeNameOfTheImage, default "" (head (a_RepoTags i)));
   (ann_ImageRef, a_imageId i);
   (ann_Name, a_name i);
   (ann_ContainerID, a_id i);
   (ann_SandboxID, a_sbID i);
   (ann_SandboxName, a_sbName i);
   (ann_ContainerType, "container");
   (ann_LogPath, logPath);
   (ann_TTY, FormatBool (k_Tty (a_cfg i)));
   (ann_Stdin, FormatBool (k_Stdin (a_cfg i)));
   (ann_StdinOnce, FormatBool (k_StdinOnce (a_cfg i)));
   (ann_ResolvPath, a_sbResolvPath i);
   (ann_ContainerManager, ContainerManagerCRIO);
   (ann_MountPoint, a_mountPoint i);
   (ann_SeccompProfilePath, a_seccompRef i);
   (ann_Created, formatTime (a_created i));
   (ann_PlatformRuntimePath, a_platformRuntimePath i);
   (ann_Metadata, a_metadataJSON i);
   (ann_Labels, marshalMap (k_Labels (a_cfg i)));
   (ann_Volumes, a_volumesJSON i);
   (ann_Annotations, marshalMap kube)].

Definition ctrLateAnnotations (i : AnnInput) (kube : gmap string string) : list (string * string) :=
  ipAnnotations (a_sbIPs i) ++ systemdAnnotations (a_isSystemd i) kube ++
  (if bool_decide (a_stopSignal i = "") then [] else [(ann_stopSignal, a_stopSignal i)]).

(** The new annotations of the container's configuration, and those of the spec. *)
Definition SpecAddAnnotations (order : list (string * string)) (i : AnnInput) (m : gmap string string) :
    outcome (option (gmap string string) * gmap string string) :=
  image ← UserRequestedImage (a_cfg i);
  logPath ← LogPath sane (a_id i) (a_sbLogDir i) (a_cfg i) (a_sbox i);
  '(kube, m) ← addSandboxAnnotations (k_Name (a_cfg i)) order (k_Annotations (a_cfg i)) m;
  let m := addAnnotations (ctrInternalAnnotations i image logPath kube) m in
  let m := default ∅ (k_Labels (a_cfg i)) ∪ (default ∅ kube ∪ m) in
  Ret (kube, addAnnotations (ctrLateAnnotations i (default ∅ kube)) m).
End annotations.

(** ** The annotations that are read again *)

Definition ctrKeys : list string :=
  [ann_UserRequestedImage; ann_SomeNameOfTheImage; ann_ImageRef; ann_Name; ann_ContainerID; ann_SandboxID;
   ann_SandboxName; ann_ContainerType; ann_LogPath; ann_TTY; ann_Stdin; ann_StdinOnce; ann_ResolvPath;
   ann_ContainerManager; ann_MountPoint; ann_SeccompProfilePath; ann_Created; ann_PlatformRuntimePath; ann_Metadata;
   ann_Labels; ann_Volumes; ann_Annotations].

(** The container's annotations and labels use none of the server's keys. *)
Definition ctrForeign (cfg : CtrConfig) : Prop :=
  ∀ k, k ∈ ctrKeys → default ∅ (k_Annotations cfg) !! k = None ∧ default ∅ (k_Labels cfg) !! k = None.

Lemma ctrKeys_NoDup : NoDup ctrKeys.
Proof. refine (bool_decide_unpack _ _). vm_compute. exact I. Qed.

Lemma addSandboxAnnotations_kube name order kube m kube' m' k :
  addSandboxAnnotations name order kube m = Ret (kube', m') → k ≠ OCISeccompBPFHookAnnotation →
  default ∅ kube' !! k = default ∅ kube !! k.
Proof.
  intros H Hk. revert kube m H. induction order as [|[a v] order IH]; intros kube m; cbn; [by intros [= <- <-]|].
  case_bool_decide; [|apply IH]. destruct kube as [kube|]; [|done]. intros ->%IH. cbn.
  by rewrite lookup_insert_ne by auto.
Qed.

Lemma late_not_ctrKeys i kube k : k ∈ (ctrLateAnnotations i kube).*1 → k ∉ ctrKeys.
Proof.
  unfold ctrLateAnnotations. rewrite !fmap_app, !elem_of_app. intros [Hk|Hk].
  - apply list_elem_of_fmap in Hk as ([k' v] & -> & Hk). unfold ipAnnotations in Hk.
    apply list_elem_of_lookup in Hk as [idx Hk]. rewrite list_lookup_imap in Hk.
    destruct (a_sbIPs i !! idx); [|done]. injection Hk as <- <-. cbn [fst]. intros Hin.
    assert (HasPrefix (ann_IP +:+ "." +:+ Itoa (Z.of_nat idx)) (ann_IP +:+ ".") = true) as Hp.
    { rewrite <- append_assoc. apply HasPrefix_app. }
    revert Hp. pose proof (proj1 (Forall_forall (λ k, HasPrefix k (ann_IP +:+ ".") = false) ctrKeys)) as Hall.
    rewrite Hall; [done|refine (bool_decide_unpack _ _); vm_compute; exact I|exact Hin].
  - assert (k ∈ ["org.systemd.property.TimeoutStopUSec"; "org.systemd.property.DefaultDependencies";
      "org.systemd.property.After"; ann_stopSignal]) as Hin.
    { revert Hk. unfold systemdAnnotations.
      destruct (a_isSystemd i), (kube !! podTerminationGracePeriodLabel), (bool_decide (a_stopSignal i = "")); cbn; set_solver. }
    refine (proj1 (Forall_forall (λ k, k ∉ ctrKeys) _) _ k Hin). refine (bool_decide_unpack _ _). vm_compute. exact I.
Qed.

Lemma Ret_pair {A B} (a c : A) (b d : B) : Ret (a, b) = Ret (c, d) → a = c ∧ b = d.
Proof. by intros [= -> ->]. Qed.

Lemma Reserve_free n k r :
  names r !! n = None → ∃ r', Reserve n k r = (r', None) ∧ names r' = <[n := k]> (names r).
Proof. intros Hn. unfold Reserve. rewrite Hn. by eexists. Qed.

(** Steps that succeed. *)
Lemma lift_step {W A B} (o : outcome A) (f : A → io W B) w a : o = Ret a → (lift o ≫= f) w = f a w.
Proof. intros ->. done. Qed.
Lemma defer_step {W A} c (m : io W A) w a w' : m w = (Ret a, w') → defer_on_err c m w = (Ret a, w').
Proof. intros Hm. unfold defer_on_err. by rewrite Hm. Qed.

Section restart.
Context {St : Type} `{StorerLaws ptr St}.
Variable sane : string → option goerr.
Variable marshalMap : option (gmap string string) → string.
Variable formatTime : Z → string.
Abbreviation SpecAddAnnotations := (SpecAddAnnotations sane marshalMap formatTime).
Abbreviation ctrInternalAnnotations := (ctrInternalAnnotations marshalMap formatTime).

(** An annotation of the server that the container does not override is what was
    written, whatever the sandbox's annotations are. *)
Lemma SpecAddAnnotations_read order i m kube anns :
  ctrForeign (a_cfg i) → SpecAddAnnotations order i m = Ret (kube, anns) →
  ∃ image logPath, ∀ k v, (k, v) ∈ ctrInternalAnnotations i image logPath kube → anns !! k = Some v.
Proof.
  intros Hf Hr. unfold CtrAnnotations.SpecAddAnnotations in Hr. go_bind Hr image Hi. go_bind Hr lp Hl.
  go_bind Hr km Hkm. destruct km as [kube1 m1]. apply Ret_pair in Hr as [-> <-]. exists image, lp. intros k v Hin.
  assert (k ∈ ctrKeys) as Hk by (change (k ∈ (ctrInternalAnnotations i image lp kube).*1);
    by apply (list_elem_of_fmap_2 fst _ (k, v))).
  rewrite addAnnotations_notin by (intros Hb%late_not_ctrKeys; done). destruct (Hf k Hk) as [Ha Hb].
  rewrite <- (addSandboxAnnotations_kube _ _ _ _ _ _ k Hkm) in Ha
    by (intros ->; revert Hk; refine (bool_decide_unpack _ _); vm_compute; exact I).
  rewrite !lookup_union, Ha, Hb. rewrite (addAnnotations_in _ _ k v); [done|exact ctrKeys_NoDup|done].
Qed.

Ltac solve_in := first [apply list_elem_of_here | apply list_elem_of_further; solve_in].

(** What a start of the server reads: the decoders undo the encoders, and the parts of
    the environment that [LoadContainer] only needs to succeed do. *)
Variable FromContainerDirectory : string → string → outcome string.
Variable unmarshalSpec : string → outcome (gmap string string * Spec).
Variable unmarshalMap : string → outcome (gmap string string).
Variable unmarshal : string → outcome ().
Variable parseTime : string → outcome Z.
Variable ContainerRunDirectory ContainerDirectory : string → outcome string.
Variable parseBundle fromDisk stateToDisk : string → outcome ().
Hypothesis unmarshalMap_marshal : ∀ m, unmarshalMap (marshalMap m) = Ret (default ∅ m).
Hypothesis parseTime_format : ∀ t, parseTime (formatTime t) = Ret t.

Abbreviation load := (LoadContainer (St := St) FromContainerDirectory unmarshalSpec unmarshalMap unmarshal
  parseTime ContainerRunDirectory ContainerDirectory parseBundle fromDisk stateToDisk).

(** The container [i] was saved with the annotations [anns] and the spec [sp], and its
    files can be read. *)
Record ctrSaved (i : AnnInput) (anns : gmap string string) (sp : Spec) : Prop := {
  cs_config : ∃ config, FromContainerDirectory (a_id i) "config.json" = Ret config ∧ unmarshalSpec config = Ret (anns, sp);
  cs_metadata : unmarshal (a_metadataJSON i) = Ret ();
  cs_volumes : unmarshal (a_volumesJSON i) = Ret ();
  cs_dirs : ∃ run dir, ContainerRunDirectory (a_id i) = Ret run ∧ ContainerDirectory (a_id i) = Ret dir;
  cs_image : ∀ r, r ∈ a_imageId i :: a_RepoTags i → parseBundle r = Ret ();
  cs_state : fromDisk (a_id i) = Ret () ∧ stateToDisk (a_id i) = Ret () }.

(** [LoadContainer] step by step. *)
Lemma load_steps i image lp kube anns spec_ s s1 sp r idx :
  (∀ k v, (k, v) ∈ ctrInternalAnnotations i image lp kube → anns !! k = Some v) → ctrSaved i anns spec_ →
  Reserve (a_name i) (a_id i) (ctrNameIndex s) = (r, None) → s1 = s <| ctrNameIndex := r |> →
  GetSandbox (a_sbID i) s = Some sp → sandboxID s sp = a_sbID i → index_add (a_id i) (ctrIDIndex s) = Ret idx →
  load (a_id i) s = (Ret (), tracked (mkCtr (a_id i) (a_name i) (a_sbID i) true (a_created i) spec_) idx s1).
Proof.
  intros Hread [(config & Hcfg & Hspec) Hmd Hvol (run & dir & Hrun & Hdir) Himg [Hfrom Hto]] Hr Hs1 Hsb Hsid Hidx.
  assert (∀ k v, (k, v) ∈ ctrInternalAnnotations i image lp kube → ann anns k = v) as Hann.
  { intros k v Hin. unfold ann. by rewrite (Hread k v Hin). }
  unfold LoadContainer. rewrite (lift_step _ _ _ _ Hcfg), (lift_step _ _ _ _ Hspec).
  rewrite (Hread ann_ContainerManager ContainerManagerCRIO), bool_decide_true by (done || solve_in). cbn [negb].
  rewrite (Hann ann_Labels (marshalMap (k_Labels (a_cfg i)))), (lift_step _ _ _ _ (unmarshalMap_marshal _)) by solve_in.
  rewrite (Hann ann_Name (a_name i)) by solve_in.
  rewrite (io_bind_ret _ _ s (a_name i) s1) by (unfold ReserveContainerName; by rewrite Hr, Hs1).
  apply defer_step. rewrite (Hann ann_Metadata (a_metadataJSON i)), (lift_step _ _ _ _ Hmd) by solve_in.
  rewrite (Hann ann_SandboxID (a_sbID i)) by solve_in.
  rewrite (io_bind_ret _ _ s1 (Some sp) s1) by (rewrite <- Hsb, Hs1; done).
  rewrite (lift_step _ _ _ _ Hrun), (lift_step _ _ _ _ Hdir).
  rewrite (lift_step _ _ _ ()).
  2: { rewrite (Hread ann_SomeNameOfTheImage (default "" (head (a_RepoTags i)))) by solve_in. case_bool_decide as He; [done|].
       apply Himg. destruct (a_RepoTags i) as [|x l]; [done|]. cbn. set_solver. }
  rewrite (lift_step _ _ _ ()).
  2: { rewrite (Hread ann_ImageRef (a_imageId i)) by solve_in. apply Himg. set_solver. }
  rewrite (Hann ann_Annotations (marshalMap kube)), (lift_step _ _ _ _ (unmarshalMap_marshal _)) by solve_in.
  rewrite (Hann ann_Created (formatTime (a_created i))), (lift_step _ _ _ _ (parseTime_format _)) by solve_in.
  rewrite (io_bind_ret _ _ s1 (a_sbID i) s1) by (unfold gets; rewrite <- Hsid, Hs1; done).
  rewrite (lift_step _ _ _ ()).
  2: { unfold restoreVolumes. rewrite (Hann ann_Volumes (a_volumesJSON i)) by solve_in. by case_bool_decide. }
  rewrite (lift_step _ _ _ _ Hfrom), (lift_step _ _ _ _ Hto). unfold tracked.
  erewrite io_bind_ret by reflexivity. erewrite io_bind_ret by reflexivity. unfold addCtrID.
  assert (∀ p w, ctrIDIndex (AddContainer p w) = ctrIDIndex w) as -> by (intros; unfold AddContainer; by repeat case_match).
  cbn. rewrite Hs1. cbn. by rewrite Hidx.
Qed.

(** C10: a container survives a restart of the server: when its spec was saved with the
    annotations the factory wrote, its pod was loaded, and its name and ID are free,
    [LoadContainer] succeeds and the server knows the container again under its ID,
    with its name, its pod, its time of creation and its spec; its name is reserved,
    and its pod has it.  This holds whatever the annotations of the pod are, provided
    the container's own annotations and labels use none of the server's keys. *)
Theorem LoadContainer_restores order i m kube anns spec_ s sp sb idx :
  ctrForeign (a_cfg i) → SpecAddAnnotations order i m = Ret (kube, anns) → ctrSaved i anns spec_ →
  names (ctrNameIndex s) !! a_name i = None →
  st_model (sandboxes s) !! a_sbID i = Some sp → sbs s !! sp = Some sb → sandboxID s sp = a_sbID i →
  index_add (a_id i) (ctrIDIndex s) = Ret idx →
  ∃ s' p, load (a_id i) s = (Ret (), s') ∧ GetContainer (a_id i) s' = Some p ∧
    ctrs s' !! p = Some (mkCtr (a_id i) (a_name i) (a_sbID i) true (a_created i) spec_) ∧
    ContainerIDForName (a_name i) s' = Ret (a_id i) ∧ ctrIDIndex s' = idx ∧
    sbs s' !! sp = Some (sb <| containers ::= st_add (a_name i) p |>).
Proof.
  intros Hf Hann Hsv Hnm Hsb Hsbo Hsid Hidx.
  destruct (SpecAddAnnotations_read order i m kube anns Hf Hann) as (image & lp & Hread).
  set (c := mkCtr (a_id i) (a_name i) (a_sbID i) true (a_created i) spec_).
  destruct (Reserve_free (a_name i) (a_id i) _ Hnm) as (r & Hr & Hrn).
  set (s1 := s <| ctrNameIndex := r |>).
  destruct (tracked_spec c idx s1 sp sb Hsb Hsbo) as (Hc & Hin & Hsb' & Hn' & Hi' & _).
  exists (tracked c idx s1), (fresh (dom (ctrs s1))).
  split; [|split_and!; [unfold GetContainer; rewrite st_get_model; exact Hin|exact Hc| |exact Hi'|exact Hsb']].
  2: { unfold ContainerIDForName, Registrar.Get. rewrite Hn'. cbn. by rewrite Hrn, lookup_insert_eq. }
  eapply load_steps; [exact Hread|exact Hsv|exact Hr|done| |exact Hsid|exact Hidx].
  unfold GetSandbox. by rewrite st_get_model.
Qed.
End restart.

(** ** Witness *)

#[local] Existing Instance ContainerServer.ms_storer.
#[local] Existing Instance ContainerServer.ms_laws.

Module ExampleCtr.
Import ExamplePod.
Definition cfg : CtrConfig :=
  mkCtrConfig "web" (Some "nginx") None [] (Some {["app" := "web"]}) (Some {["note" := "x"]}) "web.log" false false false
    [] [] None.
Definition input : AnnInput :=
  mkAnnInput "c1" "k8s_web_p_ns_u_0" cfg (mkSboxConfig "/var/log/pods" ∅ None) "pod1" "k8s_p_ns_u_0" "" "/etc/resolv.conf"
    ["10.0.0.2"] "/root" "" ["nginx:1"] "sha" true "runtime/default" "" 7 "{}" "[]".
Definition marshal (m : option (gmap string string)) : string := enc (default ∅ m).
(** The pod's annotations name the container's hook and one of the server's keys. *)
Definition order : list (string * string) := [("io.containers.trace-syscall/web", "of:/tmp/t"); (ann_Name, "other")].
Definition written : option (gmap string string) * gmap string string :=
  match SpecAddAnnotations (λ _, None) marshal enc order input ∅ with Ret r => r | _ => (None, ∅) end.
Definition server : ContainerServer (memoryStore (T := ptr)) := ContainerServer.Example1.s2.
Definition index : TruncIndex := match index_add "c1" (ctrIDIndex server) with Ret i => i | _ => ctrIDIndex server end.
End ExampleCtr.

Section ctr_witness.
Import ExamplePod ExampleCtr.
Lemma LoadContainer_restores_witness :
  ∃ s' p, LoadContainer (λ _ _, Ret "config") (λ _, Ret (written.2, spec_)) dec (λ _, Ret ()) dec (λ _, Ret "/run")
      (λ _, Ret "/dir") (λ _, Ret ()) (λ _, Ret ()) (λ _, Ret ()) "c1" server = (Ret (), s') ∧
    GetContainer "c1" s' = Some p ∧ ContainerIDForName "k8s_web_p_ns_u_0" s' = Ret "c1".
Proof.
  destruct (LoadContainer_restores (λ _, None) marshal enc (λ _ _, Ret "config") (λ _, Ret (written.2, spec_)) dec
    (λ _, Ret ()) dec (λ _, Ret "/run") (λ _, Ret "/dir") (λ _, Ret ()) (λ _, Ret ()) (λ _, Ret ())
    (λ m, dec_enc (default ∅ m)) dec_enc order input ∅ written.1 written.2 spec_ server 1%positive
    ContainerServer.Example1.sb1 index) as (s' & p & Hl & Hp & _ & Hn & _).
  - intros k Hk. refine (proj1 (Forall_forall (λ k, default ∅ (k_Annotations cfg) !! k = None ∧
      default ∅ (k_Labels cfg) !! k = None) ctrKeys) _ k Hk). refine (bool_decide_unpack _ _). vm_compute. exact I.
  - vm_compute. reflexivity.
  - split; [exists "config"; split; reflexivity|reflexivity|reflexivity|exists "/run", "/dir"; split; reflexivity|
      reflexivity|split; reflexivity].
  - vm_compute. reflexivity.
  - vm_compute. reflexivity.
  - vm_compute. reflexivity.
  - vm_compute. reflexivity.
  - vm_compute. reflexivity.
  - exists s', p. exact (conj Hl (conj Hp Hn)).
Defined.
End ctr_witness.

(** A gap: for a container without annotations, whose map is nil, an annotation of the
    pod for the seccomp hook of that container makes the request panic. *)
Lemma SpecAddAnnotations_nil_map sane marshalMap formatTime i v m image lp :
  UserRequestedImage (a_cfg i) = Ret image → LogPath sane (a_id i) (a_sbLogDir i) (a_cfg i) (a_sbox i) = Ret lp →
  k_Annotations (a_cfg i) = None →
  SpecAddAnnotations sane marshalMap formatTime [(OCISeccompBPFHookAnnotation +:+ "/" +:+ k_Name (a_cfg i), v)] i m =
    Panic "assignment to entry in nil map".
Proof.
  intros Hi Hl Hn. unfold SpecAddAnnotations. rewrite Hi, Hl, Hn. cbn [mbind outcome_bind addSandboxAnnotations].
  by rewrite bool_decide_true.
Qed.
