(* ===== verification/CtrBuild.v ===== *)
(** * CtrBuild: building a container ([createSandboxContainer] and its helpers in
    server/container_create_linux.go)

    The function that turns a request into a container object: it looks up the
    image, makes the storage container, runs every part of the spec generation in
    order (CtrSpec, CtrMounts, CtrEnv, CtrAnnotations), hands the result to the NRI
    plugins and the runtime handler hooks, and writes the spec.  What it makes on
    the way and has to take back on a failure is part of the world. *)

From S2P Require Import Prelude GoStrings IPTables CgMgr Container Sandbox ConfigData PodSpec CtrSpec CtrEnv CtrMounts CtrAnnotations.
From Stdlib Require Import Ascii.
Local Open Scope Z_scope.

(** ** Data *)

(** [v1.Image] *)
Record ImageConfig := mkImageConfig {
  ic_Entrypoint : list string; ic_Cmd : list string; ic_Env : list string; ic_User : string;
  ic_WorkingDir : string; ic_StopSignal : string; ic_Volumes : list string; ic_OS : string; ic_Architecture : string }.
(** What is read of the image the storage found. *)
Record ImageResult := mkImageResult {
  ir_Id : string; ir_RepoDigests : list string; ir_RepoTags : list string; ir_Annotations : gmap string string }.
(** [storage.ContainerInfo] *)
Record ContainerInfo := mkContainerInfo {
  ci_ID : string; ci_Dir : string; ci_RunDir : string; ci_RootFs : string; ci_MountLabel : string;
  ci_ProcessLabel : string; ci_Config : option ImageConfig }.

(** The request: the factory with its configuration, and the fields of the
    configuration that CtrSpec does not read. *)
Record BuildRequest := mkBuildRequest {
  b_id : string; b_name : string; b_cfg : CtrConfig; b_sbox : SboxConfig;
  b_sboxSelinuxType : option string;        (** [None] for a nil section on the way *)
  b_mounts : list CRIMount; b_envs : option (list (string * string)); b_WorkingDir : string;
  b_resources : option ResourceRequest; b_restore : bool }.

(** What the function reads of the sandbox. *)
Record PodView := mkPodView {
  p_id : string; p_name : string; p_annotations : gmap string string; p_labels : gmap string string;
  p_processLabel : string; p_handler : string; p_logDir : string; p_cgroupParent : string; p_shmPath : string;
  p_resolvPath : string; p_hostnamePath : string; p_containerEnvPath : string; p_hostname : string;
  p_namespaces : list (string * NSType); p_pidNsPath : string; p_pidIsPod : bool; p_ips : list string }.

(** What the function reads of the configuration and of the node; the questions to
    the runtime handler by their answers. *)
Record BuildConfig := mkBuildConfig {
  f_ReadOnly : bool; f_HostNetworkDisableSELinux : bool; f_Ulimits : list (string * Z * Z);
  f_BindMountPrefix : string; f_AbsentMountSourcesToReject : list string; f_Root : string;
  f_ContainerExitsDir : string; f_EnableCriuSupport : bool;
  f_Devices : list Device; f_AllowedDevices : list string; f_DeviceOwnership : bool;
  f_DefaultCaps : list string; f_AddInheritable : bool; f_DefaultEnv : list string; f_PidsLimit : Z;
  f_ImageVolumes : ImageVolumes; f_CgroupManager : CgroupManager; f_isSystemd : bool; f_Rootless : bool;
  f_cgroupV2 : bool; f_hasPid : bool; f_hasSwap : bool; f_hasHugetlb : bool;
  f_idMap : bool; f_rro : bool; f_minMemory : outcome Z; f_privilegedWithoutHostDevices : outcome bool;
  f_seccompDisabled : bool; f_blockioEnabled : bool; f_blockioReloadRequired : bool; f_Workloads : gmap string WorkloadConfig; f_allowedAnnotations : outcome (list string) }.

(** The parts of the spec that CtrSpec leaves out. *)
Record Extra := mkExtra {
  x_Rlimits : list (string * Z * Z); x_RootReadonly : bool; x_RootPath : string; x_Terminal : bool;
  x_CgroupsPath : string; x_Hostname : string; x_MountLabel : string; x_PidsLimit : option Z;
  x_Umask : option Z; x_ClosID : option string; x_BlockIO : option string; x_Annotations : gmap string string }.
#[export] Instance Extra_eta : Eta Extra := λ x,
  mkExtra (x_Rlimits x) (x_RootReadonly x) (x_RootPath x) (x_Terminal x) (x_CgroupsPath x) (x_Hostname x)
    (x_MountLabel x) (x_PidsLimit x) (x_Umask x) (x_ClosID x) (x_BlockIO x) (x_Annotations x).

(** The other calls that change something outside the spec. *)
Inductive BuildCall :=
| SetStage (stage : string) | ReloadBlockIO
| DeleteStorage (id : string) | RemovePidNs (path : string) | NriUndo
| WriteFips (path : string) | MkdirEtc (path : string) | SymlinkMtab (path : string) | LinkLogs
| SaveSpec (path : string).

Record BW := mkBW {
  bw_mw : MW;                      (** the spec and the calls of the mounts *)
  bw_files : list FileOp;          (** the files generated for users *)
  bw_x : Extra;
  bw_calls : list BuildCall;
  bw_saved : gmap string (OCISpec * Extra);
  bw_storage : gset string;        (** containers in the storage *)
  bw_pidns : option string;        (** the namespace made for this container *)
  bw_nri : bool;                   (** whether the plugins know the container *)
  bw_notifiers : gset string }.    (** seccomp notifiers on record *)
#[export] Instance BW_eta : Eta BW := λ w,
  mkBW (bw_mw w) (bw_files w) (bw_x w) (bw_calls w) (bw_saved w) (bw_storage w) (bw_pidns w) (bw_nri w) (bw_notifiers w).

(** The container object that is returned, as far as it is set here. *)
Record Built := mkBuilt {
  bt_id : string; bt_name : string; bt_bundle : string; bt_logPath : string; bt_dir : string;
  bt_spec : OCISpec * Extra; bt_mountPoint : string; bt_seccompRef : string; bt_runtimePath : string;
  bt_volumes : list ContainerVolume; bt_pidns : option string; bt_stopSignal : string;
  bt_annotations : option (gmap string string) }.

#[export] Instance LinuxContainerSecurityContext_eta : Eta LinuxContainerSecurityContext := λ s,
  mkCtrSecurityContext (cs_Capabilities s) (cs_Privileged s) (cs_NamespaceOptions s) (cs_SelinuxOptions s) (cs_RunAsUser s)
    (cs_RunAsGroup s) (cs_ReadonlyRootfs s) (cs_NoNewPrivs s) (cs_MaskedPaths s) (cs_ReadonlyPaths s) (cs_RunAsUsername s)
    (cs_SupplementalGroups s) (cs_SupplementalGroupsPolicy s).
#[export] Instance CtrConfig_eta : Eta CtrConfig := λ c,
  mkCtrConfig (k_Name c) (k_Image c) (k_Command c) (k_Args c) (k_Labels c) (k_Annotations c) (k_LogPath c) (k_Tty c)
    (k_Stdin c) (k_StdinOnce c) (k_Devices c) (k_CDIDevices c) (k_Linux c).

(** ** Pure parts *)

(** [%q] of an identifier. *)
Definition quoted (s : string) : string := String "034" (s +:+ String "034" "").

Definition newLinuxContainerSecurityContext : LinuxContainerSecurityContext :=
  mkCtrSecurityContext (Some (mkCapRequest [] [])) false (mkNamespaceOption POD POD POD) (Some (mkSELinuxOption "" "" "" ""))
    (Some 0) (Some 0) false false [] [] "" [] GroupsMerge.
Definition securityContextOf (cfg : CtrConfig) : LinuxContainerSecurityContext :=
  match k_Linux cfg with
  | Some (Some sc) => sc <| cs_SelinuxOptions ::= λ o, Some (default (mkSELinuxOption "" "" "" "") o) |>
  | _ => newLinuxContainerSecurityContext
  end.
Definition setContainerConfigSecurityContext (cfg : CtrConfig) : CtrConfig :=
  cfg <| k_Linux := Some (Some (securityContextOf cfg)) |>.

(** [AddProcessRlimits]: a limit of the type that is there already is replaced. *)
Fixpoint addRlimit (u : string * Z * Z) (l : list (string * Z * Z)) : list (string * Z * Z) :=
  match l with
  | [] => [u]
  | v :: l => if bool_decide (v.1.1 = u.1.1) then u :: l else v :: addRlimit u l
  end.

(** The mounts of a read-only root, in the order the map is visited. *)
Definition readOnlyTmpfs : gmap string string :=
  {["/run" := "mode=0755"; "/tmp" := "mode=1777"; "/var/tmp" := "mode=1777"]}.
Definition tmpfsMount (mounts : list CRIMount) (g : OCISpec) (tm : string * string) : OCISpec :=
  if isInCRIMounts tm.1 mounts then g
  else SpecAddMount (mkMount tm.1 "tmpfs" "tmpfs" ["rw"; "noexec"; "nosuid"; "nodev"; "tmpcopyup"; tm.2] [] []) g.
Definition getSpecGen `{RangeOrder} (f : BuildConfig) (readOnly : bool) (mounts : list CRIMount) (gx : OCISpec * Extra) :
    OCISpec * Extra :=
  let x := gx.2 <| x_Rlimits := foldl (λ l u, addRlimit u l) [] (f_Ulimits f) |> <| x_RootReadonly := readOnly |> in
  (if f_ReadOnly f then foldl (tmpfsMount mounts) gx.1 (range readOnlyTmpfs) else gx.1, x).

(** The process label and the mount label. *)
Definition selinuxLabels (f : BuildConfig) (privileged : bool) (ns : NamespaceOption) (info : ContainerInfo) : string * string :=
  let processLabel := if privileged then "" else ci_ProcessLabel info in
  let '(processLabel, mountLabel) :=
    if bool_decide (no_Pid ns = NODE) || bool_decide (no_Ipc ns = NODE) then ("", "") else (processLabel, ci_MountLabel info) in
  (if bool_decide (no_Network ns = NODE) && f_HostNetworkDisableSELinux f then "" else processLabel, mountLabel).

Definition superPrivilegedType : string := "spc_t".
Definition TrySkipVolumeSELinuxLabelAnnotation : string := "io.kubernetes.cri-o.TrySkipVolumeSELinuxLabel".
Definition Cgroup2RWAnnotation : string := "io.kubernetes.cri-o.cgroup2-mount-hierarchy-rw".
Definition DisableFIPSAnnotation : string := "io.kubernetes.cri-o.DisableFIPS".
Definition UmaskAnnotation : string := "io.kubernetes.cri-o.umask".
Definition LinkLogsAnnotation : string := "io.kubernetes.cri-o.LinkLogs".
Definition annotated (k v : string) (m : gmap string string) : bool := bool_decide (m !! k = Some v).

Definition skipRelabelOf (sc : LinuxContainerSecurityContext) (sboxType : option string) : bool :=
  let t := default "" (se_Type <$> cs_SelinuxOptions sc) in
  bool_decide (t = superPrivilegedType) ||
  (bool_decide (sboxType = Some superPrivilegedType) && bool_decide (t = "")).

Definition bindOptions (readOnly : bool) : list string := [if readOnly then "ro" else "rw"].
Definition bindTo (dest src : string) (options : list string) : Mount := mkMount dest "bind" src options [] [].

(** [/sys] and the cgroup file system below it. *)
Definition sysMounts (sysOptions cgroupOptions : list string) (g : OCISpec) : OCISpec :=
  SpecAddMount (mkMount cgroupSysFsPath "cgroup" "cgroup" cgroupOptions [] [])
    (SpecAddMount (mkMount "/sys" "sysfs" "sysfs" sysOptions [] []) g).
Definition hostNetMounts (hostNet : bool) (mounts : list CRIMount) (g : OCISpec) : OCISpec :=
  if hostNet && negb (isInCRIMounts "/sys" mounts)
  then sysMounts ["nosuid"; "noexec"; "nodev"; "ro"] ["nosuid"; "noexec"; "nodev"; "relatime"; "ro"] g
  else g.
Definition privilegedMounts (privileged : bool) (g : OCISpec) : OCISpec :=
  if privileged
  then sysMounts ["nosuid"; "noexec"; "nodev"; "rw"; "rslave"] ["nosuid"; "noexec"; "nodev"; "rw"; "relatime"; "rslave"] g
  else g.

(** The working directory: the request's, else the image's, else the root. *)
Definition cwdOf (image : ImageConfig) (workingDir : string) : string :=
  if bool_decide (workingDir ≠ "") then workingDir
  else if bool_decide (ic_WorkingDir image ≠ "") then ic_WorkingDir image else "/".

(** [^[0-7]{1,4}$] and [strconv.ParseUint(v, 8, 32)] *)
Definition octalDigit (c : ascii) : option Z :=
  let n := Z.of_nat (nat_of_ascii c) in if (48 <=? n) && (n <=? 55) then Some (n - 48) else None.
Fixpoint parseOctal (acc : Z) (s : string) : option Z :=
  match s with
  | EmptyString => Some acc
  | String c s => d ← octalDigit c; parseOctal (8 * acc + d) s
  end.
Definition umaskOf (v : string) : outcome Z :=
  if (1 <=? String.length v)%nat && (String.length v <=? 4)%nat then
    match parseOctal 0 v with
    | Some u => Ret u
    | None => Fail (ErrorsNew ("invalid umask string " +:+ v))
    end
  else Fail (ErrorsNew ("invalid umask string " +:+ v)).

(** ** The host *)

(** What the function asks of the storage, of libraries, of the kernel and of the
    parts of the daemon modelled elsewhere by their own state. *)
Class Host := {
  ParseBundleName : string → outcome string;
  ImageStatusByName : string → outcome ImageResult;
  DupSecOpt : string → outcome (list string);
  createStorage : gmap string string → bool → outcome ContainerInfo;
  EnsureSaneLogPath : string → option goerr;
  buildCall : BuildCall → outcome ();
  (** mounts *)
  sortBy : ∀ A, (A → nat) → list A → list A;
  h_Lstat : string → outcome bool; h_SecureJoin : string → string → outcome string; h_IsNotExist : goerr → bool;
  hostCall : HostCall → outcome (); h_imageStatus : string → outcome (option string);
  h_mountImageAt : string → outcome string; h_openDir : string → outcome (); h_readDir : string → outcome bool;
  h_getMounts : outcome (list MountInfo); mkdirChown : string → Z → Z → outcome (); newID : nat → string;
  (** devices *)
  h_statPath : string → outcome (); DeviceFromPath : string → string → outcome DevNode;
  IsDirectory : string → option goerr; walk : string → list string; replaceOnce : string → string → string → string;
  parseCDI : gmap string string → outcome (list string); injectCDI : list string → OCISpec → outcome OCISpec;
  hostDevices : outcome (list (string * DevNode));
  (** privileges *)
  capabilityList : list (string * Z); LastCap : Z; decodeBase64 : string → option string;
  applyApparmor : option (LinuxContainerSecurityContext → outcome string);   (** [None] when it is disabled *)
  blockioClassOf : gmap string string → gmap string string → outcome string;
  OciLinuxBlockIO : string → outcome string;      (** the parameters of a class, encoded *)
  targetPidNs : option (outcome string);
  seccompSetup : gmap string string → OCISpec → outcome (OCISpec * string * bool);  (** spec, reference, notifier *)
  rdtClass : gmap string string → outcome string;
  platformRuntimePath : string → outcome string; InitLabel : string → outcome string;
  (** users *)
  h_stat : string → outcome (option FileStat); h_readFile : string → outcome (option string);
  parsePasswd : string → outcome (list NamedID); parseGroup : string → outcome (list NamedID);
  GetExecUser : string → outcome (Z * Z * list Z); fileOp : FileOp → outcome ();
  (** annotations *)
  unmarshalResources : string → outcome (option WResources);
  marshalMap : option (gmap string string) → string; formatTime : Z → string; now : Z;
  metadataJSON : string; volumesJSON : list ContainerVolume → string;
  (** the rest *)
  secretMounts : bool → list Mount; ociHooks : option (gmap string string → OCISpec → outcome OCISpec);
  lstatEtc : outcome bool; etcMissing : string → bool; timezonePath : outcome string;
  makeRootless : OCISpec → OCISpec;
  handlerHooks : outcome (option (OCISpec → outcome OCISpec));
  nriCreate : OCISpec → outcome OCISpec }.

Section build.
Context `{Host} `{RangeOrder}.
Variable f : BuildConfig.
Variable b : BuildRequest.
Variable pod : PodView.

(** ** Steps *)

Definition doBuild (c : BuildCall) : io BW () :=
  modify (λ w, w <| bw_calls ::= (.++ [c]) |>) ;; lift (buildCall c).
(** [SetStageForResource] has no result. *)
Definition stage (s : string) : io BW () := ignore (doBuild (SetStage s)).
(** A step on the spec, one that may fail, and one on the rest of the spec. *)
Definition spec_ : io BW OCISpec := gets (λ w, w_spec (bw_mw w)).
Definition onSpec (g : OCISpec → OCISpec) : io BW () := modify (λ w, w <| bw_mw ::= λ m, m <| w_spec ::= g |> |>).
Definition onSpecE (g : OCISpec → outcome OCISpec) : io BW () :=
  s ← spec_; s' ← lift (g s); onSpec (λ _, s').
Definition onExtra (g : Extra → Extra) : io BW () := modify (λ w, w <| bw_x ::= g |>).
Definition onMW {A} (m : io MW A) : io BW A := λ w, let '(r, mw) := m (bw_mw w) in (r, w <| bw_mw := mw |>).
Definition onFiles {A} (m : io (list FileOp) A) : io BW A := λ w,
  let '(r, l) := m (bw_files w) in (r, w <| bw_files := l |>).
Definition check (e : option goerr) : io BW () := lift (of_err e).
Definition secureLabel (path mountLabel : string) : io BW () :=
  onMW (call hostCall (SecurityLabel path mountLabel false false)).

Definition FilterDisallowed (m : gmap string string) : outcome (gmap string string) :=
  allowed ← f_allowedAnnotations f;
  Workloads_FilterDisallowedAnnotations (allowed ++ Workloads_AllowedAnnotations (f_Workloads f) (p_annotations pod)) m.

(** The first part: the configuration without the annotations that are not allowed
    and with a security context, whether the container is privileged, the image and
    the label options. *)
Record Prepared := mkPrepared {
  pr_cfg : CtrConfig; pr_sc : LinuxContainerSecurityContext; pr_privileged : bool; pr_readOnly : bool;
  pr_image : string; pr_result : ImageResult; pr_labels : gmap string string }.
Definition prepare : io BW Prepared :=
  kept ← lift (FilterDisallowed (default ∅ (k_Annotations (b_cfg b))));
  let cfg := (b_cfg b) <| k_Annotations ::= fmap (λ _, kept) |> in
  privileged ← lift (SetPrivileged (Some cfg) (Some (b_sbox b)) false);
  let sc := securityContextOf cfg in
  let cfg := setContainerConfigSecurityContext cfg in
  readOnly ← lift (ReadOnly (f_ReadOnly f) cfg);
  modify (λ w, let '(g, x) := getSpecGen f readOnly (b_mounts b) (w_spec (bw_mw w), bw_x w) in
               w <| bw_mw ::= λ m, m <| w_spec := g |> |> <| bw_x := x |>) ;;
  image ← lift (UserRequestedImage cfg);
  bundleName ← lift (ParseBundleName image);
  result ← lift (ImageStatusByName bundleName);
  labelOptions ← lift (SelinuxLabel DupSecOpt (p_processLabel pod) cfg);
  stage "container storage creation" ;;
  mret (mkPrepared cfg sc privileged readOnly image result labelOptions).

(** The storage container; on a failure of the rest it is deleted. *)
Definition makeStorage (p : Prepared) : io BW ContainerInfo :=
  info ← lift (createStorage (pr_labels p) (pr_privileged p));
  modify (λ w, w <| bw_storage ::= ({[ci_ID info]} ∪.) |>) ;;
  mret info.
Definition deleteStorage (id : string) : io BW () :=
  ignore (doBuild (DeleteStorage id) ;; modify (λ w, w <| bw_storage ::= (.∖ {[id]}) |>)).

Definition volumes (p : Prepared) (mountLabel : string) : io BW (list ContainerVolume * list Mount) :=
  stage "container volume configuration" ;;
  onMW (addOCIBindMounts sortBy h_Lstat h_SecureJoin h_IsNotExist hostCall h_imageStatus h_mountImageAt h_openDir h_readDir
    (mkMountRequest mountLabel (f_BindMountPrefix f) (f_AbsentMountSourcesToReject f)
       (annotated TrySkipVolumeSELinuxLabelAnnotation "true" (p_annotations pod))
       (skipRelabelOf (pr_sc p) (b_sboxSelinuxType b))
       (f_cgroupV2 f && annotated Cgroup2RWAnnotation "true" (p_annotations pod))
       (f_idMap f) (f_rro f) (f_Root f) (b_restore b) (f_ContainerExitsDir f))
    h_getMounts (b_mounts b)).

Definition specSetDevices (p : Prepared) : io BW () :=
  without ← lift (f_privilegedWithoutHostDevices f);
  annotationDevices ← lift (DevicesFromAnnotation DeviceFromPath
    (default "" (p_annotations pod !! "io.kubernetes.cri-o.Devices")) (f_AllowedDevices f));
  onSpecE (SpecAddDevices h_statPath (h_SecureJoin "/") DeviceFromPath IsDirectory walk replaceOnce h_IsNotExist parseCDI injectCDI
    (f_Devices f) annotationDevices hostDevices (pr_privileged p) without (f_DeviceOwnership f) (pr_sc p) (pr_cfg p)).

Definition specSetApparmorProfile (p : Prepared) : io BW () :=
  match applyApparmor with
  | Some apply_ =>
      if pr_privileged p then mret ()
      else
        profile ← wrap_err ("applying apparmor profile to container " +:+ b_id b +:+ ": ") (lift (apply_ (pr_sc p)));
        onSpec (λ g, g <| g_ApparmorProfile := profile |>)
  | None => mret ()
  end.

(** A class that is not found, or that the library cannot translate, is skipped; only
    a reload can fail. *)
Definition specSetBlockioClass (p : Prepared) : io BW () :=
  when (f_blockioEnabled f)
    (r ← try (lift (blockioClassOf (default ∅ (k_Annotations (pr_cfg p))) (p_annotations pod)));
     match r with
     | inl class =>
         when (bool_decide (class ≠ ""))
           (when (f_blockioReloadRequired f) (doBuild ReloadBlockIO) ;;
            params ← try (lift (OciLinuxBlockIO class));
            match params with
            | inl params => onExtra (λ x, x <| x_BlockIO := Some params |>)
            | inr _ => mret ()
            end)
     | inr _ => mret ()
     end).

(** Labels, profiles, log path, terminal, resources, cgroup and privileges. *)
Definition basics (p : Prepared) : io BW string :=
  stage "container device creation" ;;
  specSetDevices p ;;
  stage "container spec configuration" ;;
  check (validateLabels (default ∅ (k_Labels (pr_cfg p)))) ;;
  specSetApparmorProfile p ;;
  ignore (specSetBlockioClass p) ;;
  logPath ← lift (LogPath EnsureSaneLogPath (b_id b) (p_logDir pod) (pr_cfg p) (b_sbox b));
  onExtra (λ x, x <| x_Terminal := k_Tty (pr_cfg p) |>) ;;
  when (k_Tty (pr_cfg p)) (onSpec (AddProcessEnv "TERM" "xterm")) ;;
  match b_resources b with
  | Some resources =>
      minMemory ← lift (f_minMemory f);
      onSpecE (SpecSetLinuxContainerResources (f_hasSwap f) (f_hasHugetlb f) (f_cgroupV2 f) resources minMemory)
  | None => mret ()
  end ;;
  onExtra (λ x, x <| x_CgroupsPath := ContainerCgroupPath (f_CgroupManager f) (p_cgroupParent pod) (b_id b) |>) ;;
  onSpecE (SpecSetPrivileges capabilityList LastCap (pr_privileged p) (pr_sc p) (f_DefaultCaps f) (f_AddInheritable f)) ;;
  onSpecE (AddUnifiedResourcesFromAnnotations decodeBase64 (pr_cfg p) (p_annotations pod)) ;;
  mret logPath.

(** The namespaces; one made for the target's PID namespace belongs to the container. *)
Definition namespaces (p : Prepared) : io BW () :=
  onSpecE (SpecAddNamespaces (p_namespaces pod) (p_pidNsPath pod) (p_pidIsPod pod) targetPidNs (pr_sc p)) ;;
  match no_Pid (cs_NamespaceOptions (pr_sc p)), targetPidNs with
  | TARGET, Some (Ret path) => modify (λ w, w <| bw_pidns := Some path |>)
  | _, _ => mret ()
  end.
Definition removePidNs : io BW () := λ w,
  match bw_pidns w with
  | Some path => ignore (doBuild (RemovePidNs path) ;; modify (λ w, w <| bw_pidns := None |>)) w
  | None => (Ret (), w)
  end.

(** A file of the pod that is there is labelled and mounted. *)
Definition podFile (dest path mountLabel : string) (options : list string) : io BW () :=
  when (bool_decide (path ≠ ""))
    (secureLabel path mountLabel ;; onSpec (SpecAddMount (bindTo dest path options))).

(** The mounts of [/sys], the command, the cgroup namespace and the files of the pod. *)
Definition baseMounts (p : Prepared) (info : ContainerInfo) (mountLabel : string) : io BW ImageConfig :=
  let hostNet := bool_decide (no_Network (cs_NamespaceOptions (pr_sc p)) = NODE) in
  onSpec (hostNetMounts hostNet (b_mounts b)) ;;
  onSpec (privilegedMounts (pr_privileged p)) ;;
  image ← match ci_Config info with
          | None => fail (ErrorsNew ("empty image config for " +:+ pr_image p))
          | Some image => mret image
          end;
  onSpecE (SpecSetProcessArgs (Some (ic_Cmd image, ic_Entrypoint image)) (pr_cfg p)) ;;
  when (negb (pr_privileged p) && f_cgroupV2 f) (onSpecE (AddOrReplaceLinuxNamespace "cgroup" "")) ;;
  onSpec (SpecAddMount (bindTo "/dev/shm" (p_shmPath pod) ["rw"; "bind"])) ;;
  let options := bindOptions (pr_readOnly p) in
  podFile "/etc/resolv.conf" (p_resolvPath pod) mountLabel (options ++ ["bind"; "nodev"; "nosuid"; "noexec"]) ;;
  podFile "/etc/hostname" (p_hostnamePath pod) mountLabel (options ++ ["bind"]) ;;
  podFile "/run/.containerenv" (p_containerEnvPath pod) mountLabel (options ++ ["bind"]) ;;
  when (negb (isInCRIMounts "/etc/hosts" (b_mounts b)) && hostNet)
    (onSpec (SpecAddMount (bindTo "/etc/hosts" "/etc/hosts" (options ++ ["bind"])))) ;;
  when (pr_privileged p) (onSpec setOCIBindMountsPrivileged) ;;
  onExtra (λ x, x <| x_Hostname := p_hostname pod |>) ;;
  onSpec (AddProcessEnv "HOSTNAME" (p_hostname pod)) ;;
  mret image.

(** Seccomp: the notifier of the profile is put on record. *)
Definition seccomp (p : Prepared) (imageAnnotations : gmap string string) : io BW string :=
  when (f_seccompDisabled f) (onSpec (λ g, g <| g_Seccomp := false |>)) ;;
  if pr_privileged p then mret "Unconfined"
  else
    g ← spec_;
    r ← wrap_err "setup seccomp: " (lift (seccompSetup imageAnnotations g));
    let '(g, ref, notifier) := r in
    onSpec (λ _, g) ;;
    when notifier (modify (λ w, w <| bw_notifiers ::= ({[b_id b]} ∪.) |>)) ;;
    mret ref.

Definition ResctrlPrefix : string := "".
(** Annotations, seccomp, RDT class and runtime path; the new annotations of the
    configuration, the seccomp reference and the path. *)
Definition describe (p : Prepared) (info : ContainerInfo) (image : ImageConfig) (vols : list ContainerVolume) :
    io BW (option (gmap string string) * string * string) :=
  imageAnnotations ← wrap_err "filter image annotations: " (lift (FilterDisallowed (ir_Annotations (pr_result p))));
  seccompRef ← seccomp p imageAnnotations;
  class ← lift (rdtClass (default ∅ (k_Annotations (pr_cfg p))));
  when (bool_decide (class ≠ "")) (onExtra (λ x, x <| x_ClosID := Some (ResctrlPrefix +:+ class) |>)) ;;
  runtimePath ← lift (platformRuntimePath (ic_OS image +:+ "/" +:+ ic_Architecture image));
  x ← gets bw_x;
  r ← lift (SpecAddAnnotations EnsureSaneLogPath marshalMap formatTime (range (p_annotations pod))
    (mkAnnInput (b_id b) (b_name b) (pr_cfg p) (b_sbox b) (p_id pod) (p_name pod) (p_logDir pod) (p_resolvPath pod) (p_ips pod)
       (ci_RootFs info) (ic_StopSignal image) (ir_RepoTags (pr_result p)) (ir_Id (pr_result p)) (f_isSystemd f) seccompRef
       runtimePath now metadataJSON (volumesJSON vols)) (x_Annotations x));
  onExtra (λ x, x <| x_Annotations := r.2 |>) ;;
  mret (r.1, seccompRef, runtimePath).

(** The CPU part of the spec as a workload changes it. *)
Definition toSpecCPU (c : LinuxCPU) : SpecCPU := mkSpecCPU (cpu_Cpus c) (cpu_Shares c) (cpu_Quota c) (cpu_Period c).
Definition ofSpecCPU (s : SpecCPU) (c : LinuxCPU) : LinuxCPU :=
  mkLinuxCPU (spec_shares s) (spec_quota s) (spec_period s) (spec_cpus s) (cpu_Mems c).
Definition mutateWorkload (g : OCISpec) : outcome OCISpec :=
  s ← MutateSpecGivenAnnotations unmarshalResources (f_Workloads f) (k_Name (b_cfg b)) (toSpecCPU (g_CPU g)) (p_annotations pod);
  Ret (g <| g_CPU ::= ofSpecCPU s |>).

Definition setupWorkingDirectory (rootfs mountLabel containerCwd : string) : io BW () :=
  fp ← lift (h_SecureJoin rootfs containerCwd);
  onMW (call hostCall (MkdirAll fp)) ;;
  when (bool_decide (mountLabel ≠ "")) (secureLabel fp mountLabel).

(** Environment, user, image volumes and working directory. *)
Definition process (p : Prepared) (info : ContainerInfo) (image : ImageConfig) (mountLabel : string) : io BW (list Mount) :=
  onSpecE mutateWorkload ;;
  onSpecE (specSetEnv (f_DefaultEnv f) (Some (ic_Env image)) (b_envs b)) ;;
  g ← spec_;
  g ← onFiles (setupContainerUser (h_SecureJoin (ci_RootFs info)) h_stat h_readFile parsePasswd parseGroup h_IsNotExist GetExecUser fileOp
         (λ path, hostCall (SecurityLabel path mountLabel false false)) (ic_User image) (ci_RunDir info) (Some (pr_sc p)) g);
  onSpec (λ _, g) ;;
  volumeMounts ← lift (addImageVolumes h_SecureJoin mkdirChown (λ path, hostCall (MkdirAll path))
    (λ path label, hostCall (SecurityLabel path label true false)) newID (f_ImageVolumes f) (ci_RootFs info) (ci_RunDir info)
    mountLabel (g_UID g) (g_GID g) 0 (ic_Volumes image));
  let cwd := cwdOf image (b_WorkingDir b) in
  onSpec (λ g, g <| g_Cwd := cwd |>) ;;
  setupWorkingDirectory (ci_RootFs info) mountLabel cwd ;;
  mret volumeMounts.

Definition disableFipsForContainer (containerDir : string) : io BW () :=
  let fileName := PathJoin [containerDir; "sysctl-fips"] in
  wrap_err "failed to write to file: " (doBuild (WriteFips fileName)) ;;
  onSpec (SpecAddMount (mkMount "/proc/sys/crypto/fips_enabled" "bind" fileName ["noexec"; "nosuid"; "nodev"; "ro"; "bind"] [] [])).

(** The secrets, and every mount of the request, the image and the secrets. *)
Definition allMounts (info : ContainerInfo) (ociMounts volumeMounts : list Mount) : io BW () :=
  let secrets := secretMounts (DisableFips (b_sbox b)) in
  when (DisableFips (b_sbox b) && annotated DisableFIPSAnnotation "true" (p_annotations pod))
    (wrap_err ("failed to disable FIPS for container " +:+ b_id b +:+ ": ") (disableFipsForContainer (ci_RunDir info))) ;;
  onSpec (addSortedMounts sortBy ociMounts volumeMounts secrets).

(** Systemd, OCI hooks, the limit of processes, labels and the umask; the process
    label that is used. *)
Definition finishSpec (p : Prepared) (info : ContainerInfo) (kube : option (gmap string string)) (processLabel mountLabel : string) :
    io BW () :=
  g ← spec_;
  systemd ← lift (WillRunSystemd g);
  processLabel ← (if systemd : bool then
                    l ← lift (InitLabel processLabel);
                    onSpec (λ g, setupSystemd (f_cgroupV2 f) (g_Mounts g) g) ;;
                    mret l
                  else mret processLabel);
  match ociHooks with
  | Some hooks => onSpecE (hooks (p_annotations pod ∪ default ∅ kube))
  | None => mret ()
  end ;;
  when (f_hasPid f) (onExtra (λ x, x <| x_PidsLimit := Some (f_PidsLimit f) |>)) ;;
  onExtra (λ x, x <| x_RootPath := ci_RootFs info |>) ;;
  onExtra (λ x, x <| x_MountLabel := mountLabel |>) ;;
  onSpec (λ g, g <| g_SelinuxLabel := processLabel |>) ;;
  onSpecE (RemoveLinuxNamespace "user") ;;
  let v := default "" (p_annotations pod !! UmaskAnnotation) in
  when (bool_decide (v ≠ ""))
    (u ← lift (umaskOf v); onExtra (λ x, x <| x_Umask := Some u |>)).

Definition configureTimezone (mountLabel : string) (options : list string) : io BW () :=
  localTimePath ← wrap_err ("setting timezone for container " +:+ b_id b +:+ ": ") (lift timezonePath);
  when (bool_decide (localTimePath ≠ ""))
    (secureLabel localTimePath mountLabel ;;
     onSpec (SpecAddMount (bindTo "/etc/localtime" localTimePath (options ++ ["bind"; "nodev"; "nosuid"; "noexec"])))).

(** The directory [/etc] of the container: an odd one is only worth a warning. *)
Definition prepareEtc (info : ContainerInfo) (mountLabel : string) (options : list string) : io BW () :=
  r ← try (lift lstatEtc);
  match r with
  | inr e => if h_IsNotExist e then mret () else fail e
  | inl _ => mret ()
  end ;;
  etcPath ← wrap_err "failed to resolve container /etc directory path: " (lift (h_SecureJoin (ci_RootFs info) "/etc"));
  when (etcMissing etcPath) (wrap_err "failed to create container /etc directory: " (doBuild (MkdirEtc etcPath))) ;;
  doBuild (SymlinkMtab (PathJoin [etcPath; "mtab"])) ;;
  wrap_err ("failed to configure timezone for container " +:+ b_id b +:+ ": ") (configureTimezone mountLabel options) ;;
  when (f_Rootless f) (onSpec makeRootless).

Definition saveSpec (path : string) : io BW () :=
  doBuild (SaveSpec path) ;;
  modify (λ w, w <| bw_saved ::= <[path := (w_spec (bw_mw w), bw_x w)]> |>).
Definition undoNri : io BW () := ignore (doBuild NriUndo ;; modify (λ w, w <| bw_nri := false |>)).

(** The plugins, the hooks of the handler, and the spec on disk. *)
Definition save (info : ContainerInfo) (hooks : option (OCISpec → outcome OCISpec)) : io BW (OCISpec * Extra) :=
  match hooks with
  | Some preCreate => wrap_err ("failed to run pre-create hook for container " +:+ quoted (b_id b) +:+ ": ") (onSpecE preCreate)
  | None => mret ()
  end ;;
  when (bool_decide (is_Some (p_annotations pod !! LinkLogsAnnotation))) (ignore (doBuild LinkLogs)) ;;
  saveSpec (PathJoin [ci_Dir info; "config.json"]) ;;
  saveSpec (PathJoin [ci_RunDir info; "config.json"]) ;;
  gets (λ w, (w_spec (bw_mw w), bw_x w)).
Definition handOver (info : ContainerInfo) : io BW (OCISpec * Extra) :=
  hooks ← match handlerHooks with
          | Ret h => mret h
          | Fail _ => fail (ErrorsNew ("failed to get runtime handler " +:+ quoted (p_handler pod) +:+ " hooks"))
          | Panic s => panic s
          end;
  onSpecE nriCreate ;;
  modify (λ w, w <| bw_nri := true |>) ;;
  defer_on_err undoNri (save info hooks).

(** What follows the namespaces. *)
Definition afterNamespaces (p : Prepared) (info : ContainerInfo) (labels : string * string) (logPath : string)
    (vols : list ContainerVolume) (ociMounts : list Mount) : io BW Built :=
  image ← baseMounts p info labels.2;
  r ← describe p info image vols;
  let '(kube, seccompRef, runtimePath) := r in
  volumeMounts ← process p info image labels.2;
  allMounts info ociMounts volumeMounts ;;
  finishSpec p info kube labels.1 labels.2 ;;
  prepareEtc info labels.2 (bindOptions (pr_readOnly p)) ;;
  sp ← handOver info;
  pidns ← gets bw_pidns;
  mret (mkBuilt (b_id b) (b_name b) (ci_RunDir info) logPath (ci_Dir info) sp (ci_RootFs info) seccompRef runtimePath vols pidns
          (ic_StopSignal image) kube).

(** What follows the storage. *)
Definition afterStorage (p : Prepared) (info : ContainerInfo) : io BW Built :=
  let labels := selinuxLabels f (pr_privileged p) (cs_NamespaceOptions (pr_sc p)) info in
  vm ← volumes p labels.2;
  logPath ← basics p;
  namespaces p ;;
  defer_on_err removePidNs (afterNamespaces p info labels logPath vm.1 vm.2).

Definition createSandboxContainer : io BW Built :=
  p ← prepare;
  info ← makeStorage p;
  defer_on_err (deleteStorage (ci_ID info)) (afterStorage p info).
End build.

(** ** What a build makes and takes back *)

(** The storage containers, the namespace and the plugins' knowledge. *)
Definition made (w : BW) : gset string * option string * bool := (bw_storage w, bw_pidns w, bw_nri w).
Definition sameMade (w w' : BW) : Prop := made w' = made w.
#[export] Instance sameMade_preorder : PreOrder sameMade.
Proof. split; [by intros w|]. intros w1 w2 w3. unfold sameMade. congruence. Qed.

Section build_theorems.
Context `{Host} `{RangeOrder}.
Variable f : BuildConfig.
Variable b : BuildRequest.
Variable pod : PodView.

Lemma same_onMW {A} (m : io MW A) : evolves sameMade (onMW m).
Proof. intros w r w' Hr. unfold onMW in Hr. destruct (m (bw_mw w)). by injection Hr as _ <-. Qed.
Lemma same_onFiles {A} (m : io (list FileOp) A) : evolves sameMade (onFiles m).
Proof. intros w r w' Hr. unfold onFiles in Hr. destruct (m (bw_files w)). by injection Hr as _ <-. Qed.
Lemma same_onSpec g : evolves sameMade (onSpec g).
Proof. by apply evolves_modify. Qed.
Lemma same_onExtra g : evolves sameMade (onExtra g).
Proof. by apply evolves_modify. Qed.
Lemma same_onSpecE g : evolves sameMade (onSpecE g).
Proof. unfold onSpecE, spec_. evolve. apply same_onSpec. Qed.
Lemma same_doBuild c : evolves sameMade (doBuild c).
Proof. unfold doBuild. evolve. by apply evolves_modify. Qed.
Lemma same_check e : evolves sameMade (check e).
Proof. unfold check. evolve. Qed.
Lemma same_spec : evolves sameMade spec_.
Proof. unfold spec_. evolve. Qed.
Hint Resolve same_onMW same_onFiles same_onSpec same_onExtra same_onSpecE same_doBuild same_check same_spec : evolves.
Lemma same_stage s : evolves sameMade (stage s).
Proof. unfold stage. evolve. Qed.
Lemma same_secureLabel path l : evolves sameMade (secureLabel path l).
Proof. unfold secureLabel. evolve. Qed.
Hint Resolve same_stage same_secureLabel : evolves.

Lemma same_prepare : evolves sameMade (prepare f b pod).
Proof. unfold prepare. evolve. apply evolves_modify. intros w. by destruct (getSpecGen _ _ _ _). Qed.
Lemma same_volumes p l : evolves sameMade (volumes f b pod p l).
Proof. unfold volumes. evolve. Qed.
Lemma same_basics p : evolves sameMade (basics f b pod p).
Proof. unfold basics, specSetDevices, specSetApparmorProfile, specSetBlockioClass. evolve. Qed.
Lemma same_baseMounts p info l : evolves sameMade (baseMounts f b pod p info l).
Proof. unfold baseMounts, podFile. evolve. Qed.
Lemma same_describe p info image vols : evolves sameMade (describe f b pod p info image vols).
Proof. unfold describe, seccomp. evolve. by apply evolves_modify. Qed.
Lemma same_process p info image l : evolves sameMade (process f b pod p info image l).
Proof. unfold process, setupWorkingDirectory. evolve. Qed.
Lemma same_allMounts info m1 m2 : evolves sameMade (allMounts b pod info m1 m2).
Proof. unfold allMounts, disableFipsForContainer. evolve. Qed.
Lemma same_finishSpec p info kube l1 l2 : evolves sameMade (finishSpec f pod p info kube l1 l2).
Proof. unfold finishSpec. evolve. Qed.
Lemma same_prepareEtc info l o : evolves sameMade (prepareEtc f b info l o).
Proof. unfold prepareEtc, configureTimezone. evolve. Qed.
Lemma same_save info hooks : evolves sameMade (save b pod info hooks).
Proof. unfold save, saveSpec. evolve. all: by apply evolves_modify. Qed.

(** A step that makes nothing keeps what was made, however it ends. *)
Definition has (x : gset string * option string * bool) (w : BW) : Prop := made w = x.
Lemma triple_same {A} (m : io BW A) x : evolves sameMade m → triple (has x) m (λ _, has x) (λ _, has x).
Proof.
  intros Hm w Hw. destruct (m w) as [r w'] eqn:Hr. pose proof (Hm w r w' Hr) as Hs. unfold has, sameMade in *.
  destruct r; [congruence|congruence|done].
Qed.
Ltac keep H := eapply triple_bind; [apply triple_same, H|intros]; cbv beta.

(** Undoing succeeds. *)
Hypothesis deletes : ∀ id, buildCall (DeleteStorage id) = Ret ().
Hypothesis removes : ∀ path, buildCall (RemovePidNs path) = Ret ().
Hypothesis undoes : buildCall NriUndo = Ret ().

Lemma handOver_made info S n :
  triple (has (S, n, false)) (handOver b pod info) (λ _, has (S, n, true)) (λ _, has (S, n, false)).
Proof.
  unfold handOver. eapply triple_bind with (Q := λ _, has (S, n, false)).
  { destruct handlerHooks; [by apply triple_ret|by apply triple_fail|apply triple_panic]. }
  intros hooks. keep same_onSpecE.
  eapply triple_bind with (Q := λ _, has (S, n, true)); [apply triple_modify; by intros w [= <- <- _]|intros].
  eapply triple_defer; [apply triple_same, same_save|]. intros e w Hw. unfold undoNri, ignore, doBuild, modify, lift, mbind, io_bind.
  rewrite undoes. by injection Hw as <- <- _.
Qed.

Lemma afterNamespaces_made p info labels logPath vols ms S n :
  triple (has (S, n, false)) (afterNamespaces f b pod p info labels logPath vols ms) (λ _, has (S, n, true)) (λ _, has (S, n, false)).
Proof.
  unfold afterNamespaces. keep same_baseMounts. keep same_describe. case_match. case_match.
  keep same_process. keep same_allMounts. keep same_finishSpec. keep same_prepareEtc.
  eapply triple_bind; [apply handOver_made|intros]. apply (triple_bind _ _ (λ _, has (S, n, true))); [by apply triple_gets|].
  intros. by apply triple_ret.
Qed.

Lemma removePidNs_made S n x : triple (has (S, n, x)) removePidNs (λ _, has (S, None, x)) (λ _, has (S, None, x)).
Proof.
  intros w Hw. unfold removePidNs. injection Hw as HS Hn Hx. destruct (bw_pidns w) as [path|] eqn:Hp; cycle 1.
  { unfold has, made. by rewrite HS, Hp, Hx. }
  unfold ignore, doBuild, modify, lift, mbind, io_bind. rewrite removes. unfold has, made. cbn. by rewrite HS, Hx.
Qed.

Lemma afterStorage_made p info S :
  triple (has (S, None, false)) (afterStorage f b pod p info) (λ _ w, ∃ n, has (S, n, true) w) (λ _, has (S, None, false)).
Proof.
  unfold afterStorage. keep same_volumes. keep same_basics. unfold namespaces.
  eapply triple_bind with (Q := λ _ w, ∃ n, has (S, n, false) w).
  { eapply triple_bind; [apply triple_same, same_onSpecE|intros]. cbv beta.
    repeat case_match; try (apply triple_ret; eauto; fail).
    apply triple_modify. intros w [= <- _ <-]. by eexists. }
  intros _. eapply triple_defer with (R' := λ _ w, ∃ n, has (S, n, false) w).
  - intros w [n Hw]. pose proof (afterNamespaces_made p info (selinuxLabels f (pr_privileged p) (cs_NamespaceOptions (pr_sc p)) info)
      a0 a.1 a.2 S n w Hw) as Ht. destruct (afterNamespaces _ _ _ _ _ _ _ _ _ w) as [[]]; eauto.
  - intros e w [n Hw]. pose proof (removePidNs_made S n false w Hw) as Ht. destruct (removePidNs w) as [[]]; done.
Qed.

Lemma deleteStorage_made id S :
  triple (has ({[id]} ∪ S, None, false)) (deleteStorage id) (λ _ w, id ∉ S → has (S, None, false) w) (λ _ w, id ∉ S → has (S, None, false) w).
Proof.
  intros w Hw. unfold deleteStorage, ignore, doBuild, modify, lift, mbind, io_bind. rewrite deletes. intros Hid.
  injection Hw as HS Hn Hx. unfold has, made. cbn. rewrite HS, Hn, Hx. f_equal. f_equal. set_solver.
Qed.

End build_theorems.

(** ** The labels and the saved spec *)

Record sameLabels (w w' : BW) : Prop := mkSameLabels {
  labels_process : g_SelinuxLabel (w_spec (bw_mw w')) = g_SelinuxLabel (w_spec (bw_mw w));
  labels_mount : x_MountLabel (bw_x w') = x_MountLabel (bw_x w) }.
#[export] Instance sameLabels_preorder : PreOrder sameLabels.
Proof. split; [by intros w|]. intros w1 w2 w3 [] []. split; congruence. Qed.

(** When SELinux separates the container: not when it is privileged or shares the
    host's processes or IPC, nor with the host's network when that is configured. *)
Definition separated (f : BuildConfig) (privileged : bool) (ns : NamespaceOption) : bool :=
  negb (privileged || bool_decide (no_Pid ns = NODE) || bool_decide (no_Ipc ns = NODE) ||
        (bool_decide (no_Network ns = NODE) && f_HostNetworkDisableSELinux f)).

Lemma selinuxLabels_spec f privileged ns info :
  selinuxLabels f privileged ns info =
    (if separated f privileged ns then ci_ProcessLabel info else "",
     if bool_decide (no_Pid ns = NODE) || bool_decide (no_Ipc ns = NODE) then "" else ci_MountLabel info).
Proof.
  unfold selinuxLabels, separated. destruct (bool_decide (no_Pid ns = NODE)), (bool_decide (no_Ipc ns = NODE)),
    (bool_decide (no_Network ns = NODE)), (f_HostNetworkDisableSELinux f), privileged; done.
Qed.

Section labels.
Context `{Host} `{RangeOrder}.
Variable f : BuildConfig.
Variable b : BuildRequest.
Variable pod : PodView.
(** Plugins and hooks do not change the label of the process. *)
Hypothesis nri_keeps : ∀ g g', nriCreate g = Ret g' → g_SelinuxLabel g' = g_SelinuxLabel g.
Hypothesis hooks_keep : ∀ h g g', handlerHooks = Ret (Some h) → h g = Ret g' → g_SelinuxLabel g' = g_SelinuxLabel g.
Hypothesis rootless_keeps : ∀ g, g_SelinuxLabel (makeRootless g) = g_SelinuxLabel g.

Lemma labels_onSpec g : (∀ s, g_SelinuxLabel (g s) = g_SelinuxLabel s) → evolves sameLabels (onSpec g).
Proof. intros Hg. apply evolves_modify. intros w. split; [apply Hg|done]. Qed.
Lemma labels_onSpecE g : (∀ s s', g s = Ret s' → g_SelinuxLabel s' = g_SelinuxLabel s) → evolves sameLabels (onSpecE g).
Proof.
  intros Hg w r w' Hr. unfold onSpecE, spec_, mbind, io_bind, gets, lift in Hr.
  destruct (g (w_spec (bw_mw w))) as [s'|e|x] eqn:Hs; injection Hr as _ <-; [|done|done].
  split; [by apply (Hg _ _ Hs)|done].
Qed.
Lemma labels_doBuild c : evolves sameLabels (doBuild c).
Proof. unfold doBuild. evolve. by apply evolves_modify. Qed.
Lemma labels_secureLabel path l : evolves sameLabels (secureLabel path l).
Proof.
  intros w r w' Hr. unfold secureLabel, onMW, call, modify, lift, mbind, io_bind in Hr.
  destruct (hostCall _); by injection Hr as _ <-.
Qed.
Hint Resolve labels_doBuild labels_secureLabel : evolves.

Lemma labels_prepareEtc info l o : evolves sameLabels (prepareEtc f b info l o).
Proof.
  unfold prepareEtc, configureTimezone. evolve; try by apply labels_onSpec.
Qed.
(** The spec is written to both directories as it is then. *)
Lemma saveSpec_ret path w u w' : saveSpec path w = (Ret u, w') →
  bw_saved w' = <[path := (w_spec (bw_mw w), bw_x w)]> (bw_saved w) ∧ bw_mw w' = bw_mw w ∧ bw_x w' = bw_x w.
Proof.
  intros Hr. unfold saveSpec, doBuild, modify, lift, mbind, io_bind in Hr. destruct (buildCall _); [|done..].
  by injection Hr as _ <-.
Qed.

Lemma save_ret info hooks w sp w' : save b pod info hooks w = (Ret sp, w') →
  (∀ h, hooks = Some h → handlerHooks = Ret (Some h)) →
  sameLabels w w' ∧ sp = (w_spec (bw_mw w'), bw_x w') ∧
  bw_saved w' !! PathJoin [ci_Dir info; "config.json"] = Some sp ∧
  bw_saved w' !! PathJoin [ci_RunDir info; "config.json"] = Some sp.
Proof.
  intros Hr Hh. unfold save in Hr. apply io_bind_inv in Hr as (u1 & w1 & H1 & Hr).
  assert (sameLabels w w1) as L1.
  { revert H1. destruct hooks as [h|]; [|by intros [= _ <-]]. apply (evolves_wrap sameLabels).
    apply labels_onSpecE. intros s s'. by apply hooks_keep, Hh. }
  apply io_bind_inv in Hr as (u2 & w2 & H2 & Hr).
  assert (sameLabels w1 w2) as L2.
  { revert H2. eapply (evolves_when sameLabels), evolves_ignore, labels_doBuild. }
  apply io_bind_inv in Hr as (u3 & w3 & (S3 & M3 & X3)%saveSpec_ret & Hr).
  apply io_bind_inv in Hr as (u4 & w4 & (S4 & M4 & X4)%saveSpec_ret & Hr). injection Hr as <- <-.
  rewrite M4, M3, X4, X3, S4, S3, M3, X3. split_and!; [|done| |].
  - destruct L1, L2. split; rewrite ?M4, ?M3, ?X4, ?X3; congruence.
  - destruct (decide (PathJoin [ci_Dir info; "config.json"] = PathJoin [ci_RunDir info; "config.json"])) as [<-|Hne].
    + apply lookup_insert_eq.
    + rewrite lookup_insert_ne by done. apply lookup_insert_eq.
  - apply lookup_insert_eq.
Qed.

Lemma handOver_ret info w sp w' : handOver b pod info w = (Ret sp, w') →
  sameLabels w w' ∧ sp = (w_spec (bw_mw w'), bw_x w') ∧
  bw_saved w' !! PathJoin [ci_Dir info; "config.json"] = Some sp ∧
  bw_saved w' !! PathJoin [ci_RunDir info; "config.json"] = Some sp.
Proof.
  intros Hr. unfold handOver in Hr. apply io_bind_inv in Hr as (hooks & w0 & Hk0 & Hr).
  assert (w0 = w ∧ handlerHooks = Ret hooks) as [-> Hh].
  { destruct handlerHooks as [h|e|s]; [|done|done]. injection Hk0 as <- <-. by split. }
  apply io_bind_inv in Hr as (u1 & w1 & H1 & Hr). apply (labels_onSpecE _ nri_keeps) in H1.
  apply io_bind_inv in Hr as (u2 & w2 & H2 & Hr). injection H2 as _ <-. apply defer_ret in Hr.
  apply save_ret in Hr as (L & Hsp & Hd & Hrd); [|by intros h ->]. split_and!; [|done|done|done].
  destruct H1, L. split; cbn in *; congruence.
Qed.

Lemma finishSpec_ret p info kube l1 l2 w u w' : finishSpec f pod p info kube l1 l2 w = (Ret u, w') →
  x_MountLabel (bw_x w') = l2 ∧
  (g_SelinuxLabel (w_spec (bw_mw w')) = l1 ∨ InitLabel l1 = Ret (g_SelinuxLabel (w_spec (bw_mw w')))).
Proof.
  intros Hr. unfold finishSpec in Hr. apply io_bind_inv in Hr as (g & w1 & _ & Hr).
  apply io_bind_inv in Hr as (systemd & w2 & _ & Hr). apply io_bind_inv in Hr as (pl & w3 & Hpl & Hr).
  assert (pl = l1 ∨ InitLabel l1 = Ret pl) as Hl.
  { destruct systemd; [|injection Hpl as <- _; by left]. apply io_bind_inv in Hpl as (l & w4 & [Hi ->]%lift_ret & Hpl).
    apply io_bind_inv in Hpl as (u5 & w5 & _ & Hpl). injection Hpl as <- _. by right. }
  do 3 (apply io_bind_inv in Hr as (? & ? & _ & Hr)).
  apply io_bind_inv in Hr as (? & w6 & H6 & Hr). injection H6 as _ <-.
  apply io_bind_inv in Hr as (? & w7 & H7 & Hr). injection H7 as _ <-.
  assert (evolves sameLabels (onSpecE (RemoveLinuxNamespace "user") ;;
    when (bool_decide (default "" (p_annotations pod !! UmaskAnnotation) ≠ ""))
      (u ← lift (umaskOf (default "" (p_annotations pod !! UmaskAnnotation))); onExtra (λ x, x <| x_Umask := Some u |>)))) as Hev.
  { apply evolves_bind; [apply _| |intros; evolve; by apply evolves_modify].
    apply labels_onSpecE. intros s s' Hs. unfold RemoveLinuxNamespace in Hs. case_bool_decide; [|done]. by injection Hs as <-. }
  destruct (Hev _ _ _ Hr) as [HL HM]. cbn in HL, HM. by rewrite HM, HL.
Qed.

Lemma prepare_ret w p w' : prepare f b pod w = (Ret p, w') →
  pr_sc p = securityContextOf (b_cfg b) ∧ SetPrivileged (Some (b_cfg b)) (Some (b_sbox b)) false = Ret (pr_privileged p).
Proof.
  intros Hr. unfold prepare in Hr. apply io_bind_inv in Hr as (kept & w1 & _ & Hr).
  apply io_bind_inv in Hr as (priv & w2 & [Hp ->]%lift_ret & Hr).
  do 7 (apply io_bind_inv in Hr as (? & ? & _ & Hr)). injection Hr as <- _. split; [done|exact Hp].
Qed.

End labels.

(** ** The umask *)

Lemma octalDigit_range c d : octalDigit c = Some d → 0 ≤ d < 8.
Proof.
  unfold octalDigit. destruct (48 <=? Z.of_nat (nat_of_ascii c)) eqn:H1; [|done].
  destruct (Z.of_nat (nat_of_ascii c) <=? 55) eqn:H2; [|done]. cbn. intros [= <-]. lia.
Qed.
Lemma parseOctal_range s : ∀ acc u, parseOctal acc s = Some u → 0 ≤ acc →
  0 ≤ u < (acc + 1) * 8 ^ Z.of_nat (String.length s).
Proof.
  induction s as [|c s IH]; intros acc u Hu Hacc; cbn [parseOctal String.length] in *.
  - injection Hu as <-. rewrite Z.pow_0_r. lia.
  - destruct (octalDigit c) as [d|] eqn:Hd; [|done]. cbn in Hu. apply octalDigit_range in Hd.
    destruct (IH _ _ Hu) as [H1 H2]; [lia|]. split; [done|]. rewrite Nat2Z.inj_succ, Z.pow_succ_r by lia. nia.
Qed.
(** A umask that is taken is one of the permission bits. *)
Lemma umaskOf_range v u : umaskOf v = Ret u → 0 ≤ u < 2 ^ 12.
Proof.
  unfold umaskOf. destruct (_ && _) eqn:Hlen; [|done]. apply andb_prop in Hlen as [_ Hlen%Nat.leb_le].
  destruct (parseOctal 0 v) as [x|] eqn:Hp; [|done]. intros [= <-]. apply parseOctal_range in Hp as [H1 H2]; [|done].
  split; [done|]. eapply Z.lt_le_trans; [exact H2|]. change (2 ^ 12) with (8 ^ 4). rewrite Z.mul_1_l.
  apply Z.pow_le_mono_r; lia.
Qed.

(** ** Witnesses and findings *)

#[local] Instance build_order : RangeOrder := λ A m, map_to_list m.

Module ExampleBuild.
Definition image : ImageConfig := mkImageConfig ["/bin/web"] [] ["PATH=/bin"] "" "/srv" "SIGTERM" [] "linux" "amd64".
Definition info : ContainerInfo :=
  mkContainerInfo "c1" "/var/c1" "/run/c1" "/root/c1" "mount_t" "process_t" (Some image).
(** A host on which everything works, but for the plugins when [nri] fails. *)
Definition host (nri : OCISpec → outcome OCISpec) : Host := {|
  ParseBundleName := Ret; ImageStatusByName := λ _, Ret (mkImageResult "id1" [] ["web:1"] ∅);
  DupSecOpt := λ _, Ret []; createStorage := λ _ _, Ret info; EnsureSaneLogPath := λ _, None; buildCall := λ _, Ret ();
  sortBy := ExampleMounts.bySize; h_Lstat := λ _, Ret false; h_SecureJoin := λ r p, Ret (r +:+ p); h_IsNotExist := λ _, true;
  hostCall := λ _, Ret (); h_imageStatus := λ _, Ret None; h_mountImageAt := Ret; h_openDir := λ _, Ret (); h_readDir := λ _, Ret false;
  h_getMounts := Ret [mkMountInfo "/" ""]; mkdirChown := λ _ _ _, Ret (); newID := λ _, "v0";
  h_statPath := λ _, Ret (); DeviceFromPath := λ _ _, Ret Example.fuse; IsDirectory := λ _, None; walk := λ _, [];
  replaceOnce := λ s _ _, s; parseCDI := λ _, Ret []; injectCDI := λ _, Ret; hostDevices := Ret [];
  capabilityList := Example.kernel; LastCap := 40; decodeBase64 := λ _, None; applyApparmor := None; 
  blockioClassOf := λ _ _, Ret "fast"; OciLinuxBlockIO := λ c, Ret (c +:+ "-params");
  targetPidNs := None; seccompSetup := λ _ g, Ret (g <| g_Seccomp := true |>, "runtime/default", true); rdtClass := λ _, Ret "";
  platformRuntimePath := λ _, Ret ""; InitLabel := λ _, Ret "init_t";
  h_stat := λ _, Ret None; h_readFile := λ _, Ret None; parsePasswd := λ _, Ret []; parseGroup := λ _, Ret [];
  GetExecUser := λ _, Ret (0, 0, []); fileOp := λ _, Ret (); unmarshalResources := λ _, Ret None;
  marshalMap := λ _, "{}"; formatTime := λ _, "now"; now := 0; metadataJSON := "{}"; volumesJSON := λ _, "[]";
  secretMounts := λ _, []; ociHooks := None; lstatEtc := Ret true; etcMissing := λ _, false; timezonePath := Ret "";
  makeRootless := λ g, g; handlerHooks := Ret None; nriCreate := nri |}.
Definition config : BuildConfig :=
  mkBuildConfig false false [] "" [] "/var/lib" "/run/exits" false [] [] false ["CHOWN"] false [] 1024 ImageVolumesIgnore
    (mkCgroupManager SystemdManager "" "" ∅ ∅) true false true true true true true true (Ret 0) (Ret false) false true true ∅ (Ret []).
Definition request : BuildRequest :=
  mkBuildRequest "c1" "k8s_web" (Example.config <| k_Devices := [] |>) (mkSboxConfig "/var/log" ∅ (Some (Some false))) None [] None ""
    None false.
Definition pod : PodView :=
  mkPodView "p1" "pod" ∅ ∅ "" "runc" "/var/log" "pod.slice" "/dev/shm" "/run/resolv" "" "" "host1" [] "" true [].
Definition start : BW :=
  mkBW (mkMW Example.spec []) [] (mkExtra [] false "" false "" "" "" None None None None ∅) [] ∅ ∅ None false ∅.
Definition works : Host := host Ret.
Definition refused : Host := host (λ _, Fail (ErrorsNew "plugin refused")).
End ExampleBuild.

(** The build on the host that refuses, and on the one that works. *)
Definition refusedBuild : outcome Built * BW :=
  @createSandboxContainer ExampleBuild.refused _ ExampleBuild.config ExampleBuild.request ExampleBuild.pod ExampleBuild.start.
Definition goodBuild : outcome Built * BW :=
  @createSandboxContainer ExampleBuild.works _ ExampleBuild.config ExampleBuild.request ExampleBuild.pod ExampleBuild.start.
Definition isDeletion (id : string) (c : BuildCall) : bool :=
  match c with DeleteStorage i => String.eqb i id | _ => false end.

Lemma refusedBuild_runs :
  match refusedBuild with
  | (Fail _, w') => existsb (isDeletion "c1") (bw_calls w') && bool_decide ("c1" ∈ bw_notifiers w')
  | _ => false
  end = true.
Proof. vm_compute. reflexivity. Qed.
Lemma goodBuild_runs :
  match goodBuild with (Ret bt, _) => String.eqb (g_SelinuxLabel (bt_spec bt).1) "process_t" | _ => false end = true.
Proof. vm_compute. reflexivity. Qed.



(** A build that fails after the seccomp profile is set up leaves its notifier on
    record. *)
Theorem notifier_left_behind : ∃ e w', refusedBuild = (Fail e, w') ∧ "c1" ∈ bw_notifiers w'.
Proof.
  pose proof refusedBuild_runs as Hd. destruct refusedBuild as [[bt|e|s] w']; [discriminate| |discriminate].
  exists e, w'. split; [reflexivity|]. by apply andb_prop in Hd as [_ Hd%bool_decide_eq_true].
Qed.
