(* ===== verification/Startup.v ===== *)
(** * Startup: restoring the state from disk, the wipe after an upgrade or a reboot,
    and the clean shutdown (restore, wipeIfAppropriate and Shutdown of
    server/server.go, internal/version/version.go)

    Loading one pod or one container is the business of ContainerServer; here it is
    an interface, so that what the start does with the outcome holds for any disk.
    The maps [restore] builds are iterated in an order Go leaves open. *)

From S2P Require Import Prelude GoStrings Registrar MemoryStore IPTables Container Sandbox ContainerServer Server.
From Stdlib Require Import Ascii.
Local Open Scope Z_scope.

(** ** Versions (internal/version/version.go) *)

(** [semver.Version] *)
Record Version := mkVersion {
  Major : Z; Minor : Z; Patch : Z; Pre : list string; Build : list string }.
#[export] Instance Version_eq_dec : EqDecision Version.
Proof. solve_decision. Defined.
#[export] Instance Version_eta : Eta Version := λ v, mkVersion (Major v) (Minor v) (Patch v) (Pre v) (Build v).

(** What is used of the semver package and of the file system: [files] maps paths
    to contents. *)
Class Semver := {
  Make : string → outcome Version;
  NewBuildVersion : string → outcome string;
  UnmarshalJSON : string → outcome Version;
  MarshalJSON : Version → outcome string }.
Class SemverLaws `{Semver} : Prop :=
  unmarshal_marshal : ∀ v j, MarshalJSON v = Ret j → UnmarshalJSON j = Ret v.

Definition crioVersion : string := "1.32.3".
Definition errNoFile := ErrorsNew "no such file or directory".

(** [strings.Trim(s, c)] for one character. *)
Fixpoint trimLeftChar (c : ascii) (s : string) : string :=
  match s with
  | String a s' => if bool_decide (a = c) then trimLeftChar c s' else s
  | EmptyString => EmptyString
  end.
Definition TrimChar (c : ascii) (s : string) : string := str_rev (trimLeftChar c (str_rev (trimLeftChar c s))).

Section version.
Context `{Semver}.

(** A commit that is not a valid build identifier is left out silently. *)
Definition parseVersionConstant (versionString gitCommit : string) : outcome Version :=
  v ← Make versionString;
  if bool_decide (gitCommit = "") then Ret v
  else match NewBuildVersion (TrimChar "034" gitCommit) with
       | Ret b => Ret (v <| Build ::= (.++ [b]) |>)
       | _ => Ret v
       end.

(** The flag and the error; on an error the flag is set. *)
Definition shouldCrioWipe (files : gmap string string) (versionFileName versionString : string) :
    outcome (bool * option goerr) :=
  if bool_decide (versionFileName = "") then Ret (false, None)
  else match files !! versionFileName with
       | None => Ret (true, Some errNoFile)
       | Some versionBytes =>
           match UnmarshalJSON versionBytes with
           | Panic s => Panic s
           | Fail e => Ret (true, Some (Errorf "version file malformatted: " e))
           | Ret oldVersion =>
               match parseVersionConstant versionString "" with
               | Panic s => Panic s
               | Fail e => Ret (true, Some (Errorf "version constant malformatted: " e))
               | Ret newVersion =>
                   Ret (negb (bool_decide (Major newVersion = Major oldVersion)) ||
                        negb (bool_decide (Minor newVersion = Minor oldVersion)), None)
               end
           end
       end.

(** [mkdir] is the result of [os.MkdirAll] of the parent directory. *)
Definition writeVersionFile (mkdir : outcome ()) (file gitCommit version : string) : io (gmap string string) () :=
  if bool_decide (file = "") then mret ()
  else
    current ← lift (parseVersionConstant version gitCommit);
    j ← lift (MarshalJSON current);
    lift mkdir ;;
    modify (λ files, <[file := j]> files).
End version.

(** ** Restoring *)

(** What the storage holds: containers, pods among them, with their names. *)
Record storedContainer := mkStored { so_ID : string; so_Names : list string; so_ImageID : string }.
(** [storage.RuntimeContainerMetadata] *)
Record RuntimeContainerMetadata := mkRCM { rm_Pod : bool; rm_PodID : string }.

Definition InfraContainerName : string := "POD".

(** Loading, as the start sees it: the sandbox object may be there although its
    loading failed. *)
Record Loader {St : Type} := mkLoader {
  ld_Sandbox : string → io (ContainerServer St) (option ptr * option goerr);
  ld_Container : string → io (ContainerServer St) (option goerr) }.
Arguments Loader : clear implicits.

(** The loader of ContainerServer: [loadSb] and [loadCtr] are [LoadSandbox] and
    [LoadContainer] on the disk at hand.  A sandbox object that was allocated comes
    back with the error. *)
Definition diskLoader {St} (loadSb : string → io (ContainerServer St) ptr)
    (loadCtr : string → io (ContainerServer St) ()) : Loader St := {|
  ld_Sandbox id := λ s,
    match loadSb id s with
    | (Ret sp, s') => (Ret (Some sp, None), s')
    | (Fail e, s') =>
        let sp := fresh (dom (sbs s)) in
        (Ret (if bool_decide (is_Some (sbs s' !! sp)) then Some sp else None, Some e), s')
    | (Panic m, s') => (Panic m, s')
    end;
  ld_Container id := λ s,
    match loadCtr id s with
    | (Ret _, s') => (Ret None, s')
    | (Fail e, s') => (Ret (Some e), s')
    | (Panic m, s') => (Panic m, s')
    end |}.

(** What [restore] knows of the storage. *)
Record inventory := mkInventory {
  iv_names : gmap string (list string);
  iv_pods : gmap string ();
  iv_ctrs : gmap string string;      (** a container and its pod *)
  iv_images : gmap string string }.
#[export] Instance inventory_eta : Eta inventory := λ i, mkInventory (iv_names i) (iv_pods i) (iv_ctrs i) (iv_images i).
Definition emptyInventory : inventory := mkInventory ∅ ∅ ∅ ∅.

Section restore.
Context {St E : Type} `{StorerLaws ptr St} `{RangeOrder}.
Variable perform : call → io E ().
Variable getMetadata : string → outcome RuntimeContainerMetadata.
Variable ParseBundleId : string → outcome string.
Variable loader : Loader St.
(** [getSandboxIPs] *)
Variable sandboxIPs : ptr → E → outcome (list string).

Abbreviation W := (world St E).

(** The first loop: an entry whose metadata cannot be read is ignored, an image ID
    that cannot be parsed is not remembered. *)
Definition take1 (c : storedContainer) (i : inventory) : inventory :=
  match getMetadata (so_ID c) with
  | Ret md =>
      let i := i <| iv_names ::= <[so_ID c := so_Names c]> |> in
      if rm_Pod md then i <| iv_pods ::= <[so_ID c := ()]> |>
      else
        let i := i <| iv_ctrs ::= <[so_ID c := rm_PodID md]> |> in
        match ParseBundleId (so_ImageID c) with
        | Ret img => i <| iv_images ::= <[so_ID c := img]> |>
        | _ => i
        end
  | _ => i
  end.
Definition takeInventory (cs : list storedContainer) : inventory := foldl (λ i c, take1 c i) emptyInventory cs.
Definition namesOf (i : inventory) (id : string) : list string := default [] (iv_names i !! id).

(** The deletions: errors of the storage are logged. *)
Definition deletePodName (n : string) : io W () :=
  ignore (perf perform (StorageDelete n)) ;;
  on_srv (if Contains n InfraContainerName then ReleaseContainerName n else ReleasePodName n).
Definition deleteCtrName (n : string) : io W () :=
  ignore (perf perform (StorageDelete n)) ;;
  on_srv (ReleaseContainerName n).

Definition ofPod (sbID : string) (ctrs_ : gmap string string) : gmap string string :=
  filter (λ kv, kv.2 = sbID) ctrs_.

(** What the loop over the pods has found so far. *)
Record podPass := mkPodPass { known : list ptr; deleted : list ptr; left_ : gmap string string }.
#[local] Instance podPass_eta : Eta podPass := λ p, mkPodPass (known p) (deleted p) (left_ p).

(** One pod: when it cannot be restored, it and every container recorded under it
    is deleted, and those containers are not looked at again. *)
Definition restorePod (i : inventory) (sbID : string) (acc : podPass) : io W podPass :=
  r ← on_srv (ld_Sandbox loader sbID);
  let '(sb, err) := r in
  let acc := acc <| known ::= (.++ option_list sb) |> in
  match err with
  | None => mret acc
  | Some _ =>
      let acc := acc <| deleted ::= (.++ option_list sb) |> in
      for_each deletePodName (namesOf i sbID) ;;
      let gone := ofPod sbID (left_ acc) in
      for_each (λ k, for_each deleteCtrName (namesOf i k)) (range gone).*1 ;;
      mret (acc <| left_ ::= λ l, l ∖ gone |>)
  end.

Fixpoint restorePods (i : inventory) (pods : list string) (acc : podPass) : io W podPass :=
  match pods with
  | [] => mret acc
  | sbID :: pods => acc ← restorePod i sbID acc; restorePods i pods acc
  end.

(** One container; the result is what is left of the map of images. *)
Definition restoreContainer (i : inventory) (id : string) (images : gmap string string) : io W (gmap string string) :=
  err ← on_srv (ld_Container loader id);
  match err with
  | None => mret (delete id images)
  | Some e =>
      if errors_is e ErrIsNonCrioContainer then mret (delete id images)
      else for_each deleteCtrName (namesOf i id) ;; mret images
  end.

Fixpoint restoreContainers (i : inventory) (ids : list string) (images : gmap string string) : io W (gmap string string) :=
  match ids with
  | [] => mret images
  | id :: ids => images ← restoreContainer i id images; restoreContainers i ids images
  end.

Definition restoreIPs (sp : ptr) : io W () := λ w,
  match sandboxIPs sp (env w) with
  | Ret l => (Ret (), w <| srv ::= λ s, s <| sbs ::= alter (λ sb, sb <| ips := l |>) sp |> |>)
  | _ => (Ret (), w)
  end.

(** The images of the containers that are gone, and the sandboxes whose network a
    goroutine then cleans up. *)
Definition restore (stored : list storedContainer) : io W (list string * list ptr) :=
  let i := takeInventory stored in
  acc ← restorePods i (range (iv_pods i)).*1 (mkPodPass [] [] (iv_ctrs i));
  images ← restoreContainers i (range (left_ acc)).*1 (iv_images i);
  ignore (perf perform (NetworkGC (known acc))) ;;
  sps ← gets (λ w, ListSandboxes (srv w));
  for_each restoreIPs sps ;;
  mret ((range images).*2, deleted acc).
End restore.

(** ** What a start does to the storage *)

Lemma bind_each {A} (l : list A) : l ≫= (λ x, [x]) = l.
Proof. induction l as [|x l IH]; [done|]. by rewrite bind_cons, IH. Qed.

Lemma difference_ofPod p (m : gmap string string) : m ∖ ofPod p m = filter (λ kv, kv.2 ≠ p) m.
Proof.
  apply map_eq. intros k. apply option_eq. intros v. unfold ofPod.
  rewrite lookup_difference_Some, map_lookup_filter_Some, map_lookup_filter_None. simpl. split.
  - intros [Hk [Hn|Hn]]; [congruence|]. split; [done|]. by apply Hn.
  - intros [Hk Hne]. split; [done|]. right. intros x Hx. by simplify_eq.
Qed.

Section restore_theorems.
Context {St E : Type} `{StorerLaws ptr St} `{RangeOrderLaw}.
Variable perform : call → io E ().
Variable getMetadata : string → outcome RuntimeContainerMetadata.
Variable ParseBundleId : string → outcome string.
Variable loader : Loader St.
Variable sandboxIPs : ptr → E → outcome (list string).
(** The names deleted from the storage so far; no call panics. *)
Variable removed : E → list string.
Hypothesis performs : ∀ c e, ∃ r e', perform c e = (r, e') ∧ (∀ what, r ≠ Panic what) ∧
  removed e' = removed e ++ match c with StorageDelete n => [n] | _ => [] end.
(** Loading reports its errors; it does not panic. *)
Hypothesis loads_sandbox : ∀ id s, ∃ r s', ld_Sandbox loader id s = (Ret r, s').
Hypothesis loads_container : ∀ id s, ∃ r s', ld_Container loader id s = (Ret r, s').

Abbreviation W := (world St E).

(** A run that ends and has deleted exactly [ns] (in any order, repetitions aside). *)
Definition deletes {A} (m : io W A) (w : W) (P : A → list string → Prop) : Prop :=
  ∃ a w' ns, m w = (Ret a, w') ∧ P a ns ∧ removed (env w') = removed (env w) ++ ns.

Lemma deletes_ret {A} (a : A) w (P : A → list string → Prop) : P a [] → deletes (mret a) w P.
Proof. intros HP. exists a, w, []. split_and!; [done|done|by rewrite app_nil_r]. Qed.

Lemma deletes_bind {A B} (m : io W A) (k : A → io W B) w P Q :
  deletes m w P → (∀ a ns w', P a ns → deletes (k a) w' (λ b ns', Q b (ns ++ ns'))) →
  deletes (m ≫= k) w Q.
Proof.
  intros (a & w1 & ns & Hm & HP & Hr) Hk. destruct (Hk a ns w1 HP) as (b & w2 & ns' & Hm2 & HQ & Hr2).
  exists b, w2, (ns ++ ns'). split_and!; [by rewrite (io_bind_ret _ _ _ _ _ Hm)|done|].
  by rewrite Hr2, Hr, app_assoc.
Qed.

Lemma deletes_conseq {A} (m : io W A) w (P Q : A → list string → Prop) :
  deletes m w P → (∀ a ns, P a ns → Q a ns) → deletes m w Q.
Proof. intros (a & w' & ns & ? & HP & ?) HPQ. exists a, w', ns. split_and!; auto. Qed.

Lemma deletes_perf c w :
  deletes (ignore (perf perform c)) w (λ _ ns, ns = match c with StorageDelete n => [n] | _ => [] end).
Proof.
  destruct (performs c (env w)) as (r & e' & Hr & Hp & Hl).
  eexists (), (w <| env := e' |>), _. split_and!; [|reflexivity|done].
  unfold ignore, perf. rewrite Hr. destruct r as [[]|?|s]; [done|done|by destruct (Hp s)].
Qed.

Lemma deletes_srv {A} (m : io (ContainerServer St) A) w a s' (P : A → list string → Prop) :
  m (srv w) = (Ret a, s') → P a [] → deletes (on_srv m) w P.
Proof.
  intros Hm HP. exists a, (w <| srv := s' |>), []. split_and!; [|done|by rewrite app_nil_r].
  unfold on_srv. by rewrite Hm.
Qed.

Lemma deletes_gets {A} (f : W → A) w : deletes (gets f) w (λ _ ns, ns = []).
Proof. exists (f w), w, []. split_and!; [done|done|by rewrite app_nil_r]. Qed.

Lemma deletes_name n w : deletes (deleteCtrName perform n) w (λ _ ns, ns = [n]).
Proof.
  unfold deleteCtrName. eapply deletes_bind; [apply deletes_perf|]. intros [] ns w' ->.
  eapply deletes_srv; reflexivity.
Qed.
Lemma deletes_podName n w : deletes (deletePodName perform n) w (λ _ ns, ns = [n]).
Proof.
  unfold deletePodName. eapply deletes_bind; [apply deletes_perf|]. intros [] ns w' ->.
  destruct (Contains n InfraContainerName); eapply deletes_srv; reflexivity.
Qed.

Lemma deletes_each {A} (f : A → io W ()) (g : A → list string) l w :
  (∀ x w, deletes (f x) w (λ _ ns, ns = g x)) → deletes (for_each f l) w (λ _ ns, ns = l ≫= g).
Proof.
  intros Hf. revert w. induction l as [|x l IH]; intros w; [by apply deletes_ret|].
  cbn [for_each]. eapply deletes_bind; [apply Hf|]. intros [] ns w' ->.
  eapply deletes_conseq; [apply IH|]. intros [] ns ->. by rewrite bind_cons.
Qed.

(** What loading said of a pod or a container at some moment of the start. *)
Definition podRestored (id : string) : Prop := ∃ s sb s', ld_Sandbox loader id s = (Ret (sb, None), s').
Definition podFailed (id : string) : Prop := ∃ s sb e s', ld_Sandbox loader id s = (Ret (sb, Some e), s').
Definition ctrRestored (id : string) : Prop :=
  ∃ s r s', ld_Container loader id s = (Ret r, s') ∧ (∀ e, r = Some e → errors_is e ErrIsNonCrioContainer = true).
Definition ctrFailed (id : string) : Prop :=
  ∃ s e s', ld_Container loader id s = (Ret (Some e), s') ∧ errors_is e ErrIsNonCrioContainer = false.

(** A name of a pod that failed, or of a container recorded under it. *)
Definition podNames (i : inventory) (ctrs_ : gmap string string) (p n : string) : Prop :=
  n ∈ namesOf i p ∨ ∃ k, ctrs_ !! k = Some p ∧ n ∈ namesOf i k.

Lemma restorePod_run i p acc w :
  deletes (restorePod perform loader i p acc) w (λ acc' ns,
    (podRestored p ∧ left_ acc' = left_ acc ∧ ns = []) ∨
    (podFailed p ∧ left_ acc' = filter (λ kv, kv.2 ≠ p) (left_ acc) ∧
     ∀ n, n ∈ ns ↔ podNames i (left_ acc) p n)).
Proof.
  unfold restorePod. destruct (loads_sandbox p (srv w)) as ([sb err] & s' & Hl).
  eapply deletes_bind; [by eapply (deletes_srv _ w (sb, err) s' (λ a ns, a = (sb, err) ∧ ns = [])); [exact Hl|]|].
  intros [sb0 err0] ns w1 [[= -> ->] ->]. cbn beta iota. destruct err as [e|]; cycle 1.
  { apply deletes_ret. left. split_and!; [by exists (srv w), sb, s'|done|done]. }
  eapply deletes_bind; [apply (deletes_each _ (λ n, [n])); intros; apply deletes_podName|].
  intros [] ns1 w2 ->. cbn zeta.
  eapply deletes_bind; [apply (deletes_each _ (namesOf i))|].
  { intros k v. eapply deletes_conseq; [apply (deletes_each _ (λ n, [n])); intros; apply deletes_name|].
    intros [] ns ->. by rewrite bind_each. }
  intros [] ns2 w3 ->. apply deletes_ret. right. split_and!; [by exists (srv w), sb, e, s'| |].
  - apply difference_ofPod.
  - intros n. cbn. rewrite app_nil_r, bind_each, elem_of_app. unfold podNames.
    apply or_iff_compat_l. rewrite list_elem_of_bind. split.
    + intros (k & Hn & Hk). exists k. apply list_elem_of_fmap in Hk as ([k' v] & -> & Hk).
      rewrite range_perm, elem_of_map_to_list in Hk. by apply map_lookup_filter_Some in Hk as [? <-].
    + intros (k & Hk & Hn). exists k. split; [done|]. apply list_elem_of_fmap. exists (k, p). split; [done|].
      rewrite range_perm, elem_of_map_to_list. by apply map_lookup_filter_Some.
Qed.

Lemma restorePods_run i pods acc w :
  NoDup pods →
  deletes (restorePods perform loader i pods acc) w (λ acc' ns, ∃ bad : list string,
    (∀ p, p ∈ bad → p ∈ pods ∧ podFailed p) ∧ (∀ p, p ∈ pods → p ∉ bad → podRestored p) ∧
    left_ acc' = filter (λ kv, kv.2 ∉ bad) (left_ acc) ∧
    ∀ n, n ∈ ns ↔ ∃ p, p ∈ bad ∧ podNames i (left_ acc) p n).
Proof.
  intros Hnd. revert acc w. induction Hnd as [|p pods Hp _ IH]; intros acc w.
  { apply deletes_ret. exists []. split_and!.
    - intros ? Hx. by apply elem_of_nil in Hx.
    - intros ? Hx. by apply elem_of_nil in Hx.
    - symmetry. apply map_filter_id. intros ???. apply not_elem_of_nil.
    - intros n. rewrite elem_of_nil. split; [done|]. intros (? & Hx & _). by apply elem_of_nil in Hx. }
  cbn [restorePods]. eapply deletes_bind; [apply restorePod_run|]. intros acc1 ns w1 Hone.
  eapply deletes_conseq; [apply IH|]. intros acc' ns' (bad & Hbad & Hok & Hleft & Hns).
  destruct Hone as [(Hr & Hl & ->)|(Hf & Hl & Hn)].
  - rewrite Hl in Hleft, Hns. exists bad. split_and!; [|intros q [->|?]%elem_of_cons; auto|done|done].
    intros q Hq. destruct (Hbad q Hq). split; [by right|done].
  - exists (p :: bad). split_and!.
    + intros q [->|Hq]%elem_of_cons; [split; [by left|done]|]. destruct (Hbad q Hq). split; [by right|done].
    + intros q [->|Hq]%elem_of_cons [Hne Hqb]%not_elem_of_cons; [done|auto].
    + rewrite Hleft, Hl, map_filter_filter. apply map_filter_ext. intros k v _. simpl.
      rewrite not_elem_of_cons. naive_solver.
    + intros n. rewrite elem_of_app, Hn, Hns. rewrite Hl.
      assert (∀ q, q ∈ bad → podNames i (filter (λ kv, kv.2 ≠ p) (left_ acc)) q n ↔ podNames i (left_ acc) q n) as Hsame.
      { intros q Hq. destruct (Hbad q Hq) as [Hqp _]. assert (q ≠ p) by (intros ->; done).
        unfold podNames. apply or_iff_compat_l. split; intros (k & Hk & ?); exists k; (split; [|done]).
        - by apply map_lookup_filter_Some in Hk as [].
        - by apply map_lookup_filter_Some. }
      split.
      * intros [?|(q & Hq & Hpn)]; [exists p; split; [by left|done]|].
        exists q. split; [by right|]. by apply Hsame.
      * intros (q & [->|Hq]%elem_of_cons & Hpn); [by left|]. right. exists q. split; [done|]. by apply Hsame.
Qed.

Lemma restoreContainer_run i k images w :
  deletes (restoreContainer perform loader i k images) w (λ images' ns,
    (ctrRestored k ∧ images' = delete k images ∧ ns = []) ∨
    (ctrFailed k ∧ images' = images ∧ ns = namesOf i k)).
Proof.
  unfold restoreContainer. destruct (loads_container k (srv w)) as (err & s' & Hl).
  eapply deletes_bind; [by eapply (deletes_srv _ w err s' (λ a ns, a = err ∧ ns = [])); [exact Hl|]|].
  intros err0 ns w1 [-> ->]. destruct err as [e|]; cycle 1.
  { apply deletes_ret. left. split_and!; [by exists (srv w), None, s'|done|done]. }
  destruct (errors_is e ErrIsNonCrioContainer) eqn:He.
  { apply deletes_ret. left. split_and!; [|done|done]. exists (srv w), (Some e), s'. split; [done|]. by intros ? [= <-]. }
  eapply deletes_bind; [apply (deletes_each _ (λ n, [n])); intros; apply deletes_name|].
  intros [] ns w2 ->. apply deletes_ret. right. split_and!; [by exists (srv w), e, s'|done|].
  by rewrite app_nil_r, bind_each.
Qed.

Lemma restoreContainers_run i ids images w :
  NoDup ids →
  deletes (restoreContainers perform loader i ids images) w (λ images' ns, ∃ bad : list string,
    (∀ k, k ∈ bad → k ∈ ids ∧ ctrFailed k) ∧ (∀ k, k ∈ ids → k ∉ bad → ctrRestored k) ∧
    images' = filter (λ kv, kv.1 ∉ ids ∨ kv.1 ∈ bad) images ∧
    ∀ n, n ∈ ns ↔ ∃ k, k ∈ bad ∧ n ∈ namesOf i k).
Proof.
  intros Hnd. revert images w. induction Hnd as [|k ids Hk _ IH]; intros images w.
  { apply deletes_ret. exists []. split_and!.
    - intros ? Hx. by apply elem_of_nil in Hx.
    - intros ? Hx. by apply elem_of_nil in Hx.
    - symmetry. apply map_filter_id. intros ???. left. apply not_elem_of_nil.
    - intros n. rewrite elem_of_nil. split; [done|]. intros (? & Hx & _). by apply elem_of_nil in Hx. }
  cbn [restoreContainers].
  eapply deletes_bind; [apply restoreContainer_run|]. intros images1 ns w1 Hcase.
  eapply deletes_conseq; [apply IH|]. intros images' ns' (bad & Hbad & Hok & Him & Hns).
  assert (k ∉ bad) as Hkb by (intros Hin; by destruct (Hbad k Hin)).
  destruct Hcase as [(Hr & -> & ->)|(Hf & -> & ->)].
  - exists bad. split_and!; [|intros q [->|?]%elem_of_cons; auto| |done].
    + intros q Hq. destruct (Hbad q Hq). split; [by right|done].
    + rewrite Him. apply map_eq. intros q. apply option_eq. intros v.
      rewrite !map_lookup_filter_Some, lookup_delete_Some. simpl. rewrite not_elem_of_cons. clear -Hkb.
      destruct (decide (q = k)) as [->|Hne]; [tauto|]. assert (k ≠ q) by congruence. tauto.
  - exists (k :: bad). split_and!.
    + intros q [->|Hq]%elem_of_cons; [split; [by left|done]|]. destruct (Hbad q Hq). split; [by right|done].
    + intros q [->|Hq]%elem_of_cons [Hne Hqb]%not_elem_of_cons; [done|auto].
    + rewrite Him. apply map_filter_ext. intros q v _. simpl. rewrite not_elem_of_cons, elem_of_cons. clear -Hk.
      destruct (decide (q = k)) as [->|Hne]; tauto.
    + intros n. rewrite elem_of_app, Hns. split.
      * intros [?|(q & ? & ?)]; [exists k; split; [by left|done]|exists q; split; [by right|done]].
      * intros (q & [->|?]%elem_of_cons & ?); [by left|]. right. by exists q.
Qed.

(** The inventory tells pods from containers, and has an image only for the latter. *)
Lemma takeInventory_ok cs :
  let i := takeInventory getMetadata ParseBundleId cs in
  (∀ k, is_Some (iv_pods i !! k) → is_Some (iv_ctrs i !! k) → False) ∧
  (∀ k, is_Some (iv_images i !! k) → is_Some (iv_ctrs i !! k)).
Proof.
  set (ok i := (∀ k, is_Some (iv_pods i !! k) → ∃ md, getMetadata k = Ret md ∧ rm_Pod md = true) ∧
    (∀ k, is_Some (iv_ctrs i !! k) → ∃ md, getMetadata k = Ret md ∧ rm_Pod md = false) ∧
    (∀ k, is_Some (iv_images i !! k) → is_Some (iv_ctrs i !! k))).
  assert (∀ i, ok i → ok (foldl (λ i c, take1 getMetadata ParseBundleId c i) i cs)) as Hfold.
  { induction cs as [|c cs IH]; intros i Hi; [done|]. simpl. apply IH. clear IH.
    unfold take1. destruct (getMetadata (so_ID c)) as [md| |] eqn:Hmd; [|done|done].
    destruct Hi as (Hp & Hc & Him). destruct (rm_Pod md) eqn:Hpod; cycle 1.
    - assert (∀ k, is_Some (<[so_ID c := rm_PodID md]> (iv_ctrs i) !! k) →
        ∃ md, getMetadata k = Ret md ∧ rm_Pod md = false) as Hc'.
      { intros k [v [[<- _]|[_ ?]]%lookup_insert_Some]; [by exists md|]. apply Hc. by exists v. }
      destruct (ParseBundleId (so_ImageID c)); (split_and!; [exact Hp|exact Hc'|]); intros k Hk; cbn in *;
        destruct (decide (k = so_ID c)) as [->|Hne]; rewrite ?lookup_insert_eq, ?lookup_insert_ne in * by done; eauto.
    - split_and!; [|exact Hc|exact Him]. cbn. intros k [v [[<- _]|[_ ?]]%lookup_insert_Some]; [by exists md|].
      apply Hp. by exists v. }
  destruct (Hfold emptyInventory) as (Hp & Hc & Him).
  { split_and!; intros k [? Hk]; cbn in Hk; by rewrite lookup_empty in Hk. }
  split; [|exact Him]. intros k (md & Hmd & Ht)%Hp (md' & Hmd' & Hf)%Hc. congruence.
Qed.

Lemma elem_of_keys {A} (m : gmap string A) k : k ∈ (range m).*1 ↔ is_Some (m !! k).
Proof.
  rewrite list_elem_of_fmap. split.
  - intros ([k' v] & -> & Hk). rewrite range_perm, elem_of_map_to_list in Hk. by exists v.
  - intros [v Hk]. exists (k, v). split; [done|]. by rewrite range_perm, elem_of_map_to_list.
Qed.
Lemma NoDup_keys {A} (m : gmap string A) : NoDup (range m).*1.
Proof. rewrite range_perm. apply NoDup_fst_map_to_list. Qed.
Lemma elem_of_values {A} (m : gmap string A) v : v ∈ (range m).*2 ↔ ∃ k, m !! k = Some v.
Proof.
  rewrite list_elem_of_fmap. split.
  - intros ([k' v'] & -> & Hk). rewrite range_perm, elem_of_map_to_list in Hk. by exists k'.
  - intros [k Hk]. exists (k, v). split; [done|]. by rewrite range_perm, elem_of_map_to_list.
Qed.

(** The verdict of a start: which pods and which containers could not be restored. *)
Record verdict (i : inventory) (badPods badCtrs : list string) : Prop := mkVerdict {
  vd_pods p : p ∈ badPods → is_Some (iv_pods i !! p) ∧ podFailed p;
  vd_ok_pods p : is_Some (iv_pods i !! p) → p ∉ badPods → podRestored p;
  vd_ctrs k : k ∈ badCtrs → ctrFailed k ∧ ∃ p, iv_ctrs i !! k = Some p ∧ p ∉ badPods;
  vd_ok_ctrs k p : iv_ctrs i !! k = Some p → p ∉ badPods → k ∉ badCtrs → ctrRestored k }.

Definition isRemoved (i : inventory) (badPods badCtrs : list string) (n : string) : Prop :=
  (∃ p, p ∈ badPods ∧ podNames i (iv_ctrs i) p n) ∨ (∃ k, k ∈ badCtrs ∧ n ∈ namesOf i k).

Lemma deletes_ips sps w : deletes (for_each (restoreIPs sandboxIPs) sps) w (λ _ ns, ns = []).
Proof.
  eapply deletes_conseq; [apply (deletes_each _ (λ _, []))|].
  - intros sp v. unfold deletes, restoreIPs. destruct (sandboxIPs sp (env v)).
    all: eexists (), _, []; split_and!; [reflexivity|done|by rewrite app_nil_r].
  - intros [] ns ->. induction sps as [|sp sps IH]; [done|]. by rewrite bind_cons.
Qed.

Lemma restore_run stored w :
  let i := takeInventory getMetadata ParseBundleId stored in
  deletes (restore perform getMetadata ParseBundleId loader sandboxIPs stored) w (λ r ns,
    ∃ badPods badCtrs, verdict i badPods badCtrs ∧ (∀ n, n ∈ ns ↔ isRemoved i badPods badCtrs n) ∧
      ∀ img, img ∈ r.1 ↔ ∃ k p, iv_images i !! k = Some img ∧ iv_ctrs i !! k = Some p ∧ (p ∈ badPods ∨ k ∈ badCtrs)).
Proof.
  intros i. destruct (takeInventory_ok stored) as [_ Himg]. fold i in Himg. unfold restore. fold i.
  eapply deletes_bind; [apply restorePods_run, NoDup_keys|].
  intros acc ns1 w1 (badPods & Hbad & Hok & Hleft & Hns1). cbn in Hleft, Hns1.
  eapply deletes_bind; [apply restoreContainers_run, NoDup_keys|].
  intros images ns2 w2 (badCtrs & Hbad2 & Hok2 & Him & Hns2).
  eapply deletes_bind; [apply deletes_perf|]. intros [] ns3 w3 ->.
  eapply deletes_bind; [apply deletes_gets|]. intros sps ns4 w4 ->.
  eapply deletes_bind; [apply deletes_ips|]. intros [] ns5 w5 ->.
  apply deletes_ret. rewrite !app_nil_r. exists badPods, badCtrs.
  assert (∀ k, k ∈ (range (left_ acc)).*1 ↔ ∃ p, iv_ctrs i !! k = Some p ∧ p ∉ badPods) as Hids.
  { intros k. rewrite elem_of_keys, Hleft. split.
    - intros [p [? ?]%map_lookup_filter_Some]. by exists p.
    - intros (p & ? & ?). exists p. by apply map_lookup_filter_Some. }
  split_and!.
  - split.
    + intros p Hp. destruct (Hbad p Hp) as [Hin ?]. by apply elem_of_keys in Hin.
    + intros p Hp. by apply Hok, elem_of_keys.
    + intros k Hk. destruct (Hbad2 k Hk) as [Hin ?]. by apply Hids in Hin.
    + intros k p Hk Hp Hkb. apply Hok2; [|done]. apply Hids. by exists p.
  - intros n. unfold isRemoved. by rewrite elem_of_app, Hns1, Hns2.
  - intros img. cbn [fst]. rewrite elem_of_values. subst images. split.
    + intros (k & [Hk Hor]%map_lookup_filter_Some). simpl in Hor.
      destruct (Himg k (mk_is_Some _ _ Hk)) as [p Hp]. exists k, p. split_and!; [done|done|].
      destruct Hor as [Hn|?]; [|by right]. left. destruct (decide (p ∈ badPods)) as [|Hp']; [done|].
      destruct Hn. apply Hids. by exists p.
    + intros (k & p & Hk & Hp & Hor). exists k. apply map_lookup_filter_Some. split; [done|]. simpl.
      destruct Hor as [Hb|Hb]; [left|by right]. intros (p' & ? & ?)%Hids. by simplify_eq.
Qed.


(** Nothing that was restored loses its storage: when no two entries of the
    storage share a name, no name of a restored pod or container is removed. *)
Theorem restore_keeps_restored stored w :
  let i := takeInventory getMetadata ParseBundleId stored in
  (∀ k1 k2 n, n ∈ namesOf i k1 → n ∈ namesOf i k2 → k1 = k2) →
  ∃ r w' ns badPods badCtrs,
    restore perform getMetadata ParseBundleId loader sandboxIPs stored w = (Ret r, w') ∧
    removed (env w') = removed (env w) ++ ns ∧ verdict i badPods badCtrs ∧
    (∀ p n, is_Some (iv_pods i !! p) → p ∉ badPods → n ∈ namesOf i p → n ∉ ns) ∧
    (∀ k p n, iv_ctrs i !! k = Some p → p ∉ badPods → k ∉ badCtrs → n ∈ namesOf i k → n ∉ ns).
Proof.
  intros i Hu. destruct (takeInventory_ok stored) as [Hdis _]. fold i in Hdis.
  destruct (restore_run stored w) as (r & w' & ns & Hrun & (bp & bc & Hv & Hns & _) & Hr).
  fold i in Hv, Hns. exists r, w', ns, bp, bc. split_and!; [done|done|done| |].
  - intros p n Hp Hpb Hn [(q & Hq & [Hnq|(k & Hk & Hnk)])|(k & Hk & Hnk)]%Hns.
    + by rewrite (Hu p q n) in Hpb.
    + apply (Hdis p Hp). rewrite (Hu p k n) by done. by exists q.
    + apply (Hdis p Hp). rewrite (Hu p k n) by done. destruct (vd_ctrs _ _ _ Hv k Hk) as [_ (q & ? & _)]. by exists q.
  - intros k p n Hk Hpb Hkb Hn [(q & Hq & [Hnq|(k' & Hk' & Hnk)])|(k' & Hk' & Hnk)]%Hns.
    + destruct (vd_pods _ _ _ Hv q Hq) as [Hpod _]. apply (Hdis q Hpod). rewrite <- (Hu k q n) by done. by exists p.
    + rewrite <- (Hu k k' n) in Hk' by done. congruence.
    + by rewrite (Hu k k' n) in Hkb.
Qed.
End restore_theorems.

(** ** The wipe *)

Section wipe.
Context {St E : Type} `{StorerLaws ptr St} `{Semver}.
Variable perform : call → io E ().
(** [removePodSandbox] and the image of a container. *)
Variable removePod : ptr → io (world St E) ().
Variable imageOf : ptr → option string.
Variable InternalWipe : bool.
Variable VersionFile VersionFilePersist : string.
Variable files : gmap string string.

Abbreviation W := (world St E).

(** The errors of the version check are logged; its flag is used. *)
Definition shouldWipe (file : string) : io W bool :=
  r ← lift (shouldCrioWipe files file crioVersion); mret (fst r).

Definition wipeIfAppropriate (imagesToDelete : list string) : io W () :=
  if negb InternalWipe then mret ()
  else
    shouldWipeImages ← shouldWipe VersionFilePersist;
    shouldWipeContainers ← (if shouldWipeImages : bool then mret true else shouldWipe VersionFile);
    let imageMap : gset string := list_to_set imagesToDelete in
    imageMap ← (if shouldWipeContainers : bool then
                  ctrs_ ← gets (λ w, ListContainers [] (srv w));
                  sps ← gets (λ w, ListSandboxes (srv w));
                  for_each (λ sp, ignore (removePod sp)) sps ;;
                  mret (imageMap ∪ list_to_set (omap imageOf ctrs_))
                else mret imageMap);
    when shouldWipeImages (for_each (λ img, ignore (perf perform (DeleteImage img))) (elements imageMap)).
End wipe.

Lemma parse_again `{Semver} v commit : is_Some (match parseVersionConstant v commit with Ret x => Some x | _ => None end) →
  ∃ a b, parseVersionConstant v commit = Ret a ∧ parseVersionConstant v "" = Ret b ∧
    Major a = Major b ∧ Minor a = Minor b.
Proof.
  unfold parseVersionConstant. destruct (Make v) as [x| |]; cbn; [|by intros []..]. intros _.
  case_bool_decide; [by exists x, x|]. destruct (NewBuildVersion _); by eexists _, x.
Qed.

(** A file this version wrote does not call for a wipe. *)
Lemma written_no_wipe `{SemverLaws} mkdir file commit v files files' :
  writeVersionFile mkdir file commit v files = (Ret (), files') →
  shouldCrioWipe files' file v = Ret (false, None) ∧ (∀ f, f ≠ file → files' !! f = files !! f).
Proof.
  unfold writeVersionFile, shouldCrioWipe. case_bool_decide as Hf; [by intros [= <-]|].
  intros Hr. apply io_bind_inv in Hr as (cur & f1 & Hc & Hr). apply lift_ret in Hc as [Hc ->].
  apply io_bind_inv in Hr as (j & f1 & Hj & Hr). apply lift_ret in Hj as [Hj ->].
  apply io_bind_inv in Hr as ([] & f1 & Hm & Hr). apply lift_ret in Hm as [_ ->]. injection Hr as <-.
  split; [|intros f Hne; by rewrite lookup_insert_ne].
  rewrite lookup_insert_eq, (unmarshal_marshal cur j Hj).
  destruct (parse_again v commit) as (a & b & Ha & Hb & HM & Hm); [by rewrite Hc|].
  rewrite Hb. assert (cur = a) as -> by congruence. by rewrite !bool_decide_eq_true_2.
Qed.

(** C19: A restart of the same version, with the version files it wrote still there,
    wipes nothing: no pod is removed and no image deleted. *)
Theorem no_wipe_on_restart {St E} `{StorerLaws ptr St} `{SemverLaws} (perform : call → io E ())
    removePod imageOf internal vf vfp mk1 mk2 commit files files1 files2 imgs (w : world St E) :
  vf ≠ vfp →
  writeVersionFile mk1 vf commit crioVersion files = (Ret (), files1) →
  writeVersionFile mk2 vfp commit crioVersion files1 = (Ret (), files2) →
  wipeIfAppropriate perform removePod imageOf internal vf vfp files2 imgs w = (Ret (), w).
Proof.
  intros Hne Hw1 Hw2. unfold wipeIfAppropriate. destruct internal; [|done]. cbn [negb].
  destruct (written_no_wipe _ _ _ _ _ _ Hw1) as [Hs1 _]. destruct (written_no_wipe _ _ _ _ _ _ Hw2) as [Hs2 Hkeep].
  assert (shouldCrioWipe files2 vf crioVersion = Ret (false, None)) as Hs1'.
  { revert Hs1. unfold shouldCrioWipe. by rewrite Hkeep. }
  rewrite (io_bind_ret _ _ w false w) by (unfold shouldWipe; rewrite Hs2; reflexivity).
  rewrite (io_bind_ret _ _ w false w) by (cbv beta iota; unfold shouldWipe; rewrite Hs1'; reflexivity).
  reflexivity.
Qed.

(** ** The clean shutdown *)

Inductive shutdownCall :=
| CNIManagerShutdown | ResourceStoreClose | StorageShutdown | Syncfs | CreateCleanFile | SyncParent | CloseEvents.
#[export] Instance shutdownCall_eq_dec : EqDecision shutdownCall.
Proof. solve_decision. Defined.

Section shutdown.
Context {E : Type}.
Variable doing : shutdownCall → io E ().

(** The first two and the last call have no result. *)
Definition Shutdown (CleanShutdownFile : string) (EnablePodEvents : bool) : io E () :=
  ignore (doing CNIManagerShutdown) ;;
  ignore (doing ResourceStoreClose) ;;
  doing StorageShutdown ;;
  wrap_err "failed to sync graph root after shutting down: " (doing Syncfs) ;;
  wrap_err "failed to sync graph root after shutting down: " (doing Syncfs) ;;
  when (bool_decide (CleanShutdownFile ≠ ""))
    (wrap_err "failed to write file to indicate a clean shutdown: " (doing CreateCleanFile) ;;
     wrap_err "failed to sync clean shutdown file: " (doing SyncParent)) ;;
  when EnablePodEvents (ignore (doing CloseEvents)).

(** The calls so far, and whether each succeeded. *)
Variable history : E → list (shutdownCall * bool).
Hypothesis records : ∀ c e r e', doing c e = (r, e') →
  history e' = history e ++ [(c, match r with Ret _ => true | _ => false end)].

(** [m] adds to the history something in [P]. *)
Definition adds (m : io E ()) (P : bool → list (shutdownCall * bool) → Prop) : Prop :=
  ∀ e r e', m e = (r, e') → ∃ l, history e' = history e ++ l ∧ P (match r with Ret _ => true | _ => false end) l.

Lemma adds_bind m k P Q R :
  adds m P → adds k Q → (∀ l, P false l → R false l) → (∀ b l1 l2, P true l1 → Q b l2 → R b (l1 ++ l2)) →
  adds (m ;; k) R.
Proof.
  intros Hm Hk Hf Ht e r e' Hr. unfold mbind, io_bind in Hr. destruct (m e) as [r1 e1] eqn:He.
  destruct (Hm e r1 e1 He) as (l1 & Hl1 & HP). destruct r1 as [[]|err|s].
  - destruct (Hk e1 r e' Hr) as (l2 & Hl2 & HQ). exists (l1 ++ l2). split; [by rewrite Hl2, Hl1, app_assoc|]. by apply Ht.
  - injection Hr as <- <-. exists l1. split; [done|]. by apply Hf.
  - injection Hr as <- <-. exists l1. split; [done|]. by apply Hf.
Qed.

Lemma adds_doing c : adds (doing c) (λ b l, l = [(c, b)]).
Proof. intros e r e' Hr. eexists. split; [by apply records|done]. Qed.
Lemma adds_wrap s c : adds (wrap_err s (doing c)) (λ b l, l = [(c, b)]).
Proof.
  intros e r e' Hr. unfold wrap_err in Hr. destruct (doing c e) as [r1 e1] eqn:He.
  assert (e' = e1) as -> by (by destruct r1; injection Hr as _ <-).
  rewrite (records c e _ _ He). eexists. split; [reflexivity|]. by destruct r1; injection Hr as <-.
Qed.
Lemma adds_ignore c : adds (ignore (doing c)) (λ _ l, ∃ b, l = [(c, b)]).
Proof.
  intros e r e' Hr. unfold ignore in Hr. destruct (doing c e) as [r1 e1] eqn:He.
  assert (e' = e1) as -> by (by destruct r1; injection Hr as _ <-).
  rewrite (records c e _ _ He). eexists. split; [reflexivity|]. by eexists.
Qed.

(** A history has one way to be cut at the mark. *)
Lemma cut_once {A} (x y : A) (P : A → Prop) l1 l2 p t :
  P x → P y → (∀ z, z ∈ p → ¬ P z) → (∀ z, z ∈ t → ¬ P z) → l1 ++ x :: l2 = p ++ y :: t → l1 = p.
Proof.
  intros Hx Hy Hp Ht. revert p Hp. induction l1 as [|a l1 IH]; intros [|b p] Hp Heq; simpl in Heq; simplify_eq; [done| | |].
  - by destruct (Hp b); [left|].
  - by destruct (Ht x); [apply elem_of_app; right; left|].
  - f_equal. apply IH; [|done]. intros z Hz. apply Hp. by right.
Qed.

(** The mark is not made, or is made once, after a history in [P]. *)
Definition unmarked (l : list (shutdownCall * bool)) : Prop := ∀ b, (CreateCleanFile, b) ∉ l.
Definition guarded (P : list (shutdownCall * bool) → Prop) (l : list (shutdownCall * bool)) : Prop :=
  unmarked l ∨ ∃ p b t, P p ∧ unmarked p ∧ unmarked t ∧ l = p ++ (CreateCleanFile, b) :: t.

Lemma guarded_step m k c (must : bool) P :
  c ≠ CreateCleanFile → adds m (λ b l, ∃ b', l = [(c, b')] ∧ (must = true → b' = b)) → adds k (λ _, guarded P) →
  adds (m ;; k) (λ _, guarded (λ p, ∃ b q, p = (c, b) :: q ∧ (must = true → b = true) ∧ P q)).
Proof.
  intros Hc Hm Hk. assert (∀ b, unmarked [(c, b)]) as Hu.
  { intros b b' ?%list_elem_of_singleton. congruence. }
  eapply adds_bind; [exact Hm|exact Hk| |].
  - intros l (b & -> & _). by left.
  - intros b l1 l2 (b' & -> & Hb) [Hn|(p & b2 & t & HP & Hp & Ht & ->)].
    + left. intros b2 [?|?]%elem_of_app; [by apply (Hu b' b2)|by apply (Hn b2)].
    + right. exists ((c, b') :: p), b2, t. split_and!; [by exists b', p|  |done|done].
      intros b3 [?|?]%elem_of_cons; [congruence|by apply (Hp b3)].
Qed.

Lemma adds_must m c : adds m (λ b l, l = [(c, b)]) → adds m (λ b l, ∃ b', l = [(c, b')] ∧ (true = true → b' = b)).
Proof. intros Hm e r e' Hr. destruct (Hm e r e' Hr) as (l & Hl & ->). eexists. split; [done|]. by eexists. Qed.
Lemma adds_may m c :
  adds m (λ _ l, ∃ b, l = [(c, b)]) → adds m (λ b l, ∃ b', l = [(c, b')] ∧ (false = true → b' = b)).
Proof. intros Hm e r e' Hr. destruct (Hm e r e' Hr) as (l & Hl & b & ->). eexists. split; [done|]. by exists b. Qed.

Lemma adds_unit : adds (mret ()) (λ _ l, l = []).
Proof. intros e r e' [= <- <-]. exists []. by rewrite app_nil_r. Qed.

Lemma Shutdown_tail file events :
  adds (when (bool_decide (file ≠ ""))
          (wrap_err "failed to write file to indicate a clean shutdown: " (doing CreateCleanFile) ;;
           wrap_err "failed to sync clean shutdown file: " (doing SyncParent)) ;;
        when events (ignore (doing CloseEvents))) (λ _, guarded (λ p, p = [])).
Proof.
  assert (∀ c, c ≠ CreateCleanFile → ∀ b, unmarked [(c, b)]) as Hu.
  { intros c Hc b b' ?%list_elem_of_singleton. congruence. }
  assert (adds (when events (ignore (doing CloseEvents))) (λ _ l, unmarked l)) as Hev.
  { destruct events; intros e r e' Hr.
    - destruct (adds_ignore CloseEvents e r e' Hr) as (l & Hl & b & ->). exists [(CloseEvents, b)]. split; [done|]. by apply Hu.
    - destruct (adds_unit e r e' Hr) as (l & Hl & ->). exists []. split; [done|]. intros b ?%elem_of_nil. done. }
  assert (unmarked []) as Hnil by (intros b ?%elem_of_nil; done).
  assert (adds (wrap_err "failed to write file to indicate a clean shutdown: " (doing CreateCleanFile) ;;
    wrap_err "failed to sync clean shutdown file: " (doing SyncParent))
    (λ _ l, ∃ b t, l = (CreateCleanFile, b) :: t ∧ unmarked t)) as Hmark.
  { eapply adds_bind; [apply adds_wrap|apply adds_wrap| |].
    - intros l ->. by exists false, [].
    - intros b l1 l2 -> ->. exists true, [(SyncParent, b)]. split; [done|]. by apply Hu. }
  destruct (bool_decide (file ≠ "")); cbn [when].
  - eapply adds_bind; [exact Hmark|exact Hev| |].
    + intros l (b & t & -> & Ht). right. by exists [], b, t.
    + intros b l1 l2 (b1 & t & -> & Ht) Hl2. right. exists [], b1, (t ++ l2). split_and!; [done|done| |done].
      intros b3 [?|?]%elem_of_app; [by apply (Ht b3)|by apply (Hl2 b3)].
  - eapply adds_bind; [apply adds_unit|exact Hev| |].
    + intros l ->. by left.
    + intros b l1 l2 -> Hl2. by left.
Qed.

End shutdown.

(** ** Witnesses *)

#[local] Instance start_storer : Storer ptr (memoryStore (T := ptr)) := memoryStore_storer map_to_list.
#[local] Instance start_laws : StorerLaws ptr (memoryStore (T := ptr)) :=
  memoryStore_laws map_to_list (λ c, reflexivity (map_to_list c)).
#[local] Instance start_order : RangeOrder := λ A m, map_to_list m.
#[local] Instance start_order_law : RangeOrderLaw.
Proof. by intros A m. Defined.

Module ExampleStart.
(** A pod that cannot be loaded with a container under it, a pod that can, and two
    containers under that one, of which one cannot be loaded. *)
Definition metadata (id : string) : outcome RuntimeContainerMetadata :=
  if bool_decide (id ∈ ["p1"; "p2"]) then Ret (mkRCM true "")
  else Ret (mkRCM false (if bool_decide (id = "c1") then "p1" else "p2")).
Definition stored : list storedContainer :=
  [mkStored "p1" ["k8s_bad_ns"; "k8s_POD_bad_ns"] ""; mkStored "p2" ["k8s_good_ns"] "";
   mkStored "c1" ["one"] "img1"; mkStored "c2" ["two"] "img2"; mkStored "c3" ["three"] "img3"].
Definition loader : Loader (memoryStore (T := ptr)) :=
  mkLoader _
    (λ id s, (Ret (if bool_decide (id = "p1") then (None, Some (ErrorsNew "bad spec")) else (Some 1%positive, None)), s))
    (λ id s, (Ret (if bool_decide (id = "c3") then Some (ErrorsNew "bad state") else None), s)).
Definition removed (l : list call) : list string :=
  omap (λ c, match c with StorageDelete n => Some n | _ => None end) l.
Definition w : world (memoryStore (T := ptr)) (list call) := mkWorld _ _ New ∅ [].
Definition noIPs (sp : ptr) (l : list call) : outcome (list string) := Ret [].

Lemma performs c e : ∃ r e', Example3.perform c e = (r, e') ∧ (∀ what, r ≠ Panic what) ∧
  removed e' = removed e ++ match c with StorageDelete n => [n] | _ => [] end.
Proof.
  eexists (Ret ()), _. split_and!; [reflexivity|done|]. unfold removed. rewrite omap_app. by destruct c.
Defined.
Lemma loads_sandbox id s : ∃ r s', ld_Sandbox loader id s = (Ret r, s').
Proof. by eexists _, _. Defined.
Lemma loads_container id s : ∃ r s', ld_Container loader id s = (Ret r, s').
Proof. by eexists _, _. Defined.
End ExampleStart.

(** Every recorded name with its owner; names that are all different have one owner. *)
Definition allNames (i : inventory) : list (string * string) :=
  map_to_list (iv_names i) ≫= λ kv, (λ n, (n, kv.1)) <$> kv.2.
Lemma namesOf_listed i k n : n ∈ namesOf i k → (n, k) ∈ allNames i.
Proof.
  unfold namesOf. destruct (iv_names i !! k) as [l|] eqn:Hk; cbn; [|by intros ?%elem_of_nil].
  intros Hn. apply list_elem_of_bind. exists (k, l). split; [|by apply elem_of_map_to_list].
  apply list_elem_of_fmap. by exists n.
Qed.
Lemma inj_listed (l : list (string * string)) n k1 k2 : NoDup l.*1 → (n, k1) ∈ l → (n, k2) ∈ l → k1 = k2.
Proof.
  intros Hd H1 H2. apply (elem_of_list_to_map_1 (M := gmap string)) in H1, H2; [|done..]. congruence.
Qed.


Lemma restore_keeps_restored_witness :
  ∃ r w' ns, restore Example3.perform ExampleStart.metadata Ret ExampleStart.loader ExampleStart.noIPs
      ExampleStart.stored ExampleStart.w = (Ret r, w') ∧ ExampleStart.removed (env w') = ns ∧ "two" ∉ ns.
Proof.
  destruct (restore_keeps_restored Example3.perform ExampleStart.metadata Ret ExampleStart.loader ExampleStart.noIPs
    ExampleStart.removed ExampleStart.performs ExampleStart.loads_sandbox ExampleStart.loads_container
    ExampleStart.stored ExampleStart.w) as (r & w' & ns & bp & bc & Hrun & Hns & Hv & _ & Hc).
  - intros k1 k2 n Hk1 Hk2.
    apply (namesOf_listed (takeInventory ExampleStart.metadata Ret ExampleStart.stored)) in Hk1, Hk2.
    apply (inj_listed (allNames (takeInventory ExampleStart.metadata Ret ExampleStart.stored)) n k1 k2); [|done..].
    apply (bool_decide_unpack _). vm_compute. exact I.
  - exists r, w', ns. split_and!; [exact Hrun|exact Hns|].
    apply (Hc "c2" "p2" "two"); [vm_compute; reflexivity| | |apply (bool_decide_unpack _); vm_compute; exact I].
    + intros [_ (s & sb & e & s' & Hp)]%(vd_pods _ _ _ _ Hv). vm_compute in Hp. congruence.
    + intros [(s & e & s' & Hp & _) _]%(vd_ctrs _ _ _ _ Hv). vm_compute in Hp. congruence.
Defined.

(** A semver that knows this version, with and without a commit. *)
#[local] Instance start_semver : Semver := {|
  Make s := if bool_decide (s = "1.32.3") then Ret (mkVersion 1 32 3 [] []) else Fail (ErrorsNew "invalid version");
  NewBuildVersion b := if bool_decide (b = "") then Fail (ErrorsNew "build meta data is empty") else Ret b;
  UnmarshalJSON j :=
    match j with
    | "v1.32.3" => Ret (mkVersion 1 32 3 [] [])
    | "v1.32.3+abc" => Ret (mkVersion 1 32 3 [] ["abc"])
    | _ => Fail (ErrorsNew "invalid version")
    end;
  MarshalJSON v :=
    if bool_decide (v = mkVersion 1 32 3 [] []) then Ret "v1.32.3"
    else if bool_decide (v = mkVersion 1 32 3 [] ["abc"]) then Ret "v1.32.3+abc"
    else Fail (ErrorsNew "not a version of this example") |}.
#[local] Instance start_semver_laws : SemverLaws.
Proof.
  intros v j. cbn. case_bool_decide as H1; [subst v; by intros [= <-]|].
  case_bool_decide as H2; [subst v; by intros [= <-]|done].
Defined.

Lemma no_wipe_on_restart_witness :
  wipeIfAppropriate Example3.perform (λ sp, fail (ErrorsNew "removed")) (λ _, None) true "/run/version" "/var/version"
    {["/run/version" := "v1.32.3+abc"; "/var/version" := "v1.32.3+abc"]} ["img1"] ExampleStart.w = (Ret (), ExampleStart.w).
Proof.
  apply (no_wipe_on_restart Example3.perform (λ sp, fail (ErrorsNew "removed")) (λ _, None) true "/run/version" "/var/version"
    (Ret ()) (Ret ()) "abc" ∅ {["/run/version" := "v1.32.3+abc"]}); [done|vm_compute; reflexivity|vm_compute; reflexivity].
Defined.

