(* ===== verification/Metrics.v ===== *)
(** * Metrics: the CRI metrics of pods and containers
    (internal/lib/stats/metrics.go, cpu_metrics.go, memory_metrics.go,
    network_metrics.go, server/metric_descriptors_list.go)

    The label values of a metric are a Go slice.  [computeSandboxMetrics] appends
    to one common slice for every metric it makes, so whether two metrics share
    their labels is a question of capacity: slices here are windows into arrays of
    a store. *)

From S2P Require Import Prelude GoStrings IPTables CgMgr ContainerServer.
Local Open Scope Z_scope.

(** ** Slices of strings *)

(** Every slice of this file starts at the first element of its array; its
    capacity is the length of the array. *)
Record slice := mkSlice { sl_arr : positive; sl_len : nat }.
Record mstate := mkMState { arrays : gmap positive (list string); clock : nat }.
#[export] Instance mstate_eta : Eta mstate := λ s, mkMState (arrays s) (clock s).

(** The capacity [append] gives a slice that it has to move; Go promises no more
    than that the elements fit. *)
Class GrowSlice := growslice : nat → nat → nat.
Class GrowSliceLaw `{GrowSlice} : Prop := growslice_fits old need : (need ≤ growslice old need)%nat.

Definition readSlice (st : mstate) (s : slice) : list string :=
  take (sl_len s) (default [] (arrays st !! sl_arr s)).

(** A slice literal. *)
Definition literal (xs : list string) : io mstate slice := λ st,
  let a := fresh (dom (arrays st)) in
  (Ret (mkSlice a (length xs)), st <| arrays ::= <[a := xs]> |>).

(** [append(s, xs...)] writes behind the end of [s] when there is room. *)
Definition append `{GrowSlice} (s : slice) (xs : list string) : io mstate slice := λ st,
  let arr := default [] (arrays st !! sl_arr s) in
  let need := (sl_len s + length xs)%nat in
  if (need <=? length arr)%nat then
    (Ret (mkSlice (sl_arr s) need),
     st <| arrays ::= <[sl_arr s := take (sl_len s) arr ++ xs ++ drop need arr]> |>)
  else
    let a := fresh (dom (arrays st)) in
    (Ret (mkSlice a need),
     st <| arrays ::= <[a := take (sl_len s) arr ++ xs ++ replicate (growslice (length arr) need - need) ""]> |>).

(** ** Data *)

Inductive MetricType := MetricType_COUNTER | MetricType_GAUGE.
Record MetricDescriptor := mkDesc { md_Name : string; md_Help : string; md_LabelKeys : list string }.
Record metricValue := mkMV { mv_value : Z; mv_labels : list string; mv_metricType : MetricType }.
(** A value function reads what it was given when it is called; reading the
    statistics of a link without any is a nil dereference. *)
Record containerMetric := mkCM { cm_desc : MetricDescriptor; cm_valueFunc : outcome (list metricValue) }.
Record Metric := mkMetric {
  m_Name : string; m_Timestamp : Z; m_MetricType : MetricType; m_Value : Z; m_LabelValues : slice }.

(** [cgmgr.CPUStats], [cgmgr.PidsStats] and [cgmgr.CgroupStats]; every source of
    them fills in all three parts. *)
Record CPUStats := mkCPUStats {
  TotalUsageNano : Z; PerCPUUsage : list Z; UsageInKernelmode : Z; UsageInUsermode : Z;
  ThrottlingActivePeriods : Z; ThrottledPeriods : Z; ThrottledTime : Z }.
Record PidsStats := mkPidsStats { pd_Current : Z; pd_Limit : Z }.
Record CgroupStats := mkCgroupStats {
  cg_Memory : MemoryStats; cg_CPU : CPUStats; cg_Pid : PidsStats; cg_SystemNano : Z }.

(** [netlink.LinkAttrs] and its statistics. *)
Record LinkStatistics := mkLinkStatistics {
  RxPackets : Z; TxPackets : Z; RxBytes : Z; TxBytes : Z; RxErrors : Z; TxErrors : Z;
  RxDropped : Z; TxDropped : Z }.
Record LinkAttrs := mkLinkAttrs { la_Name : string; la_Statistics : option LinkStatistics }.

(** ** Descriptors *)

(** [append] to this literal, whose capacity is its length, always moves: the label
    keys are values. *)
Definition baseLabelKeys : list string := ["id"; "name"; "image"].
Definition NetworkMetrics : string := "network".
Definition second : Z := 10 ^ 9.

Definition desc (nm help : string) (more : list string) : MetricDescriptor := mkDesc nm help (baseLabelKeys ++ more).

Definition cpuDescriptors : list MetricDescriptor := [
  desc "container_cpu_user_seconds_total" "Cumulative user CPU time consumed in seconds." [];
  desc "container_cpu_system_seconds_total" "Cumulative system CPU time consumed in seconds." [];
  desc "container_cpu_usage_seconds_total" "Cumulative CPU time consumed in seconds." ["cpu"];
  desc "container_cpu_cfs_periods_total" "Number of elapsed enforcement period intervals." [];
  desc "container_cpu_cfs_throttled_periods_total" "Number of throttled period intervals." [];
  desc "container_cpu_cfs_throttled_seconds_total" "Total time duration the container has been throttled." []].
Definition cpuLoadDescriptors : list MetricDescriptor := [
  desc "container_cpu_load_average_10s" "Value of container CPU load average over the last 10 seconds." [];
  desc "container_tasks_state" "Number of tasks in given state" ["state"]].
Definition diskDescriptors : list MetricDescriptor := [
  desc "container_fs_inodes_free" "Number of available Inodes" ["device"];
  desc "container_fs_inodes_total" "Number of Inodes" ["device"];
  desc "container_fs_limit_bytes" "Number of bytes that can be consumed by the container on this filesystem." ["device"];
  desc "container_fs_usage_bytes" "Number of bytes that are consumed by the container on this filesystem." ["device"]].
Definition diskioDescriptors : list MetricDescriptor := [
  desc "container_fs_reads_bytes_total" "Cumulative count of bytes read" ["device"];
  desc "container_fs_reads_total" "Cumulative count of reads completed" ["device"];
  desc "container_fs_sector_reads_total" "Cumulative count of sector reads completed" ["device"];
  desc "container_fs_reads_merged_total" "Cumulative count of reads merged" ["device"];
  desc "container_fs_read_seconds_total" "Cumulative count of seconds spent reading" ["device"];
  desc "container_fs_writes_bytes_total" "Cumulative count of bytes written" ["device"];
  desc "container_fs_writes_total" "Cumulative count of writes completed" ["device"];
  desc "container_fs_sector_writes_total" "Cumulative count of sector writes completed" ["device"];
  desc "container_fs_writes_merged_total" "Cumulative count of writes merged" ["device"];
  desc "container_fs_write_seconds_total" "Cumulative count of seconds spent writing" ["device"];
  desc "container_fs_io_current" "Number of I/Os currently in progress" ["device"];
  desc "container_fs_io_time_seconds_total" "Cumulative count of seconds spent doing I/Os" ["device"];
  desc "container_fs_io_time_weighted_seconds_total" "Cumulative weighted I/O time in seconds" ["device"];
  desc "container_blkio_device_usage_total" "Blkio device bytes usage" ["device"; "major"; "minor"; "operation"]].
Definition memoryDescriptors : list MetricDescriptor := [
  desc "container_memory_cache" "Number of bytes of page cache memory." [];
  desc "container_memory_rss" "Size of RSS in bytes." [];
  desc "container_memory_kernel_usage" "Size of kernel memory allocated in bytes." [];
  desc "container_memory_mapped_file" "Size of memory mapped files in bytes." [];
  desc "container_memory_swap" "Container swap usage in bytes." [];
  desc "container_memory_failcnt" "Number of memory usage hits limits" [];
  desc "container_memory_usage_bytes" "Current memory usage in bytes, including all memory regardless of when it was accessed" [];
  desc "container_memory_max_usage_bytes" "Maximum memory usage recorded in bytes" [];
  desc "container_memory_working_set_bytes" "Current working set in bytes." [];
  desc "container_memory_failures_total" "Cumulative count of memory allocation failures." ["failure_type"; "scope"]].
Definition miscDescriptors : list MetricDescriptor := [
  desc "container_scrape_error" "1 if there was an error while getting container metrics, 0 otherwise" [];
  desc "container_last_seen" "Last time a container was seen by the exporter" [];
  mkDesc "cadvisor_version_info" "A metric with a constant '1' value labeled by kernel version, OS version, docker version, cadvisor version & cadvisor revision."
    ["kernelVersion"; "osVersion"; "dockerVersion"; "cadvisorVersion"; "cadvisorRevision"];
  desc "container_start_time_seconds" "Start time of the container since unix epoch in seconds." [];
  desc "container_spec_cpu_period" "CPU period of the container." [];
  desc "container_spec_cpu_quota" "CPU quota of the container." [];
  desc "container_spec_cpu_shares" "CPU share of the container." []].
Definition networkDescriptors : list MetricDescriptor := [
  desc "container_network_receive_bytes_total" "Cumulative count of bytes received" ["interface"];
  desc "container_network_receive_packets_total" "Cumulative count of packets received" ["interface"];
  desc "container_network_receive_packets_dropped_total" "Cumulative count of packets dropped while receiving" ["interface"];
  desc "container_network_receive_errors_total" "Cumulative count of errors encountered while receiving" ["interface"];
  desc "container_network_transmit_bytes_total" "Cumulative count of bytes transmitted" ["interface"];
  desc "container_network_transmit_packets_total" "Cumulative count of packets transmitted" ["interface"];
  desc "container_network_transmit_packets_dropped_total" "Cumulative count of packets dropped while transmitting" ["interface"];
  desc "container_network_transmit_errors_total" "Cumulative count of errors encountered while transmitting" ["interface"]].
Definition oomDescriptors : list MetricDescriptor := [
  desc "container_oom_events_total" "Count of out of memory events observed for the container" []].
Definition processesDescriptors : list MetricDescriptor := [
  desc "container_processes" "Number of processes running inside the container." [];
  desc "container_file_descriptors" "Number of open file descriptors for the container." [];
  desc "container_sockets" "Number of open sockets for the container." [];
  desc "container_threads_max" "Maximum number of threads allowed inside the container, infinity if value is zero" [];
  desc "container_threads" "Number of threads running inside the container" [];
  desc "container_ulimits_soft" "Soft ulimit values for the container root process. Unlimited if -1, except priority and nice" ["ulimit"]].

(** The keys it is given are not looked at. *)
Definition PopulateMetricDescriptors (includedKeys : list string) : gmap string (list MetricDescriptor) :=
  {["cpu" := cpuDescriptors; "cpuLoad" := cpuLoadDescriptors; "disk" := diskDescriptors;
    "diskio" := diskioDescriptors; "memory" := memoryDescriptors; "misc" := miscDescriptors;
    NetworkMetrics := networkDescriptors; "oom" := oomDescriptors; "processes" := processesDescriptors]}.

(** The request ListMetricDescriptors, in an order Go leaves open. *)
Definition ListMetricDescriptors `{RangeOrder} (includedKeys : list string) : list MetricDescriptor :=
  (range (PopulateMetricDescriptors includedKeys)).*2 ≫= id.

(** ** Generators *)

Definition one (t : MetricType) (v : Z) : outcome (list metricValue) := Ret [mkMV v [] t].

(** [fmt.Sprintf("cpu%02d", i)] *)
Definition cpuLabel (i : nat) : string :=
  "cpu" +:+ (if (i <? 10)%nat then "0" else "") +:+ Itoa (Z.of_nat i).

(** CPUs without any usage are left out. *)
Definition perCPU (usage : list Z) : list metricValue :=
  omap (λ iv : nat * Z, if 0 <? iv.2 then Some (mkMV (iv.2 / second) [cpuLabel iv.1] MetricType_COUNTER) else None)
    (imap pair usage).
Definition cpuUsage (cpu : CPUStats) : list metricValue :=
  if bool_decide (PerCPUUsage cpu = []) && (0 <? TotalUsageNano cpu)
  then [mkMV (TotalUsageNano cpu / second) ["total"] MetricType_COUNTER]
  else perCPU (PerCPUUsage cpu).

Definition cpuMetrics (cpu : CPUStats) : list containerMetric := [
  mkCM (desc "container_cpu_user_seconds_total" "Cumulative user CPU time consumed in seconds." [])
    (one MetricType_COUNTER (UsageInUsermode cpu / second));
  mkCM (desc "container_cpu_system_seconds_total" "Cumulative system CPU time consumed in seconds." [])
    (one MetricType_COUNTER (UsageInKernelmode cpu / second));
  mkCM (desc "container_cpu_usage_seconds_total" "Cumulative CPU time consumed in seconds." ["cpu"])
    (Ret (cpuUsage cpu));
  mkCM (desc "container_cpu_cfs_periods_total" "Number of elapsed enforcement period intervals." [])
    (one MetricType_COUNTER (ThrottlingActivePeriods cpu));
  mkCM (desc "container_cpu_cfs_throttled_periods_total" "Number of throttled period intervals." [])
    (one MetricType_COUNTER (ThrottledPeriods cpu));
  mkCM (desc "container_cpu_cfs_throttled_seconds_total" "Total time duration the container has been throttled." [])
    (one MetricType_COUNTER (ThrottledTime cpu / second))].

Definition memoryFailures (mem : MemoryStats) : list metricValue := [
  mkMV (PageFaults mem) ["pgfault"; "container"] MetricType_COUNTER;
  mkMV (PageFaults mem) ["pgfault"; "hierarchy"] MetricType_COUNTER;
  mkMV (MajorPageFaults mem) ["pgmajfault"; "container"] MetricType_COUNTER;
  mkMV (MajorPageFaults mem) ["pgmajfault"; "hierarchy"] MetricType_COUNTER].
Definition memoryMetrics (mem : MemoryStats) : list containerMetric := [
  mkCM (desc "container_memory_cache" "Number of bytes of page cache memory." []) (one MetricType_GAUGE (ms_Cache mem));
  mkCM (desc "container_memory_rss" "Size of RSS in bytes." []) (one MetricType_GAUGE (RssBytes mem));
  mkCM (desc "container_memory_kernel_usage" "Size of kernel memory allocated in bytes." [])
    (one MetricType_GAUGE (ms_KernelUsage mem));
  mkCM (desc "container_memory_mapped_file" "Size of memory mapped files in bytes." [])
    (one MetricType_GAUGE (FileMapped mem));
  mkCM (desc "container_memory_swap" "Container swap usage in bytes." []) (one MetricType_GAUGE (ms_SwapUsage mem));
  mkCM (desc "container_memory_failcnt" "Number of memory usage hits limits" []) (one MetricType_COUNTER (ms_Failcnt mem));
  mkCM (desc "container_memory_usage_bytes" "Current memory usage in bytes, including all memory regardless of when it was accessed" [])
    (one MetricType_GAUGE (ms_Usage mem));
  mkCM (desc "container_memory_max_usage_bytes" "Maximum memory usage recorded in bytes" [])
    (one MetricType_GAUGE (ms_MaxUsage mem));
  mkCM (desc "container_memory_working_set_bytes" "Current working set in bytes." [])
    (one MetricType_GAUGE (WorkingSetBytes mem));
  mkCM (desc "container_memory_failures_total" "Cumulative count of memory allocation failures." ["failure_type"; "scope"])
    (Ret (memoryFailures mem))].

Definition oomMetrics (oomCount : Z) : list containerMetric := [
  mkCM (desc "container_oom_events_total" "Count of out of memory events observed for the container" [])
    (one MetricType_COUNTER oomCount)].

Definition networkMetrics (attr : LinkAttrs) : list containerMetric :=
  let counter f := s ← deref (la_Statistics attr); one MetricType_COUNTER (f s) in [
  mkCM (desc "container_network_receive_bytes_total" "Cumulative count of bytes received" ["interface"]) (counter RxBytes);
  mkCM (desc "container_network_receive_packets_total" "Cumulative count of packets received" ["interface"])
    (counter RxPackets);
  mkCM (desc "container_network_receive_packets_dropped_total" "Cumulative count of packets dropped while receiving" ["interface"])
    (counter RxDropped);
  mkCM (desc "container_network_receive_errors_total" "Cumulative count of errors encountered while receiving" ["interface"])
    (counter RxErrors);
  mkCM (desc "container_network_transmit_bytes_total" "Cumulative count of bytes transmitted" ["interface"])
    (counter TxBytes);
  mkCM (desc "container_network_transmit_packets_total" "Cumulative count of packets transmitted" ["interface"])
    (counter TxPackets);
  mkCM (desc "container_network_transmit_packets_dropped_total" "Cumulative count of packets dropped while transmitting" ["interface"])
    (counter TxDropped);
  mkCM (desc "container_network_transmit_errors_total" "Cumulative count of errors encountered while transmitting" ["interface"])
    (counter TxErrors)].

Section compute.
Context `{GrowSlice}.
(** The clock: the time of the n-th reading. *)
Variable time_Now : nat → Z.

Definition sandboxBaseLabelValues (id : string) : list string := [id; "POD"; ""].

Definition newMetric (nm : string) (values : slice) (v : metricValue) : io mstate Metric := λ st,
  let now := time_Now (clock st) in
  match append values (mv_labels v) (st <| clock ::= S |>) with
  | (Ret ls, st) => (Ret (mkMetric nm now (mv_metricType v) (mv_value v) ls), st)
  | (Fail e, st) => (Fail e, st)
  | (Panic s, st) => (Panic s, st)
  end.

Fixpoint metricsOf (nm : string) (values : slice) (vs : list metricValue) : io mstate (list Metric) :=
  match vs with
  | [] => mret []
  | v :: vs => m ← newMetric nm values v; rest ← metricsOf nm values vs; mret (m :: rest)
  end.
Fixpoint allMetrics (values : slice) (metrics : list containerMetric) : io mstate (list Metric) :=
  match metrics with
  | [] => mret []
  | m :: metrics =>
      vs ← lift (cm_valueFunc m);
      here ← metricsOf (md_Name (cm_desc m)) values vs;
      rest ← allMetrics values metrics;
      mret (here ++ rest)
  end.

Definition computeSandboxMetrics (id : string) (metrics : list containerMetric) (metricName : string) :
    io mstate (list Metric) :=
  base ← literal (sandboxBaseLabelValues id);
  values ← append base [metricName];
  allMetrics values metrics.

Definition generateSandboxCPUMetrics (id : string) (cpu : CPUStats) := computeSandboxMetrics id (cpuMetrics cpu) "cpu".
Definition generateSandboxMemoryMetrics (id : string) (mem : MemoryStats) :=
  computeSandboxMetrics id (memoryMetrics mem) "memory".
Definition GenerateSandboxOOMMetrics (id : string) (oomCount : Z) := computeSandboxMetrics id (oomMetrics oomCount) "oom".
Definition generateSandboxNetworkMetrics (id : string) (attr : LinkAttrs) :=
  computeSandboxMetrics id (networkMetrics attr) "network".

(** [links] is what [netlink.LinkList] gives in the namespace the daemon runs in;
    a link has no attributes when they are [None]. *)
Fixpoint networkOfLinks (id : string) (links : list (option LinkAttrs)) : io mstate (list Metric) :=
  match links with
  | [] => mret []
  | None :: links => networkOfLinks id links
  | Some attrs :: links =>
      here ← generateSandboxNetworkMetrics id attrs;
      rest ← networkOfLinks id links;
      mret (here ++ rest)
  end.
Definition GenerateNetworkMetrics (id : string) (links : outcome (list (option LinkAttrs))) : io mstate (list Metric) :=
  match links with
  | Ret links => networkOfLinks id links
  | _ => mret []
  end.
End compute.

(** ** Lemmas *)

(** The table the descriptors are listed from and the metrics that are generated
    agree on names, help texts and label keys. *)
Lemma cpu_described keys cpu : PopulateMetricDescriptors keys !! "cpu" = Some (cm_desc <$> cpuMetrics cpu).
Proof. vm_compute. reflexivity. Qed.
Lemma memory_described keys mem : PopulateMetricDescriptors keys !! "memory" = Some (cm_desc <$> memoryMetrics mem).
Proof. vm_compute. reflexivity. Qed.
Lemma oom_described keys n : PopulateMetricDescriptors keys !! "oom" = Some (cm_desc <$> oomMetrics n).
Proof. vm_compute. reflexivity. Qed.
Lemma network_described keys attr :
  PopulateMetricDescriptors keys !! NetworkMetrics = Some (cm_desc <$> networkMetrics attr).
Proof. vm_compute. reflexivity. Qed.

(** The values of a list of metrics, with the name of each. *)
Definition valuesOf (metrics : list containerMetric) : list (string * metricValue) :=
  metrics ≫= λ m, match cm_valueFunc m with Ret vs => (λ v, (md_Name (cm_desc m), v)) <$> vs | _ => [] end.
Definition readable (m : containerMetric) : Prop := ∃ vs, cm_valueFunc m = Ret vs.

Section compute_theorems.
Context `{GrowSliceLaw}.
Variable time_Now : nat → Z.

(** [base] are the values common to all metrics, in array [a] of capacity [cap]. *)
Variable base : list string.
Variable a : positive.
Variable cap : nat.

(** The common array keeps its capacity and the common values at its start. *)
Definition common (st : mstate) : Prop :=
  ∃ arr, arrays st !! a = Some arr ∧ length arr = cap ∧ take (length base) arr = base ∧ (length base ≤ cap)%nat.

(** The labels of a metric: as many as asked for, behind the common values, and
    exactly those asked for unless they are in the common array. *)
Definition labelled (v : metricValue) (st : mstate) (s : slice) : Prop :=
  ∃ arr, arrays st !! sl_arr s = Some arr ∧ sl_len s = (length base + length (mv_labels v))%nat ∧
    (sl_len s ≤ length arr)%nat ∧ take (length base) arr = base ∧
    (sl_arr s ≠ a → take (sl_len s) arr = base ++ mv_labels v) ∧
    (sl_arr s = a → (sl_len s ≤ cap)%nat).

(** A later state: other arrays are as they were. *)
Record later (st st' : mstate) : Prop := mkLater {
  later_common : common st → common st';
  later_keep x : x ≠ a → x ∈ dom (arrays st) → arrays st' !! x = arrays st !! x;
  later_dom : dom (arrays st) ⊆ dom (arrays st') }.
#[export] Instance later_preorder : PreOrder later.
Proof.
  split; [by intros st|]. intros s1 s2 s3 [A1 B1 C1] [A2 B2 C2]. split; [auto| |by trans (dom (arrays s2))].
  intros x Hx Hd. rewrite B2; [by apply B1|done|by apply C1].
Qed.

Lemma labelled_later v st st' s : common st → later st st' → labelled v st s → labelled v st' s.
Proof.
  intros Hc [Hcc Hk _] (arr & Ha & Hl & Hle & Hb & Ho & Hi). destruct (decide (sl_arr s = a)) as [Heq|Hne].
  - destruct (Hcc Hc) as (arr' & Ha' & Hlen & Hb' & _). exists arr'. rewrite Heq. split_and!; try done.
    all: rewrite ?Hlen; intros; by apply Hi.
  - exists arr. split_and!; try done. rewrite Hk; [done|done|]. by apply elem_of_dom.
Qed.

Lemma take_base (l : list string) : take (length base) (base ++ l) = base.
Proof. by rewrite take_app_length. Qed.

(** One [append] to the common values. *)
Lemma append_common v st : common st →
  ∃ s st', append (mkSlice a (length base)) (mv_labels v) st = (Ret s, st') ∧ later st st' ∧ labelled v st' s ∧
    clock st' = clock st.
Proof.
  intros (arr & Ha & Hlen & Hb & Hle). unfold append. cbn [sl_arr sl_len]. rewrite Ha. cbn [default from_option id].
  rewrite Hb. destruct (_ <=? _)%nat eqn:Hfit.
  - apply Nat.leb_le in Hfit. set (arr' := base ++ mv_labels v ++ drop (length base + length (mv_labels v)) arr).
    assert (length arr' = cap) as Hlen'.
    { unfold arr'. rewrite !length_app, length_drop. lia. }
    assert (take (length base) arr' = base) as Hb' by apply take_base.
    eexists _, _. split_and!; [reflexivity| | |done].
    + split; [intros _; exists arr'; cbn [arrays set]; by rewrite lookup_insert_eq| |].
      * intros x Hx _. cbn [arrays set]. by rewrite lookup_insert_ne.
      * cbn [arrays set]. rewrite dom_insert_L. set_solver.
    + exists arr'. cbn [arrays set sl_arr sl_len]. rewrite lookup_insert_eq. split_and!; [done|done|lia|done|done|lia].
  - set (b := fresh (dom (arrays st))). pose proof (is_fresh (dom (arrays st))) as Hfr. fold b in Hfr.
    assert (b ≠ a) as Hne by (intros ->; apply Hfr, elem_of_dom; by exists arr).
    set (need := (length base + length (mv_labels v))%nat).
    set (arr' := base ++ mv_labels v ++ replicate (growslice (length arr) need - need) "").
    eexists _, _. split_and!; [reflexivity| | |done].
    + split; [intros _; exists arr; cbn [arrays set]; by rewrite lookup_insert_ne| |].
      * intros x _ Hd. cbn [arrays set]. rewrite lookup_insert_ne; [done|]. intros ->. by apply Hfr.
      * cbn [arrays set]. rewrite dom_insert_L. set_solver.
    + exists arr'. cbn [arrays set sl_arr sl_len]. rewrite lookup_insert_eq. split_and!; [done|done| |apply take_base| |done].
      * unfold arr'. rewrite !length_app. unfold need. lia.
      * intros _. unfold arr', need. rewrite app_assoc, <- length_app. by rewrite take_app_length.
Qed.

(** What a metric is for. *)
Definition metricFor (st : mstate) (nv : string * metricValue) (m : Metric) : Prop :=
  m_Name m = nv.1 ∧ m_MetricType m = mv_metricType nv.2 ∧ m_Value m = mv_value nv.2 ∧
  labelled nv.2 st (m_LabelValues m).

Lemma metricFor_later st st' nv m : common st → later st st' → metricFor st nv m → metricFor st' nv m.
Proof. intros Hc Hl (? & ? & ? & ?). split_and!; try done. by eapply labelled_later. Qed.

Definition makes (m : io mstate (list Metric)) (nvs : list (string * metricValue)) : Prop :=
  ∀ st, common st → ∃ r st', m st = (Ret r, st') ∧ later st st' ∧ Forall2 (metricFor st') nvs r.

Lemma metricsOf_makes nm vs : makes (metricsOf time_Now nm (mkSlice a (length base)) vs) ((λ v, (nm, v)) <$> vs).
Proof.
  induction vs as [|v vs IH]; intros st Hc; [by exists [], st|].
  destruct (append_common v (st <| clock ::= S |>)) as (s & st1 & Happ & Hl & Hlab & _); [done|].
  assert (later st st1) as Hl1 by (by destruct Hl).
  destruct (IH st1) as (r & st2 & Hr & Hl2 & Hall); [by apply Hl1|].
  eexists _, st2. split_and!; [|by trans st1|].
  - cbn [metricsOf]. rewrite (io_bind_ret _ _ st (mkMetric nm (time_Now (clock st)) (mv_metricType v) (mv_value v) s) st1)
      by (unfold newMetric; by rewrite Happ).
    rewrite (io_bind_ret _ _ st1 r st2) by done. reflexivity.
  - constructor; [|done]. split_and!; [done..|]. cbn. eapply labelled_later; [|done|done]. by apply Hl1.
Qed.

Lemma allMetrics_makes metrics :
  Forall readable metrics → makes (allMetrics time_Now (mkSlice a (length base)) metrics) (valuesOf metrics).
Proof.
  induction 1 as [|m metrics [vs Hvs] Hr IH]; intros st Hc; [by exists [], st|].
  destruct (metricsOf_makes (md_Name (cm_desc m)) vs st Hc) as (r1 & st1 & Hr1 & Hl1 & Hall1).
  assert (common st1) as Hc1 by (by apply Hl1).
  destruct (IH st1 Hc1) as (r2 & st2 & Hr2 & Hl2 & Hall2).
  exists (r1 ++ r2), st2. split_and!; [|by trans st1|].
  - cbn [allMetrics]. rewrite (io_bind_ret _ _ st vs st) by (by rewrite Hvs).
    rewrite (io_bind_ret _ _ st r1 st1) by done. rewrite (io_bind_ret _ _ st1 r2 st2) by done. reflexivity.
  - unfold valuesOf. rewrite bind_cons, Hvs. apply Forall2_app; [|done].
    eapply Forall2_impl; [exact Hall1|]. intros nv x. by apply metricFor_later.
Qed.
End compute_theorems.

Section exact.
Context `{GrowSliceLaw}.
Variable time_Now : nat → Z.

(** The two slices every computation starts with. *)
Lemma values_common id metricName st :
  ∃ a st1, (literal (sandboxBaseLabelValues id) ≫= (λ base, append base [metricName])) st = (Ret (mkSlice a 4), st1) ∧
    (a ∉ dom (arrays st)) ∧ (∀ x, x ∈ dom (arrays st) → arrays st1 !! x = arrays st !! x) ∧
    dom (arrays st) ⊆ dom (arrays st1) ∧
    common [id; "POD"; ""; metricName] a (growslice 3 4) st1.
Proof.
  pose proof (growslice_fits 3 4) as Hfit. set (b := fresh (dom (arrays st))).
  pose proof (is_fresh (dom (arrays st))) as Hb. fold b in Hb.
  set (st0 := st <| arrays ::= <[b := sandboxBaseLabelValues id]> |>).
  set (a := fresh (dom (arrays st0))). pose proof (is_fresh (dom (arrays st0))) as Ha. fold a in Ha.
  assert (a ≠ b ∧ a ∉ dom (arrays st)) as [Hab Ha'].
  { revert Ha. unfold st0. cbn [arrays set]. rewrite dom_insert_L. set_solver. }
  set (arr := [id; "POD"; ""; metricName] ++ replicate (growslice 3 4 - 4) "").
  assert (append (mkSlice b 3) [metricName] st0 = (Ret (mkSlice a 4), st0 <| arrays ::= <[a := arr]> |>)) as Happ.
  { unfold append. cbn [sl_arr sl_len]. assert (arrays st0 !! b = Some (sandboxBaseLabelValues id)) as -> by apply lookup_insert_eq.
    reflexivity. }
  exists a, (st0 <| arrays ::= <[a := arr]> |>). split_and!.
  - by rewrite (io_bind_ret _ _ st (mkSlice b 3) st0).
  - done.
  - intros x Hx. cbn [arrays set]. rewrite lookup_insert_ne by (intros ->; done). apply lookup_insert_ne. by intros ->.
  - cbn [arrays set]. rewrite dom_insert_L. unfold st0. cbn [arrays set]. rewrite dom_insert_L. set_solver.
  - exists arr. cbn [arrays set]. rewrite lookup_insert_eq. split_and!; [done| |done|done].
    unfold arr. rewrite length_app, length_replicate. cbn [length]. lia.
Qed.

Lemma labelled_read base a cap v st s :
  labelled base a cap v st s →
  ∃ tl, readSlice st s = base ++ tl ∧ length tl = length (mv_labels v) ∧ (cap = length base → tl = mv_labels v).
Proof.
  intros (arr & Ha & Hl & Hle & Hb & Ho & Hi). unfold readSlice. rewrite Ha. cbn [default from_option id].
  exists (take (length (mv_labels v)) (drop (length base) arr)). split_and!.
  - by rewrite Hl, <- take_take_drop, Hb.
  - rewrite length_take, length_drop. lia.
  - intros Hcap. destruct (decide (sl_arr s = a)) as [Heq|Hne].
    + specialize (Hi Heq). assert (length (mv_labels v) = 0%nat) as Hz by lia. rewrite Hz. by apply nil_length_inv in Hz.
    + specialize (Ho Hne). rewrite Hl, <- take_take_drop, Hb in Ho. by apply app_inv_head in Ho.
Qed.

(** The metrics of a computation are one per value, in order, with the name and
    type of their descriptor and their value.  Their labels start with the pod, the
    fixed name, the empty image and the category, are as many as the value has, and
    are those of the value when [append] leaves no spare capacity; no label of an
    earlier computation changes. *)
Theorem computeSandboxMetrics_exact id metrics metricName st :
  Forall readable metrics →
  ∃ r st', computeSandboxMetrics time_Now id metrics metricName st = (Ret r, st') ∧
    (λ m, (m_Name m, m_MetricType m, m_Value m)) <$> r =
      (λ nv, (nv.1, mv_metricType nv.2, mv_value nv.2)) <$> valuesOf metrics ∧
    (∀ x, x ∈ dom (arrays st) → arrays st' !! x = arrays st !! x) ∧
    Forall2 (λ nv m, ∃ tl, readSlice st' (m_LabelValues m) = [id; "POD"; ""; metricName] ++ tl ∧
      length tl = length (mv_labels nv.2) ∧ (growslice 3 4 = 4%nat → tl = mv_labels nv.2)) (valuesOf metrics) r.
Proof.
  intros Hr. destruct (values_common id metricName st) as (a & st1 & Hst1 & Ha & Hold & Hdom & Hc).
  destruct (allMetrics_makes time_Now _ a _ metrics Hr st1 Hc) as (r & st' & Hrun & Hl & Hall).
  exists r, st'. split_and!.
  - unfold computeSandboxMetrics. apply io_bind_inv in Hst1 as (s0 & st0 & Hs0 & Hs1).
    rewrite (io_bind_ret _ _ st s0 st0) by done. rewrite (io_bind_ret _ _ st0 (mkSlice a 4) st1) by done. exact Hrun.
  - clear -Hall. induction Hall as [|nv m nvs ms (Hn & Ht & Hv & _) _ IH]; [done|].
    rewrite !fmap_cons, IH. by rewrite Hn, Ht, Hv.
  - intros x Hx. destruct Hl as [_ Hk _]. rewrite Hk; [by apply Hold|intros ->; done|by apply Hdom].
  - eapply Forall2_impl; [exact Hall|]. intros nv m (_ & _ & _ & Hlab). by apply labelled_read in Hlab.
Qed.
End exact.

(** ** Witnesses and findings *)

(** The growth of gc below 256 elements, before it rounds up to a size class. *)
Definition gcGrow : GrowSlice := λ old need, if (2 * old <? need)%nat then need else (2 * old)%nat.
Lemma gcGrow_law : @GrowSliceLaw gcGrow.
Proof.
  intros old need. unfold growslice, gcGrow. destruct (_ <? _)%nat eqn:Hc; [done|]. apply Nat.ltb_ge in Hc. done.
Qed.
Definition emptyState : mstate := mkMState ∅ 0.
Definition twoCPUs : CPUStats := mkCPUStats 0 [3 * second; 5 * second] 0 0 0 0 0.

Lemma computeSandboxMetrics_exact_witness :
  ∃ r st', @computeSandboxMetrics gcGrow (λ n, Z.of_nat n) "pod1" (oomMetrics 7) "oom" emptyState = (Ret r, st') ∧
    (λ m, (m_Name m, m_MetricType m, m_Value m)) <$> r = [("container_oom_events_total", MetricType_COUNTER, 7)].
Proof.
  destruct (@computeSandboxMetrics_exact gcGrow gcGrow_law (λ n, Z.of_nat n) "pod1" (oomMetrics 7) "oom" emptyState)
    as (r & st' & Hrun & Hv & _).
  - repeat constructor. by eexists.
  - exists r, st'. split; [exact Hrun|]. exact Hv.
Defined.

(** Two CPUs with usage are reported under the label of the second one. *)
Theorem cpu_labels_shared :
  ∃ r st', @generateSandboxCPUMetrics gcGrow (λ n, Z.of_nat n) "pod1" twoCPUs emptyState = (Ret r, st') ∧
    (λ m, (m_Value m, readSlice st' (m_LabelValues m))) <$>
      filter (λ m, m_Name m = "container_cpu_usage_seconds_total") r =
    [(3, ["pod1"; "POD"; ""; "cpu"; "cpu01"]); (5, ["pod1"; "POD"; ""; "cpu"; "cpu01"])].
Proof. eexists _, _. split; [vm_compute; reflexivity|]. vm_compute. reflexivity. Qed.

(** The values of a metric do not line up with the keys of its descriptor: the
    category is one value too many, and for the network it stands where the name of
    the interface belongs. *)
Theorem labels_do_not_match_keys :
  (∃ r st', @GenerateSandboxOOMMetrics gcGrow (λ n, Z.of_nat n) "pod1" 7 emptyState = (Ret r, st') ∧
     (λ m, readSlice st' (m_LabelValues m)) <$> r = [["pod1"; "POD"; ""; "oom"]] ∧
     (λ d, md_LabelKeys d) <$> oomDescriptors = [["id"; "name"; "image"]]) ∧
  (∃ r st', @generateSandboxNetworkMetrics gcGrow (λ n, Z.of_nat n) "pod1"
       (mkLinkAttrs "eth0" (Some (mkLinkStatistics 0 0 0 0 0 0 0 0))) emptyState = (Ret r, st') ∧
     (λ m, readSlice st' (m_LabelValues m)) <$> head r = Some ["pod1"; "POD"; ""; "network"] ∧
     (λ d, md_LabelKeys d) <$> head networkDescriptors = Some ["id"; "name"; "image"; "interface"]).
Proof. split; eexists _, _; (split; [vm_compute; reflexivity|]); split; vm_compute; reflexivity. Qed.
