(* ===== verification/Stats.v ===== *)
(** * Stats: the statistics server and the requests that read it
    (internal/lib/stats/stats_server.go, stats_server_linux.go,
    server/container_stats.go, container_stats_list.go, sandbox_stats.go,
    sandbox_stats_list.go, sandbox_metrics_list.go)

    The statistics of a pod or a container are made anew at every update and never
    changed afterwards: they are values.  The metrics of a pod are one object that
    updates change and replies point to: they are a heap.  Floating point is that
    of IEEE 754, with 53 bits of precision. *)

From S2P Require Import Prelude GoStrings Registrar MemoryStore IPTables CgMgr Container Sandbox ContainerServer Server Queries Metrics.
From Stdlib Require Import SpecFloat.
Local Open Scope Z_scope.

(** ** float64 *)

Definition f64 (z : Z) : spec_float := binary_normalize 53 1024 z 0 false.
Definition fdiv : spec_float → spec_float → spec_float := SFdiv 53 1024.
Definition fmul : spec_float → spec_float → spec_float := SFmul 53 1024.

(** [uint64(f)]: the fraction is dropped; what comes of a value that does not fit is
    up to the processor. *)
Definition f64_to_u64 (misfit : spec_float → Z) (f : spec_float) : Z :=
  match f with
  | S754_zero _ => 0
  | S754_finite s m e =>
      let z := if 0 <=? e then Z.pos m * 2 ^ e else Z.pos m / 2 ^ (- e) in
      if z =? 0 then 0 else if s then misfit f else if z <? 2 ^ 64 then z else misfit f
  | _ => misfit f
  end.

(** ** CRI messages *)

Record CpuUsage := mkCpuUsage {
  cu_Timestamp : Z; cu_UsageCoreNanoSeconds : option Z; cu_UsageNanoCores : option Z }.
#[export] Instance CpuUsage_eta : Eta CpuUsage := λ u,
  mkCpuUsage (cu_Timestamp u) (cu_UsageCoreNanoSeconds u) (cu_UsageNanoCores u).
Record MemoryUsage := mkMemoryUsage {
  mu_Timestamp : Z; mu_WorkingSetBytes : Z; mu_RssBytes : Z; mu_PageFaults : Z; mu_MajorPageFaults : Z;
  mu_UsageBytes : Z; mu_AvailableBytes : Z }.
Record SwapUsage := mkSwapUsage { su_Timestamp : Z; su_SwapUsageBytes : Z; su_SwapAvailableBytes : Z }.
Record ProcessUsage := mkProcessUsage { pu_Timestamp : Z; pu_ProcessCount : Z }.
Record NetworkInterfaceUsage := mkInterfaceUsage {
  iu_Name : string; iu_RxBytes : Z; iu_RxErrors : Z; iu_TxBytes : Z; iu_TxErrors : Z }.
Record NetworkUsage := mkNetworkUsage {
  nu_DefaultInterface : option NetworkInterfaceUsage; nu_Interfaces : list NetworkInterfaceUsage }.
#[export] Instance NetworkUsage_eta : Eta NetworkUsage := λ u, mkNetworkUsage (nu_DefaultInterface u) (nu_Interfaces u).
Record FilesystemUsage := mkFilesystemUsage {
  fu_Timestamp : Z; fu_Mountpoint : string; fu_UsedBytes : Z; fu_InodesUsed : Z }.
Record ContainerAttributes := mkCtrAttributes {
  ca_Id : string; ca_Metadata : option ContainerMetadata; ca_Labels : gmap string string;
  ca_Annotations : gmap string string }.
Record ContainerStats := mkContainerStats {
  cst_Attributes : ContainerAttributes; cst_Cpu : option CpuUsage; cst_Memory : option MemoryUsage;
  cst_Swap : option SwapUsage; cst_WritableLayer : option FilesystemUsage }.
#[export] Instance ContainerStats_eta : Eta ContainerStats := λ s,
  mkContainerStats (cst_Attributes s) (cst_Cpu s) (cst_Memory s) (cst_Swap s) (cst_WritableLayer s).
Record PodSandboxAttributes := mkPodAttributes {
  pa_Id : string; pa_Labels : gmap string string; pa_Metadata : option PodSandboxMetadata;
  pa_Annotations : gmap string string }.
(** [types.PodSandboxStats] with its [Linux] part, which is always there. *)
Record PodSandboxStats := mkPodStats {
  pst_Attributes : PodSandboxAttributes; pst_Cpu : option CpuUsage; pst_Memory : option MemoryUsage;
  pst_Process : option ProcessUsage; pst_Network : option NetworkUsage; pst_Containers : list ContainerStats }.
#[export] Instance PodSandboxStats_eta : Eta PodSandboxStats := λ s,
  mkPodStats (pst_Attributes s) (pst_Cpu s) (pst_Memory s) (pst_Process s) (pst_Network s) (pst_Containers s).

Record ContainerMetrics := mkContainerMetrics { cmt_ContainerId : string; cmt_Metrics : list Metric }.
(** A container whose numbers cannot be read leaves a nil entry. *)
Record PodSandboxMetrics := mkPodMetrics {
  pm_PodSandboxId : string; pm_Metrics : list Metric; pm_ContainerMetrics : list (option ContainerMetrics) }.
#[export] Instance PodSandboxMetrics_eta : Eta PodSandboxMetrics := λ m,
  mkPodMetrics (pm_PodSandboxId m) (pm_Metrics m) (pm_ContainerMetrics m).

(** ** Conversions *)

Definition updateUsageNanoCores (misfit : spec_float → Z) (old current : option CpuUsage) : option CpuUsage :=
  match old, current with
  | Some o, Some c =>
      match cu_UsageCoreNanoSeconds o, cu_UsageCoreNanoSeconds c with
      | Some before, Some after =>
          let nanoSeconds := i64 (cu_Timestamp c - cu_Timestamp o) in
          let usageNanoCores :=
            f64_to_u64 misfit (fmul (fdiv (f64 (u64 (after - before))) (f64 nanoSeconds)) (f64 second)) in
          Some (c <| cu_UsageNanoCores := Some usageNanoCores |>)
      | _, _ => current
      end
  | _, _ => current
  end.

Definition criCPUStats (cpuStats : CPUStats) (systemNano : Z) : CpuUsage :=
  mkCpuUsage systemNano (Some (TotalUsageNano cpuStats)) None.
Definition criMemStats (m : MemoryStats) (systemNano : Z) : MemoryUsage :=
  mkMemoryUsage systemNano (WorkingSetBytes m) (RssBytes m) (PageFaults m) (MajorPageFaults m) (ms_Usage m)
    (AvailableBytes m).
Definition criSwapStats (m : MemoryStats) (systemNano : Z) : SwapUsage :=
  mkSwapUsage systemNano (ms_SwapUsage m) (u64 (ms_SwapLimit m - ms_SwapUsage m)).
Definition criProcessStats (p : PidsStats) (systemNano : Z) : ProcessUsage := mkProcessUsage systemNano (pd_Current p).

Definition containerCRIStats (stats : CgroupStats) (attrs : ContainerAttributes) (systemNano : Z) : ContainerStats :=
  mkContainerStats attrs (Some (criCPUStats (cg_CPU stats) systemNano)) (Some (criMemStats (cg_Memory stats) systemNano))
    (Some (criSwapStats (cg_Memory stats) systemNano)) None.

Definition linkToInterface (link : option LinkAttrs) : outcome NetworkInterfaceUsage :=
  match link with
  | None => Fail (ErrorsNew "get stats for iface")
  | Some attrs =>
      match la_Statistics attrs with
      | None => Fail (Errorf "get stats for iface " (ErrorsNew (la_Name attrs)))
      | Some s => Ret (mkInterfaceUsage (la_Name attrs) (RxBytes s) (RxErrors s) (TxBytes s) (TxErrors s))
      end
  end.

(** The loop over the links: the first one is the default interface, a link that
    cannot be converted is left out. *)
Fixpoint addLinks (i : nat) (links : list (option LinkAttrs)) (u : NetworkUsage) : NetworkUsage :=
  match links with
  | [] => u
  | l :: links =>
      match linkToInterface l with
      | Ret iface =>
          addLinks (S i) links
            (if bool_decide (i = 0%nat) then u <| nu_DefaultInterface := Some iface |>
             else u <| nu_Interfaces ::= (.++ [iface]) |>)
      | _ => addLinks (S i) links u
      end
  end.
(** [make] is asked for a capacity of one less than the number of links. *)
Definition networkUsage (links : list (option LinkAttrs)) : outcome NetworkUsage :=
  if bool_decide (links = []) then Panic "makeslice: cap out of range"
  else Ret (addLinks 0 links (mkNetworkUsage None [])).

(** [StorageService.GetUsage] *)
Definition GetUsage (id : string) : Z * Z := (0, 0).

(** ** The server *)

Record StatsServer := mkStatsServer {
  alreadyShutdown : bool;
  collectionPeriod : Z;
  sboxStats : gmap string PodSandboxStats;
  ctrStats : gmap string ContainerStats;
  sboxMetrics : gmap string positive;      (** pointers into [mheap] *)
  mheap : gmap positive PodSandboxMetrics;
  labels : mstate }.
#[export] Instance StatsServer_eta : Eta StatsServer := λ s,
  mkStatsServer (alreadyShutdown s) (collectionPeriod s) (sboxStats s) (ctrStats s) (sboxMetrics s) (mheap s) (labels s).

Record sworld {St E : Type} := mkSW { qw : qworld St E; ss : StatsServer }.
Arguments sworld : clear implicits.
#[export] Instance sworld_eta {St E} : Eta (sworld St E) := λ w, mkSW St E (qw w) (ss w).

Section stats.
Context {St E : Type} `{StorerLaws ptr St} `{GrowSlice}.
Variable misfit : spec_float → Z.
Variable time_Now : nat → Z.
Variable IncludedPodMetrics : list string.
(** The cgroup managers: the numbers of a pod (by parent and ID) and the count of
    its kills; and [Runtime().ContainerStats]. *)
Variable SandboxCgroupStats : string → string → E → outcome CgroupStats.
Variable OOMKillCount : string → string → E → outcome Z.
Variable runtimeStats : ptr → string → E → outcome CgroupStats.
(** [netlink.LinkList] in the namespace of the daemon, and in that of a pod, which
    may not be entered. *)
Variable hostLinks : E → outcome (list (option LinkAttrs)).
Variable podLinks : ptr → E → outcome (list (option LinkAttrs)).

Abbreviation W := (sworld St E).

Definition wsrv (w : W) : ContainerServer St := qsrv (qw w).
Definition wenv (w : W) : E := Server.env (sw (qw w)).
Definition on_q {A} (m : io (qworld St E) A) : io W A := λ w, let '(r, q) := m (qw w) in (r, w <| qw := q |>).
Definition on_m {A} (m : io mstate A) : io W A := λ w,
  let '(r, st) := m (labels (ss w)) in (r, w <| ss ::= λ s, s <| labels := st |> |>).
Definition upd (f : StatsServer → StatsServer) : io W () := modify (λ w, w <| ss ::= f |>).
Definition asks {A} (f : E → outcome A) : io W (A + goerr) := try (λ w, (f (wenv w), w)).
Definition tick : io W Z := λ w, (Ret (time_Now (clock (labels (ss w)))), w <| ss ::= λ s, s <| labels ::= λ l, l <| clock ::= S |> |> |>).

(** [c.StateNoLock().Status == ContainerStateStopped] *)
Definition isStopped (p : ptr) : io W bool :=
  o ← on_q (getObj p); mret (bool_decide (Status (state o) = ContainerStateStopped)).
(** [ctr.CRIAttributes()] *)
Definition CRIAttributes (p : ptr) : io W ContainerAttributes :=
  c ← on_q (qCtr p);
  o ← on_q (getObj p);
  m ← on_q (message (criContainer o));
  mret (mkCtrAttributes (c_id c) (cri_Metadata m) (cri_Labels m) (cri_Annotations m)).

Definition populateWritableLayer (p : ptr) (id : string) (stats : ContainerStats) : io W ContainerStats :=
  now ← tick;
  o ← on_q (getObj p);
  let '(size, inode) := GetUsage id in
  mret (stats <| cst_WritableLayer := Some (mkFilesystemUsage now (mountPoint o) size inode) |>).

(** What both updates make of the numbers of a container. *)
Definition freshStats (p : ptr) (cg : CgroupStats) : io W ContainerStats :=
  attrs ← CRIAttributes p;
  cStats ← populateWritableLayer p (ca_Id attrs) (containerCRIStats cg attrs (cg_SystemNano cg));
  old ← gets (λ w, ctrStats (ss w) !! ca_Id attrs);
  mret match old with
       | Some oldcStats => cStats <| cst_Cpu := updateUsageNanoCores misfit (cst_Cpu oldcStats) (cst_Cpu cStats) |>
       | None => cStats
       end.

(** *** Metrics *)

Definition metricsForKey (parent sbID cID : string) (cg : CgroupStats) (m : string) : io W (list Metric) :=
  if bool_decide (m = "cpu") then on_m (generateSandboxCPUMetrics time_Now sbID (cg_CPU cg))
  else if bool_decide (m = "memory") then on_m (generateSandboxMemoryMetrics time_Now sbID (cg_Memory cg))
  else if bool_decide (m = "oom") then
    r ← asks (OOMKillCount parent cID);
    match r with
    | inl n => on_m (GenerateSandboxOOMMetrics time_Now sbID n)
    | inr _ => mret []
    end
  else mret [].
Fixpoint metricsForKeys (parent sbID cID : string) (cg : CgroupStats) (keys : list string) : io W (list Metric) :=
  match keys with
  | [] => mret []
  | m :: keys =>
      here ← metricsForKey parent sbID cID cg m;
      rest ← metricsForKeys parent sbID cID cg keys;
      mret (here ++ rest)
  end.
Definition containerMetricsFromCgStats (parent sbID cID : string) (cg : CgroupStats) : io W ContainerMetrics :=
  ms ← metricsForKeys parent sbID cID cg IncludedPodMetrics;
  mret (mkContainerMetrics cID ms).

(** The metrics object of a pod: the one on record, or a new one that is not on
    record yet. *)
Definition metricsObject (sbID : string) : io W positive := λ w,
  match sboxMetrics (ss w) !! sbID with
  | Some l => (Ret l, w)
  | None =>
      let l := fresh (dom (mheap (ss w))) in
      (Ret l, w <| ss ::= λ s, s <| mheap ::= <[l := mkPodMetrics sbID [] []]> |> |>)
  end.
Definition setMetrics (l : positive) (f : PodSandboxMetrics → PodSandboxMetrics) : io W () :=
  upd (λ s, s <| mheap ::= alter f l |>).
(** Network metrics, when they are asked for, are taken where the daemon runs. *)
Definition networkPass (sbID : string) (l : positive) : io W () :=
  when (bool_decide (NetworkMetrics ∈ IncludedPodMetrics))
    (links ← gets (λ w, hostLinks (wenv w));
     ms ← on_m (GenerateNetworkMetrics time_Now sbID links);
     setMetrics l (λ m, m <| pm_Metrics := ms |>)).

(** *** Updates *)

(** The loop over the containers of a pod. *)
Fixpoint containerPass (parent sbID : string) (ps : list ptr) :
    io W (list ContainerStats * list (option ContainerMetrics)) :=
  match ps with
  | [] => mret ([], [])
  | p :: ps =>
      stopped_ ← isStopped p;
      if stopped_ : bool then containerPass parent sbID ps
      else
        r ← asks (runtimeStats p parent);
        match r with
        | inr _ => containerPass parent sbID ps
        | inl cg =>
            cStats ← freshStats p cg;
            cMetrics ← containerMetricsFromCgStats parent sbID (ca_Id (cst_Attributes cStats)) cg;
            rest ← containerPass parent sbID ps;
            mret (cStats :: rest.1, Some cMetrics :: rest.2)
        end
  end.

(** [populateNetworkUsage]; its error is logged. *)
Definition populateNetworkUsage (sp : ptr) : io W (option NetworkUsage) :=
  r ← asks (podLinks sp);
  match r with
  | inl links => u ← lift (networkUsage links); mret (Some u)
  | inr _ => mret None
  end.

Definition containersOf (w : W) (sb : Sandbox ptr St) : list ptr :=
  st_list (createdAtOf (wsrv w)) (containers sb).

Definition updateSandbox (sb_ : option ptr) : io W (option PodSandboxStats) :=
  match sb_ with
  | None => mret None
  | Some sp =>
      sb ← on_q (qSb sp);
      m ← lift (deref (criSandbox sb));
      let sbID := ps_Id m in
      l ← metricsObject sbID;
      networkPass sbID l ;;
      cg ← asks (SandboxCgroupStats (cgroupParent sb) sbID);
      net ← populateNetworkUsage sp;
      ps ← gets (λ w, containersOf w sb);
      lists ← containerPass (cgroupParent sb) sbID ps;
      let stats := mkPodStats (mkPodAttributes sbID (ps_Labels m) (ps_Metadata m) (ps_Annotations m))
        match cg with inl c => Some (criCPUStats (cg_CPU c) (cg_SystemNano c)) | inr _ => None end
        match cg with inl c => Some (criMemStats (cg_Memory c) (cg_SystemNano c)) | inr _ => None end
        match cg with inl c => Some (criProcessStats (cg_Pid c) (cg_SystemNano c)) | inr _ => None end
        net lists.1 in
      setMetrics l (λ pm, pm <| pm_ContainerMetrics := lists.2 |>) ;;
      old ← gets (λ w, sboxStats (ss w) !! sbID);
      let stats := match old with
                   | Some o => stats <| pst_Cpu := updateUsageNanoCores misfit (pst_Cpu o) (pst_Cpu stats) |>
                   | None => stats
                   end in
      upd (λ s, s <| sboxStats ::= <[sbID := stats]> |> <| sboxMetrics ::= <[sbID := l]> |>) ;;
      mret (Some stats)
  end.

Definition updateContainerStats (c sb_ : option ptr) : io W (option ContainerStats) :=
  match c, sb_ with
  | Some p, Some sp =>
      stopped_ ← isStopped p;
      if stopped_ : bool then mret None
      else
        sb ← on_q (qSb sp);
        r ← asks (runtimeStats p (cgroupParent sb));
        match r with
        | inr _ => mret None
        | inl cg =>
            cStats ← freshStats p cg;
            upd (λ s, s <| ctrStats ::= <[ca_Id (cst_Attributes cStats) := cStats]> |>) ;;
            mret (Some cStats)
        end
  | _, _ => mret None
  end.

(** The loop over the containers of a pod, for the metrics alone. *)
Fixpoint containerMetricsPass (parent sbID : string) (ps : list ptr) : io W (list (option ContainerMetrics)) :=
  match ps with
  | [] => mret []
  | p :: ps =>
      stopped_ ← isStopped p;
      if stopped_ : bool then containerMetricsPass parent sbID ps
      else
        c ← on_q (qCtr p);
        r ← asks (runtimeStats p parent);
        here ← match r with
               | inl cg => cm ← containerMetricsFromCgStats parent sbID (c_id c) cg; mret (Some cm)
               | inr _ => mret None
               end;
        rest ← containerMetricsPass parent sbID ps;
        mret (here :: rest)
  end.
Definition updatePodSandboxMetrics (sb_ : option ptr) : io W (option positive) :=
  match sb_ with
  | None => mret None
  | Some sp =>
      sb ← on_q (qSb sp);
      m ← lift (deref (criSandbox sb));
      let sbID := ps_Id m in
      l ← metricsObject sbID;
      networkPass sbID l ;;
      ps ← gets (λ w, containersOf w sb);
      cms ← containerMetricsPass (cgroupParent sb) sbID ps;
      setMetrics l (λ pm, pm <| pm_ContainerMetrics := cms |>) ;;
      upd (λ s, s <| sboxMetrics ::= <[sbID := l]> |>) ;;
      mret (Some l)
  end.

(** *** The operations under the lock *)

Definition onDemand (w : W) : bool := bool_decide (collectionPeriod (ss w) = 0).
Definition sbKey (sp : ptr) : io W string :=
  sb ← on_q (qSb sp); m ← lift (deref (criSandbox sb)); mret (ps_Id m).

Definition update : io W () :=
  sps ← gets (λ w, ListSandboxes (wsrv w));
  for_each (λ sp, updateSandbox (Some sp) ;; mret ()) sps.

(** The loop that runs beside the server: [fires] is how often the timer fires
    before the shutdown is seen. *)
Fixpoint rounds (fires : nat) : io W () :=
  match fires with
  | O => mret ()
  | S fires => update ;; rounds fires
  end.
Definition updateLoop (fires : nat) : io W () :=
  b ← gets onDemand; if b : bool then mret () else rounds fires.

Definition statsForSandbox (sp : ptr) : io W (option PodSandboxStats) :=
  b ← gets onDemand;
  if b : bool then updateSandbox (Some sp)
  else
    id ← sbKey sp;
    r ← gets (λ w, sboxStats (ss w) !! id);
    match r with
    | Some sboxStat => mret (Some sboxStat)
    | None => updateSandbox (Some sp)
    end.
Definition StatsForSandbox (sp : ptr) : io W (option PodSandboxStats) := statsForSandbox sp.
Fixpoint StatsForSandboxes (sboxes : list ptr) : io W (list PodSandboxStats) :=
  match sboxes with
  | [] => mret []
  | sp :: sboxes =>
      stat ← statsForSandbox sp;
      rest ← StatsForSandboxes sboxes;
      mret (option_list stat ++ rest)
  end.
Definition RemoveStatsForSandbox (sp : ptr) : io W () :=
  id ← sbKey sp; upd (λ s, s <| sboxStats ::= delete id |>).

Definition statsForContainer (p sp : ptr) : io W (option ContainerStats) :=
  b ← gets onDemand;
  if b : bool then updateContainerStats (Some p) (Some sp)
  else
    c ← on_q (qCtr p);
    r ← gets (λ w, ctrStats (ss w) !! c_id c);
    match r with
    | Some ctrStat => mret (Some ctrStat)
    | None => updateContainerStats (Some p) (Some sp)
    end.
Definition StatsForContainer (p sp : ptr) : io W (option ContainerStats) := statsForContainer p sp.
Fixpoint StatsForContainers (ctrs_ : list ptr) : io W (list ContainerStats) :=
  match ctrs_ with
  | [] => mret []
  | p :: ctrs_ =>
      c ← on_q (qCtr p);
      sb_ ← gets (λ w, ContainerServer.GetSandbox (c_sandbox c) (wsrv w));
      stat ← match sb_ with
             | None => mret None
             | Some sp => statsForContainer p sp
             end;
      rest ← StatsForContainers ctrs_;
      mret (option_list stat ++ rest)
  end.
Definition RemoveStatsForContainer (p : ptr) : io W () :=
  c ← on_q (qCtr p); upd (λ s, s <| ctrStats ::= delete (c_id c) |>).

Definition metricsForPodSandbox (sp : ptr) : io W (option positive) :=
  b ← gets onDemand;
  if b : bool then updatePodSandboxMetrics (Some sp)
  else
    id ← sbKey sp;
    r ← gets (λ w, sboxMetrics (ss w) !! id);
    match r with
    | Some l => mret (Some l)
    | None => updatePodSandboxMetrics (Some sp)
    end.
Fixpoint MetricsForPodSandboxList (sboxes : list ptr) : io W (list positive) :=
  match sboxes with
  | [] => mret []
  | sp :: sboxes =>
      l ← metricsForPodSandbox sp;
      rest ← MetricsForPodSandboxList sboxes;
      mret (option_list l ++ rest)
  end.
Definition RemoveMetricsForPodSandbox (sp : ptr) : io W () :=
  id ← sbKey sp; upd (λ s, s <| sboxMetrics ::= delete id |>).

(** Closing the channel of the loop once. *)
Definition StatsShutdown : io W () := upd (λ s, s <| alreadyShutdown := true |>).

(** *** The requests *)

(** [ServerContainerStats] is the request ContainerStats. *)
Definition ServerContainerStats (id : string) : io W (option ContainerStats) :=
  p ← on_q (readSrv (GetContainerFromShortID id));
  c ← on_q (qCtr p);
  sb_ ← gets (λ w, ContainerServer.GetSandbox (c_sandbox c) (wsrv w));
  match sb_ with
  | None => fail (ErrorsNew "unable to get stats for container: sandbox not found")
  | Some sp => StatsForContainer p sp
  end.

Fixpoint keepMatching (f : ContainerFilter) (ps : list ptr) : io W (list ptr) :=
  match ps with
  | [] => mret []
  | p :: ps =>
      l ← on_q (CRIContainer_ p);
      m ← on_q (message l);
      rest ← keepMatching f ps;
      mret (if filterContainer m (Some f) then p :: rest else rest)
  end.
Definition notStopped (w : W) (p : ptr) : bool :=
  match objs (qw w) !! p with
  | Some o => negb (bool_decide (Status (state o) = ContainerStateStopped))
  | None => true
  end.
(** The filter of the request has no state. *)
Record ContainerStatsFilter := mkStatsFilter {
  sf_Id : string; sf_PodSandboxId : string; sf_LabelSelector : option (gmap string string) }.
Definition ListContainerStats (filter : option ContainerStatsFilter) : io W (list ContainerStats) :=
  ctrList ← gets (λ w, ListContainers [notStopped w] (wsrv w));
  ctrList ← match filter with
            | None => mret ctrList
            | Some f =>
                let cFilter := mkCtrFilter (sf_Id f) None (sf_PodSandboxId f) (sf_LabelSelector f) in
                ctrList ← gets (λ w, filterContainerList cFilter ctrList (wsrv w));
                keepMatching cFilter ctrList
            end;
  StatsForContainers ctrList.

Definition ServerPodSandboxStats (id : string) : io W (option PodSandboxStats) :=
  sp ← on_q (readSrv (getPodSandboxFromRequest id));
  StatsForSandbox sp.
Definition ListPodSandboxStats (filter : option (string * option (gmap string string))) : io W (list PodSandboxStats) :=
  sboxList ← gets (λ w, ListSandboxes (wsrv w));
  sboxList ← match filter with
             | None => mret sboxList
             | Some (id, sel) => on_q (filterSandboxList (Some (mkPodFilter id None sel)) sboxList)
             end;
  StatsForSandboxes sboxList.
(** Every object on record has a message: the other branch of the loop is dead. *)
Definition ListPodSandboxMetrics : io W (list positive) :=
  sboxList ← gets (λ w, ListSandboxes (wsrv w));
  MetricsForPodSandboxList sboxList.
End stats.

(** ** How operations change the server *)

Inductive sop :=
| OpUpdate | OpStatsCtr (p sp : ptr) | OpStatsPod (sp : ptr) | OpMetrics (sp : ptr)
| OpForgetCtr (p : ptr) | OpForgetPod (sp : ptr) | OpForgetMetrics (sp : ptr) | OpShutdown.
Definition NewStatsServer (period : Z) : StatsServer := mkStatsServer false period ∅ ∅ ∅ ∅ (mkMState ∅ 0).

(** The entries of the caches are about their keys. *)
Record about_keys (s : StatsServer) : Prop := mkAboutKeys {
  about_ctr id st : ctrStats s !! id = Some st → ca_Id (cst_Attributes st) = id;
  about_sbox id st : sboxStats s !! id = Some st → pa_Id (pst_Attributes st) = id;
  about_metrics id l : sboxMetrics s !! id = Some l →
    pm_PodSandboxId <$> mheap s !! l = Some id }.

Section evolution.
Context {St E : Type} `{StorerLaws ptr St} `{GrowSlice}.
Abbreviation W := (sworld St E).

Lemma evolves_asks {A} (f : E → outcome A) (R : W → W → Prop) `{!PreOrder R} : evolves R (asks f).
Proof. apply evolves_try, evolves_read, _. Qed.

(** What a pure reader of the objects leaves: everything. *)
Lemma on_q_read {A} (m : io (qworld St E) A) (R : W → W → Prop) `{!PreOrder R} :
  (∀ q r q', m q = (r, q') → q' = q) → evolves R (on_q m).
Proof.
  intros Hm w r w' Hr. unfold on_q in Hr. destruct (m (qw w)) as [r0 q] eqn:Hq. injection Hr as _ <-.
  apply Hm in Hq as ->. destruct w. reflexivity.
Qed.
Lemma read_getObj p (R : W → W → Prop) `{!PreOrder R} : evolves R (on_q (getObj p)).
Proof. apply on_q_read; [done|]. by intros q r q' [= _ <-]. Qed.
Lemma read_qCtr p (R : W → W → Prop) `{!PreOrder R} : evolves R (on_q (qCtr p)).
Proof. apply on_q_read; [done|]. by intros q r q' [= _ <-]. Qed.
Lemma read_qSb p (R : W → W → Prop) `{!PreOrder R} : evolves R (on_q (qSb p)).
Proof. apply on_q_read; [done|]. by intros q r q' [= _ <-]. Qed.
Lemma read_message l (R : W → W → Prop) `{!PreOrder R} : evolves R (on_q (message l)).
Proof. apply on_q_read; [done|]. by intros q r q' [= _ <-]. Qed.
End evolution.

#[export] Hint Resolve evolves_asks read_getObj read_qCtr read_qSb read_message : evolves.
#[export] Hint Extern 0 (pm_PodSandboxId _ = pm_PodSandboxId _) => reflexivity : evolves.

Section frames.
Context {St E : Type} `{StorerLaws ptr St} `{GrowSlice}.
Variable misfit : spec_float → Z.
Variable time_Now : nat → Z.
Variable IncludedPodMetrics : list string.
Variable SandboxCgroupStats : string → string → E → outcome CgroupStats.
Variable OOMKillCount : string → string → E → outcome Z.
Variable runtimeStats : ptr → string → E → outcome CgroupStats.
Variable hostLinks : E → outcome (list (option LinkAttrs)).
Variable podLinks : ptr → E → outcome (list (option LinkAttrs)).
Abbreviation W := (sworld St E).

(** A relation that looks neither at labels nor at the contents of metrics. *)
Class Tolerant (R : W → W → Prop) : Prop := {
  tol_pre : PreOrder R;
  tol_labels w st : R w (w <| ss ::= λ s, s <| labels := st |> |>);
  tol_metrics w l f : (∀ m, pm_PodSandboxId (f m) = pm_PodSandboxId m) →
    R w (w <| ss ::= λ s, s <| mheap ::= alter f l |> |>);
  tol_alloc w id :
    R w (w <| ss ::= λ s, s <| mheap ::= <[fresh (dom (mheap (ss w))) := mkPodMetrics id [] []]> |> |>) }.
#[local] Existing Instance tol_pre.

Section tolerant.
Context (R : W → W → Prop) `{!Tolerant R}.

Lemma evolves_on_m {A} (m : io mstate A) : evolves R (on_m m).
Proof.
  intros w r w' Hr. unfold on_m in Hr. destruct (m (labels (ss w))) as [r0 st]. injection Hr as _ <-. apply tol_labels.
Qed.
Lemma evolves_tick : evolves R (tick time_Now).
Proof. intros w r w' [= _ <-]. apply tol_labels. Qed.
Lemma evolves_setMetrics l f : (∀ m, pm_PodSandboxId (f m) = pm_PodSandboxId m) → evolves R (setMetrics l f).
Proof. intros Hf w r w' [= _ <-]. by apply tol_metrics. Qed.
Lemma evolves_metricsObject id : evolves R (metricsObject id).
Proof.
  intros w r w' Hr. unfold metricsObject in Hr. destruct (sboxMetrics (ss w) !! id) as [l|]; injection Hr as _ <-.
  - reflexivity.
  - apply tol_alloc.
Qed.
Hint Resolve evolves_on_m evolves_tick evolves_setMetrics evolves_metricsObject : evolves.

Lemma evolves_freshStats p cg : evolves R (freshStats misfit time_Now p cg).
Proof. unfold freshStats, CRIAttributes, populateWritableLayer. evolve. Qed.
Lemma evolves_metricsForKeys parent sbID cID cg keys :
  evolves R (metricsForKeys time_Now OOMKillCount parent sbID cID cg keys).
Proof. induction keys as [|k keys IH]; cbn [metricsForKeys]; [evolve|]. unfold metricsForKey. evolve. Qed.
Lemma evolves_isStopped p : evolves R (isStopped p).
Proof. unfold isStopped. evolve. Qed.
Hint Resolve evolves_freshStats evolves_metricsForKeys evolves_isStopped : evolves.

Lemma evolves_networkPass id l : evolves R (networkPass time_Now IncludedPodMetrics hostLinks id l).
Proof. unfold networkPass. apply evolves_when; [apply _|]. evolve. Qed.
Lemma evolves_network sp : evolves R (populateNetworkUsage podLinks sp).
Proof. unfold populateNetworkUsage. evolve. Qed.
Lemma evolves_containerPass parent sbID ps :
  evolves R (containerPass misfit time_Now IncludedPodMetrics OOMKillCount runtimeStats parent sbID ps).
Proof.
  induction ps as [|p ps IH]; cbn [containerPass]; [evolve|]. unfold containerMetricsFromCgStats. evolve.
Qed.
Lemma evolves_containerMetricsPass parent sbID ps :
  evolves R (containerMetricsPass time_Now IncludedPodMetrics OOMKillCount runtimeStats parent sbID ps).
Proof.
  induction ps as [|p ps IH]; cbn [containerMetricsPass]; [evolve|]. unfold containerMetricsFromCgStats. evolve.
Qed.
End tolerant.

Abbreviation update_sandbox := (updateSandbox misfit time_Now IncludedPodMetrics SandboxCgroupStats OOMKillCount runtimeStats hostLinks podLinks).
Abbreviation update_container := (updateContainerStats misfit time_Now runtimeStats).
Abbreviation update_metrics := (updatePodSandboxMetrics time_Now IncludedPodMetrics OOMKillCount runtimeStats hostLinks).
Abbreviation update_loop := (updateLoop misfit time_Now IncludedPodMetrics SandboxCgroupStats OOMKillCount runtimeStats hostLinks podLinks).

(** *** What an update leaves alone *)

Record steady (w w' : W) : Prop := mkSteady {
  steady_qw : qw w' = qw w;
  steady_period : collectionPeriod (ss w') = collectionPeriod (ss w);
  steady_ctr : ctrStats (ss w') = ctrStats (ss w) }.
#[export] Instance steady_preorder : PreOrder steady.
Proof. split; [by intros w|]. intros w1 w2 w3 [] []. split; congruence. Qed.
#[export] Instance steady_tolerant : Tolerant steady.
Proof. split; [apply _|by intros..]. Qed.

Lemma updateSandbox_steady sb_ : evolves steady (update_sandbox sb_).
Proof.
  unfold updateSandbox. destruct sb_ as [sp|]; [|evolve]. do 2 (apply evolves_bind; [apply _|evolve|intros]).
  apply evolves_bind; [apply _|by apply evolves_metricsObject, _|intros].
  apply evolves_bind; [apply _|by apply evolves_networkPass, _|intros].
  apply evolves_bind; [apply _|evolve|intros].
  apply evolves_bind; [apply _|by apply evolves_network, _|intros].
  apply evolves_bind; [apply _|evolve|intros].
  apply evolves_bind; [apply _|by apply evolves_containerPass, _|intros].
  apply evolves_bind; [apply _|by apply evolves_setMetrics; [apply _|]|intros].
  apply evolves_bind; [apply _|evolve|intros].
  apply evolves_bind; [apply _|by intros v r v' [= _ <-]|evolve].
Qed.

Lemma updateLoop_steady fires : evolves steady (update_loop fires).
Proof.
  unfold updateLoop. apply evolves_bind; [apply _|evolve|intros [|]; [evolve|]].
  induction fires as [|n IH]; cbn [rounds]; [evolve|]. apply evolves_bind; [apply _| |done].
  unfold update. apply evolves_bind; [apply _|evolve|intros sps]. apply evolves_each; [apply _|intros sp].
  apply evolves_bind; [apply _|apply updateSandbox_steady|evolve].
Qed.

(** *** What the metrics of a pod are about *)

Record keepIds (w w' : W) : Prop := mkKeepIds {
  keep_about : about_keys (ss w) → about_keys (ss w');
  keep_id l id : pm_PodSandboxId <$> mheap (ss w) !! l = Some id → pm_PodSandboxId <$> mheap (ss w') !! l = Some id }.
#[export] Instance keepIds_preorder : PreOrder keepIds.
Proof. split; [by intros w|]. intros w1 w2 w3 [A1 B1] [A2 B2]. split; eauto. Qed.
Lemma keepIds_heap (w : W) h :
  (∀ l id, pm_PodSandboxId <$> mheap (ss w) !! l = Some id → pm_PodSandboxId <$> h !! l = Some id) →
  keepIds w (w <| ss ::= λ s, s <| mheap := h |> |>).
Proof.
  intros Hh. split; [|exact Hh]. intros [Hc Hs Hm]. split; [exact Hc|exact Hs|].
  intros id l Hl. apply Hh. by apply Hm.
Qed.
#[export] Instance keepIds_tolerant : Tolerant keepIds.
Proof.
  split; [apply _| | |].
  - intros w st. split; [by intros []|done].
  - intros w l f Hf. apply keepIds_heap. intros l' id Hl.
    destruct (decide (l = l')) as [->|Hne]; [|by rewrite lookup_alter_ne].
    rewrite lookup_alter_eq. destruct (mheap (ss w) !! l') as [m|]; [|done]. cbn in *. by rewrite Hf.
  - intros w id. apply keepIds_heap. intros l' id' Hl. destruct (mheap (ss w) !! l') as [m|] eqn:Hm; [|done].
    rewrite lookup_insert_ne; [by rewrite Hm|]. intros <-. eapply (is_fresh (dom (mheap (ss w)))).
    apply elem_of_dom. by exists m.
Qed.

(** Object [l] is the one of pod [id]. *)
Definition owns (l : positive) (id : string) (w : W) : Prop :=
  about_keys (ss w) ∧ pm_PodSandboxId <$> mheap (ss w) !! l = Some id.
Definition wellKept (w : W) : Prop := about_keys (ss w).

Lemma evolves_owns {A} (m : io W A) l id :
  evolves keepIds m → triple (owns l id) m (λ _, owns l id) (λ _, wellKept).
Proof.
  intros Hm w [Ha Hl]. destruct (m w) as [r w'] eqn:Hr. destruct (Hm w r w' Hr) as [Hk Hi].
  destruct r; [by split; auto|by apply Hk|done].
Qed.
Lemma evolves_kept {A} (m : io W A) : evolves keepIds m → triple wellKept m (λ _, wellKept) (λ _, wellKept).
Proof.
  intros Hm w Ha. destruct (m w) as [r w'] eqn:Hr. destruct (Hm w r w' Hr) as [Hk _]. destruct r; [by apply Hk|by apply Hk|done].
Qed.
Lemma metricsObject_owns id : triple wellKept (metricsObject id) (λ l, owns l id) (λ _, wellKept).
Proof.
  intros w Ha. pose proof (evolves_metricsObject keepIds id w) as Hev. unfold metricsObject in *.
  destruct (sboxMetrics (ss w) !! id) as [l|] eqn:Hl.
  - split; [done|]. by apply Ha.
  - split; [by apply (keep_about _ _ (Hev _ _ eq_refl))|]. cbn [mheap ss set]. by rewrite lookup_insert_eq.
Qed.

(** *** Every operation keeps the caches about their keys *)

Lemma kept_upd (f : StatsServer → StatsServer) P :
  (∀ w, P w → about_keys (f (ss w))) → triple P (upd f) (λ _, wellKept) (λ _, wellKept).
Proof. intros Hf w Hw. by apply Hf. Qed.

Lemma insert_ctr s st : about_keys s → about_keys (s <| ctrStats ::= <[ca_Id (cst_Attributes st) := st]> |>).
Proof.
  intros [Hc Hs Hm]. split; [|done|done]. intros id st' Hl. cbn [ctrStats set] in Hl.
  apply lookup_insert_Some in Hl as [[<- <-]|[_ Hl]]; [done|by apply Hc].
Qed.
Lemma insert_metrics (w : W) l id : owns l id w → about_keys ((ss w) <| sboxMetrics ::= <[id := l]> |>).
Proof.
  intros [[Hc Hs Hm] Hl]. split; [done|done|]. intros id' l' Hl'. cbn [sboxMetrics set] in Hl'.
  apply lookup_insert_Some in Hl' as [[<- <-]|[_ Hl']]; [done|by apply Hm].
Qed.
Lemma insert_sbox (w : W) l id st : pa_Id (pst_Attributes st) = id → owns l id w →
  about_keys ((ss w) <| sboxStats ::= <[id := st]> |> <| sboxMetrics ::= <[id := l]> |>).
Proof.
  intros Hid Ho. destruct (insert_metrics w l id Ho) as [Hc Hs Hm]. split; [done| |done].
  intros id' st' Hl. cbn [sboxStats set] in Hl. apply lookup_insert_Some in Hl as [[<- <-]|[_ Hl]]; [done|by apply Hs].
Qed.

(** The part of an update of a pod before its object is found. *)
Ltac start_pod :=
  do 2 (eapply triple_bind; [apply evolves_kept; evolve|intros]);
  eapply triple_bind; [apply metricsObject_owns|intros]; cbv beta.
Ltac step_pod H := eapply triple_bind; [apply evolves_owns; first [apply H; apply _|evolve]|intros]; cbv beta.

Lemma updateSandbox_kept sb_ : triple wellKept (update_sandbox sb_) (λ _, wellKept) (λ _, wellKept).
Proof.
  unfold updateSandbox. destruct sb_ as [sp|]; [|by apply triple_ret]. start_pod.
  step_pod evolves_networkPass. step_pod evolves_network. step_pod evolves_network.
  step_pod evolves_network. step_pod evolves_containerPass.
  eapply triple_bind; [apply evolves_owns, evolves_setMetrics; [apply _|done]|intros]; cbv beta.
  step_pod evolves_network.
  eapply triple_bind; [apply kept_upd; intros w Hw; apply insert_sbox; [|exact Hw]|by intros; apply triple_ret].
  by destruct (_ : option PodSandboxStats).
Qed.

Lemma updateMetrics_kept sb_ :
  triple wellKept (update_metrics sb_) (λ _, wellKept) (λ _, wellKept).
Proof.
  unfold updatePodSandboxMetrics. destruct sb_ as [sp|]; [|by apply triple_ret]. start_pod.
  step_pod evolves_networkPass. step_pod evolves_network. step_pod evolves_containerMetricsPass.
  eapply triple_bind; [apply evolves_owns, evolves_setMetrics; [apply _|done]|intros]; cbv beta.
  eapply triple_bind; [apply kept_upd; intros w Hw; by apply insert_metrics|by intros; apply triple_ret].
Qed.

Lemma updateContainer_kept c sb_ :
  triple wellKept (update_container c sb_) (λ _, wellKept) (λ _, wellKept).
Proof.
  unfold updateContainerStats. destruct c as [p|], sb_ as [sp|]; try by apply triple_ret.
  eapply triple_bind; [apply evolves_kept, evolves_isStopped, _|intros [|]; [by apply triple_ret|]].
  do 2 (eapply triple_bind; [apply evolves_kept; evolve|intros]). case_match; [|by apply triple_ret].
  eapply triple_bind; [apply evolves_kept, evolves_freshStats, _|intros].
  eapply triple_bind; [apply kept_upd; intros w Hw; by apply insert_ctr|by intros; apply triple_ret].
Qed.

(** *** The numbers of a reply *)

(** What a container object and its messages say. *)
Record described (w : W) (p : ptr) (attrs : ContainerAttributes) : Prop := mkDescribed {
  dsc_ctr : ∃ c, ctrs (wsrv w) !! p = Some c ∧ ca_Id attrs = c_id c;
  dsc_msg : ∃ o m, objs (qw w) !! p = Some o ∧ cri (qw w) !! criContainer o = Some m ∧
    ca_Metadata attrs = cri_Metadata m ∧ ca_Labels attrs = cri_Labels m ∧ ca_Annotations attrs = cri_Annotations m }.
(** Statistics that show the numbers of a cgroup. *)
Record shows (cg : CgroupStats) (st : ContainerStats) : Prop := mkShows {
  shows_mem : cst_Memory st = Some (criMemStats (cg_Memory cg) (cg_SystemNano cg));
  shows_swap : cst_Swap st = Some (criSwapStats (cg_Memory cg) (cg_SystemNano cg));
  shows_cpu : ∃ u, cst_Cpu st = Some u ∧ cu_Timestamp u = cg_SystemNano cg ∧
    cu_UsageCoreNanoSeconds u = Some (TotalUsageNano (cg_CPU cg)) }.

Lemma on_q_ret {A} (m : io (qworld St E) A) (w : W) a : m (qw w) = (Ret a, qw w) → on_q m w = (Ret a, w).
Proof. intros Hm. unfold on_q. rewrite Hm. by destruct w. Qed.

Lemma CRIAttributes_run (w : W) p attrs : described w p attrs → CRIAttributes p w = (Ret attrs, w).
Proof.
  intros [(c & Hc & Hid) (o & m & Ho & Hm & Hmd & Hl & Han)]. unfold CRIAttributes.
  rewrite (io_bind_ret _ _ w c w) by (apply on_q_ret; unfold qCtr, wsrv in *; by rewrite Hc).
  rewrite (io_bind_ret _ _ w o w) by (apply on_q_ret; unfold getObj; by rewrite Ho).
  rewrite (io_bind_ret _ _ w m w) by (apply on_q_ret; unfold message; by rewrite Hm).
  destruct attrs. cbn in *. by subst.
Qed.

Lemma usage_shows old u : ∃ v, updateUsageNanoCores misfit old (Some u) = Some v ∧ cu_Timestamp v = cu_Timestamp u ∧
  cu_UsageCoreNanoSeconds v = cu_UsageCoreNanoSeconds u.
Proof.
  unfold updateUsageNanoCores. destruct old as [o|]; [|by exists u].
  destruct (cu_UsageCoreNanoSeconds o), (cu_UsageCoreNanoSeconds u) eqn:Hu; by eexists.
Qed.

Lemma freshStats_run (w : W) p cg attrs : described w p attrs →
  ∃ st w', freshStats misfit time_Now p cg w = (Ret st, w') ∧ steady w w' ∧ cst_Attributes st = attrs ∧ shows cg st ∧
    sboxStats (ss w') = sboxStats (ss w).
Proof.
  intros Hd. pose proof Hd as [_ (o & m & Ho & _)]. unfold freshStats.
  rewrite (io_bind_ret _ _ w attrs w) by (by apply CRIAttributes_run). unfold populateWritableLayer.
  set (w1 := w <| ss ::= λ s, s <| labels ::= λ l, l <| clock ::= S |> |> |>).
  set (st0 := (containerCRIStats cg attrs (cg_SystemNano cg)) <| cst_WritableLayer :=
    Some (mkFilesystemUsage (time_Now (clock (labels (ss w)))) (mountPoint o) 0 0) |>).
  rewrite (io_bind_ret _ _ w st0 w1); cycle 1.
  { rewrite (io_bind_ret _ _ w (time_Now (clock (labels (ss w)))) w1) by reflexivity.
    rewrite (io_bind_ret _ _ w1 o w1) by (apply on_q_ret; unfold getObj; cbn; by rewrite Ho). reflexivity. }
  rewrite (io_bind_ret _ _ w1 (ctrStats (ss w1) !! ca_Id attrs) w1) by reflexivity.
  eexists _, w1. split_and!; [reflexivity|done| | |done].
  - by case_match.
  - case_match; [|split; [done|done|by eexists]].
    destruct (usage_shows (cst_Cpu c) (criCPUStats (cg_CPU cg) (cg_SystemNano cg))) as (v & Hv & Ht & Hu).
    split; [done|done|]. exists v. by split_and!.
Qed.

(** The container is running, its sandbox is known and its numbers can be read. *)
Record served (w : W) (p sp : ptr) (attrs : ContainerAttributes) (cg : CgroupStats) : Prop := mkServed {
  srv_described : described w p attrs;
  srv_running : ∀ o, objs (qw w) !! p = Some o → Status (state o) ≠ ContainerStateStopped;
  srv_numbers : ∃ sb, sbs (wsrv w) !! sp = Some sb ∧ runtimeStats p (cgroupParent sb) (wenv w) = Ret cg }.

Lemma isStopped_run (w : W) p o : objs (qw w) !! p = Some o →
  isStopped p w = (Ret (bool_decide (Status (state o) = ContainerStateStopped)), w).
Proof.
  intros Ho. unfold isStopped. rewrite (io_bind_ret _ _ w o w) by (apply on_q_ret; unfold getObj; by rewrite Ho).
  reflexivity.
Qed.

Lemma asks_ret {A} (f : E → outcome A) (w : W) a : f (wenv w) = Ret a → asks f w = (Ret (inl a), w).
Proof. intros Hf. unfold asks, try. by rewrite Hf. Qed.

Lemma updateContainer_run (w : W) p sp attrs cg : served w p sp attrs cg →
  ∃ st w', update_container (Some p) (Some sp) w = (Ret (Some st), w') ∧ qw w' = qw w ∧
    cst_Attributes st = attrs ∧ shows cg st ∧ ctrStats (ss w') = <[ca_Id attrs := st]> (ctrStats (ss w)) ∧
    collectionPeriod (ss w') = collectionPeriod (ss w).
Proof.
  intros [Hd Hrun (sb & Hsb & Hcg)]. pose proof Hd as [_ (o & m & Ho & _)]. unfold updateContainerStats.
  destruct (freshStats_run w p cg attrs Hd) as (st & w1 & Hst & [Hq Hp Hc] & Hat & Hsh & _).
  rewrite (io_bind_ret _ _ w false w) by (rewrite (isStopped_run w p o Ho); by rewrite bool_decide_eq_false_2 by (by apply Hrun)).
  cbv iota. rewrite (io_bind_ret _ _ w sb w) by (apply on_q_ret; unfold qSb, wsrv in *; by rewrite Hsb).
  rewrite (io_bind_ret _ _ w (inl cg) w) by (by apply asks_ret). cbv iota.
  rewrite (io_bind_ret _ _ w st w1) by done.
  eexists st, _. split_and!; [reflexivity|done|done|done|cbn [ctrStats ss set]; by rewrite Hat, Hc|done].
Qed.


(** With a collection period, the statistics of a container that were computed once
    are served for as long as the container is known: no round of the loop renews
    them. *)
Theorem container_stats_stale (w : W) p sp c st fires r w' :
  collectionPeriod (ss w) ≠ 0 → ctrs (wsrv w) !! p = Some c → ctrStats (ss w) !! c_id c = Some st →
  update_loop fires w = (r, w') →
  StatsForContainer misfit time_Now runtimeStats p sp w' = (Ret (Some st), w').
Proof.
  intros Hp Hc Hst Hr. destruct (updateLoop_steady fires w r w' Hr) as [Hq Hper Hctr].
  unfold StatsForContainer, statsForContainer.
  rewrite (io_bind_ret _ _ w' false w') by (unfold gets, onDemand; by rewrite bool_decide_eq_false_2 by congruence).
  cbv iota. rewrite (io_bind_ret _ _ w' c w') by (apply on_q_ret; unfold qCtr, wsrv in *; by rewrite Hq, Hc).
  rewrite (io_bind_ret _ _ w' (Some st) w') by (unfold gets; by rewrite Hctr, Hst). reflexivity.
Qed.

(** *** Replies are about what was asked for *)

(** Every returning run ends in [P]. *)
Definition ends {A} (m : io W A) (P : A → W → Prop) : Prop := ∀ w a w', m w = (Ret a, w') → P a w'.
Lemma ends_bind {A B} (m : io W A) (k : A → io W B) P : (∀ a, ends (k a) P) → ends (m ≫= k) P.
Proof. intros Hk w b w' (a & w1 & _ & Hr)%io_bind_inv. by eapply Hk. Qed.
Lemma ends_ret {A} (a : A) (P : A → W → Prop) : (∀ w, P a w) → ends (mret a) P.
Proof. intros HP w b w' [= <- <-]. apply HP. Qed.
Lemma ends_after {A B} (m : io W A) (k : A → io W B) (Q : A → Prop) P :
  ends m (λ a _, Q a) → (∀ a, Q a → ends (k a) P) → ends (m ≫= k) P.
Proof. intros Hm Hk w b w' (a & w1 & Hr1 & Hr)%io_bind_inv. eapply Hk; [by eapply Hm|done]. Qed.
Ltac skip := apply ends_bind; intros.

Lemma on_q_lookup {A} (f : qworld St E → option A) (w : W) x a w' :
  on_q (λ q, (deref (f q), q)) w = (Ret a, w') → f (qw w) = Some x → a = x ∧ w' = w.
Proof.
  unfold on_q. intros Hr Hx. rewrite Hx in Hr. cbn in Hr. injection Hr as <- <-. split; [done|]. by destruct w.
Qed.
Lemma qCtr_ret (w : W) p c a w' : on_q (qCtr p) w = (Ret a, w') → ctrs (wsrv w) !! p = Some c → a = c ∧ w' = w.
Proof. apply (on_q_lookup (λ q, ctrs (qsrv q) !! p)). Qed.
Lemma qSb_ret (w : W) p sb a w' : on_q (qSb p) w = (Ret a, w') → sbs (wsrv w) !! p = Some sb → a = sb ∧ w' = w.
Proof. apply (on_q_lookup (λ q, sbs (qsrv q) !! p)). Qed.

Lemma freshStats_id (w : W) p cg c st w' :
  ctrs (wsrv w) !! p = Some c → freshStats misfit time_Now p cg w = (Ret st, w') → ca_Id (cst_Attributes st) = c_id c.
Proof.
  intros Hc Hr. unfold freshStats in Hr. apply io_bind_inv in Hr as (attrs & w1 & Hat & Hr).
  assert (ca_Id attrs = c_id c) as Hid.
  { unfold CRIAttributes in Hat. apply io_bind_inv in Hat as (c' & w2 & Hc' & Hat).
    apply (qCtr_ret w p c) in Hc' as [-> ->]; [|done].
    revert Hat. apply (ends_bind _ _ (λ a _, ca_Id a = c_id c)). intros o. skip. by apply ends_ret. }
  rewrite <- Hid. revert Hr. apply (ends_after _ _ (λ s0, cst_Attributes s0 = attrs) (λ a _, ca_Id (cst_Attributes a) = ca_Id attrs)).
  - unfold populateWritableLayer. do 2 skip. by apply ends_ret.
  - intros s0 Hs0. skip. apply ends_ret. intros _. case_match; by rewrite <- Hs0.
Qed.

Lemma updateContainer_id (w : W) p sp c st w' :
  ctrs (wsrv w) !! p = Some c → update_container (Some p) (Some sp) w = (Ret (Some st), w') →
  ca_Id (cst_Attributes st) = c_id c.
Proof.
  intros Hc Hr. unfold updateContainerStats in Hr. apply io_bind_inv in Hr as (b & w1 & Hb & Hr).
  apply (evolves_isStopped steady) in Hb as [Hq1 _ _]. destruct b; [by injection Hr|].
  apply io_bind_inv in Hr as (sb & w2 & Hsb & Hr). apply (read_qSb sp steady) in Hsb as [Hq2 _ _].
  apply io_bind_inv in Hr as (r & w3 & Hask & Hr). apply (evolves_asks _ steady) in Hask as [Hq3 _ _].
  destruct r as [cg|e]; [|by injection Hr]. apply io_bind_inv in Hr as (s0 & w4 & Hf & Hr).
  injection Hr as <- _. eapply freshStats_id; [|exact Hf]. unfold wsrv. by rewrite Hq3, Hq2, Hq1.
Qed.

Lemma updateSandbox_id (w : W) sp sb m st w' :
  sbs (wsrv w) !! sp = Some sb → criSandbox sb = Some m → update_sandbox (Some sp) w = (Ret (Some st), w') →
  pa_Id (pst_Attributes st) = ps_Id m.
Proof.
  intros Hsb Hm Hr. unfold updateSandbox in Hr. apply io_bind_inv in Hr as (sb' & w1 & Hb & Hr).
  apply (qSb_ret w sp sb) in Hb as [-> ->]; [|done]. rewrite Hm in Hr.
  apply io_bind_inv in Hr as (m' & w1 & Hm' & Hr). injection Hm' as <- <-. revert Hr.
  assert (∀ n, ends n (λ o _, ∀ x, o = Some x → pa_Id (pst_Attributes x) = ps_Id m) →
    n w = (Ret (Some st), w') → pa_Id (pst_Attributes st) = ps_Id m) as Hends by (intros n Hn Hr; by eapply Hn).
  apply Hends. do 9 skip. apply ends_ret. intros _ x [= <-]. by case_match.
Qed.

Lemma updateMetrics_id (w : W) sp sb m l w' :
  sbs (wsrv w) !! sp = Some sb → criSandbox sb = Some m → update_metrics (Some sp) w = (Ret (Some l), w') →
  sboxMetrics (ss w') !! ps_Id m = Some l.
Proof.
  intros Hsb Hm Hr. unfold updatePodSandboxMetrics in Hr. apply io_bind_inv in Hr as (sb' & w1 & Hb & Hr).
  apply (qSb_ret w sp sb) in Hb as [-> ->]; [|done]. rewrite Hm in Hr.
  apply io_bind_inv in Hr as (m' & w1 & Hm' & Hr). injection Hm' as <- <-. revert Hr.
  assert (∀ n, ends n (λ o v, ∀ x, o = Some x → sboxMetrics (ss v) !! ps_Id m = Some x) →
    n w = (Ret (Some l), w') → sboxMetrics (ss w') !! ps_Id m = Some l) as Hends by (intros n Hn Hr; by eapply Hn).
  apply Hends. do 5 skip. intros v o v' [= <- <-] x [= <-]. cbn [sboxMetrics ss set]. by rewrite lookup_insert_eq.
Qed.

(** *** Any history of the server *)

Abbreviation stats_container := (statsForContainer misfit time_Now runtimeStats).
Abbreviation stats_sandbox := (statsForSandbox misfit time_Now IncludedPodMetrics SandboxCgroupStats OOMKillCount runtimeStats hostLinks podLinks).
Abbreviation metrics_sandbox := (metricsForPodSandbox time_Now IncludedPodMetrics OOMKillCount runtimeStats hostLinks).

Definition runOp (o : sop) : io W () :=
  match o with
  | OpUpdate => update misfit time_Now IncludedPodMetrics SandboxCgroupStats OOMKillCount runtimeStats hostLinks podLinks
  | OpStatsCtr p sp => stats_container p sp ;; mret ()
  | OpStatsPod sp => stats_sandbox sp ;; mret ()
  | OpMetrics sp => metrics_sandbox sp ;; mret ()
  | OpForgetCtr p => RemoveStatsForContainer p
  | OpForgetPod sp => RemoveStatsForSandbox sp
  | OpForgetMetrics sp => RemoveMetricsForPodSandbox sp
  | OpShutdown => StatsShutdown
  end.

(** The operations are under one lock; between them the rest of the daemon may do
    anything to the pods and containers. *)
Inductive history : W → Prop :=
| history_new q period : history (mkSW St E q (NewStatsServer period))
| history_op w o r w' : history w → runOp o w = (r, w') → (∀ s, r ≠ Panic s) → history w'
| history_rest w q : history w → history (w <| qw := q |>).

Lemma kept_cached {A} (m : io W A) : triple wellKept m (λ _, wellKept) (λ _, wellKept) →
  triple wellKept (m ;; mret ()) (λ _, wellKept) (λ _, wellKept).
Proof. intros Hm. eapply triple_bind; [exact Hm|]. intros. by apply triple_ret. Qed.
Lemma sbKey_kept sp : triple wellKept (sbKey sp) (λ _, wellKept) (λ _, wellKept).
Proof. apply evolves_kept. unfold sbKey. evolve. Qed.

Lemma statsForContainer_kept p sp : triple wellKept (stats_container p sp) (λ _, wellKept) (λ _, wellKept).
Proof.
  unfold statsForContainer. eapply triple_bind; [apply evolves_kept; evolve|intros [|]; [apply updateContainer_kept|]].
  do 2 (eapply triple_bind; [apply evolves_kept; evolve|intros]). case_match; [by apply triple_ret|apply updateContainer_kept].
Qed.
Lemma statsForSandbox_kept sp : triple wellKept (stats_sandbox sp) (λ _, wellKept) (λ _, wellKept).
Proof.
  unfold statsForSandbox. eapply triple_bind; [apply evolves_kept; evolve|intros [|]; [apply updateSandbox_kept|]].
  eapply triple_bind; [apply sbKey_kept|intros]. eapply triple_bind; [apply evolves_kept; evolve|intros].
  case_match; [by apply triple_ret|apply updateSandbox_kept].
Qed.
Lemma metricsForPodSandbox_kept sp : triple wellKept (metrics_sandbox sp) (λ _, wellKept) (λ _, wellKept).
Proof.
  unfold metricsForPodSandbox. eapply triple_bind; [apply evolves_kept; evolve|intros [|]; [apply updateMetrics_kept|]].
  eapply triple_bind; [apply sbKey_kept|intros]. eapply triple_bind; [apply evolves_kept; evolve|intros].
  case_match; [by apply triple_ret|apply updateMetrics_kept].
Qed.

Lemma delete_about (s : StatsServer) id :
  about_keys s → about_keys (s <| ctrStats ::= delete id |>) ∧ about_keys (s <| sboxStats ::= delete id |>) ∧
    about_keys (s <| sboxMetrics ::= delete id |>).
Proof.
  intros [Hc Hs Hm]. split_and!; split; try done.
  all: intros id' x Hl; cbn in Hl; apply lookup_delete_Some in Hl as [_ Hl]; eauto.
Qed.

Lemma runOp_kept o : triple wellKept (runOp o) (λ _, wellKept) (λ _, wellKept).
Proof.
  destruct o; cbn [runOp].
  - unfold update. eapply triple_bind; [apply evolves_kept; evolve|intros sps].
    induction sps as [|sp sps IH]; [by apply triple_ret|]. cbn [for_each].
    eapply triple_bind; [apply kept_cached, updateSandbox_kept|by intros].
  - apply kept_cached, statsForContainer_kept.
  - apply kept_cached, statsForSandbox_kept.
  - apply kept_cached, metricsForPodSandbox_kept.
  - eapply triple_bind; [apply evolves_kept; evolve|intros]. apply kept_upd. intros w Hw. by apply delete_about.
  - eapply triple_bind; [apply sbKey_kept|intros]. apply kept_upd. intros w Hw. by apply delete_about.
  - eapply triple_bind; [apply sbKey_kept|intros]. apply kept_upd. intros w Hw. by apply delete_about.
  - apply kept_upd. by intros w [].
Qed.

Lemma history_kept w : history w → wellKept w.
Proof.
  induction 1 as [q period|w o r w' _ IH Hr Hp|w q _ IH]; [by split|  |done].
  pose proof (runOp_kept o w IH) as Ht. rewrite Hr in Ht. destruct r as [?|?|s]; [done|done|by destruct (Hp s)].
Qed.

Lemma sbKey_ret (w : W) sp sb m id w' :
  sbs (wsrv w) !! sp = Some sb → criSandbox sb = Some m → sbKey sp w = (Ret id, w') → id = ps_Id m ∧ w' = w.
Proof.
  intros Hsb Hm Hr. unfold sbKey in Hr. apply io_bind_inv in Hr as (sb' & w1 & Hb & Hr).
  apply (qSb_ret w sp sb) in Hb as [-> ->]; [|done]. rewrite Hm in Hr. by injection Hr as <- <-.
Qed.

(** C18: Whatever was asked of the statistics server before and whatever happened to
    the pods and containers since, a reply is about what is asked for: the
    statistics of a container and of a pod carry its ID, and the metrics object of a
    pod is that of the pod, so no two pods share one. *)
Theorem replies_about_asked w : history w →
  (∀ p sp c st w', ctrs (wsrv w) !! p = Some c → stats_container p sp w = (Ret (Some st), w') →
     ca_Id (cst_Attributes st) = c_id c) ∧
  (∀ sp sb m st w', sbs (wsrv w) !! sp = Some sb → criSandbox sb = Some m →
     stats_sandbox sp w = (Ret (Some st), w') → pa_Id (pst_Attributes st) = ps_Id m) ∧
  (∀ sp sb m l w', sbs (wsrv w) !! sp = Some sb → criSandbox sb = Some m →
     metrics_sandbox sp w = (Ret (Some l), w') → pm_PodSandboxId <$> mheap (ss w') !! l = Some (ps_Id m)).
Proof.
  intros Hw%history_kept. split_and!.
  - intros p sp c st w' Hc Hr. unfold statsForContainer in Hr. apply io_bind_inv in Hr as (b & w1 & [-> ->]%gets_ret & Hr).
    destruct (onDemand w); [by eapply updateContainer_id|].
    apply io_bind_inv in Hr as (c' & w1 & [-> ->]%(qCtr_ret w p c) & Hr); [|done].
    apply io_bind_inv in Hr as (o & w1 & [-> ->]%gets_ret & Hr).
    destruct (ctrStats (ss w) !! c_id c) as [x|] eqn:Hx; [|by eapply updateContainer_id].
    injection Hr as <- _. by eapply about_ctr.
  - intros sp sb m st w' Hsb Hm Hr. unfold statsForSandbox in Hr. apply io_bind_inv in Hr as (b & w1 & [-> ->]%gets_ret & Hr).
    destruct (onDemand w); [by eapply updateSandbox_id|].
    apply io_bind_inv in Hr as (id & w1 & [-> ->]%(sbKey_ret w sp sb m) & Hr); [|done..].
    apply io_bind_inv in Hr as (o & w1 & [-> ->]%gets_ret & Hr).
    destruct (sboxStats (ss w) !! ps_Id m) as [x|] eqn:Hx; [|by eapply updateSandbox_id].
    injection Hr as <- _. by eapply about_sbox.
  - intros sp sb m l w' Hsb Hm Hr. pose proof (metricsForPodSandbox_kept sp w Hw) as Hk. rewrite Hr in Hk.
    apply (about_metrics _ Hk). unfold metricsForPodSandbox in Hr. apply io_bind_inv in Hr as (b & w1 & [-> ->]%gets_ret & Hr).
    destruct (onDemand w); [by eapply updateMetrics_id|].
    apply io_bind_inv in Hr as (id & w1 & [-> ->]%(sbKey_ret w sp sb m) & Hr); [|done..].
    apply io_bind_inv in Hr as (o & w1 & [-> ->]%gets_ret & Hr).
    destruct (sboxMetrics (ss w) !! ps_Id m) as [x|] eqn:Hx; [|by eapply updateMetrics_id].
    by injection Hr as <- <-.
Qed.
End frames.

(** ** The rate of CPU usage *)

(** Two readings with the same time have no rate: the quotient is not a number or
    infinite, and the converted value is the processor's choice. *)
Theorem same_time_no_rate misfit (o c : CpuUsage) before after :
  cu_UsageCoreNanoSeconds o = Some before → cu_UsageCoreNanoSeconds c = Some after →
  cu_Timestamp o = cu_Timestamp c →
  ∃ u f, updateUsageNanoCores misfit (Some o) (Some c) = Some u ∧ cu_UsageNanoCores u = Some (misfit f) ∧
    (f = S754_nan ∨ ∃ sgn, f = S754_infinity sgn).
Proof.
  intros Ho Hc Ht. unfold updateUsageNanoCores. rewrite Ho, Hc, Ht, Z.sub_diag.
  change (f64 (i64 0)) with (S754_zero false). set (x := f64 (u64 (after - before))). clearbody x.
  set (y := f64 second). assert (∃ m e, y = S754_finite false m e) as (m & e & ->) by (by eexists _, _; vm_compute).
  destruct x as [s|s| |s m' e']; cbn; (eexists _, _; split_and!; [reflexivity|reflexivity|]); eauto.
Qed.

(** Half a core, from two seconds of CPU time in four. *)
Example half_a_core misfit :
  updateUsageNanoCores misfit (Some (mkCpuUsage 0 (Some (7 * second)) None)) (Some (mkCpuUsage (4 * second) (Some (9 * second)) None)) =
  Some (mkCpuUsage (4 * second) (Some (9 * second)) (Some 500000000)).
Proof. vm_compute. reflexivity. Qed.

(** ** Witnesses and findings *)

Module ExampleStats.
Definition o1 := (ExampleQuery.h1.2) <| state ::= λ s, s <| Status := ContainerStateRunning |> |>.
Definition q : qworld (memoryStore (T := ptr)) (list call) :=
  ExampleQuery.w <| objs := {[1%positive := o1; 2%positive := ExampleQuery.h2.2]} |>.
Definition w : sworld (memoryStore (T := ptr)) (list call) := mkSW _ _ q (NewStatsServer 0).
Definition mem : MemoryStats := mkMemoryStats 900 0 0 0 700 500 0 0 0 0 0 10 100 0 0.
Definition cg : CgroupStats := mkCgroupStats mem (mkCPUStats (3 * second) [] 0 0 0 0 0) (mkPidsStats 4 0) 77.
Definition numbers (p : ptr) (parent : string) (l : list call) : outcome CgroupStats := Ret cg.
Definition now (n : nat) : Z := Z.of_nat n.
Definition none (f : spec_float) : Z := 0.
Definition attrs : ContainerAttributes := mkCtrAttributes "c1" (Some (mkMetadata "web" 0)) {["app" := "shop"]} ∅.
Definition links {A} (l : A) : outcome (list (option LinkAttrs)) := Ret [Some (mkLinkAttrs "lo" None)].
End ExampleStats.

#[local] Instance stats_storer : Storer ptr (memoryStore (T := ptr)) := memoryStore_storer map_to_list.
#[local] Instance stats_laws : StorerLaws ptr (memoryStore (T := ptr)) :=
  memoryStore_laws map_to_list (λ c, reflexivity (map_to_list c)).
#[local] Existing Instance gcGrow.

Lemma example_served : served ExampleStats.numbers ExampleStats.w 1%positive 1%positive ExampleStats.attrs ExampleStats.cg.
Proof.
  split.
  - split; [eexists; split; vm_compute; reflexivity|]. eexists _, _. split_and!; vm_compute; reflexivity.
  - intros o Ho. vm_compute in Ho. injection Ho as <-. done.
  - eexists. split; vm_compute; reflexivity.
Defined.


Lemma replies_about_asked_witness :
  ∃ st w', statsForContainer ExampleStats.none ExampleStats.now ExampleStats.numbers 1%positive 1%positive ExampleStats.w = (Ret (Some st), w') ∧
    ca_Id (cst_Attributes st) = "c1".
Proof.
  eexists _, _. split; [vm_compute; reflexivity|].
  eapply (proj1 (replies_about_asked ExampleStats.none ExampleStats.now [] (λ _ _ _, Ret ExampleStats.cg) (λ _ _ _, Ret 0)
    ExampleStats.numbers ExampleStats.links (λ _, ExampleStats.links) ExampleStats.w (history_new _ _ _ _ _ _ _ _ _ _)) 1%positive 1%positive Example3.c1);
    vm_compute; reflexivity.
Defined.

(** A pod whose namespace has no link at all brings the update down. *)
Theorem no_links_panics : networkUsage [] = Panic "makeslice: cap out of range".
Proof. reflexivity. Qed.
